(* ===== verification/_CoqProject ===== *)
-Q . S2P
Prelude.v
GoStrings.v
Base32.v
Sha.v
Onion.v
Keys.v
GoNet.v
Monad.v
GoOS.v
Torrc.v
Regex.v
ClientAuth.v
Permissions.v
KubeTypes.v
Router.v
Onionbalance.v
Refresher.v
Kube.v
Names.v
RefGrant.v
Status.v
Policies.v
HTTPRouteCtl.v
NetPol.v
Resources.v
ResourcesHA.v
Workloads.v
Client.v
Harvest.v
GatewayCtl.v
GatewayProps.v
GatewayStatus.v
GatewayGC.v
Converge.v
Deletes.v
HarvestProps.v
Steady.v
Deletion.v
ConvergeHA.v
SteadyHA.v
Footprint.v
Watches.v
RouteSteady.v
PolicyWatches.v
System.v
TorInit.v
Duration.v
Flags.v
Commands.v
Finalize.v
Manager.v
