(* ===== verification/Prelude.v ===== *)
(** * tor-gateway: a verification development

    tor-gateway is a Kubernetes operator that publishes HTTP services as Tor onion services.  A
    user makes a Gateway of its GatewayClass, HTTPRoutes that attach to it, and optionally
    policies; the operator gives the Gateway a key, pods that run Tor with an HTTP router beside
    it, and the objects they need.  A Gateway has one of two shapes.  In mode A there is one pod
    with one key.  In mode B, which an accepted OnionBalancePolicy asks for, there are several
    backend pods with keys of their own, and a frontend pod that runs onionbalance with a master
    key and publishes one descriptor for all of them.  This library models the Go program under
    [src/] and proves what makes it correct: that keys are kept and who may read them, that nothing a
    user writes reaches a configuration file as a directive, that references across namespaces
    are followed only when granted, that the controllers settle, and that the parts agree.

    ** The parts, and where they are modelled

    Library code of Go.  [GoStrings] (strings, strconv, sort), [Base32], [Sha] (SHA3-256 and
    SHA-512), [GoNet] (net.ParseIP, path), [GoOS] (os and path/filepath over a file system that
    is a finite map), [Regex] (the fragment of regexp in use), [Duration] (time.ParseDuration
    and its binary64 arithmetic), [Flags] (package flag).  The language's own: [Monad] is state
    and errors, where an error keeps the effects made before it; this file has results, bytes
    and the tactics.

    internal/tor.  [Onion] (onion.go: addresses, checksum, parser), [Keys] (keys.go,
    master_key.go: key files, generation, the master key's validation), [Torrc] (torrc.go:
    validation, rendering, and a reader of torrc), [ClientAuth] (clientauth.go),
    [Permissions] (permissions.go), and the vanity Job of vanity.go in [Resources].

    internal/router.  [Router]: match.go (precedence), httproute.go and aggregate.go (from
    HTTPRoutes to rules), resolver.go, proxy.go, sync.go and router.go (serving and the table's
    updates).

    internal/onionbalance.  [Onionbalance]: config.go and the functions of refresher.go that
    choose backends, write the file, signal the daemon and record the healthcheck, with one
    rebuild and all its effects; [Refresher]: the scheduling of rebuilds as a step relation over
    the mutex's critical sections, timers and informer events.

    api/v1alpha1 and the API's objects.  [KubeTypes]; [Kube] is the API server as a class
    [Store] per kind and as an in-memory [Cluster].

    internal/controller.  [Names] (names.go), [RefGrant] (referencegrant.go), [Status]
    (gatewayclass_controller.go and the conditions all controllers share), [Policies] (the
    three policy controllers), [HTTPRouteCtl] (httproute_controller.go), [NetPol]
    (network_policy.go, network_policy_resolve.go), [Resources] (gateway_resources.go,
    vanity_resources.go), [ResourcesHA] (gateway_resources_ha.go), [Client] (CreateOrUpdate of
    each kind, and the frame rules of writes), [Harvest] (vanity.go, and how a Gateway gets its
    key and its policies), [GatewayCtl] (gateway_controller.go: Reconcile, both modes, the
    switch between them, cleaning up, statuses), [Watches] (SetupWithManager).  Theorems about the
    whole controller are in [GatewayProps], [GatewayStatus], [GatewayGC] and [HarvestProps]; those
    about its fixed points in [Converge] (steps that converge, and the pass over mode A's
    objects), [Deletes] (steps that delete), [Steady] (the whole Reconcile in mode A), [Deletion]
    (of a Gateway being deleted), [ConvergeHA] and [SteadyHA] (the same for mode B); what
    a reconcile can touch at all is in [Footprint].  [RouteSteady] has the fixed point of a
    route's reconcile, up to the reports its controller writes ([same_specs]); [PolicyWatches] sets the
    watches of the OnionBalancePolicy controller against what its status is computed from.  [System] runs all
    the controllers beside each other, one reconcile a step, and has what holds along every run.

    cmd.  [TorInit] (what tor-init does), [Commands] (the mains of router, obrefresh and
    tor-init), [Finalize] (vanity-finalize), [Manager] (the operator's own main).

    A definition has the name of the Go function it models; a method is [Type_Method].  A
    pointer is an [option], an integer a [Z] with its wrap-around written where the code can
    reach it ([wrap32], [wrap64]), a Go string or byte slice a byte sequence.  A [range] over a
    map is a parameter: any order the language may choose.

    ** What the theorems show

    Keys.  [secret_survives]: along every run of the whole operator a Secret stays as it is while
    no Gateway has a claim to it but the one it is the key of, with no onionbalance policy accepted.
    [key_kept]: a reconcile of a Gateway does not write to its key Secret, whatever fails and
    whatever others do meanwhile, as long as no onionbalance policy is accepted for the Gateway
    and the Secret is not labelled as a backend's.  [key_provenance]: a key is the one that was
    there; or, when the Gateway has no key Secret, what the vanity search's output Secret holds
    while a Job for the prefix asked for is there ([stale_key_promoted]: it may be an earlier
    search's), or random when no prefix is asked for or awaited ([lost_key_regenerated]: also
    when a key was lost).  [search_to_key]: what mkp224o finds
    becomes the Gateway's key byte for byte, through vanity-finalize and the next reconcile.
    [gc_exact]: scaling down deletes exactly the keys no longer used, and only after the
    StatefulSet has settled.  [pods_locked_down], [roles_least_privilege]: which containers mount
    a key and which accounts may do what with which Secrets; the account of the onionbalance
    frontend may list and watch all of its namespace.

    Shape of a Gateway.  [never_falls_back]: while its OnionBalancePolicy is not accepted, a
    Gateway that is not being deleted has nothing written but itself, so it does not become a
    single pod; and an unmanaged Gateway is not touched.  [reconcile_converges]: a
    successful Reconcile of a Gateway with its key leaves every object of mode A as the builders
    want it and nothing of mode B, changes nothing else, and is a fixed point.
    [reconcile_ha_converges]: the same for mode B, with the keys of the backends kept, none left
    over, and the account in the master key's namespace there and nowhere else; only the
    NetworkPolicy is deleted and made again each time.  The triples [converges] and [clears]
    compose both from their steps.  [deletion_completes]: a Gateway being deleted gives up its
    finalizer once everything of mode B is gone.  [mode_a_status_settles], [mode_b_status_spec],
    [policy_reconcile_settles], [route_reconcile_converges]: statuses and the counts of attached
    routes say what they should and a second reconcile changes nothing.
    [gateway_watches_complete], [obp_watches_complete], [httproute_watches_complete]: a change
    that enqueues nothing leaves what the reconcile works from as it was; [late_class_unnoticed],
    [late_gateway_unnoticed] and [late_target_unnoticed] are what the registrations leave out.

    Trust.  [reconcile_footprint]: however a Reconcile ends, it changes only objects named after
    its Gateway or labelled with it, and in another namespace only the account that reads a
    granted master key.  [specs_respected]: along every run the operator edits nothing of what
    users write.  [obp_accepted_iff] (whatever the class of the target's Gateway is,
    [foreign_gateway_accepted]), [served_cross_namespace_granted], [resolved_backends_granted],
    [backends_from_secrets_spec]: a reference across namespaces is used only with a grant, and
    a Secret becomes a backend only if the Gateway owns it.  [egress_exact]: what the NetworkPolicy
    lets out.  [render_reads_back], [torrc_from_policy], [config_reads_back]: the rendered files
    hold the intended directives and nothing else.

    Formats.  [parse_address_iff], [parse_files_iff], [validate_master_key_spec]: exactly the
    canonical texts and files are accepted.

    Serving.  [match_precedence] refines the choice of a rule to the most specific condition;
    [path_match_segments]; [served_from_last_list] over any sequence of router events;
    [refresher_settles] and [rebuild_all_or_nothing] for onionbalance's configuration.

    Pods.  [fix_then_check], [write_authorized_clients_spec], [backend_init_spec],
    [pod_reads_own_key]; and the agreement between the operator and the commands it starts:
    [router_serves_gateway], [refresher_configured], [init_containers_run],
    [manager_settings_checked].  Of Go's packages only: [duration_roundtrip], [configuration_typed].

    ** Parameters and their laws

    [UnicodeCase] (the case tables beyond ASCII), [Ed25519] (edwards25519), [OS] (which calls
    fail, the umask, links), [Store], [Controlled] (SetControllerReference), [Retry]
    (RetryOnConflict), [Events]; the random source, the clock, Quantity.IsZero, the informer
    and the HTTP client as arguments.  Laws are documented behaviour, stated with the class; each
    has an instance on which the witnesses run.

    Fuel.  Three functions have it: [Sha.chunks] and [Duration.components] the length of their
    input, which every round shortens, and [GoNet.ipv6_loop] the eight groups of its loop.
    Everything else is structural.  [refresher_settles] is a termination proof with a measure; it
    assumes that rebuilds do not overlap, and [Refresher.overlapped] shows why.

    ** Not modelled

    The generated deep copies (a value of the model is immutable, a copy is itself), the
    registration of API types, net/http's proxying of a request once its target is chosen, the
    HTTP servers, the TLS options below "HTTP/1.1 only", the leader election, the caches of
    controller-runtime (a read sees some state; [GatewayProps] holds for every client, one that
    lets others write before each of its writes too ([Client.Crowd]), while in [System] a reconcile is one step), logging,
    Tor, onionbalance and mkp224o themselves, the Helm chart, the images and the end-to-end
    tests' helpers. *)

From Stdlib Require Import Strings.Byte NArith ZArith SpecFloat.
From stdpp Require Export base list gmap strings.

(** ** Results

    A Go function returning [(T, error)] is a function into [result E T]:
    [Ok] carries the value returned with a nil error, [Err] the error. *)
Inductive result (E A : Type) : Type :=
| Ok (a : A)
| Err (e : E).
Arguments Ok {E A} a.
Arguments Err {E A} e.

Definition rbind {E A B : Type} (m : result E A) (f : A → result E B) : result E B :=
  match m with
  | Ok a => f a
  | Err e => Err e
  end.

(** [fmt.Errorf("...: %w", err)]: the error is replaced, the value kept. *)
Definition wrap_err {E F A : Type} (w : E → F) (m : result E A) : result F A :=
  match m with
  | Ok a => Ok a
  | Err e => Err (w e)
  end.

Definition is_ok {E A : Type} (m : result E A) : bool :=
  match m with Ok _ => true | Err _ => false end.

Declare Scope go_scope.
Delimit Scope go_scope with go.
Notation "'let*' x ':=' m 'in' k" := (rbind m (λ x, k))
  (at level 10, x pattern, m at level 100, k at level 200,
   format "'[v' 'let*'  x  ':='  m  'in' '/' k ']'") : go_scope.
(** A guard with an early return: [if b { return e }; k]. *)
Notation "'guard!' b 'else' e ';;' k" := (if b then k else Err e)
  (at level 10, b at level 99, e at level 99, k at level 200,
   format "'[v' 'guard!'  b  'else'  e  ';;' '/' k ']'") : go_scope.
Open Scope go_scope.

Lemma rbind_Ok {E A B} (m : result E A) (f : A → result E B) b :
  rbind m f = Ok b ↔ ∃ a, m = Ok a ∧ f a = Ok b.
Proof.
  destruct m as [a'|e]; simpl; split.
  - eauto.
  - by intros (a & [= ->] & ?).
  - done.
  - by intros (a & ? & _).
Qed.

Lemma guard_Ok {E A} (b : bool) (e : E) (k : result E A) a :
  (if b then k else Err e) = Ok a ↔ b = true ∧ k = Ok a.
Proof. destruct b; split; [done | by intros [_ ?] | done | by intros [? _]]. Qed.

#[global] Instance result_eq_dec {E A} `{EqDecision E, EqDecision A} : EqDecision (result E A).
Proof. solve_decision. Defined.

(** ** Bytes

    A Go [[]byte] is a [list byte]; a Go [string], which is an immutable byte
    sequence, is a [string].  The conversions [[]byte(s)] and [string(b)] copy
    the bytes. *)
Abbreviation byte := Byte.byte.
Abbreviation bytes := (list byte).

Definition bytes_of_string (s : string) : bytes := String.list_byte_of_string s.
Definition string_of_bytes (b : bytes) : string := String.string_of_list_byte b.

Lemma string_of_bytes_of_string s : string_of_bytes (bytes_of_string s) = s.
Proof. apply String.string_of_list_byte_of_string. Qed.
Lemma bytes_of_string_of_bytes b : bytes_of_string (string_of_bytes b) = b.
Proof. apply String.list_byte_of_string_of_list_byte. Qed.
#[global] Instance bytes_of_string_inj : Inj (=) (=) bytes_of_string.
Proof.
  intros s t H. rewrite <- (string_of_bytes_of_string s), H.
  apply string_of_bytes_of_string.
Qed.

#[global] Instance byte_eq_dec : EqDecision byte.
Proof. intros a b. destruct (Byte.eqb a b) eqn:H.
  - left. by apply Byte.byte_dec_bl.
  - right. intros ->. by rewrite Byte.byte_dec_lb in H.
Defined.

Definition byte_val (b : byte) : N := Byte.to_N b.
(** Conversion to [byte]: reduction modulo 256, as Go's [byte(x)]. *)
Definition byte_of (n : N) : byte := default x00 (Byte.of_N (n mod 256)).

Lemma byte_val_lt b : (byte_val b < 256)%N.
Proof. pose proof (Byte.to_N_bounded b). unfold byte_val. lia. Qed.

Lemma byte_of_val b : byte_of (byte_val b) = b.
Proof.
  unfold byte_of. rewrite N.mod_small by apply byte_val_lt.
  unfold byte_val. by rewrite Byte.of_to_N.
Qed.

Lemma byte_val_of n : byte_val (byte_of n) = (n mod 256)%N.
Proof.
  unfold byte_of, byte_val. destruct (Byte.of_N (n mod 256)) as [b|] eqn:Hb; simpl.
  - by apply Byte.to_of_N.
  - apply Byte.of_N_None_iff in Hb. pose proof (N.mod_lt n 256). lia.
Qed.

#[global] Instance byte_val_inj : Inj (=) (=) byte_val.
Proof. intros a b H. rewrite <- (byte_of_val a), H. apply byte_of_val. Qed.

(** ** Floats

    [float64(z)] of an integer, rounded to the nearest; the integer part of a float that is not
    negative. *)
Definition float64 (z : Z) : spec_float := binary_normalize 53 1024 z 0 false.
Definition trunc (x : spec_float) : Z :=
  match x with S754_finite _ m e => Z.shiftl (Zpos m) e | _ => 0%Z end.

(** ** Tactics of the development *)

(** Take apart hypotheses that a chain of [let*] and guards returned [Ok]. *)
Ltac invert_ok :=
  repeat match goal with
  | H : rbind _ _ = Ok _ |- _ => apply rbind_Ok in H as (? & ? & ?)
  | H : (if ?b then _ else Err _) = Ok _ |- _ => apply guard_Ok in H as [? ?]
  | H : Ok _ = Ok _ |- _ => injection H as H
  | H : Err _ = Ok _ |- _ => discriminate H
  | H : Ok _ = Err _ |- _ => discriminate H
  end.

(** Boolean hypotheses to propositions. *)
Ltac bools :=
  repeat match goal with
  | H : (_ && _) = true |- _ => apply andb_true_iff in H as [? ?]
  | H : (_ || _) = false |- _ => apply orb_false_iff in H as [? ?]
  | H : negb _ = true |- _ => apply negb_true_iff in H
  | H : negb _ = false |- _ => apply negb_false_iff in H
  | H : bool_decide _ = true |- _ => apply bool_decide_eq_true in H
  | H : bool_decide _ = false |- _ => apply bool_decide_eq_false in H
  | H : (_ =? _) = true |- _ => apply Nat.eqb_eq in H
  | H : (_ =? _) = false |- _ => apply Nat.eqb_neq in H
  | H : (_ <? _) = true |- _ => apply Nat.ltb_lt in H
  | H : (_ <=? _) = true |- _ => apply Nat.leb_le in H
  | H : (_ =? _)%string = true |- _ => apply String.eqb_eq in H
  | H : (_ =? _)%string = false |- _ => apply String.eqb_neq in H
  end.

(** ** Lists *)
Section lists.
Context {A : Type}.
Implicit Types l k : list A.

Lemma forallb_Forall (f : A → bool) l : forallb f l = true ↔ Forall (λ x, f x = true) l.
Proof. rewrite Forall_forall, forallb_forall. setoid_rewrite list_elem_of_In. done. Qed.

Lemma existsb_Exists (f : A → bool) l : existsb f l = true ↔ ∃ x, x ∈ l ∧ f x = true.
Proof. rewrite existsb_exists. by setoid_rewrite list_elem_of_In. Qed.

Lemma existsb_false (f : A → bool) l : existsb f l = false ↔ ∀ x, x ∈ l → f x = false.
Proof.
  rewrite <- not_true_iff_false, existsb_Exists. split.
  - intros H x Hx. apply not_true_iff_false. naive_solver.
  - intros H (x & Hx & Hf). rewrite H in Hf; done.
Qed.

Lemma list_eq_take_drop n l k :
  take n l = take n k → drop n l = drop n k → l = k.
Proof. intros Ht Hd. by rewrite <- (take_drop n l), Ht, Hd, take_drop. Qed.
End lists.

(** ** Hint databases

    [bytes_len] rewrites the lengths of byte lists; [torgw] carries the facts the
    components' invariants are made of. *)
Create Rewrite HintDb bytes_len.
#[export] Hint Rewrite @length_app @length_take @length_drop @length_replicate @length_map : bytes_len.
Create Rewrite HintDb go_string.
Create HintDb torgw.
