(* ===== verification/GoStrings.v ===== *)
(** * The part of Go's standard library the operator uses on strings

    Packages [strings], [strconv], [sort] and [encoding/base32]'s callers work on
    byte sequences; every function below is executable.  Case folding and
    trimming follow the ASCII fast path of the library and leave the Unicode
    path to the class [UnicodeCase]. *)

From Stdlib Require Import Ascii DecimalString DecimalN NArith ZArith.
From stdpp Require Import sorting.
From S2P Require Import Prelude.

(** ** Characters *)
Definition ch (c : ascii) : N := N_of_ascii c.

Definition in_range (lo hi : N) (c : ascii) : bool := ((lo <=? ch c) && (ch c <=? hi))%N.
Definition is_ascii_char (c : ascii) : bool := (ch c <? 128)%N.
(** '\t' '\n' '\v' '\f' '\r' ' ' *)
Definition is_space (c : ascii) : bool := in_range 9 13 c || (ch c =? 32)%N.
Definition lower_char (c : ascii) : ascii :=
  if in_range 65 90 c then ascii_of_N (ch c + 32) else c.
Definition upper_char (c : ascii) : ascii :=
  if in_range 97 122 c then ascii_of_N (ch c - 32) else c.

Fixpoint str_map (f : ascii → ascii) (s : string) : string :=
  match s with
  | "" => ""
  | String c s => String (f c) (str_map f s)
  end.
Fixpoint str_forallb (p : ascii → bool) (s : string) : bool :=
  match s with
  | "" => true
  | String c s => p c && str_forallb p s
  end.
Definition str_existsb (p : ascii → bool) (s : string) : bool :=
  negb (str_forallb (λ c, negb (p c)) s).
Definition is_ascii (s : string) : bool := str_forallb is_ascii_char s.

(** ** Trimming *)
Fixpoint trim_left (p : ascii → bool) (s : string) : string :=
  match s with
  | String c s' => if p c then trim_left p s' else s
  | "" => ""
  end.
Fixpoint trim_right (p : ascii → bool) (s : string) : string :=
  match s with
  | "" => ""
  | String c s' =>
      match trim_right p s' with
      | "" => if p c then "" else String c ""
      | t => String c t
      end
  end.
Definition ascii_trim_space (s : string) : string := trim_right is_space (trim_left is_space s).

Definition ascii_lower (s : string) : string := str_map lower_char s.
Definition ascii_upper (s : string) : string := str_map upper_char s.

(** Go takes the byte-wise path when a string is ASCII and otherwise maps runes
    through the Unicode tables; the three functions below are that second path.
    Two facts of the tables are used: the two non-ASCII runes with an ASCII upper
    case (dotless i and long s) are two bytes long, so a string that becomes ASCII
    by upper-casing becomes shorter; and a lower-cased string has no ASCII capital
    (every byte of a multi-byte rune is at least 128). *)
Definition not_capital (c : ascii) : bool := negb (in_range 65 90 c).
Class UnicodeCase := {
  uni_lower : string → string;
  uni_upper : string → string;
  uni_trim : string → string;
  uni_upper_shrinks s :
    is_ascii s = false → is_ascii (uni_upper s) = true →
    String.length (uni_upper s) < String.length s;
  uni_lower_not_capital s : str_forallb not_capital (uni_lower s) = true;
}.

Section unicode.
Context {U : UnicodeCase}.
Definition ToLower (s : string) : string :=
  if is_ascii s then ascii_lower s else uni_lower s.
Definition ToUpper (s : string) : string :=
  if is_ascii s then ascii_upper s else uni_upper s.
Definition TrimSpace (s : string) : string :=
  if is_ascii s then ascii_trim_space s else uni_trim s.
End unicode.

(** ** Prefixes and suffixes *)
Definition HasPrefix (s p : string) : bool := String.prefix p s.
Fixpoint str_drop (n : nat) (s : string) : string :=
  match n, s with
  | S n, String _ s => str_drop n s
  | _, _ => s
  end.
Fixpoint str_take (n : nat) (s : string) : string :=
  match n, s with
  | S n, String c s => String c (str_take n s)
  | _, _ => ""
  end.
Definition HasSuffix (s p : string) : bool :=
  (String.length p <=? String.length s) &&
  (str_drop (String.length s - String.length p) s =? p)%string.
Definition TrimPrefix (s p : string) : string :=
  if HasPrefix s p then str_drop (String.length p) s else s.
Definition TrimSuffix (s p : string) : string :=
  if HasSuffix s p then str_take (String.length s - String.length p) s else s.

(** [strings.ContainsAny] and [strings.LastIndexByte]; [SplitN s sep 2] for a
    one-byte separator, as the pair around the first occurrence. *)
Definition ContainsAny (s chars : string) : bool :=
  str_existsb (λ c, str_existsb (Ascii.eqb c) chars) s.
Fixpoint cut_first (sep : ascii) (s : string) : option (string * string) :=
  match s with
  | "" => None
  | String c s' =>
      if Ascii.eqb c sep then Some ("", s')
      else '(a, b) ← cut_first sep s'; Some (String c a, b)
  end.
(** The part before and the part after the last occurrence. *)
Fixpoint cut_last (sep : ascii) (s : string) : option (string * string) :=
  match s with
  | "" => None
  | String c s' =>
      match cut_last sep s' with
      | Some (a, b) => Some (String c a, b)
      | None => if Ascii.eqb c sep then Some ("", s') else None
      end
  end.

(** ** Decimal numbers *)
Definition int64_min : Z := (- 2 ^ 63)%Z.
Definition int64_max : Z := (2 ^ 63 - 1)%Z.

(** [strconv.Itoa], and [%d] of [fmt]. *)
Definition Itoa (z : Z) : string := NilZero.string_of_int (Z.to_int z).

Definition parse_digits (s : string) : option Z :=
  Z.of_N ∘ N.of_uint <$> NilZero.uint_of_string s.
(** [strconv.Atoi]: an optional sign, then one or more digits, within int64. *)
Definition Atoi (s : string) : option Z :=
  z ← match s with
      | String "-" t => Z.opp <$> parse_digits t
      | String "+" t => parse_digits t
      | _ => parse_digits s
      end;
  guard (int64_min ≤ z ≤ int64_max)%Z;; Some z.

(** [strconv.ParseBool]; [None] is the error. *)
Definition ParseBool (s : string) : option bool :=
  if bool_decide (s ∈ ["1"; "t"; "T"; "TRUE"; "true"; "True"]) then Some true
  else if bool_decide (s ∈ ["0"; "f"; "F"; "FALSE"; "false"; "False"]) then Some false
  else None.

(** ** Sorting: [sort.Strings], byte-wise lexicographic *)
Definition sort_strings (l : list string) : list string := merge_sort String.le l.
Definition Join (l : list string) (sep : string) : string := String.concat sep l.

(** The newline, as a string. *)
Definition nl : string := String "010"%char "".

(** * Lemmas *)
#[local] Arguments String.append !_ _ / : assert.

(** ** Append, length, take and drop *)
Lemma str_app_nil_r s : s +:+ "" = s.
Proof. induction s; simpl; congruence. Qed.
Lemma str_app_assoc s t u : s +:+ (t +:+ u) = (s +:+ t) +:+ u.
Proof. induction s; simpl; congruence. Qed.
Lemma str_length_app s t : String.length (s +:+ t) = String.length s + String.length t.
Proof. induction s; simpl; congruence. Qed.
Lemma str_app_inj_l s t u : s +:+ t = s +:+ u → t = u.
Proof. induction s; simpl; naive_solver. Qed.
Lemma str_app_inj_r s t u : s +:+ u = t +:+ u → s = t.
Proof.
  revert t. induction s as [|a s IH]; intros [|b t] H; simpl in *; simplify_eq; eauto.
  - apply (f_equal String.length) in H. simpl in H. rewrite str_length_app in H. lia.
  - apply (f_equal String.length) in H. simpl in H. rewrite str_length_app in H. lia.
  - f_equal. eauto.
Qed.
Lemma str_drop_app s t : str_drop (String.length s) (s +:+ t) = t.
Proof. induction s; simpl; [by destruct t | done]. Qed.
Lemma str_take_app s t : str_take (String.length s) (s +:+ t) = s.
Proof. induction s; simpl; [by destruct t | congruence]. Qed.
Lemma str_take_drop n s : str_take n s +:+ str_drop n s = s.
Proof. revert s; induction n; intros [|c s]; simpl; congruence. Qed.
Lemma str_length_drop n s : String.length (str_drop n s) = String.length s - n.
Proof. revert s; induction n; intros [|c s]; simpl; auto. Qed.

#[export] Hint Rewrite str_length_app str_length_drop str_app_nil_r : go_string.

(** ** Prefixes and suffixes *)
Lemma HasPrefix_true s p : HasPrefix s p = true ↔ ∃ r, s = p +:+ r.
Proof.
  unfold HasPrefix. revert s. induction p as [|c p IH]; intros [|d s]; simpl.
  - split; [by exists ""|done].
  - split; [by exists (String d s)|done].
  - split; [done|]. by intros [r ?].
  - destruct (Ascii.ascii_dec c d) as [->|].
    + rewrite IH. naive_solver.
    + naive_solver.
Qed.
Lemma HasSuffix_true s p : HasSuffix s p = true ↔ ∃ r, s = r +:+ p.
Proof.
  unfold HasSuffix. rewrite andb_true_iff, Nat.leb_le, String.eqb_eq. split.
  - intros [Hle Hd]. exists (str_take (String.length s - String.length p) s).
    pose proof (str_take_drop (String.length s - String.length p) s) as Htd.
    by rewrite Hd in Htd.
  - intros [r ->]. rewrite str_length_app. split; [lia|].
    replace (String.length r + String.length p - String.length p) with (String.length r) by lia.
    apply str_drop_app.
Qed.
Lemma TrimPrefix_app p s : TrimPrefix (p +:+ s) p = s.
Proof.
  unfold TrimPrefix. replace (HasPrefix (p +:+ s) p) with true; [apply str_drop_app|].
  symmetry. apply HasPrefix_true. eauto.
Qed.
Lemma TrimSuffix_app s p : TrimSuffix (s +:+ p) p = s.
Proof.
  unfold TrimSuffix. replace (HasSuffix (s +:+ p) p) with true.
  - rewrite str_length_app.
    replace (String.length s + String.length p - String.length p) with (String.length s) by lia.
    apply str_take_app.
  - symmetry. apply HasSuffix_true. eauto.
Qed.
Lemma TrimSuffix_id s p : HasSuffix s p = false → TrimSuffix s p = s.
Proof. unfold TrimSuffix. by intros ->. Qed.

(** ** Character maps *)
Lemma str_length_map f s : String.length (str_map f s) = String.length s.
Proof. induction s; simpl; congruence. Qed.
Lemma str_map_app f s t : str_map f (s +:+ t) = str_map f s +:+ str_map f t.
Proof. induction s; simpl; congruence. Qed.
Lemma str_map_map f g s : str_map f (str_map g s) = str_map (f ∘ g) s.
Proof. induction s; simpl; unfold compose in *; congruence. Qed.
Lemma str_map_id_on f p s :
  (∀ c, p c = true → f c = c) → str_forallb p s = true → str_map f s = s.
Proof.
  intros Hf. induction s as [|c s IH]; simpl; [done|].
  intros Hs. bools. rewrite Hf, IH; done.
Qed.
Lemma str_forallb_app p s t :
  str_forallb p (s +:+ t) = str_forallb p s && str_forallb p t.
Proof. induction s; simpl; [done|]. by rewrite IHs, andb_assoc. Qed.
Lemma str_forallb_impl p q s :
  (∀ c, p c = true → q c = true) → str_forallb p s = true → str_forallb q s = true.
Proof.
  intros Hpq. induction s as [|c s IH]; simpl; [done|].
  intros Hs. bools. rewrite Hpq, IH; done.
Qed.
Lemma str_forallb_map p f s : str_forallb p (str_map f s) = str_forallb (p ∘ f) s.
Proof. induction s; simpl; unfold compose in *; congruence. Qed.

(** ** Facts of single characters, by enumeration *)
Definition all_ascii : list ascii := map ascii_of_nat (seq 0 256).
Lemma ascii_forall (P : ascii → bool) : forallb P all_ascii = true → ∀ c, P c = true.
Proof.
  intros H c. rewrite forallb_forall in H. apply H.
  rewrite <- (ascii_nat_embedding c). apply in_map, in_seq.
  pose proof (nat_ascii_bounded c). lia.
Qed.
Lemma ascii_impl (P Q : ascii → bool) :
  forallb (λ c, implb (P c) (Q c)) all_ascii = true → ∀ c, P c = true → Q c = true.
Proof.
  intros H c Hp. pose proof (ascii_forall _ H c) as Hi. simpl in Hi. by rewrite Hp in Hi.
Qed.
Lemma ascii_impl_eq (P : ascii → bool) (f g : ascii → ascii) :
  forallb (λ c, implb (P c) (Ascii.eqb (f c) (g c))) all_ascii = true →
  ∀ c, P c = true → f c = g c.
Proof. intros H c Hp. apply Ascii.eqb_eq. by apply (ascii_impl P _ H). Qed.

(** Trimming stops at the first character that is kept on either side. *)
Lemma trim_left_id p s : (∀ c t, s = String c t → p c = false) → trim_left p s = s.
Proof. destruct s as [|c t]; simpl; [done|]. intros H. by rewrite (H c t). Qed.
Lemma trim_right_forallb p s : str_forallb (λ c, negb (p c)) s = true → trim_right p s = s.
Proof.
  induction s as [|c s IH]; simpl; [done|]. intros H. apply andb_true_iff in H as [Hc Hs].
  apply negb_true_iff in Hc. rewrite (IH Hs), Hc. by destruct s.
Qed.
Lemma trim_left_forallb p s : str_forallb (λ c, negb (p c)) s = true → trim_left p s = s.
Proof. 
  destruct s as [|c s]; simpl; [done|]. intros H. apply andb_true_iff in H as [Hc _].
  apply negb_true_iff in Hc. by rewrite Hc.
Qed.
Lemma ascii_trim_space_id s :
  str_forallb (λ c, negb (is_space c)) s = true → ascii_trim_space s = s.
Proof.
  intros H. unfold ascii_trim_space. by rewrite trim_left_forallb, trim_right_forallb.
Qed.

(** An instance for evaluation, in which every non-ASCII byte stands for itself. *)
#[export] Program Instance unicode_id : UnicodeCase | 100 := {|
  uni_lower := ascii_lower; uni_upper s := s; uni_trim s := s
|}.
Next Obligation. intros s H1 H2. simpl in *. congruence. Qed.
Next Obligation.
  intros s. simpl. unfold ascii_lower. rewrite str_forallb_map.
  induction s as [|c s IH]; [done|]. simpl. rewrite IH, andb_true_r.
  revert c. apply (ascii_forall (not_capital ∘ lower_char)). vm_compute. reflexivity.
Qed.
