(* ===== verification/Base32.v ===== *)
(** * Unpadded RFC 4648 base32, as [encoding/base32] implements it

    [EncodeToString] and [DecodeString] are the two methods of
    [base32.StdEncoding.WithPadding(base32.NoPadding)] that internal/tor/onion.go
    uses.  The decoder follows the library: newlines are dropped first; a block cut
    short by the end of the input yields 4, 3, 2, 1 or no bytes; the byte 0xFF,
    which is what the [NoPadding] rune truncates to, is accepted as padding. *)

From Stdlib Require Import Ascii NArith.
From S2P Require Import Prelude GoStrings.
#[local] Open Scope N_scope.

(** ** Positional notation *)
Fixpoint to_digits (b : N) (n : nat) (v : N) : list N :=
  match n with
  | O => []
  | S n => (v / b ^ N.of_nat n) mod b :: to_digits b n v
  end.
Definition of_digits (b : N) (ds : list N) : N := foldl (λ v d, v * b + d) 0 ds.

(** ** The alphabet *)
Definition encode_digit (d : N) : ascii :=
  ascii_of_N (if d <? 26 then 65 + d else 50 + (d - 26)).
(** [decodeMap]; [None] is the entry 0xFF. *)
Definition decode_char (c : ascii) : option N :=
  if in_range 65 90 c then Some (ch c - 65)
  else if in_range 50 55 c then Some (ch c - 50 + 26)
  else None.
Definition is_base32_upper (c : ascii) : bool :=
  match decode_char c with Some _ => true | None => false end.

(** ** Encoding *)

(** Characters produced by a block of [k] bytes. *)
Definition enc_len (k : nat) : nat :=
  match k with 0 => 0 | 1 => 2 | 2 => 4 | 3 => 5 | 4 => 7 | _ => 8 end%nat.
Definition encode_block (bs : bytes) : list N :=
  take (enc_len (length bs))
    (to_digits 32 8 (of_digits 256 (map byte_val bs) * 256 ^ N.of_nat (5 - length bs))).

Definition string_of_digits (ds : list N) : string :=
  String.string_of_list_ascii (map encode_digit ds).

Fixpoint EncodeToString (src : bytes) : string :=
  match src with
  | [] => ""
  | b0 :: b1 :: b2 :: b3 :: b4 :: rest =>
      string_of_digits (encode_block [b0; b1; b2; b3; b4]) +:+ EncodeToString rest
  | last => string_of_digits (encode_block last)
  end.

(** ** Decoding *)

(** Bytes produced by a block of [j] digits; [switch dlen] has no case for 1, 3, 6. *)
Definition dec_len (j : nat) : nat :=
  match j with 2 => 1 | 4 => 2 | 5 => 3 | 7 => 4 | 8 => 5 | _ => 0 end%nat.
Definition decode_block (ds : list N) : bytes :=
  take (dec_len (length ds))
    (map byte_of (to_digits 256 5 (of_digits 32 ds * 32 ^ N.of_nat (8 - length ds)))).

Definition pad_char : ascii := ascii_of_N 255.
(** The input after a padding character met with [j] digits read. *)
Definition padding_ok (j : nat) (src : string) : bool :=
  (7 <=? String.length src + j)%nat &&
  str_forallb (λ c, Ascii.eqb c pad_char) (str_take (7 - j) src) &&
  negb ((j =? 3) || (j =? 6))%nat.

(** [decode]: [acc] holds the digits of the current block. *)
Fixpoint decode_go (acc : list N) (src : string) : option bytes :=
  match src with
  | "" => Some (decode_block acc)
  | String c src =>
      if Ascii.eqb c pad_char && (2 <=? length acc)%nat && (String.length src <? 8)%nat then
        if padding_ok (length acc) src then Some (decode_block acc) else None
      else
        d ← decode_char c;
        if (length acc =? 7)%nat then
          rest ← decode_go [] src;
          Some (decode_block (acc ++ [d]) ++ rest)
        else decode_go (acc ++ [d]) src
  end.

Definition is_newline (c : ascii) : bool := (ch c =? 10) || (ch c =? 13).
Fixpoint strip_newlines (s : string) : string :=
  match s with
  | "" => ""
  | String c s => if is_newline c then strip_newlines s else String c (strip_newlines s)
  end.
Definition DecodeString (s : string) : option bytes := decode_go [] (strip_newlines s).

(** * Lemmas *)

(** ** Positional notation *)
Lemma length_to_digits b n v : length (to_digits b n v) = n.
Proof. induction n; simpl; congruence. Qed.
Lemma to_digits_lt b n v : b ≠ 0 → Forall (λ d, d < b) (to_digits b n v).
Proof. intros Hb. induction n; simpl; constructor; [by apply N.mod_lt | done]. Qed.

Lemma of_digits_snoc b ds d : of_digits b (ds ++ [d]) = of_digits b ds * b + d.
Proof. unfold of_digits. by rewrite foldl_app. Qed.
Lemma of_digits_lt b ds : Forall (λ d, d < b) ds → of_digits b ds < b ^ N.of_nat (length ds).
Proof.
  induction ds as [|d ds IH] using rev_ind; intros Hd; [unfold of_digits; simpl; lia|].
  apply Forall_app in Hd as [Hds Hd]. inversion_clear Hd. specialize (IH Hds).
  rewrite of_digits_snoc, length_app. simpl.
  replace (N.of_nat (length ds + 1)) with (N.succ (N.of_nat (length ds))) by lia.
  rewrite N.pow_succ_r'. nia.
Qed.

(** The last digit comes off by division. *)
Lemma to_digits_snoc b n v :
  b ≠ 0 → to_digits b (S n) v = to_digits b n (v / b) ++ [v mod b].
Proof.
  intros Hb. revert v. induction n as [|n IH]; intros v.
  { simpl. by rewrite N.div_1_r. }
  change (to_digits b (S (S n)) v) with
    ((v / b ^ N.of_nat (S n)) mod b :: to_digits b (S n) v).
  rewrite IH.
  change (to_digits b (S n) (v / b)) with
    ((v / b / b ^ N.of_nat n) mod b :: to_digits b n (v / b)).
  rewrite Nat2N.inj_succ, N.pow_succ_r', N.Div0.div_div. done.
Qed.

Lemma of_to_digits b n v : b ≠ 0 → v < b ^ N.of_nat n → of_digits b (to_digits b n v) = v.
Proof.
  intros Hb. revert v. induction n as [|n IH]; intros v Hv.
  { simpl in *. unfold of_digits. simpl. lia. }
  rewrite to_digits_snoc by done. rewrite of_digits_snoc, IH.
  - rewrite N.mul_comm. symmetry. by apply N.Div0.div_mod.
  - rewrite Nat2N.inj_succ, N.pow_succ_r' in Hv. by apply N.Div0.div_lt_upper_bound.
Qed.

Lemma to_of_digits b ds :
  b ≠ 0 → Forall (λ d, d < b) ds → to_digits b (length ds) (of_digits b ds) = ds.
Proof.
  intros Hb. induction ds as [|d ds IH] using rev_ind; intros Hd; [done|].
  apply Forall_app in Hd as [Hds Hd]. inversion_clear Hd.
  rewrite length_app. simpl. rewrite Nat.add_1_r, to_digits_snoc, of_digits_snoc by done.
  rewrite N.div_add_l, N.div_small, N.add_0_r, IH by done.
  by rewrite N.add_comm, N.Div0.mod_add, N.mod_small.
Qed.

(** ** The alphabet *)
Lemma decode_encode_digit d : d < 32 → decode_char (encode_digit d) = Some d.
Proof.
  intros Hd. assert (d ∈ map N.of_nat (seq 0 32)) as Hin.
  { apply list_elem_of_In, in_map_iff. exists (N.to_nat d). split; [lia|]. apply in_seq. lia. }
  clear Hd. revert d Hin. apply Forall_forall. repeat constructor.
Qed.
Lemma decode_char_lt c d : decode_char c = Some d → d < 32.
Proof.
  unfold decode_char, in_range. intros H.
  repeat case_match; simplify_eq; bools; rewrite ?N.leb_le in *; lia.
Qed.
Lemma encode_decode_char c d : decode_char c = Some d → encode_digit d = c.
Proof.
  unfold decode_char, encode_digit, in_range. intros H.
  repeat case_match; simplify_eq; bools; rewrite ?N.leb_le, ?N.ltb_lt, ?N.ltb_ge in *; try lia.
  - replace (65 + (ch c - 65)) with (ch c) by lia. apply ascii_N_embedding.
  - replace (50 + (ch c - 50 + 26 - 26)) with (ch c) by lia. apply ascii_N_embedding.
Qed.
Lemma decode_char_not_pad c d : decode_char c = Some d → Ascii.eqb c pad_char = false.
Proof. intros H. apply Ascii.eqb_neq. intros ->. discriminate H. Qed.

(** ** Blocks *)
Lemma string_of_digits_cons d ds :
  string_of_digits (d :: ds) = String (encode_digit d) (string_of_digits ds).
Proof. done. Qed.
Lemma length_string_of_digits ds : String.length (string_of_digits ds) = length ds.
Proof.
  induction ds as [|d ds IH]; [done|]. rewrite string_of_digits_cons. simpl. by rewrite IH.
Qed.

Lemma decode_go_digits ds acc s :
  Forall (λ d, d < 32) ds → ds ≠ [] → (length acc + length ds = 8)%nat →
  decode_go acc (string_of_digits ds +:+ s) =
  (rest ← decode_go [] s; Some (decode_block (acc ++ ds) ++ rest)).
Proof.
  revert acc. induction ds as [|d ds IH]; intros acc Hds Hne Hlen; [done|].
  inversion_clear Hds as [|?? Hd Hds']. clear Hne. rewrite string_of_digits_cons.
  change (String (encode_digit d) (string_of_digits ds) +:+ s) with
    (String (encode_digit d) (string_of_digits ds +:+ s)).
  simpl. rewrite (decode_char_not_pad _ d) by (by apply decode_encode_digit).
  rewrite decode_encode_digit by done. simpl in *.
  destruct ds as [|d' ds].
  - simpl in *. replace (length acc =? 7)%nat with true; [done|].
    symmetry. apply Nat.eqb_eq. lia.
  - replace (length acc =? 7)%nat with false by (symmetry; apply Nat.eqb_neq; simpl in *; lia).
    rewrite IH; rewrite ?length_app; simpl in *; try done; [|lia].
    by rewrite <- (assoc_L (++)).
Qed.

Lemma encode_block_full bs :
  length bs = 5%nat → encode_block bs = to_digits 32 8 (of_digits 256 (map byte_val bs)).
Proof.
  intros H. unfold encode_block. rewrite H. simpl Nat.sub. rewrite N.mul_1_r.
  apply take_ge. by rewrite length_to_digits.
Qed.
Lemma decode_block_full ds :
  length ds = 8%nat → decode_block ds = map byte_of (to_digits 256 5 (of_digits 32 ds)).
Proof.
  intros H. unfold decode_block. rewrite H. simpl Nat.sub. rewrite N.mul_1_r.
  apply take_ge. by rewrite length_map, length_to_digits.
Qed.
Lemma length_decode_block ds : length (decode_block ds) = dec_len (length ds).
Proof.
  unfold decode_block. rewrite length_take, length_map, length_to_digits.
  unfold dec_len. repeat case_match; lia.
Qed.

Lemma map_byte_of_val bs : map byte_of (map byte_val bs) = bs.
Proof. induction bs; simpl; rewrite ?byte_of_val; congruence. Qed.
Lemma map_byte_val_of ds : Forall (λ d, d < 256) ds → map byte_val (map byte_of ds) = ds.
Proof.
  induction 1; simpl; [done|]. rewrite byte_val_of, N.mod_small by done. congruence.
Qed.
Lemma Forall_byte_val bs : Forall (λ d, d < 256) (map byte_val bs).
Proof. apply Forall_map, Forall_true. intros b. apply byte_val_lt. Qed.

Lemma decode_encode_block bs : length bs = 5%nat → decode_block (encode_block bs) = bs.
Proof.
  intros H. rewrite encode_block_full, decode_block_full; rewrite ?length_to_digits; try done.
  assert (of_digits 256 (map byte_val bs) < 256 ^ N.of_nat 5) as Hlt.
  { pose proof (of_digits_lt 256 (map byte_val bs) (Forall_byte_val bs)) as Hlt.
    by rewrite length_map, H in Hlt. }
  rewrite (of_to_digits 32) by (done || exact Hlt).
  replace 5%nat with (length (map byte_val bs)) by (by rewrite length_map).
  rewrite to_of_digits by (done || apply Forall_byte_val). apply map_byte_of_val.
Qed.
Lemma encode_decode_block ds :
  length ds = 8%nat → Forall (λ d, d < 32) ds → encode_block (decode_block ds) = ds.
Proof.
  intros H Hds. rewrite encode_block_full, decode_block_full;
    rewrite ?length_decode_block, ?H; try done.
  assert (of_digits 32 ds < 32 ^ N.of_nat 8) as Hlt.
  { pose proof (of_digits_lt 32 ds Hds) as Hlt. by rewrite H in Hlt. }
  rewrite map_byte_val_of by (by apply to_digits_lt).
  rewrite (of_to_digits 256) by (done || exact Hlt).
  replace 8%nat with (length ds) by done. by rewrite to_of_digits.
Qed.

Lemma EncodeToString_block bs rest :
  length bs = 5%nat →
  EncodeToString (bs ++ rest) = string_of_digits (encode_block bs) +:+ EncodeToString rest.
Proof. intros H. by destruct bs as [|b0 [|b1 [|b2 [|b3 [|b4 [|]]]]]]. Qed.

Lemma EncodeToString_partial bs :
  (length bs < 5)%nat → EncodeToString bs = string_of_digits (encode_block bs).
Proof.
  destruct bs as [|b0 [|b1 [|b2 [|b3 [|b4 rest]]]]]; try reflexivity.
  intros H. simpl length in H. lia.
Qed.

(** ** Round trips *)

(** Every input is a sequence of whole blocks or ends in a partial one. *)
Lemma bytes_blocks_ind (P : bytes → Prop) :
  (∀ bs, (length bs < 5)%nat → P bs) →
  (∀ bs rest, length bs = 5%nat → P rest → P (bs ++ rest)) → ∀ bs, P bs.
Proof.
  intros Hshort Hblock bs. remember (length bs) as n eqn:Hn. revert bs Hn.
  induction (lt_wf n) as [n _ IH]. intros bs ->.
  destruct (decide (length bs < 5)%nat); [auto|].
  rewrite <- (take_drop 5 bs). apply Hblock.
  - rewrite length_take. lia.
  - eapply IH; [|done]. rewrite length_drop. lia.
Qed.

Lemma EncodeToString_upper bs : str_forallb is_base32_upper (EncodeToString bs) = true.
Proof.
  assert (∀ ds, Forall (λ d, d < 32) ds →
    str_forallb is_base32_upper (string_of_digits ds) = true) as Hds.
  { intros ds. induction 1 as [|d ds Hd _ IH]; [done|]. rewrite string_of_digits_cons. simpl.
    unfold is_base32_upper at 1. by rewrite decode_encode_digit. }
  assert (∀ bs, Forall (λ d, d < 32) (encode_block bs)) as Hblk.
  { intros b. apply Forall_take. by apply to_digits_lt. }
  induction bs as [bs Hlt|bs rest Hlen IH] using bytes_blocks_ind.
  - rewrite EncodeToString_partial by done. apply Hds, Hblk.
  - rewrite EncodeToString_block, str_forallb_app, IH, Hds by done. done.
Qed.

Lemma is_base32_upper_not_newline c : is_base32_upper c = true → is_newline c = false.
Proof.
  unfold is_base32_upper, decode_char, in_range, is_newline. intros H.
  apply orb_false_iff. rewrite !N.eqb_neq.
  repeat case_match; simplify_eq; bools; rewrite ?N.leb_le in *; lia.
Qed.
Lemma strip_newlines_id s :
  str_forallb (λ c, negb (is_newline c)) s = true → strip_newlines s = s.
Proof.
  induction s as [|c s IH]; simpl; [done|]. intros H. bools. rewrite H0 in *.
  rewrite H. f_equal. by apply IH.
Qed.

(** Encoding whole blocks and decoding gives the bytes back. *)
Lemma DecodeString_EncodeToString bs :
  (length bs mod 5 = 0)%nat → DecodeString (EncodeToString bs) = Some bs.
Proof.
  intros Hmod. unfold DecodeString. rewrite strip_newlines_id.
  2: { eapply str_forallb_impl, EncodeToString_upper. intros c Hc.
       by rewrite is_base32_upper_not_newline. }
  induction bs as [bs Hlt|bs rest Hlen IH] using bytes_blocks_ind.
  - rewrite Nat.mod_small in Hmod by done. by destruct bs.
  - rewrite EncodeToString_block by done.
    rewrite decode_go_digits; simpl; try done.
    + rewrite IH; simpl; [by rewrite decode_encode_block|].
      rewrite length_app, Hlen in Hmod. by rewrite <- Nat.Div0.add_mod_idemp_l in Hmod.
    + rewrite encode_block_full by done. by apply to_digits_lt.
    + rewrite encode_block_full by done. done.
    + by rewrite encode_block_full, length_to_digits.
Qed.

(** ** What a successful decoding says of its input *)

Lemma dec_len_bound j : (j ≤ 8)%nat → (8 * dec_len j ≤ 5 * j)%nat.
Proof. intros H. do 9 (destruct j; [simpl; lia|]). lia. Qed.

(** The three ways a step of the decoder succeeds. *)
Lemma decode_go_cons acc c s bs :
  decode_go acc (String c s) = Some bs →
  (Ascii.eqb c pad_char = true ∧ (2 ≤ length acc)%nat ∧
     padding_ok (length acc) s = true ∧ bs = decode_block acc) ∨
  (∃ d, decode_char c = Some d ∧ length acc = 7%nat ∧
     ∃ rest, decode_go [] s = Some rest ∧ bs = decode_block (acc ++ [d]) ++ rest) ∨
  (∃ d, decode_char c = Some d ∧ length acc ≠ 7%nat ∧ decode_go (acc ++ [d]) s = Some bs).
Proof.
  cbn [decode_go]. intros H. destruct (_ && _) eqn:Hpad.
  - bools. left. destruct (padding_ok (length acc) s) eqn:Hok; [|done].
    injection H as <-. by split_and!.
  - right. destruct (decode_char c) as [d|] eqn:Hd; [simpl in H|done].
    destruct (length acc =? 7)%nat eqn:H7; bools.
    + destruct (decode_go [] s) as [rest|] eqn:Hr; [|done]. simpl in H. simplify_eq. eauto 10.
    + right. eauto.
Qed.

Lemma string_of_digits_step acc c d s :
  decode_char c = Some d →
  string_of_digits (acc ++ [d]) +:+ s = string_of_digits acc +:+ String c s.
Proof.
  intros Hd. apply encode_decode_char in Hd as <-.
  induction acc as [|a acc IH]; [done|].
  rewrite <- app_comm_cons, !string_of_digits_cons.
  change (String (encode_digit a) (string_of_digits (acc ++ [d])) +:+ s) with
    (String (encode_digit a) (string_of_digits (acc ++ [d]) +:+ s)).
  by rewrite IH.
Qed.

Lemma decode_go_bound acc s bs :
  decode_go acc s = Some bs → (length acc < 8)%nat →
  (8 * length bs ≤ 5 * (length acc + String.length s))%nat.
Proof.
  revert acc bs. induction s as [|c s IH]; intros acc bs H Hacc.
  { simpl in *. simplify_eq. rewrite length_decode_block. pose proof (dec_len_bound (length acc)). lia. }
  apply decode_go_cons in H as [(_ & _ & _ & ->)|[(d & _ & H7 & rest & Hr & ->)|(d & _ & H7 & H)]].
  - rewrite length_decode_block. pose proof (dec_len_bound (length acc)). lia.
  - apply IH in Hr; [|simpl; lia].
    rewrite length_app, length_decode_block, length_app, H7. simpl in *. lia.
  - apply IH in H; rewrite length_app in *; simpl in *; lia.
Qed.

(** Decoding without loss means that only whole blocks were read. *)
Lemma decode_go_exact acc s bs :
  decode_go acc s = Some bs → (length acc < 8)%nat → Forall (λ d, d < 32) acc →
  (8 * length bs = 5 * (length acc + String.length s))%nat →
  string_of_digits acc +:+ s = EncodeToString bs.
Proof.
  revert acc bs. induction s as [|c s IH]; intros acc bs H Hacc Hlt Hlen.
  { simpl in *. simplify_eq. rewrite length_decode_block in Hlen.
    destruct acc as [|d0 acc]; [done|]. simpl length in *.
    do 7 (destruct acc as [|? acc]; [simpl in Hlen; lia|]). simpl in Hacc. lia. }
  apply decode_go_cons in H as [(_ & H2 & _ & ->)|[(d & Hd & H7 & rest & Hr & ->)|(d & Hd & H7 & H)]].
  - rewrite length_decode_block in Hlen. pose proof (dec_len_bound (length acc)).
    simpl in Hlen. lia.
  - pose proof (decode_char_lt _ _ Hd). rewrite length_app, length_decode_block, length_app, H7 in Hlen.
    rewrite EncodeToString_block, encode_decode_block.
    + rewrite <- (IH [] rest Hr); [|simpl in *; try done; lia..].
      symmetry. by apply string_of_digits_step.
    + rewrite length_app, H7. done.
    + apply Forall_app. auto.
    + by rewrite length_decode_block, length_app, H7.
  - pose proof (decode_char_lt _ _ Hd).
    rewrite <- (IH _ _ H).
    + symmetry. by apply string_of_digits_step.
    + rewrite length_app. simpl. lia.
    + apply Forall_app. auto.
    + rewrite length_app. simpl in *. lia.
Qed.

(** Five bytes to the block: an unlost total means every character was a digit. *)
Lemma decode_go_digits_only acc s bs :
  decode_go acc s = Some bs → (length acc < 8)%nat → (length bs mod 5 = 0)%nat →
  str_forallb is_base32_upper s = true.
Proof.
  revert acc bs. induction s as [|c s IH]; intros acc bs H Hacc Hmod; [done|].
  apply decode_go_cons in H as [(_ & H2 & Hok & ->)|[(d & Hd & H7 & rest & Hr & ->)|(d & Hd & H7 & H)]].
  - rewrite length_decode_block in Hmod. unfold padding_ok in Hok. bools.
    do 8 (destruct acc as [|? acc]; [simpl in *; try lia; done|]). simpl in Hacc. lia.
  - simpl. unfold is_base32_upper at 1. rewrite Hd. simpl. apply (IH [] rest Hr); [simpl; lia|].
    rewrite length_app, length_decode_block, length_app, H7 in Hmod.
    by rewrite <- Nat.Div0.add_mod_idemp_l in Hmod.
  - simpl. unfold is_base32_upper at 1. rewrite Hd. simpl.
    apply (IH _ _ H); [|done]. rewrite length_app. simpl. lia.
Qed.

Lemma length_strip_newlines s : (String.length (strip_newlines s) ≤ String.length s)%nat.
Proof. induction s as [|c s IH]; simpl; [lia|]. destruct (is_newline c); simpl; lia. Qed.
Lemma strip_newlines_length_eq s :
  String.length (strip_newlines s) = String.length s → strip_newlines s = s.
Proof.
  induction s as [|c s IH]; simpl; [done|]. destruct (is_newline c); simpl.
  - pose proof (length_strip_newlines s). lia.
  - intros H. f_equal. apply IH. lia.
Qed.

Lemma DecodeString_bound s bs :
  DecodeString s = Some bs → (8 * length bs ≤ 5 * String.length s)%nat.
Proof.
  intros H. apply decode_go_bound in H; [|simpl; lia]. simpl in H.
  pose proof (length_strip_newlines s). lia.
Qed.

(** Decoding at the full rate is inverted by encoding. *)
Lemma EncodeToString_DecodeString s bs :
  DecodeString s = Some bs → (8 * length bs = 5 * String.length s)%nat → EncodeToString bs = s.
Proof.
  intros H Hlen. pose proof (decode_go_bound [] (strip_newlines s) bs H ltac:(simpl; lia)) as Hb.
  pose proof (length_strip_newlines s) as Hs. simpl in Hb.
  assert (strip_newlines s = s) as Heq by (apply strip_newlines_length_eq; lia).
  unfold DecodeString in H. rewrite Heq in H. symmetry. apply (decode_go_exact [] _ _ H).
  - simpl. lia.
  - constructor.
  - simpl. lia.
Qed.

Lemma is_base32_upper_ascii c : is_base32_upper c = true → is_ascii_char c = true.
Proof.
  unfold is_base32_upper, decode_char, in_range, is_ascii_char. intros H. apply N.ltb_lt.
  repeat case_match; simplify_eq; bools; rewrite ?N.leb_le in *; lia.
Qed.
Lemma DecodeString_ascii s bs :
  DecodeString s = Some bs → (length bs mod 5 = 0)%nat → is_ascii s = true.
Proof.
  intros H Hmod. apply decode_go_digits_only in H; [|simpl; lia|done].
  induction s as [|c s IH]; [done|]. simpl in *. destruct (is_newline c) eqn:Hn.
  - unfold is_ascii. simpl. rewrite andb_true_iff. split; [|by apply IH].
    unfold is_newline in Hn. unfold is_ascii_char. apply N.ltb_lt.
    apply orb_true_iff in Hn as [Hn|Hn]; apply N.eqb_eq in Hn; lia.
  - simpl in H. bools. unfold is_ascii. simpl. rewrite is_base32_upper_ascii by done. by apply IH.
Qed.

Lemma length_EncodeToString bs :
  (length bs mod 5 = 0)%nat → (5 * String.length (EncodeToString bs) = 8 * length bs)%nat.
Proof.
  induction bs as [bs Hlt|bs rest Hlen IH] using bytes_blocks_ind; intros Hmod.
  - rewrite Nat.mod_small in Hmod by done. by destruct bs.
  - rewrite EncodeToString_block, str_length_app, length_string_of_digits by done.
    rewrite encode_block_full, length_to_digits, length_app, Hlen by done.
    rewrite length_app, Hlen, <- Nat.Div0.add_mod_idemp_l in Hmod.
    specialize (IH Hmod). lia.
Qed.
