(* ===== verification/Sha.v ===== *)
(** * SHA3-256 and SHA-512

    The two hash functions of Go's standard library that the address checksum
    ([crypto/sha3]) and the expansion of an ed25519 seed ([crypto/sha512]) use,
    executable on byte lists and checked against published test vectors. *)

From Stdlib Require Import NArith.
From S2P Require Import Prelude.
#[local] Open Scope N_scope.

(** 64-bit words *)
Definition mask64 (x : N) : N := N.land x (N.ones 64).
Definition rotl64 (x r : N) : N := mask64 (N.lor (N.shiftl x r) (N.shiftr x (64 - r))).
Definition rotr64 (x r : N) : N := rotl64 x (64 - r).
Definition not64 (x : N) : N := N.lxor x (N.ones 64).
Definition add64 (x y : N) : N := mask64 (x + y).

Fixpoint le_word (bs : bytes) : N :=
  match bs with [] => 0 | b :: bs => byte_val b + 256 * le_word bs end.
Definition be_word (bs : bytes) : N := le_word (rev bs).
Fixpoint le_bytes (n : nat) (w : N) : bytes :=
  match n with O => [] | S n => byte_of w :: le_bytes n (w / 256) end.
Definition be_bytes (n : nat) (w : N) : bytes := rev (le_bytes n w).

(** [chunks n fuel l]: the consecutive groups of [n]; [fuel = length l] suffices. *)
Fixpoint chunks {A} (n fuel : nat) (l : list A) : list (list A) :=
  match fuel, l with
  | S fuel, _ :: _ => take n l :: chunks n fuel (drop n l)
  | _, _ => []
  end.

(** ** SHA3-256 *)
Definition keccak_rc : list N :=
  [0x0000000000000001; 0x0000000000008082; 0x800000000000808a;
   0x8000000080008000; 0x000000000000808b; 0x0000000080000001;
   0x8000000080008081; 0x8000000000008009; 0x000000000000008a;
   0x0000000000000088; 0x0000000080008009; 0x000000008000000a;
   0x000000008000808b; 0x800000000000008b; 0x8000000000008089;
   0x8000000000008003; 0x8000000000008002; 0x8000000000000080;
   0x000000000000800a; 0x800000008000000a; 0x8000000080008081;
   0x8000000000008080; 0x0000000080000001; 0x8000000080008008].
Definition keccak_rot : list N :=
  [0; 1; 62; 28; 27; 36; 44; 6; 55; 20; 3; 10; 43; 25; 39; 41; 45; 15; 21; 8; 18; 2; 61; 56; 14].

Definition lane (s : list N) (x y : nat) : N := nth (x mod 5 + 5 * (y mod 5))%nat s 0.
(** A state from its lanes, in the order x + 5y. *)
Definition tabulate25 (f : nat → nat → N) : list N :=
  map (λ i, f (i mod 5)%nat (i / 5)%nat) (seq 0 25).

Definition keccak_round (s : list N) (rc : N) : list N :=
  let c := map (λ x, foldr N.lxor 0 (map (lane s x) (seq 0 5))) (seq 0 5) in
  let col x := nth (x mod 5)%nat c 0 in
  let theta := tabulate25 (λ x y, N.lxor (lane s x y) (N.lxor (col (x + 4)%nat) (rotl64 (col (x + 1)%nat) 1))) in
  let rho := zip_with rotl64 theta keccak_rot in
  (* pi: B[y, 2x+3y] = rho[x, y], read from the target (x', y'): x = x' + 3y', y = x' *)
  let pi := tabulate25 (λ x y, lane rho (x + 3 * y)%nat x) in
  let chi := tabulate25 (λ x y,
    N.lxor (lane pi x y) (N.land (not64 (lane pi (x + 1)%nat y)) (lane pi (x + 2)%nat y))) in
  match chi with a :: r => N.lxor a rc :: r | [] => [] end.
Definition keccak_f (s : list N) : list N := foldl keccak_round s keccak_rc.

Definition sha3_rate : nat := 136.
Definition sha3_pad (m : bytes) : bytes :=
  let q := (sha3_rate - length m mod sha3_rate)%nat in
  if (q =? 1)%nat then m ++ [byte_of 0x86]
  else m ++ [byte_of 0x06] ++ replicate (q - 2) Byte.x00 ++ [byte_of 0x80].
Definition absorb (s : list N) (block : bytes) : list N :=
  let ws := map le_word (chunks 8 17 block) in
  keccak_f (zip_with N.lxor s (ws ++ replicate 8 0)).
Definition sha3_256 (m : bytes) : bytes :=
  let p := sha3_pad m in
  let s := foldl absorb (replicate 25 0) (chunks sha3_rate (length p) p) in
  take 32 (concat (map (le_bytes 8) (take 4 (s ++ replicate 4 0)))).

(** ** SHA-512 *)
Definition sha512_k : list N :=
  [0x428a2f98d728ae22; 0x7137449123ef65cd; 0xb5c0fbcfec4d3b2f;
   0xe9b5dba58189dbbc; 0x3956c25bf348b538; 0x59f111f1b605d019;
   0x923f82a4af194f9b; 0xab1c5ed5da6d8118; 0xd807aa98a3030242;
   0x12835b0145706fbe; 0x243185be4ee4b28c; 0x550c7dc3d5ffb4e2;
   0x72be5d74f27b896f; 0x80deb1fe3b1696b1; 0x9bdc06a725c71235;
   0xc19bf174cf692694; 0xe49b69c19ef14ad2; 0xefbe4786384f25e3;
   0x0fc19dc68b8cd5b5; 0x240ca1cc77ac9c65; 0x2de92c6f592b0275;
   0x4a7484aa6ea6e483; 0x5cb0a9dcbd41fbd4; 0x76f988da831153b5;
   0x983e5152ee66dfab; 0xa831c66d2db43210; 0xb00327c898fb213f;
   0xbf597fc7beef0ee4; 0xc6e00bf33da88fc2; 0xd5a79147930aa725;
   0x06ca6351e003826f; 0x142929670a0e6e70; 0x27b70a8546d22ffc;
   0x2e1b21385c26c926; 0x4d2c6dfc5ac42aed; 0x53380d139d95b3df;
   0x650a73548baf63de; 0x766a0abb3c77b2a8; 0x81c2c92e47edaee6;
   0x92722c851482353b; 0xa2bfe8a14cf10364; 0xa81a664bbc423001;
   0xc24b8b70d0f89791; 0xc76c51a30654be30; 0xd192e819d6ef5218;
   0xd69906245565a910; 0xf40e35855771202a; 0x106aa07032bbd1b8;
   0x19a4c116b8d2d0c8; 0x1e376c085141ab53; 0x2748774cdf8eeb99;
   0x34b0bcb5e19b48a8; 0x391c0cb3c5c95a63; 0x4ed8aa4ae3418acb;
   0x5b9cca4f7763e373; 0x682e6ff3d6b2b8a3; 0x748f82ee5defb2fc;
   0x78a5636f43172f60; 0x84c87814a1f0ab72; 0x8cc702081a6439ec;
   0x90befffa23631e28; 0xa4506cebde82bde9; 0xbef9a3f7b2c67915;
   0xc67178f2e372532b; 0xca273eceea26619c; 0xd186b8c721c0c207;
   0xeada7dd6cde0eb1e; 0xf57d4f7fee6ed178; 0x06f067aa72176fba;
   0x0a637dc5a2c898a6; 0x113f9804bef90dae; 0x1b710b35131c471b;
   0x28db77f523047d84; 0x32caab7b40c72493; 0x3c9ebe0a15c9bebc;
   0x431d67c49c100d4c; 0x4cc5d4becb3e42b6; 0x597f299cfc657e2a;
   0x5fcb6fab3ad6faec; 0x6c44198c4a475817].
Definition sha512_h0 : list N :=
  [0x6a09e667f3bcc908; 0xbb67ae8584caa73b; 0x3c6ef372fe94f82b;
   0xa54ff53a5f1d36f1; 0x510e527fade682d1; 0x9b05688c2b3e6c1f;
   0x1f83d9abfb41bd6b; 0x5be0cd19137e2179].

Definition xor3 (x y z : N) : N := N.lxor x (N.lxor y z).
Definition big_sigma0 (x : N) : N := xor3 (rotr64 x 28) (rotr64 x 34) (rotr64 x 39).
Definition big_sigma1 (x : N) : N := xor3 (rotr64 x 14) (rotr64 x 18) (rotr64 x 41).
Definition small_sigma0 (x : N) : N := xor3 (rotr64 x 1) (rotr64 x 8) (N.shiftr x 7).
Definition small_sigma1 (x : N) : N := xor3 (rotr64 x 19) (rotr64 x 61) (N.shiftr x 6).

(** The message schedule, most recent word first. *)
Fixpoint schedule (n : nat) (w : list N) : list N :=
  match n with
  | O => w
  | S n =>
      schedule n (add64 (add64 (small_sigma1 (nth 1 w 0)) (nth 6 w 0))
                        (add64 (small_sigma0 (nth 14 w 0)) (nth 15 w 0)) :: w)
  end.
Definition sha512_round (st : list N) (kw : N) : list N :=
  match st with
  | [a; b; c; d; e; f; g; h] =>
      let ch := N.lxor (N.land e f) (N.land (not64 e) g) in
      let maj := xor3 (N.land a b) (N.land a c) (N.land b c) in
      let t1 := add64 (add64 h (big_sigma1 e)) (add64 ch kw) in
      let t2 := add64 (big_sigma0 a) maj in
      [add64 t1 t2; a; b; c; add64 d t1; e; f; g]
  | _ => st
  end.
Definition sha512_block (hs : list N) (block : bytes) : list N :=
  let w := rev (schedule 64 (rev (map be_word (chunks 8 16 block)))) in
  zip_with add64 hs (foldl sha512_round hs (zip_with add64 sha512_k w)).
Definition sha512_pad (m : bytes) : bytes :=
  let z := ((239 - length m mod 128) mod 128)%nat in
  m ++ [byte_of 0x80] ++ replicate z Byte.x00 ++ be_bytes 16 (8 * N.of_nat (length m)).
Definition sha512 (m : bytes) : bytes :=
  let p := sha512_pad m in
  let hs := foldl sha512_block sha512_h0 (chunks 128 (length p) p) in
  concat (map (be_bytes 8) (take 8 (hs ++ replicate 8 0))).

(** * Lengths *)
Lemma length_le_bytes n w : length (le_bytes n w) = n.
Proof. revert w; induction n; intros w; simpl; [done | by rewrite IHn]. Qed.
Lemma length_be_bytes n w : length (be_bytes n w) = n.
Proof. unfold be_bytes. by rewrite length_rev, length_le_bytes. Qed.

Lemma length_concat_map {A B} (f : A → list B) n l :
  (∀ a, length (f a) = n) → length (concat (map f l)) = (length l * n)%nat.
Proof. intros H. induction l; simpl; [done|]. rewrite length_app, H, IHl. done. Qed.

Lemma length_sha3_256 m : length (sha3_256 m) = 32%nat.
Proof.
  unfold sha3_256. rewrite length_take, (length_concat_map _ 8) by (apply length_le_bytes).
  rewrite length_take, length_app, length_replicate. lia.
Qed.
Lemma length_sha512 m : length (sha512 m) = 64%nat.
Proof.
  unfold sha512. rewrite (length_concat_map _ 8) by (apply length_be_bytes).
  rewrite length_take, length_app, length_replicate. lia.
Qed.
#[export] Hint Rewrite length_sha3_256 length_sha512 : bytes_len.
#[global] Opaque sha3_256 sha512.

(** ** Test vectors (FIPS 180-4, FIPS 202), the message "abc" *)
Example sha3_256_abc :
  be_word (sha3_256 (bytes_of_string "abc")) =
  0x3a985da74fe225b2045c172d6bd390bd855f086e3e9d525b46bfe24511431532.
Proof. vm_compute. reflexivity. Qed.
Example sha3_256_two_blocks :
  be_word (sha3_256 (replicate 135 Byte.x61)) =
  0x8094bb53c44cfb1e67b7c30447f9a1c33696d2463ecc1d9c92538913392843c9.
Proof. vm_compute. reflexivity. Qed.
Example sha512_abc :
  be_word (sha512 (bytes_of_string "abc")) =
  0xddaf35a193617abacc417349ae20413112e6fa4e89a97ea20a9eeee64b55d39a2192992a274fc1a836ba3c23a3feebbd454d4423643ce80e2a9ac94fa54ca49f.
Proof. vm_compute. reflexivity. Qed.
Example sha512_two_blocks :
  be_word (sha512 (replicate 112 Byte.x61)) =
  0xc01d080efd492776a1c43bd23dd99d0a2e626d481e16782e75d54c2503b5dc32bd05f0f1ba33e568b88fd2d970929b719ecbb152f58f130a407c8830604b70ca.
Proof. vm_compute. reflexivity. Qed.
