(* ===== verification/Onion.v ===== *)
(** * v3 onion addresses (internal/tor/onion.go)

    The address type, its derivation from an ed25519 public key, its text form and
    the parser; [ParseAddress] is characterised completely by [parse_address_iff]. *)

From Stdlib Require Import Ascii NArith.
From S2P Require Import Prelude GoStrings Base32 Sha.

(** [ed25519.PublicKeySize] *)
Definition PublicKeySize : nat := 32.
Definition onionAddressVersion : byte := byte_of 3.
Definition onionMagic : string := ".onion checksum".
Definition onionSuffix : string := ".onion".
Definition onionAddressBodyLen : nat := PublicKeySize + 2 + 1.
Definition onionAddressBase32Len : nat := 56.

Record OnionAddress := { pubKey : bytes }.
#[export] Instance OnionAddress_eq_dec : EqDecision OnionAddress.
Proof. solve_decision. Defined.

Inductive onion_error :=
| ErrKeyLength (got : nat)        (* invalid ed25519 public key length *)
| ErrMissingSuffix                (* address missing .onion suffix *)
| ErrBodyLength (got : nat)       (* address body has wrong length *)
| ErrBase32                       (* invalid base32 in address *)
| ErrDecodedLength (got : nat)    (* decoded address has wrong length *)
| ErrVersion (got : byte)         (* address version byte *)
| ErrChecksum.                    (* address checksum mismatch *)

Definition AddressFromPublicKey (pub : bytes) : result onion_error OnionAddress :=
  guard! length pub =? PublicKeySize else ErrKeyLength (length pub);;
  Ok {| pubKey := pub |}.

Definition onionChecksum (pub : bytes) : bytes :=
  take 2 (sha3_256 (bytes_of_string onionMagic ++ pub ++ [onionAddressVersion])).

Definition onion_body (pub : bytes) : bytes :=
  pub ++ onionChecksum pub ++ [onionAddressVersion].

(** [OnionAddress.String]; the zero value prints as the empty string.  The argument
    of [strings.ToLower] is ASCII ([ToLower_EncodeToString] below). *)
Definition OnionAddress_String (a : OnionAddress) : string :=
  if length (pubKey a) =? PublicKeySize
  then ascii_lower (EncodeToString (onion_body (pubKey a))) +:+ onionSuffix
  else "".

(** [OnionAddress.PublicKey]: a copy of the key. *)
Definition OnionAddress_PublicKey (a : OnionAddress) : bytes := pubKey a.

Section parse.
Context {U : UnicodeCase}.

(** [ParseAddress] from the trimmed, lower-cased text on. *)
Definition parse_lower (lower : string) : result onion_error OnionAddress :=
  let stripped := TrimSuffix lower onionSuffix in
  guard! negb (stripped =? lower)%string else ErrMissingSuffix;;
  guard! String.length stripped =? onionAddressBase32Len
    else ErrBodyLength (String.length stripped);;
  match DecodeString (ToUpper stripped) with
  | None => Err ErrBase32
  | Some raw =>
      guard! length raw =? onionAddressBodyLen else ErrDecodedLength (length raw);;
      let version := nth 34 raw Byte.x00 in
      guard! Byte.eqb version onionAddressVersion else ErrVersion version;;
      let pub := take PublicKeySize raw in
      guard! bool_decide (onionChecksum pub = take 2 (drop 32 raw)) else ErrChecksum;;
      Ok {| pubKey := pub |}
  end.
Definition ParseAddress (addr : string) : result onion_error OnionAddress :=
  parse_lower (ToLower (TrimSpace addr)).
End parse.

(** The constructed values: 32-byte keys. *)
Definition onion_wf (a : OnionAddress) : Prop := length (pubKey a) = PublicKeySize.

(** * Lemmas *)

Lemma length_onionChecksum pub : length (onionChecksum pub) = 2.
Proof. unfold onionChecksum. rewrite length_take, length_sha3_256. done. Qed.
Lemma length_onion_body pub : length pub = 32 → length (onion_body pub) = 35.
Proof.
  intros H. unfold onion_body. rewrite !length_app, length_onionChecksum, H. done.
Qed.
#[export] Hint Rewrite length_onionChecksum : bytes_len.

(** ** Case folding of base32 text *)
Definition is_base32_lower (c : ascii) : bool := in_range 97 122 c || in_range 50 55 c.
Definition is_onion_char (c : ascii) : bool := is_base32_lower c || Ascii.eqb c "."%char.

Lemma ascii_lower_base32 s :
  str_forallb is_base32_upper s = true → str_forallb is_base32_lower (ascii_lower s) = true.
Proof.
  intros H. unfold ascii_lower. rewrite str_forallb_map. revert H. apply str_forallb_impl.
  apply ascii_impl. vm_compute. reflexivity.
Qed.
Lemma ascii_upper_lower_base32 s :
  str_forallb is_base32_upper s = true → ascii_upper (ascii_lower s) = s.
Proof.
  intros H. unfold ascii_upper, ascii_lower. rewrite str_map_map.
  apply (str_map_id_on _ is_base32_upper); [|done].
  apply (ascii_impl_eq _ (upper_char ∘ lower_char) id). vm_compute. reflexivity.
Qed.
(** On text without upper-case letters, upper-casing is undone by lower-casing. *)
Definition is_lower_ascii (c : ascii) : bool := is_ascii_char c && not_capital c.
Lemma ascii_lower_upper s :
  str_forallb is_lower_ascii s = true → ascii_lower (ascii_upper s) = s.
Proof.
  intros H. unfold ascii_upper, ascii_lower. rewrite str_map_map.
  apply (str_map_id_on _ is_lower_ascii); [|done].
  apply (ascii_impl_eq _ (lower_char ∘ upper_char) id). vm_compute. reflexivity.
Qed.
Lemma is_ascii_lower s : is_ascii (ascii_lower s) = is_ascii s.
Proof.
  unfold is_ascii, ascii_lower. rewrite str_forallb_map.
  induction s as [|c s IH]; simpl; [done|]. rewrite IH. f_equal.
  apply eqb_true_iff. revert c. apply ascii_forall. vm_compute. reflexivity.
Qed.
Lemma ascii_lower_lower_ascii s :
  is_ascii s = true → str_forallb is_lower_ascii (ascii_lower s) = true.
Proof.
  intros H. unfold ascii_lower. rewrite str_forallb_map. revert H. apply str_forallb_impl.
  apply ascii_impl. vm_compute. reflexivity.
Qed.
Lemma base32_lower_ascii s : str_forallb is_base32_lower s = true → str_forallb is_lower_ascii s = true.
Proof. apply str_forallb_impl, ascii_impl. vm_compute. reflexivity. Qed.
Lemma lower_ascii_ascii s : str_forallb is_lower_ascii s = true → is_ascii s = true.
Proof. apply str_forallb_impl, ascii_impl. vm_compute. reflexivity. Qed.

(** [strings.ToLower] sees ASCII text in [String], so its fast path is taken. *)
Lemma EncodeToString_ascii bs : is_ascii (EncodeToString bs) = true.
Proof.
  generalize (EncodeToString_upper bs). apply str_forallb_impl. apply is_base32_upper_ascii.
Qed.
Lemma ToLower_EncodeToString {U : UnicodeCase} bs :
  ToLower (EncodeToString bs) = ascii_lower (EncodeToString bs).
Proof. unfold ToLower. by rewrite EncodeToString_ascii. Qed.

(** ** The text form *)
Lemma OnionAddress_String_wf a :
  onion_wf a →
  OnionAddress_String a = ascii_lower (EncodeToString (onion_body (pubKey a))) +:+ onionSuffix.
Proof. unfold OnionAddress_String, onion_wf. intros ->. done. Qed.

Lemma length_onion_text pub :
  length pub = 32 → String.length (ascii_lower (EncodeToString (onion_body pub))) = 56.
Proof.
  intros H. unfold ascii_lower. rewrite str_length_map.
  pose proof (length_onion_body pub H) as Hb.
  pose proof (length_EncodeToString (onion_body pub)) as He. rewrite Hb in He. specialize (He eq_refl). lia.
Qed.
Lemma length_OnionAddress_String a : onion_wf a → String.length (OnionAddress_String a) = 62.
Proof.
  intros H. rewrite OnionAddress_String_wf by done.
  rewrite str_length_app, length_onion_text by done. done.
Qed.

Lemma onion_string_chars a : str_forallb is_onion_char (OnionAddress_String a) = true.
Proof.
  unfold OnionAddress_String. destruct (_ =? _); [|done].
  rewrite str_forallb_app. apply andb_true_iff. split; [|done].
  generalize (ascii_lower_base32 _ (EncodeToString_upper (onion_body (pubKey a)))).
  apply str_forallb_impl. intros c Hc. unfold is_onion_char. by rewrite Hc.
Qed.

(** Trimming and lower-casing leave a printed address alone. *)
Lemma ToLower_TrimSpace_String {U : UnicodeCase} a :
  ToLower (TrimSpace (OnionAddress_String a)) = OnionAddress_String a.
Proof.
  pose proof (onion_string_chars a) as Hc.
  assert (is_ascii (OnionAddress_String a) = true) as Ha.
  { revert Hc. apply str_forallb_impl, ascii_impl. vm_compute. reflexivity. }
  unfold TrimSpace. rewrite Ha, ascii_trim_space_id.
  - unfold ToLower. rewrite Ha. apply (str_map_id_on _ is_onion_char); [|done].
    apply (ascii_impl_eq _ lower_char id). vm_compute. reflexivity.
  - revert Hc. apply str_forallb_impl, ascii_impl. vm_compute. reflexivity.
Qed.

(** Well-formed addresses with the same text are the same address. *)
Lemma OnionAddress_String_inj a b :
  onion_wf a → onion_wf b → OnionAddress_String a = OnionAddress_String b → a = b.
Proof.
  intros Ha Hb. rewrite !OnionAddress_String_wf by done. intros H%str_app_inj_r.
  apply (f_equal ascii_upper) in H.
  rewrite !ascii_upper_lower_base32 in H by apply EncodeToString_upper.
  apply (f_equal DecodeString) in H.
  rewrite !DecodeString_EncodeToString in H by (by rewrite length_onion_body).
  injection H as H. unfold onion_body in H.
  apply app_inj_1 in H as [H _]; [|congruence].
  destruct a, b; simpl in *; congruence.
Qed.

(** ** The parser *)
Section parse_lemmas.
Context {U : UnicodeCase}.

(** A body that upper-cases to 35 decodable bytes is ASCII. *)
Lemma ToUpper_decodes_ascii s raw :
  String.length s = 56 → DecodeString (ToUpper s) = Some raw → length raw = 35 →
  is_ascii s = true.
Proof.
  intros Hs Hd Hr. destruct (is_ascii s) eqn:Ha; [done|exfalso].
  assert (is_ascii (ToUpper s) = true) as Hu by (eapply DecodeString_ascii; [done|by rewrite Hr]).
  pose proof (DecodeString_bound _ _ Hd) as Hb.
  unfold ToUpper in *. rewrite Ha in *.
  pose proof (uni_upper_shrinks s Ha Hu). lia.
Qed.

(** The raw bytes of an accepted body: key, checksum, version. *)
Lemma raw_layout raw :
  length raw = 35 → nth 34 raw Byte.x00 = onionAddressVersion →
  onionChecksum (take 32 raw) = take 2 (drop 32 raw) → raw = onion_body (take 32 raw).
Proof.
  intros Hlen Hv Hc. unfold onion_body. rewrite Hc.
  rewrite <- (take_drop 32 raw) at 1. f_equal.
  rewrite <- (take_drop 2 (drop 32 raw)) at 1. f_equal. rewrite drop_drop. simpl Nat.add.
  rewrite <- Hv. clear Hv Hc.
  do 35 (destruct raw as [|? raw]; [simpl in Hlen; lia|]).
  destruct raw; [done | simpl in Hlen; lia].
Qed.

Lemma parse_lower_Ok lower a :
  str_forallb is_lower_ascii lower = true ∨ is_ascii lower = false →
  parse_lower lower = Ok a → onion_wf a ∧ OnionAddress_String a = lower.
Proof.
  unfold parse_lower. intros Hlow H. invert_ok. bools.
  destruct (HasSuffix lower onionSuffix) eqn:Hsuf; [|by rewrite TrimSuffix_id in *].
  apply HasSuffix_true in Hsuf as [body ->]. rewrite TrimSuffix_app in *.
  destruct (DecodeString (ToUpper body)) as [raw|] eqn:Hd; [|done].
  invert_ok. bools. subst a. apply Byte.byte_dec_bl in H2.
  assert (length (take 32 raw) = 32) as Hpub by (rewrite length_take, H1; done).
  split; [done|]. rewrite OnionAddress_String_wf by done. simpl. f_equal.
  assert (is_ascii body = true) as Hb by (by eapply ToUpper_decodes_ascii).
  rewrite <- raw_layout by done.
  rewrite (EncodeToString_DecodeString (ToUpper body)); [|done|].
  - unfold ToUpper. rewrite Hb. apply ascii_lower_upper.
    destruct Hlow as [Hlow|Hlow].
    + rewrite str_forallb_app in Hlow. by apply andb_true_iff in Hlow as [? _].
    + unfold is_ascii in *. by rewrite str_forallb_app, Hb in Hlow.
  - unfold ToUpper. rewrite Hb. unfold ascii_upper. by rewrite str_length_map, H1, H0.
Qed.

Lemma parse_lower_String a :
  onion_wf a → parse_lower (OnionAddress_String a) = Ok a.
Proof.
  intros Ha. pose proof (length_onion_text _ Ha) as Hlen.
  pose proof (ascii_lower_base32 _ (EncodeToString_upper (onion_body (pubKey a)))) as Hlow.
  rewrite OnionAddress_String_wf by done. unfold parse_lower. rewrite TrimSuffix_app.
  replace (_ =? _)%string with false; simpl.
  2: { symmetry. apply String.eqb_neq. intros H%(f_equal String.length).
       rewrite str_length_app in H. simpl in H. lia. }
  rewrite Hlen. simpl.
  unfold ToUpper. rewrite lower_ascii_ascii by (by apply base32_lower_ascii).
  rewrite ascii_upper_lower_base32 by apply EncodeToString_upper.
  rewrite DecodeString_EncodeToString by (by rewrite length_onion_body).
  rewrite length_onion_body by done. simpl. unfold onion_body.
  rewrite take_app_length' by done.
  unfold onion_wf in Ha. rewrite app_nth2, Ha by (rewrite Ha; unfold PublicKeySize; lia).
  rewrite app_nth2 by (rewrite length_onionChecksum; unfold PublicKeySize; lia).
  rewrite length_onionChecksum. simpl.
  rewrite drop_app_length' by done. rewrite take_app_length' by (by rewrite length_onionChecksum).
  rewrite bool_decide_true by done. by destruct a.
Qed.

(** What lower-casing leaves: no ASCII capital, or a non-ASCII byte. *)
Lemma ToLower_shape s :
  str_forallb is_lower_ascii (ToLower s) = true ∨ is_ascii (ToLower s) = false.
Proof.
  unfold ToLower. destruct (is_ascii s) eqn:Ha.
  - left. by apply ascii_lower_lower_ascii.
  - destruct (is_ascii (uni_lower s)) eqn:Hu; [left|by right].
    pose proof (uni_lower_not_capital s) as Hc. unfold is_ascii in Hu.
    revert Hu Hc. generalize (uni_lower s). clear. induction s as [|c s IH]; [done|].
    simpl. intros Hu Hc. unfold is_lower_ascii at 1.
    apply andb_true_iff in Hu as [-> ?], Hc as [-> ?]. by apply IH.
Qed.
Lemma ParseAddress_wf addr a : ParseAddress addr = Ok a → onion_wf a.
Proof. intros H. apply parse_lower_Ok in H as [? _]; [done|]. apply ToLower_shape. Qed.
Lemma ParseAddress_String a : onion_wf a → ParseAddress (OnionAddress_String a) = Ok a.
Proof. intros H. unfold ParseAddress. rewrite ToLower_TrimSpace_String. by apply parse_lower_String. Qed.
End parse_lemmas.

(** * The contract *)
Section contract.
Context {U : UnicodeCase}.

(** C24.  [ParseAddress] accepts exactly the texts that trim and fold to the canonical
    text of a well-formed address, and returns that address: on every other
    input it returns an error.  In particular an accepted address prints back to
    its input up to surrounding space and letter case, and the checksum, the
    version byte and the length have been checked. *)
Theorem parse_address_iff (addr : string) (a : OnionAddress) :
  ParseAddress addr = Ok a ↔ onion_wf a ∧ ToLower (TrimSpace addr) = OnionAddress_String a.
Proof.
  unfold ParseAddress. split.
  - intros H. apply parse_lower_Ok in H as [Hwf Hs]; [done|]. apply ToLower_shape.
  - intros [Hwf ->]. by apply parse_lower_String.
Qed.

(** Round trip: an address made from a 32-byte public key prints as 62 characters
    of the lower-case base32 alphabet and ".onion", the text parses back to the
    same address, and the address still holds the key. *)
Theorem onion_roundtrip (pub : bytes) (a : OnionAddress) :
  AddressFromPublicKey pub = Ok a →
  ParseAddress (OnionAddress_String a) = Ok a ∧ OnionAddress_PublicKey a = pub ∧
  String.length (OnionAddress_String a) = 62 ∧
  str_forallb is_onion_char (OnionAddress_String a) = true.
Proof.
  unfold AddressFromPublicKey. intros H. invert_ok. bools. subst a. split_and!; try done.
  - by apply ParseAddress_String.
  - by apply length_OnionAddress_String.
  - apply onion_string_chars.
Qed.
End contract.

Definition zero_key : bytes := replicate 32 Byte.x00.
Lemma onion_roundtrip_witness :
  AddressFromPublicKey zero_key = Ok {| pubKey := zero_key |} ∧
  ParseAddress (OnionAddress_String {| pubKey := zero_key |}) = Ok {| pubKey := zero_key |}.
Proof.
  split; [reflexivity|].
  exact (proj1 (onion_roundtrip zero_key {| pubKey := zero_key |} eq_refl)).
Defined.

(** The address of the all-zero key; surrounding space and capitals are accepted, a
    changed character is not. *)
Example onion_zero_text :
  OnionAddress_String {| pubKey := zero_key |} =
  "aaaaaaaaaaaaaaaaaaaaaaaaaaaaaaaaaaaaaaaaaaaaaaaaaaam2dqd.onion".
Proof. vm_compute. reflexivity. Qed.
Example onion_zero_parse :
  ParseAddress " AAAAAAAAAAAAAAAAAAAAAAAAAAAAAAAAAAAAAAAAAAAAAAAAAAAM2DQD.Onion " =
  Ok {| pubKey := zero_key |}.
Proof. vm_compute. reflexivity. Qed.
Example onion_zero_tampered :
  ParseAddress "baaaaaaaaaaaaaaaaaaaaaaaaaaaaaaaaaaaaaaaaaaaaaaaaaam2dqd.onion" = Err ErrChecksum.
Proof. vm_compute. reflexivity. Qed.
