(* ===== verification/Keys.v ===== *)
(** * Hidden-service keys (internal/tor/keys.go, internal/tor/master_key.go)

    The key pair in the expanded form Tor keeps on disk, its two file formats, key
    generation, and the validation of an onionbalance master key Secret.  The group
    operation of edwards25519 is the class [Ed25519]. *)

From Stdlib Require Import NArith.
From S2P Require Import Prelude GoStrings Sha Onion.

Definition tagSecret : string := "== ed25519v1-secret: type0 ==".
Definition tagPublic : string := "== ed25519v1-public: type0 ==".
Definition headerLen : nat := 32.
Definition expandedSecretLen : nat := 64.
Definition SecretKeyFileSize : nat := headerLen + expandedSecretLen.
Definition PublicKeyFileSize : nat := headerLen + PublicKeySize.

Definition FileSecretKeyName : string := "hs_ed25519_secret_key".
Definition FilePublicKeyName : string := "hs_ed25519_public_key".
Definition FileHostnameName : string := "hostname".

Record KeyPair := { publicKey : bytes; expanded : bytes }.
#[export] Instance KeyPair_eq_dec : EqDecision KeyPair.
Proof. solve_decision. Defined.

Inductive key_error :=
| ErrGenerate (cause : string)       (* tor: generate ed25519 key: %w *)
| ErrSecretSize (got : nat)
| ErrSecretMagic
| ErrSecretNotClamped
| ErrPublicSize (got : nat)
| ErrPublicMagic.
#[export] Instance key_error_eq_dec : EqDecision key_error.
Proof. solve_decision. Defined.

(** ** Bit clamping *)
Definition byte_and (m : N) (b : byte) : byte := byte_of (N.land (byte_val b) m).
Definition byte_or (m : N) (b : byte) : byte := byte_of (N.lor (byte_val b) m).
(** [h[0] &= 248; h[31] &= 127; h[31] |= 64] *)
Definition clamp (h : bytes) : bytes :=
  alter (byte_or 64) 31 (alter (byte_and 127) 31 (alter (byte_and 248) 0 h)).

(** [header]: the tag, NUL-padded to 32 bytes.  The panic on a longer tag is out of
    reach: the function is applied to the two tags above ([tags_fit]). *)
Definition header (tag : string) : bytes :=
  let t := bytes_of_string tag in t ++ replicate (headerLen - length t) Byte.x00.

(** [expandSeed]; [GenerateKeyPair] passes 32 bytes, so its panic is out of reach. *)
Definition expandSeed (seed : bytes) : bytes := clamp (sha512 seed).

Definition looksClamped (body : bytes) : bool :=
  if length body <? expandedSecretLen then false
  else (N.land (byte_val (nth 0 body Byte.x00)) 0x07 =? 0)%N &&
       (N.land (byte_val (nth 31 body Byte.x00)) 0xC0 =? 0x40)%N.

(** ** Files *)
Definition SecretKeyFile (k : KeyPair) : bytes := header tagSecret ++ expanded k.
Definition PublicKeyFile (k : KeyPair) : bytes := header tagPublic ++ publicKey k.

Definition ParseSecretKey (data : bytes) : result key_error bytes :=
  guard! length data =? SecretKeyFileSize else ErrSecretSize (length data);;
  guard! bool_decide (take headerLen data = header tagSecret) else ErrSecretMagic;;
  let body := drop headerLen data in
  guard! looksClamped body else ErrSecretNotClamped;;
  Ok body.

Definition ParsePublicKey (data : bytes) : result key_error bytes :=
  guard! length data =? PublicKeyFileSize else ErrPublicSize (length data);;
  guard! bool_decide (take headerLen data = header tagPublic) else ErrPublicMagic;;
  Ok (drop headerLen data).

Definition ParseFiles (secret public : bytes) : result key_error KeyPair :=
  let* exp := ParseSecretKey secret in
  let* pub := ParsePublicKey public in
  Ok {| publicKey := pub; expanded := exp |}.

(** ** Address *)
Definition KeyPair_OnionAddress (k : KeyPair) : OnionAddress :=
  match AddressFromPublicKey (publicKey k) with
  | Ok a => a
  | Err _ => {| pubKey := [] |}
  end.
Definition Hostname (k : KeyPair) : bytes :=
  bytes_of_string (OnionAddress_String (KeyPair_OnionAddress k) +:+ nl).

(** ** The group

    [clamped_base_mult x] is [ScalarBaseMult(SetBytesWithClamping(x)).Bytes()] of
    filippo.io/edwards25519, with [None] for the error of [SetBytesWithClamping].
    Documented: the error is returned exactly when [x] is not 32 bytes; the encoding
    of a point is 32 bytes; clamping (RFC 8032, 5.1.5) is applied first.  Go's
    [ed25519.NewKeyFromSeed] computes the public key of RFC 8032, which is this
    function of the first half of the seed's SHA-512. *)
Class Ed25519 := {
  clamped_base_mult : bytes → option bytes;
  clamped_base_mult_Some x : length x = 32 ↔ is_Some (clamped_base_mult x);
  clamped_base_mult_length x p : clamped_base_mult x = Some p → length p = 32;
  clamped_base_mult_clamp x : clamped_base_mult (clamp x) = clamped_base_mult x;
}.

(** ** Errors of [ValidateMasterKeySecret] *)
Inductive master_error :=
| ErrMasterKeyMissingSecret
| ErrMasterKeyMissingPublic
| ErrMasterKeyMismatch
| ErrMasterParse (e : key_error)     (* parse master key: %w *)
| ErrMasterScalar.                   (* master key scalar: %w *)
#[export] Instance master_error_eq_dec : EqDecision master_error.
Proof. solve_decision. Defined.

Section ed25519.
Context {Ed : Ed25519}.

(** [GenerateKeyPair rand]; [read] is what [io.ReadFull(rand, seed[:32])] returns. *)
Definition GenerateKeyPair (read : result string bytes) : result key_error KeyPair :=
  let* seed := wrap_err ErrGenerate read in
  Ok {| publicKey := default [] (clamped_base_mult (take 32 (sha512 seed)));
        expanded := expandSeed seed |}.

Definition ValidateMasterKeySecret (data : gmap string bytes) : result master_error KeyPair :=
  let secretBytes := default [] (data !! FileSecretKeyName) in
  guard! negb (length secretBytes =? 0) else ErrMasterKeyMissingSecret;;
  let publicBytes := default [] (data !! FilePublicKeyName) in
  guard! negb (length publicBytes =? 0) else ErrMasterKeyMissingPublic;;
  let* kp := wrap_err ErrMasterParse (ParseFiles secretBytes publicBytes) in
  match clamped_base_mult (take 32 (expanded kp)) with
  | None => Err ErrMasterScalar
  | Some derivedPub =>
      guard! bool_decide (derivedPub = drop headerLen publicBytes) else ErrMasterKeyMismatch;;
      Ok kp
  end.

Definition MasterOnionFromSecret (data : gmap string bytes) : result master_error OnionAddress :=
  let* kp := ValidateMasterKeySecret data in
  Ok (KeyPair_OnionAddress kp).
End ed25519.

(** The invariant of a constructed key pair. *)
Definition keypair_wf (k : KeyPair) : Prop :=
  length (publicKey k) = PublicKeySize ∧ length (expanded k) = expandedSecretLen ∧
  looksClamped (expanded k) = true.

(** * Lemmas *)
Lemma tags_fit :
  length (bytes_of_string tagSecret) ≤ headerLen ∧ length (bytes_of_string tagPublic) ≤ headerLen.
Proof. split; vm_compute; lia. Qed.
Lemma length_header_secret : length (header tagSecret) = headerLen.
Proof. reflexivity. Qed.
Lemma length_header_public : length (header tagPublic) = headerLen.
Proof. reflexivity. Qed.

Lemma length_clamp h : length (clamp h) = length h.
Proof. unfold clamp. by rewrite !length_alter. Qed.
Lemma length_expandSeed s : length (expandSeed s) = expandedSecretLen.
Proof. unfold expandSeed. by rewrite length_clamp, length_sha512. Qed.
#[export] Hint Rewrite length_header_secret length_header_public length_clamp length_expandSeed
  : bytes_len.

Lemma take_alter {A} (f : A → A) n i (l : list A) :
  i < n → take n (alter f i l) = alter f i (take n l).
Proof.
  revert i l. induction n as [|n IH]; intros [|i] [|x l] Hi; simpl; try lia; try done.
  f_equal. apply IH. lia.
Qed.
Lemma take_clamp n h : 31 < n → take n (clamp h) = clamp (take n h).
Proof. intros H. unfold clamp. by rewrite !take_alter by lia. Qed.

(** ** Clamped bytes look clamped *)
Definition all_bytes : list byte := map (λ n, byte_of (N.of_nat n)) (seq 0 256).
Lemma byte_forall (P : byte → bool) : forallb P all_bytes = true → ∀ b, P b = true.
Proof.
  intros H b. rewrite forallb_forall in H. apply H.
  rewrite <- (byte_of_val b). apply in_map_iff. exists (N.to_nat (byte_val b)).
  split; [f_equal; lia|]. apply in_seq. pose proof (byte_val_lt b). lia.
Qed.

Lemma looksClamped_clamp h : length h = expandedSecretLen → looksClamped (clamp h) = true.
Proof.
  intros H. unfold looksClamped. rewrite length_clamp, H, Nat.ltb_irrefl. unfold clamp.
  do 32 (destruct h as [|? h]; [discriminate H|]). clear H. simpl.
  apply andb_true_iff. split.
  - apply (byte_forall (λ b, (N.land (byte_val (byte_and 248 b)) 0x07 =? 0)%N)).
    vm_compute. reflexivity.
  - apply (byte_forall (λ b, (N.land (byte_val (byte_or 64 (byte_and 127 b))) 0xC0 =? 0x40)%N)).
    vm_compute. reflexivity.
Qed.

(** ** Files *)
Lemma length_SecretKeyFile k : length (SecretKeyFile k) = headerLen + length (expanded k).
Proof. unfold SecretKeyFile. by rewrite length_app. Qed.
Lemma length_PublicKeyFile k : length (PublicKeyFile k) = headerLen + length (publicKey k).
Proof. unfold PublicKeyFile. by rewrite length_app. Qed.

Lemma SecretKeyFile_ne k : SecretKeyFile k ≠ [].
Proof. intros H%(f_equal length). by rewrite length_SecretKeyFile in H. Qed.
Lemma PublicKeyFile_ne k : PublicKeyFile k ≠ [].
Proof. intros H%(f_equal length). by rewrite length_PublicKeyFile in H. Qed.

Lemma ParseSecretKey_iff data e :
  ParseSecretKey data = Ok e ↔
  length e = expandedSecretLen ∧ looksClamped e = true ∧ data = header tagSecret ++ e.
Proof.
  unfold ParseSecretKey. split.
  - intros H. invert_ok. bools. subst e. split_and!; [|done|].
    + rewrite length_drop, H. done.
    + rewrite <- (take_drop headerLen data) at 1. congruence.
  - intros (Hlen & Hc & ->). unfold SecretKeyFileSize.
    rewrite length_app, Hlen, length_header_secret, Nat.eqb_refl.
    rewrite take_app_length', drop_app_length', bool_decide_true, Hc by done. done.
Qed.
Lemma ParsePublicKey_iff data p :
  ParsePublicKey data = Ok p ↔ length p = PublicKeySize ∧ data = header tagPublic ++ p.
Proof.
  unfold ParsePublicKey. split.
  - intros H. invert_ok. bools. subst p. split.
    + rewrite length_drop, H. done.
    + rewrite <- (take_drop headerLen data) at 1. congruence.
  - intros (Hlen & ->). unfold PublicKeyFileSize.
    rewrite length_app, Hlen, length_header_public, Nat.eqb_refl.
    rewrite take_app_length', drop_app_length', bool_decide_true by done. done.
Qed.
Lemma ParseFiles_Ok s p kp :
  ParseFiles s p = Ok kp ↔ keypair_wf kp ∧ s = SecretKeyFile kp ∧ p = PublicKeyFile kp.
Proof.
  unfold ParseFiles. split.
  - intros H. invert_ok. subst kp. apply ParseSecretKey_iff in H as (? & ? & ->).
    apply ParsePublicKey_iff in H0 as (? & ->). done.
  - intros ((Hp & He & Hc) & -> & ->).
    rewrite (proj2 (ParseSecretKey_iff _ (expanded kp))) by done. simpl.
    rewrite (proj2 (ParsePublicKey_iff _ (publicKey kp))) by done. by destruct kp.
Qed.

Lemma KeyPair_OnionAddress_wf k :
  keypair_wf k → KeyPair_OnionAddress k = {| pubKey := publicKey k |}.
Proof.
  intros (Hp & _). unfold KeyPair_OnionAddress, AddressFromPublicKey. by rewrite Hp.
Qed.

(** The data map a key pair is stored as ([BuildKeySecret], [BuildBackendKeySecret]). *)
Definition key_files (k : KeyPair) : gmap string bytes :=
  {[ FileSecretKeyName := SecretKeyFile k; FilePublicKeyName := PublicKeyFile k;
     FileHostnameName := Hostname k ]}.

Section ed25519_lemmas.
Context {Ed : Ed25519}.

Lemma GenerateKeyPair_wf seed kp :
  GenerateKeyPair (Ok seed) = Ok kp →
  keypair_wf kp ∧ clamped_base_mult (take 32 (expanded kp)) = Some (publicKey kp).
Proof.
  unfold GenerateKeyPair. simpl. intros [= <-]. unfold keypair_wf. simpl.
  assert (length (take 32 (sha512 seed)) = 32) as H32 by (by rewrite length_take, length_sha512).
  destruct (proj1 (clamped_base_mult_Some _) H32) as [p Hp]. rewrite Hp. simpl. split_and!.
  - by apply clamped_base_mult_length in Hp.
  - apply length_expandSeed.
  - apply looksClamped_clamp, length_sha512.
  - unfold expandSeed. rewrite take_clamp by lia. by rewrite clamped_base_mult_clamp.
Qed.

(** What the two lookups and the parse leave to compare. *)
Lemma ValidateMasterKeySecret_files data kp :
  wrap_err ErrMasterParse
    (ParseFiles (default [] (data !! FileSecretKeyName))
                (default [] (data !! FilePublicKeyName))) = Ok kp →
  ValidateMasterKeySecret data =
    (if bool_decide (clamped_base_mult (take 32 (expanded kp)) = Some (publicKey kp))
     then Ok kp else Err ErrMasterKeyMismatch) ∧
  keypair_wf kp ∧ data !! FileSecretKeyName = Some (SecretKeyFile kp) ∧
  data !! FilePublicKeyName = Some (PublicKeyFile kp).
Proof.
  destruct (ParseFiles _ _) as [kp'|] eqn:Hp; [|done]. simpl. intros [= ->].
  pose proof Hp as (Hwf & Hs & Hq)%ParseFiles_Ok. pose proof Hwf as (Hpk & Hex & _).
  unfold ValidateMasterKeySecret. rewrite Hp. cbn [wrap_err rbind].
  rewrite Hs, Hq, length_SecretKeyFile, length_PublicKeyFile. cbn [Nat.add Nat.eqb headerLen negb].
  split_and!; try done.
  - assert (length (take 32 (expanded kp)) = 32) as H32 by (by rewrite length_take, Hex).
    destruct (proj1 (clamped_base_mult_Some _) H32) as [p Hd]. rewrite Hd.
    unfold PublicKeyFile. rewrite drop_app_length' by done.
    destruct (decide (p = publicKey kp)) as [->|Hne].
    + by rewrite !bool_decide_true.
    + rewrite !bool_decide_false by congruence. done.
  - destruct (data !! FileSecretKeyName); simpl in Hs; [congruence|].
    by apply (f_equal length) in Hs; rewrite length_SecretKeyFile in Hs.
  - destruct (data !! FilePublicKeyName); simpl in Hq; [congruence|].
    by apply (f_equal length) in Hq; rewrite length_PublicKeyFile in Hq.
Qed.

Lemma ParseFiles_of_lookups (data : gmap string bytes) kp :
  keypair_wf kp → data !! FileSecretKeyName = Some (SecretKeyFile kp) →
  data !! FilePublicKeyName = Some (PublicKeyFile kp) →
  wrap_err ErrMasterParse
    (ParseFiles (default [] (data !! FileSecretKeyName))
                (default [] (data !! FilePublicKeyName))) = Ok kp.
Proof. intros Hwf -> ->. simpl. by rewrite (proj2 (ParseFiles_Ok _ _ kp)). Qed.

Lemma key_files_inj (data : gmap string bytes) k k' :
  keypair_wf k → keypair_wf k' →
  data !! FileSecretKeyName = Some (SecretKeyFile k) →
  data !! FileSecretKeyName = Some (SecretKeyFile k') →
  data !! FilePublicKeyName = Some (PublicKeyFile k) →
  data !! FilePublicKeyName = Some (PublicKeyFile k') → k = k'.
Proof.
  intros Hk Hk' Hs Hs' Hp Hp'.
  pose proof (ParseFiles_of_lookups _ _ Hk Hs Hp). pose proof (ParseFiles_of_lookups _ _ Hk' Hs' Hp').
  congruence.
Qed.

(** The validation, as the cascade of its outcomes. *)
Lemma ValidateMasterKeySecret_cases data :
  (default [] (data !! FileSecretKeyName) = [] ∧
     ValidateMasterKeySecret data = Err ErrMasterKeyMissingSecret) ∨
  (default [] (data !! FileSecretKeyName) ≠ [] ∧ default [] (data !! FilePublicKeyName) = [] ∧
     ValidateMasterKeySecret data = Err ErrMasterKeyMissingPublic) ∨
  (∃ e, ParseFiles (default [] (data !! FileSecretKeyName))
                   (default [] (data !! FilePublicKeyName)) = Err e ∧
     default [] (data !! FileSecretKeyName) ≠ [] ∧ default [] (data !! FilePublicKeyName) ≠ [] ∧
     ValidateMasterKeySecret data = Err (ErrMasterParse e)) ∨
  (∃ kp, wrap_err ErrMasterParse
    (ParseFiles (default [] (data !! FileSecretKeyName))
                (default [] (data !! FilePublicKeyName))) = Ok kp ∧
     default [] (data !! FileSecretKeyName) ≠ [] ∧ default [] (data !! FilePublicKeyName) ≠ []).
Proof.
  unfold ValidateMasterKeySecret.
  destruct (default [] (data !! FileSecretKeyName)) as [|b s]; [by left|right].
  destruct (default [] (data !! FilePublicKeyName)) as [|c p]; [by left|right].
  simpl. destruct (ParseFiles _ _) as [kp|e]; simpl; [right|left]; eauto.
Qed.

Lemma validate_master_key data kp :
  keypair_wf kp → data !! FileSecretKeyName = Some (SecretKeyFile kp) →
  data !! FilePublicKeyName = Some (PublicKeyFile kp) →
  clamped_base_mult (take 32 (expanded kp)) = Some (publicKey kp) →
  ValidateMasterKeySecret data = Ok kp.
Proof.
  intros Hwf Hs Hp Hd.
  destruct (ValidateMasterKeySecret_files _ _ (ParseFiles_of_lookups _ _ Hwf Hs Hp)) as [-> _].
  by rewrite bool_decide_true.
Qed.
End ed25519_lemmas.

(** * The contract *)

(** C25.  The on-disk formats round trip, and nothing else is accepted: two files parse
    to a key pair exactly when they are the two files of that pair, whose secret is
    64 clamped bytes and whose public key is 32 bytes. *)
Theorem parse_files_iff (secret public : bytes) (kp : KeyPair) :
  ParseFiles secret public = Ok kp ↔
  keypair_wf kp ∧ secret = SecretKeyFile kp ∧ public = PublicKeyFile kp.
Proof. apply ParseFiles_Ok. Qed.

Section master_contract.
Context {Ed : Ed25519}.

(** C34.  A master key Secret is accepted exactly when its two entries are the files of
    one well-formed pair whose public key is the one derived from the scalar; an
    absent or empty secret entry is reported first, then the public one, and a
    well-formed file pair with another public key is a mismatch. *)
Theorem validate_master_key_spec (data : gmap string bytes) :
  (∀ kp, ValidateMasterKeySecret data = Ok kp ↔
     keypair_wf kp ∧ data !! FileSecretKeyName = Some (SecretKeyFile kp) ∧
     data !! FilePublicKeyName = Some (PublicKeyFile kp) ∧
     clamped_base_mult (take 32 (expanded kp)) = Some (publicKey kp)) ∧
  (ValidateMasterKeySecret data = Err ErrMasterKeyMissingSecret ↔
     default [] (data !! FileSecretKeyName) = []) ∧
  (ValidateMasterKeySecret data = Err ErrMasterKeyMissingPublic ↔
     default [] (data !! FileSecretKeyName) ≠ [] ∧ default [] (data !! FilePublicKeyName) = []) ∧
  (ValidateMasterKeySecret data = Err ErrMasterKeyMismatch ↔
     ∃ kp, keypair_wf kp ∧ data !! FileSecretKeyName = Some (SecretKeyFile kp) ∧
       data !! FilePublicKeyName = Some (PublicKeyFile kp) ∧
       clamped_base_mult (take 32 (expanded kp)) ≠ Some (publicKey kp)).
Proof.
  destruct (ValidateMasterKeySecret_cases data) as
    [[H1 Hv]|[(H1 & H2 & Hv)|[(e & He & H1 & H2 & Hv)|(kp0 & Hp & H1 & H2)]]].
  4: destruct (ValidateMasterKeySecret_files _ _ Hp) as (Hv & Hwf & Hs & Hq).
  - split_and!; intros; rewrite Hv; split; try done.
    + intros (_ & Hs & _). rewrite Hs in H1. by apply SecretKeyFile_ne in H1.
    + by intros [? _].
    + intros (kp & _ & Hs & _). rewrite Hs in H1. by apply SecretKeyFile_ne in H1.
  - split_and!; intros; rewrite Hv; split; try done.
    + intros (_ & _ & Hq & _). rewrite Hq in H2. by apply PublicKeyFile_ne in H2.
    + intros (kp & _ & _ & Hq & _). rewrite Hq in H2. by apply PublicKeyFile_ne in H2.
  - split_and!; intros; rewrite Hv; split; try done.
    + intros (Hwf & Hs & Hq & _). pose proof (ParseFiles_of_lookups _ _ Hwf Hs Hq). by rewrite He in *.
    + by intros [_ ?].
    + intros (kp & Hwf & Hs & Hq & _). pose proof (ParseFiles_of_lookups _ _ Hwf Hs Hq).
      by rewrite He in *.
  - split_and!; intros; rewrite Hv; case_bool_decide as Hd; split; try done.
    + intros [= ->]. done.
    + intros (Hwf' & Hs' & Hq' & _). f_equal. by eapply key_files_inj.
    + intros (Hwf' & Hs' & Hq' & Hd'). destruct Hd. by rewrite (key_files_inj _ _ _ Hwf Hwf' Hs Hs' Hq Hq').
    + by intros [_ ?].
    + by intros [_ ?].
    + intros (kp & Hwf' & Hs' & Hq' & Hd'). destruct Hd'.
      by rewrite <- (key_files_inj _ _ _ Hwf Hwf' Hs Hs' Hq Hq').
    + intros _. eauto 10.
Qed.

(** A generated key pair is well formed, its files are accepted as a master key and
    give back the pair and the address of its public key; only a failing entropy
    source makes generation fail. *)
Theorem generated_key_accepted (read : result string bytes) :
  match GenerateKeyPair read with
  | Ok kp =>
      keypair_wf kp ∧ ValidateMasterKeySecret (key_files kp) = Ok kp ∧
      MasterOnionFromSecret (key_files kp) = Ok {| pubKey := publicKey kp |} ∧
      ∃ seed, read = Ok seed ∧ expanded kp = expandSeed seed
  | Err e => ∃ cause, read = Err cause ∧ e = ErrGenerate cause
  end.
Proof.
  destruct read as [seed|c]; [|by eexists].
  destruct (GenerateKeyPair (Ok seed)) as [kp|e] eqn:Hg; [|done].
  pose proof (GenerateKeyPair_wf _ _ Hg) as [Hwf Hd].
  assert (ValidateMasterKeySecret (key_files kp) = Ok kp) as Hv.
  { apply validate_master_key; [done|by simplify_map_eq|by simplify_map_eq|done]. }
  split_and!; [done|done| |].
  - unfold MasterOnionFromSecret. rewrite Hv. simpl. by rewrite KeyPair_OnionAddress_wf.
  - injection Hg as <-. eauto.
Qed.
End master_contract.

(** A toy group for evaluation: the encoding of [[s]B] is the clamped scalar. *)
Definition toy_base_mult (x : bytes) : option bytes :=
  if length x =? 32 then Some (clamp x) else None.
Lemma byte_forall_eq (f g : byte → byte) :
  forallb (λ b, Byte.eqb (f b) (g b)) all_bytes = true → ∀ b, f b = g b.
Proof. intros H b. apply Byte.byte_dec_bl. revert b. by apply byte_forall. Qed.
Lemma clamp_clamp x : length x = 32 → clamp (clamp x) = clamp x.
Proof.
  intros H. do 32 (destruct x as [|? x]; [discriminate H|]). destruct x; [|discriminate H].
  clear H. unfold clamp. simpl. f_equal; [|do 30 f_equal; f_equal].
  - apply (byte_forall_eq (λ b, byte_and 248 (byte_and 248 b)) (byte_and 248)).
    vm_compute. reflexivity.
  - apply (byte_forall_eq
      (λ b, byte_or 64 (byte_and 127 (byte_or 64 (byte_and 127 b))))
      (λ b, byte_or 64 (byte_and 127 b))).
    vm_compute. reflexivity.
Qed.
#[export] Program Instance toy_ed25519 : Ed25519 | 100 := {|
  clamped_base_mult := toy_base_mult
|}.
Next Obligation.
  intros x. unfold toy_base_mult. split.
  - intros ->. eauto.
  - intros [p Hp]. by case_match eqn:H; bools.
Qed.
Next Obligation.
  intros x p. unfold toy_base_mult. case_match eqn:H; bools; [|done].
  intros [= <-]. by rewrite length_clamp.
Qed.
Next Obligation.
  intros x. unfold toy_base_mult. rewrite length_clamp.
  case_match eqn:H; bools; [|done]. by rewrite clamp_clamp.
Qed.

(** ** Witnesses: the pair of the all-zero seed *)
Definition zero_pair : KeyPair :=
  {| publicKey := default [] (clamped_base_mult (take 32 (sha512 zero_key)));
     expanded := expandSeed zero_key |}.
Lemma generated_key_accepted_witness :
  GenerateKeyPair (Ok zero_key) = Ok zero_pair ∧
  ValidateMasterKeySecret (key_files zero_pair) = Ok zero_pair.
Proof.
  split; [reflexivity|]. exact (proj1 (proj2 (generated_key_accepted (Ok zero_key)))).
Defined.
Lemma validate_master_key_spec_witness :
  ValidateMasterKeySecret (∅ : gmap string bytes) = Err ErrMasterKeyMissingSecret.
Proof. apply (validate_master_key_spec ∅). reflexivity. Defined.
