(* ===== verification/GoNet.v ===== *)
(** * Go's [net.ParseIP], [IP.IsLoopback] and package [path]

    What torrc validation uses of the standard library: textual IP addresses, as
    [net/netip] parses them, and lexical paths. *)

From Stdlib Require Import Ascii NArith ZArith.
From S2P Require Import Prelude GoStrings.

(** ** Splitting *)
(** [strings.Split] on a one-byte separator. *)
Fixpoint split_on (sep : ascii) (s : string) : list string :=
  match s with
  | "" => [""]
  | String c s =>
      match split_on sep s with
      | [] => [""]
      | w :: ws => if Ascii.eqb c sep then "" :: w :: ws else String c w :: ws
      end
  end.

(** ** IPv4: four decimal fields of at most 255 without leading zeros *)
Definition digit_val (c : ascii) : option N :=
  if in_range 48 57 c then Some (ch c - 48)%N else None.
Fixpoint all_digits (acc : N) (s : string) : option N :=
  match s with
  | "" => Some acc
  | String c s => d ← digit_val c; all_digits (acc * 10 + d) s
  end.
Definition ipv4_field (s : string) : option N :=
  match s with
  | "" => None
  | String "0" (String _ _) => None
  | _ => n ← all_digits 0 s; if (n <=? 255)%N then Some n else None
  end.
Definition parse_ipv4 (s : string) : option (list N) :=
  match mapM ipv4_field (split_on "." s) with
  | Some [a; b; c; d] => Some [a; b; c; d]
  | _ => None
  end.

(** ** IPv6 *)
Definition hex_val (c : ascii) : option N :=
  if in_range 48 57 c then Some (ch c - 48)%N
  else if in_range 97 102 c then Some (ch c - 87)%N
  else if in_range 65 70 c then Some (ch c - 55)%N
  else None.
(** The longest run of hex digits: its value, its length, the rest. *)
Fixpoint hex_run (acc : N) (len : nat) (s : string) : N * nat * string :=
  match s with
  | String c s' =>
      match hex_val c with
      | Some d => hex_run (acc * 16 + d) (S len) s'
      | None => (acc, len, s)
      end
  | "" => (acc, len, "")
  end.

(** The loop of [parseIPv6]: [ip] are the bytes read, [ell] the position of "::". *)
Fixpoint ipv6_loop (fuel : nat) (ip : list N) (ell : option nat) (s : string)
  : option (list N * option nat * string) :=
  match fuel with
  | O => Some (ip, ell, s)
  | S fuel =>
      let '(acc, len, rest) := hex_run 0 0 s in
      if ((len =? 0) || (4 <? len))%nat then None
      else match rest with
      | String "." _ =>
          if (match ell with None => negb (length ip =? 12) | _ => false end) then None
          else if (16 <? length ip + 4)%nat then None
          else v4 ← parse_ipv4 s; Some (ip ++ v4, ell, "")
      | _ =>
          let ip := ip ++ [(acc / 256)%N; (acc mod 256)%N] in
          match rest with
          | "" => Some (ip, ell, "")
          | String ":" "" => None
          | String ":" (String ":" rest') =>
              match ell with
              | Some _ => None
              | None => match rest' with
                        | "" => Some (ip, Some (length ip), "")
                        | _ => ipv6_loop fuel ip (Some (length ip)) rest'
                        end
              end
          | String ":" rest' => ipv6_loop fuel ip ell rest'
          | _ => None
          end
      end
  end.
Definition ipv6_expand (r : list N * option nat * string) : option (list N) :=
  let '(ip, ell, rest) := r in
  if negb (rest =? "")%string then None
  else if (length ip <? 16)%nat then
    match ell with
    | None => None
    | Some e => Some (take e ip ++ replicate (16 - length ip) 0%N ++ drop e ip)
    end
  else match ell with None => Some ip | Some _ => None end.
(** Eight groups at most: [fuel = 8] is the bound [i < 16] of the loop. *)
Definition parse_ipv6 (s : string) : option (list N) :=
  match s with
  | String ":" (String ":" "") => Some (replicate 16 0%N)
  | String ":" (String ":" rest) => ipv6_loop 8 [] (Some 0) rest ≫= ipv6_expand
  | _ => ipv6_loop 8 [] None s ≫= ipv6_expand
  end.

(** [net.ParseIP]: 4 or 16 bytes; an address with a zone is rejected. *)
Fixpoint first_marker (s : string) : option ascii :=
  match s with
  | "" => None
  | String c s =>
      if Ascii.eqb c "." || Ascii.eqb c ":" || Ascii.eqb c "%" then Some c else first_marker s
  end.
Definition ParseIP (s : string) : option (list N) :=
  if str_existsb (Ascii.eqb "%") s then None
  else match first_marker s with
  | Some "."%char => parse_ipv4 s
  | Some ":"%char => parse_ipv6 s
  | _ => None
  end.
(** [To4] of a 16-byte address unwraps the v4-mapped prefix. *)
Definition To4 (ip : list N) : option (list N) :=
  if (length ip =? 4)%nat then Some ip
  else if bool_decide (take 12 ip = replicate 10 0%N ++ [255%N; 255%N]) then Some (drop 12 ip)
  else None.
Definition IsLoopback (ip : list N) : bool :=
  match To4 ip with
  | Some (b :: _) => (b =? 127)%N
  | Some [] => false
  | None => bool_decide (ip = replicate 15 0%N ++ [1%N])
  end.

(** ** Package path *)
Definition IsAbs (p : string) : bool := HasPrefix p "/".

(** [path.Clean]: the stack holds the kept elements, innermost first. *)
Definition clean_step (rooted : bool) (stack : list string) (e : string) : list string :=
  if bool_decide (e = "") || bool_decide (e = ".") then stack
  else if bool_decide (e = "..") then
    match stack with
    | top :: rest => if bool_decide (top = "..") then e :: stack else rest
    | [] => if rooted then [] else [e]
    end
  else e :: stack.
Definition Clean (p : string) : string :=
  let rooted := IsAbs p in
  let body := Join (rev (foldl (clean_step rooted) [] (split_on "/" p))) "/" in
  if rooted then "/" +:+ body else if bool_decide (body = "") then "." else body.
(** [path.Join] of two elements; empty elements are ignored. *)
Definition path_Join (a b : string) : string :=
  if bool_decide (a = "") then (if bool_decide (b = "") then "" else Clean b)
  else if bool_decide (b = "") then Clean a
  else Clean (a +:+ "/" +:+ b).

(** ** Checks *)
Example loopback_examples :
  map (λ s, from_option IsLoopback false (ParseIP s))
    ["127.0.0.1"; "127.255.0.9"; "::1"; "0:0::1"; "::ffff:127.0.0.1"; "10.0.0.1"; "localhost";
     "127.0.0.01"; "127.0.0"; "::1%lo"; ""; "1::2::3"; "0:0:0:0:0:0:0:1"; "::ffff:10.1.1.1"] =
  [true; true; true; true; true; false; false; false; false; false; false; false; true; false].
Proof. vm_compute. reflexivity. Qed.
Example clean_examples :
  map Clean ["/a/b/../c/."; "a//b/"; "/.."; "../x/.."; ""; "/var/lib/tor/hs//hs"] =
  ["/a/c"; "a/b"; "/"; ".."; "."; "/var/lib/tor/hs/hs"].
Proof. vm_compute. reflexivity. Qed.
Example path_join_example : path_Join "/var/lib/tor/hs/hs/" "authorized_clients" =
  "/var/lib/tor/hs/hs/authorized_clients".
Proof. vm_compute. reflexivity. Qed.

(** ** Lines of text *)
(** A line, written with its newline. *)
Definition line (s : string) : string := s +:+ nl.
Definition no_nl (s : string) : bool := str_forallb (λ c, negb (Ascii.eqb c "010")) s.

Lemma split_on_ne sep s : split_on sep s ≠ [].
Proof.
  destruct s as [|c s]; simpl; [done|]. destruct (split_on sep s); [done|]. by destruct (Ascii.eqb c sep).
Qed.
Lemma split_on_line s t :
  no_nl s = true → split_on "010" (line s +:+ t) = s :: split_on "010" t.
Proof.
  unfold line, no_nl. induction s as [|c s IH]; intros H.
  - change (("" +:+ nl) +:+ t) with (String "010" t). simpl.
    pose proof (split_on_ne "010" t). by destruct (split_on "010" t).
  - change ((String c s +:+ nl) +:+ t) with (String c ((s +:+ nl) +:+ t)).
    simpl in H. apply andb_true_iff in H as [Hc Hs]. cbn [split_on]. rewrite (IH Hs).
    apply negb_true_iff in Hc. by rewrite Hc.
Qed.
Lemma no_nl_app s t : no_nl (s +:+ t) = no_nl s && no_nl t.
Proof. apply str_forallb_app. Qed.

Lemma no_nl_uint d : no_nl (DecimalString.NilEmpty.string_of_uint d) = true.
Proof. induction d; simpl; done. Qed.
Lemma no_nl_Itoa z : no_nl (Itoa z) = true.
Proof.
  unfold Itoa, DecimalString.NilZero.string_of_int, DecimalString.NilZero.string_of_uint.
  destruct (Z.to_int z) as [d|d]; destruct d; try apply (no_nl_uint); done.
Qed.
