(* ===== verification/Monad.v ===== *)
(** * State and errors

    Code that performs effects is written in the state and error monad [M S E A]: a
    function of the state before (a file system, the objects of a cluster) to the
    state after and a result.  An error keeps the effects made before it, as in Go. *)

From S2P Require Import Prelude.

Definition M (S E A : Type) : Type := S → S * result E A.

Section ops.
Context {S E A B : Type}.

Definition ret (a : A) : M S E A := λ s, (s, Ok a).
Definition throw (e : E) : M S E A := λ s, (s, Err e).
Definition bind (m : M S E A) (f : A → M S E B) : M S E B := λ s,
  match m s with
  | (s', Ok a) => f a s'
  | (s', Err e) => (s', Err e)
  end.
(** A pure computation, and a read of the state. *)
Definition lift (r : result E A) : M S E A := λ s, (s, r).
Definition gets (f : S → result E A) : M S E A := λ s, (s, f s).
(** [err := m; ...]: go on with the result, error included. *)
Definition try (m : M S E A) (f : result E A → M S E B) : M S E B := λ s,
  let '(s', r) := m s in f r s'.
End ops.

(** [fmt.Errorf("...: %w", err)]. *)
Definition wrap {S E F A : Type} (w : E → F) (m : M S E A) : M S F A := λ s,
  let '(s', r) := m s in (s', wrap_err w r).

Notation "'let!' x ':=' m 'in' k" := (bind m (λ x, k))
  (at level 10, x pattern, m at level 100, k at level 200,
   format "'[v' 'let!'  x  ':='  m  'in' '/' k ']'") : go_scope.
Notation "'do!' m 'in' k" := (bind m (λ _, k))
  (at level 10, m at level 100, k at level 200,
   format "'[v' 'do!'  m  'in' '/' k ']'") : go_scope.

(** [for _, x := range l { if err := f(x); err != nil { return err } }] *)
Fixpoint for_each {S E A : Type} (f : A → M S E ()) (l : list A) : M S E () :=
  match l with
  | [] => ret ()
  | x :: l => do! f x in for_each f l
  end.

(** [_ = m]: the error is dropped. *)
Definition best_effort {S E F A} (m : M S E A) : M S F () := λ s, ((m s).1, Ok ()).

Lemma bind_Ok {S E A B} (m : M S E A) (f : A → M S E B) s s' b :
  bind m f s = (s', Ok b) ↔ ∃ s1 a, m s = (s1, Ok a) ∧ f a s1 = (s', Ok b).
Proof.
  unfold bind. destruct (m s) as [s1 [a|e]]; split.
  - eauto.
  - by intros (?&?&[= -> ->]&?).
  - done.
  - by intros (?&?&[=]&_).
Qed.

Lemma bind_ext {S E A B} (m : M S E A) (f g : A → M S E B) s :
  (∀ a s, f a s = g a s) → bind m f s = bind m g s.
Proof. intros Hfg. unfold bind. destruct (m s) as [s' [a|e]]; [apply Hfg|done]. Qed.
Lemma bind_run {S E A B} (m : M S E A) (f : A → M S E B) s s1 a r :
  m s = (s1, Ok a) → f a s1 = r → bind m f s = r.
Proof. intros Hm Hf. unfold bind. by rewrite Hm. Qed.
Lemma bind_ext_run {S E A B} (m : M S E A) (f g : A → M S E B) s :
  (∀ s1 a, m s = (s1, Ok a) → f a s1 = g a s1) → bind m f s = bind m g s.
Proof. intros Hfg. unfold bind. destruct (m s) as [s1 [a|e]]; [by apply Hfg|done]. Qed.
Lemma bind_assoc {S E A B C} (m : M S E A) (f : A → M S E B) (g : B → M S E C) s :
  bind (bind m f) g s = bind m (λ a, bind (f a) g) s.
Proof. unfold bind. by destruct (m s) as [s' [a|e]]. Qed.
Lemma gets_Ok {S E A} (f : S → result E A) s s' a : gets f s = (s', Ok a) → s' = s ∧ f s = Ok a.
Proof. unfold gets. by intros [= -> ->]. Qed.
Lemma wrap_Ok {S E F A} (w : E → F) (m : M S E A) s s' a :
  wrap w m s = (s', Ok a) → m s = (s', Ok a).
Proof. unfold wrap. destruct (m s) as [s1 [|]]; by intros [= -> ->]. Qed.

Lemma for_each_app {S E A} (f : A → M S E ()) l k s :
  for_each f (l ++ k) s = bind (for_each f l) (λ _, for_each f k) s.
Proof.
  revert s. induction l as [|x l IH]; intros s; simpl; [done|].
  unfold bind at 1 3. unfold bind at 1. destruct (f x s) as [s1 [[]|e]]; [apply IH | done].
Qed.

(** A loop keeps what each of its steps keeps, on success and on error. *)
Lemma for_each_invariant {S E A} (P : S → Prop) (f : A → M S E ()) l :
  (∀ x s, x ∈ l → P s → P (f x s).1) → ∀ s, P s → P (for_each f l s).1.
Proof.
  induction l as [|x l IH]; intros Hf s Hs; simpl; [done|].
  unfold bind. pose proof (Hf x s ltac:(set_solver) Hs) as H1.
  destruct (f x s) as [s1 [[]|e]]; simpl in *; [|done].
  apply IH; [|done]. intros y t Hy. apply Hf. by apply list_elem_of_further.
Qed.

(** Take apart a successful run. *)
Ltac invert_run :=
  repeat match goal with
  | H : bind _ _ _ = (_, Ok _) |- _ => apply bind_Ok in H as (? & ? & ? & ?)
  | H : ret _ _ = (_, Ok _) |- _ => injection H as ? ?
  | H : lift _ _ = (_, Ok _) |- _ => injection H as ? ?
  | H : gets _ _ = (_, Ok _) |- _ => injection H as ? ?
  | H : throw _ _ = (_, Ok _) |- _ => discriminate H
  end.
