(* ===== verification/GoOS.v ===== *)
(** * Files (packages os and path/filepath)

    A file system is a finite map from absolute paths, as lists of elements, to nodes.
    What the operating system decides — which calls fail, the umask, where a symbolic
    link leads — is the class [OS].  A call that fails has no effect.  Relative paths are
    taken from the root directory. *)

From Stdlib Require Import Ascii NArith.
From stdpp Require Import sorting.
From S2P Require Import Prelude Monad GoStrings GoNet.

(** ** Paths *)
Abbreviation path := (list string).
(** The elements of the lexically cleaned path. *)
Definition elems (p : string) : path :=
  rev (foldl (clean_step (IsAbs p)) [] (split_on "/" p)).
(** A name that is one path element. *)
Definition no_slash (s : string) : bool := str_forallb (λ c, negb (Ascii.eqb c "/")) s.
Definition plain_name (s : string) : bool :=
  no_slash s && negb (bool_decide (s ∈ [""; "."; ".."])).
(** The order in which [filepath.WalkDir] visits: by element, parents first. *)
Fixpoint path_le (p q : path) : bool :=
  match p, q with
  | [], _ => true
  | _, [] => false
  | a :: p, b :: q => if bool_decide (a = b) then path_le p q else bool_decide (String.le a b)
  end.

(** ** Nodes *)
Inductive kind := KFile | KDir | KLink | KOther.
#[global] Instance kind_eq_dec : EqDecision kind.
Proof. solve_decision. Defined.
Record node := { n_kind : kind; n_mode : N; n_data : bytes }.
Abbreviation fsys := (gmap path node).
(** [fs.FileMode.Perm]. *)
Definition Perm (m : N) : N := N.land m 511.

Inductive io_error := ENOENT | ENOTDIR | EISDIR | Fault (code : nat).
Inductive io_op :=
| OpStat (p : path) | OpMkdir (p : path) | OpWrite (p : path)
| OpRead (p : path) | OpReadDir (p : path) | OpChmod (p : path).
Class OS := {
  fault : io_op → option io_error;
  umask : N;
  (** where a symbolic link leads *)
  follow : fsys → path → result io_error path;
}.

(** An operating system on which nothing fails, with the usual umask and no links. *)
#[global] Instance plain_os : OS := {|
  fault := λ _, None; umask := 18; follow := λ _ _, Err ENOENT |}.

(** ** Operations *)
Section ops.
Context `{OS}.

Definition attempt (op : io_op) : result io_error () :=
  match fault op with Some e => Err e | None => Ok () end.

Definition resolve (fs : fsys) (p : path) : result io_error path :=
  match fs !! p with
  | Some n => if bool_decide (n_kind n = KLink) then follow fs p else Ok p
  | None => Ok p
  end.

Definition Lstat (fs : fsys) (p : path) : result io_error node :=
  let* _ := attempt (OpStat p) in
  match fs !! p with Some n => Ok n | None => Err ENOENT end.
Definition Stat (fs : fsys) (p : path) : result io_error node :=
  let* _ := attempt (OpStat p) in
  let* t := resolve fs p in
  match fs !! t with Some n => Ok n | None => Err ENOENT end.

(** The root directory always exists; any other is a node of the map. *)
Definition is_dir (fs : fsys) (p : path) : bool :=
  bool_decide (p = []) ||
  match resolve fs p with
  | Ok t => match fs !! t with Some n => bool_decide (n_kind n = KDir) | None => false end
  | Err _ => false
  end.

Definition Mkdir (p : path) (perm : N) : M fsys io_error () := λ fs,
  if is_dir fs p then (fs, Ok ())
  else match fs !! p with
  | Some _ => (fs, Err ENOTDIR)
  | None =>
      match attempt (OpMkdir p) with
      | Err e => (fs, Err e)
      | Ok _ => (<[p := {| n_kind := KDir; n_mode := N.ldiff perm umask; n_data := [] |}]> fs, Ok ())
      end
  end.
(** The directories from the root down to [p]. *)
Definition ancestors (p : path) : list path := map (λ n, take n p) (seq 1 (length p)).
Definition MkdirAll (p : string) (perm : N) : M fsys io_error () :=
  for_each (λ q, Mkdir q perm) (ancestors (elems p)).

Definition write_at (p : path) (data : bytes) (perm : N) : M fsys io_error () := λ fs,
  match attempt (OpWrite p) with
  | Err e => (fs, Err e)
  | Ok _ =>
      match fs !! p with
      | Some n =>
          if bool_decide (n_kind n = KDir) then (fs, Err EISDIR)
          else (<[p := {| n_kind := n_kind n; n_mode := n_mode n; n_data := data |}]> fs, Ok ())
      | None =>
          if bool_decide (p = []) then (fs, Err EISDIR)
          else if is_dir fs (take (length p - 1) p) then
            (<[p := {| n_kind := KFile; n_mode := N.ldiff perm umask; n_data := data |}]> fs, Ok ())
          else (fs, Err ENOENT)
      end
  end.
(** [os.WriteFile]: a file that exists keeps its mode. *)
Definition WriteFile (p : string) (data : bytes) (perm : N) : M fsys io_error () := λ fs,
  match resolve fs (elems p) with
  | Ok t => write_at t data perm fs
  | Err e => (fs, Err e)
  end.

Definition ReadFile (fs : fsys) (p : string) : result io_error bytes :=
  let* _ := attempt (OpRead (elems p)) in
  let* t := resolve fs (elems p) in
  match fs !! t with
  | Some n => if bool_decide (n_kind n = KDir) then Err EISDIR else Ok (n_data n)
  | None => Err ENOENT
  end.

(** [os.ReadDir]: the names below a directory, sorted. *)
Definition child_of (d p : path) : option string :=
  match last p with
  | Some name => if bool_decide (p = d ++ [name]) then Some name else None
  | None => None
  end.
Definition ReadDir (fs : fsys) (p : string) : result io_error (list string) :=
  let* _ := attempt (OpReadDir (elems p)) in
  if is_dir fs (elems p)
  then Ok (sort_strings (omap (child_of (elems p)) (map_to_list fs).*1))
  else Err ENOTDIR.

Definition chmod_at (p : path) (mode : N) : M fsys io_error () := λ fs,
  match attempt (OpChmod p) with
  | Err e => (fs, Err e)
  | Ok _ =>
      match resolve fs p with
      | Err e => (fs, Err e)
      | Ok t =>
          match fs !! t with
          | Some n => (<[t := {| n_kind := n_kind n; n_mode := mode; n_data := n_data n |}]> fs, Ok ())
          | None => (fs, Err ENOENT)
          end
      end
  end.

(** The paths strictly below [d], in the order of [filepath.WalkDir]. *)
Definition below (d p : path) : bool :=
  bool_decide (take (length d) p = d) && (length d <? length p).
Definition walk_paths (fs : fsys) (d : path) : list path :=
  merge_sort path_le (filter (λ p, below d p = true) (map_to_list fs).*1).
End ops.

(** ** Lemmas on paths *)
#[local] Arguments String.append !_ _ / : assert.

Lemma split_on_no_sep sep s :
  str_forallb (λ c, negb (Ascii.eqb c sep)) s = true → split_on sep s = [s].
Proof.
  induction s as [|c s IH]; simpl; [done|]. intros H. bools. rewrite IH by done.
  by destruct (Ascii.eqb c sep).
Qed.
Lemma split_on_cons sep s : ∃ w ws, split_on sep s = w :: ws.
Proof.
  induction s as [|c s (w&ws&IH)]; simpl; eauto.
  rewrite IH. destruct (Ascii.eqb c sep); eauto.
Qed.
Lemma split_on_app sep s t :
  str_forallb (λ c, negb (Ascii.eqb c sep)) s = true →
  split_on sep (s +:+ String sep t) = s :: split_on sep t.
Proof.
  induction s as [|c s IH]; simpl; intros H.
  - destruct (split_on_cons sep t) as (w&ws&->). by rewrite Ascii.eqb_refl.
  - bools. rewrite IH by done. by destruct (Ascii.eqb c sep).
Qed.
Lemma split_on_Join sep l :
  l ≠ [] → Forall (λ s, str_forallb (λ c, negb (Ascii.eqb c sep)) s = true) l →
  split_on sep (Join l (String sep "")) = l.
Proof.
  intros Hne Hl. induction Hl as [|s l Hs Hl IH]; [done|].
  destruct l as [|t l]; simpl; [by apply split_on_no_sep|].
  change (split_on sep (s +:+ String sep (Join (t :: l) (String sep ""))) = s :: t :: l).
  by rewrite split_on_app, IH.
Qed.
Lemma split_on_forall sep s :
  Forall (λ s, str_forallb (λ c, negb (Ascii.eqb c sep)) s = true) (split_on sep s).
Proof.
  induction s as [|c s IH]; simpl; [by repeat constructor|].
  destruct (split_on sep s) as [|w ws]; [by repeat constructor|].
  inversion_clear IH. destruct (Ascii.eqb c sep) eqn:Hc; repeat constructor; simpl; auto.
  rewrite Hc. by apply andb_true_intro.
Qed.

(** The stacks [Clean] builds: plain names above a block of [".."], which is empty in a
    rooted path. *)
Definition clean_stack (rooted : bool) (st : path) : Prop :=
  ∃ a n, st = a ++ replicate n ".." ∧ Forall (λ s, plain_name s = true) a ∧
         (rooted = true → n = 0).

Lemma clean_step_stack rooted st e :
  no_slash e = true → clean_stack rooted st → clean_stack rooted (clean_step rooted st e).
Proof.
  intros He (a & n & -> & Ha & Hn). unfold clean_step.
  destruct (bool_decide (e = "") || bool_decide (e = ".")) eqn:H1; [by exists a, n|].
  bools. destruct (decide (e = "..")) as [->|H2].
  - rewrite bool_decide_true by done. destruct a as [|b a]; simpl.
    + destruct n as [|n]; simpl.
      * destruct rooted; [by exists [], 0 | by exists [], 1].
      * exists [], (S (S n)). repeat split; auto. intros Hr. discriminate (Hn Hr).
    + inversion_clear Ha as [|?? Hb Ha']. rewrite bool_decide_false; [by exists a, n|].
      intros ->. discriminate Hb.
  - rewrite (bool_decide_false (e = "..")) by done. exists (e :: a), n.
    repeat split; auto. constructor; [|done]. unfold plain_name. rewrite He.
    simpl. apply negb_true_iff, bool_decide_eq_false. set_solver.
Qed.
Lemma clean_stack_fold rooted es st :
  Forall (λ e, no_slash e = true) es → clean_stack rooted st →
  clean_stack rooted (foldl (clean_step rooted) st es).
Proof.
  intros Hes. revert st. induction Hes as [|e es He Hes IH]; intros st Hst; simpl; [done|].
  by apply IH, clean_step_stack.
Qed.

Lemma clean_step_plain rooted st e :
  plain_name e = true → clean_step rooted st e = e :: st.
Proof.
  unfold plain_name, clean_step. intros H. bools.
  rewrite !bool_decide_false by (intros ->; set_solver). done.
Qed.
Lemma clean_fold_plain rooted es st :
  Forall (λ e, plain_name e = true) es → foldl (clean_step rooted) st es = rev es ++ st.
Proof.
  intros Hes. revert st. induction Hes as [|e es He Hes IH]; intros st; simpl; [done|].
  rewrite clean_step_plain, IH by done. by rewrite <- app_assoc.
Qed.
Lemma clean_fold_dotdot n :
  foldl (clean_step false) [] (replicate n "..") = replicate n "..".
Proof.
  assert (∀ m, foldl (clean_step false) (replicate m "..") (replicate n "..") =
               replicate (m + n) "..") as H; [|apply (H 0)].
  induction n as [|n IH]; intros m; simpl; [by rewrite Nat.add_0_r|].
  change (clean_step false (replicate m "..") "..") with
    (match replicate m ".." with
     | top :: rest => if bool_decide (top = "..") then ".." :: replicate m ".." else rest
     | [] => [".."] end).
  replace (match replicate m ".." with
     | top :: rest => if bool_decide (top = "..") then ".." :: replicate m ".." else rest
     | [] => [".."] end) with (replicate (S m) "..") by (by destruct m).
  rewrite IH. f_equal. lia.
Qed.
(** Cleaning again changes nothing. *)
Lemma clean_fold_again rooted st :
  clean_stack rooted st → foldl (clean_step rooted) [] (rev st) = st.
Proof.
  intros (a & n & -> & Ha & Hn). rewrite rev_app_distr, foldl_app.
  replace (rev (replicate n "..")) with (replicate n "..").
  2:{ clear. induction n as [|n IH]; simpl; [done|].
      by rewrite <- IH, <- replicate_cons_app. }
  rewrite clean_fold_plain; [rewrite rev_involutive | by apply Forall_rev].
  f_equal. destruct rooted; [by rewrite Hn | apply clean_fold_dotdot].
Qed.

Lemma clean_stack_elems rooted st : clean_stack rooted st → Forall (λ s, no_slash s = true ∧ s ≠ "") st.
Proof.
  intros (a & n & -> & Ha & _). apply Forall_app. split.
  - eapply Forall_impl; [exact Ha|]. intros s Hs. unfold plain_name in Hs. bools. set_solver.
  - by apply Forall_replicate.
Qed.
Lemma elems_stack p : clean_stack (IsAbs p) (rev (elems p)).
Proof.
  unfold elems. rewrite rev_involutive. apply clean_stack_fold; [|by exists [], 0].
  apply (split_on_forall "/").
Qed.
(** Appending an element to a path, as [filepath.Join] does. *)
Lemma IsAbs_app a b : a ≠ "" → IsAbs (a +:+ b) = IsAbs a.
Proof. destruct a as [|c a]; [done|]. unfold IsAbs, HasPrefix. simpl. by destruct (ascii_dec "/" c), a, b. Qed.

Lemma split_on_sep_app sep a b :
  split_on sep (a +:+ String sep b) = split_on sep a ++ split_on sep b.
Proof.
  induction a as [|c a IH]; simpl.
  - rewrite Ascii.eqb_refl. destruct (split_on sep b) eqn:Hb; [|done].
    by destruct (split_on_cons sep b) as (?&?&?%(eq_trans (eq_sym Hb))).
  - rewrite IH. destruct (split_on_cons sep a) as (w & ws & ->). simpl.
    by destruct (Ascii.eqb c sep).
Qed.

Lemma elems_Clean p : elems (Clean p) = elems p.
Proof.
  pose proof (elems_stack p) as Hst. unfold Clean. fold (elems p).
  pose proof (clean_stack_elems _ _ Hst) as Hel. apply Forall_rev in Hel.
  rewrite rev_involutive in Hel.
  assert (Hsplit : elems p ≠ [] → split_on "/" (Join (elems p) "/") = elems p).
  { intros Hne. apply split_on_Join; [done|]. eapply Forall_impl; [exact Hel|]. by intros ? []. }
  pose proof (clean_fold_again _ _ Hst) as Hag. rewrite rev_involutive in Hag.
  destruct (IsAbs p).
  - unfold elems at 1.
    replace (IsAbs ("/" +:+ Join (elems p) "/")) with true
      by (symmetry; by apply HasPrefix_true; eexists).
    change ("/" +:+ Join (elems p) "/") with ("" +:+ String "/" (Join (elems p) "/")).
    rewrite split_on_sep_app. simpl.
    destruct (decide (elems p = [])) as [->|Hne]; [done|].
    rewrite Hsplit by done. change (clean_step true [] "") with (@nil string).
    by rewrite Hag, rev_involutive.
  - destruct (decide (elems p = [])) as [Hnil|Hne]; [by rewrite Hnil|].
    destruct (elems p) as [|e es] eqn:He; [done|]. inversion_clear Hel as [|?? [Hs He0] _].
    assert (∃ r, Join (e :: es) "/" = e +:+ r) as [r Hr].
    { destruct es; [exists ""; by rewrite str_app_nil_r | by eexists]. }
    rewrite bool_decide_false by (rewrite Hr; by destruct e).
    unfold elems at 1.
    replace (IsAbs (Join (e :: es) "/")) with false.
    + by rewrite Hsplit, Hag, rev_involutive.
    + rewrite Hr, IsAbs_app by done. symmetry. apply not_true_iff_false.
      intros [t ->]%HasPrefix_true. discriminate Hs.
Qed.

(** Joining a plain name descends by exactly one element. *)
Lemma elems_path_Join a b :
  a ≠ "" → plain_name b = true → elems (path_Join a b) = elems a ++ [b].
Proof.
  intros Ha Hb. assert (b ≠ "") by (intros ->; discriminate).
  unfold path_Join. rewrite !bool_decide_false, elems_Clean by done.
  unfold elems. change (a +:+ "/" +:+ b) with (a +:+ String "/" b).
  rewrite IsAbs_app, split_on_sep_app, foldl_app by done.
  rewrite (split_on_no_sep _ b) by (unfold plain_name in Hb; bools; done).
  simpl. by rewrite clean_step_plain.
Qed.

(** ** Lemmas on operations *)
Section lemmas.
Context `{OS}.

Lemma Mkdir_other p q perm fs : q ≠ p → (Mkdir p perm fs).1 !! q = fs !! q.
Proof.
  unfold Mkdir. intros Hq. destruct (is_dir fs p), (fs !! p), (attempt (OpMkdir p)); simpl; try done.
  by apply lookup_insert_ne.
Qed.
(** [MkdirAll] creates directories only, at the path and above it. *)
Lemma MkdirAll_other p q perm fs :
  q ∉ ancestors (elems p) → (MkdirAll p perm fs).1 !! q = fs !! q.
Proof.
  intros Hq. unfold MkdirAll.
  apply (for_each_invariant (λ fs', fs' !! q = fs !! q)); [|done].
  intros x fs' Hx Hfs. rewrite Mkdir_other; [done|]. by intros ->.
Qed.
Lemma elem_of_ancestors p q : q ∈ ancestors p → ∃ r, p = q ++ r.
Proof.
  unfold ancestors. rewrite list_elem_of_fmap. intros (n & -> & _).
  exists (drop n p). by rewrite take_drop.
Qed.
Lemma descendant_not_ancestor p name : p ++ [name] ∉ ancestors p.
Proof.
  intros [r Hr]%elem_of_ancestors. apply (f_equal length) in Hr.
  rewrite !length_app in Hr. simpl in Hr. lia.
Qed.
End lemmas.
