(* ===== verification/Torrc.v ===== *)
(** * Rendering torrc (internal/tor/torrc.go)

    [Validate] and [Render] of a [TorrcConfig].  A torrc is also read back the way
    Tor reads it, line by line, and the rendered text is shown to hold exactly the
    intended directives.  [range] below is the order in which a [range] loop over
    [ExtraDirectives] yields the keys, which Go leaves unspecified. *)

From Stdlib Require Import Ascii ZArith.
From stdpp Require Import sorting.
From S2P Require Import Prelude GoStrings GoNet.
#[local] Open Scope Z_scope.

Record PortMapping := { VirtualPort : Z; TargetHost : string; TargetPort : Z }.

Record TorrcConfig := {
  HiddenServiceDir : string;
  HiddenServicePort : PortMapping;
  LogLevel : string;
  DataDirectory : string;
  PoWDefensesEnabled : bool;
  ClientAuthDir : string;
  MetricsPort : Z;
  MetricsPortPolicy : string;
  ExtraDirectives : gmap string string;
  OnionbalanceInstance : bool;
  TestingNetworkInclude : string;
}.

Inductive torrc_error :=
| ErrHiddenServiceDir (got : string)
| ErrDataDirectory (got : string)
| ErrVirtualPort (got : Z)
| ErrTargetPort (got : Z)
| ErrTargetHost (got : string)
| ErrLogLevel (got : string)
| ErrClientAuthDirRelative (got : string)
| ErrClientAuthDir (want got : string)
| ErrMetricsPort (got : Z)
| ErrMetricsPortPolicy
| ErrExtraKey (key : string).

Definition validLogLevel (l : string) : bool :=
  bool_decide (l ∈ ["debug"; "info"; "notice"; "warn"; "err"]).

(** [" \t\r\n"] *)
Definition blank_chars : string :=
  String "032" (String "009" (String "013" (String "010" ""))).
Definition valid_extra_key (k : string) : bool :=
  negb (ContainsAny k blank_chars || bool_decide (k = "")).

Definition port_ok (p : Z) : bool := negb ((p <? 1) || (p >? 65535)).
Definition loopback_host (h : string) : bool := from_option IsLoopback false (ParseIP h).

(** [TorrcConfig.Validate] of a non-nil receiver ([Render] is called with one). *)
Definition Validate (range : list string) (c : TorrcConfig) : result torrc_error () :=
  guard! IsAbs (HiddenServiceDir c) else ErrHiddenServiceDir (HiddenServiceDir c);;
  guard! IsAbs (DataDirectory c) else ErrDataDirectory (DataDirectory c);;
  guard! port_ok (VirtualPort (HiddenServicePort c))
    else ErrVirtualPort (VirtualPort (HiddenServicePort c));;
  guard! port_ok (TargetPort (HiddenServicePort c))
    else ErrTargetPort (TargetPort (HiddenServicePort c));;
  guard! loopback_host (TargetHost (HiddenServicePort c))
    else ErrTargetHost (TargetHost (HiddenServicePort c));;
  guard! bool_decide (LogLevel c = "") || validLogLevel (LogLevel c)
    else ErrLogLevel (LogLevel c);;
  guard! bool_decide (ClientAuthDir c = "") || IsAbs (ClientAuthDir c)
    else ErrClientAuthDirRelative (ClientAuthDir c);;
  let want := path_Join (HiddenServiceDir c) "authorized_clients" in
  guard! bool_decide (ClientAuthDir c = "") || bool_decide (ClientAuthDir c = want)
    else ErrClientAuthDir want (ClientAuthDir c);;
  guard! negb ((MetricsPort c <? 0) || (MetricsPort c >? 65535))
    else ErrMetricsPort (MetricsPort c);;
  guard! negb ((MetricsPort c >? 0) && bool_decide (MetricsPortPolicy c = ""))
    else ErrMetricsPortPolicy;;
  match filter (λ k, valid_extra_key k = false) range with
  | k :: _ => Err (ErrExtraKey k)
  | [] => Ok ()
  end.

(** The pieces [Render] writes to its builder, in order; each is the list of the
    lines it adds (a line is written with its newline). *)
Definition effective_level (c : TorrcConfig) : string :=
  if bool_decide (LogLevel c = "") then "notice" else LogLevel c.

Definition render_head (c : TorrcConfig) : list string :=
  ["# Rendered by tor-gateway; do not edit by hand."; "";
   "DataDirectory " +:+ DataDirectory c;
   "Log " +:+ effective_level c +:+ " stdout";
   "SocksPort 0"; "ClientUseIPv4 1"; "ClientUseIPv6 1"; ""].
Definition render_include (c : TorrcConfig) : string :=
  let inc := TestingNetworkInclude c in
  if bool_decide (inc = "") then ""
  else if HasSuffix inc nl then inc else inc +:+ nl.
Definition render_service (c : TorrcConfig) : list string :=
  let p := HiddenServicePort c in
  ["HiddenServiceDir " +:+ HiddenServiceDir c; "HiddenServiceVersion 3";
   "HiddenServicePort " +:+ Itoa (VirtualPort p) +:+ " " +:+ TargetHost p +:+ ":" +:+
     Itoa (TargetPort p)] ++
  (if OnionbalanceInstance c then ["HiddenServiceOnionbalanceInstance 1"] else []) ++
  (if PoWDefensesEnabled c && negb (OnionbalanceInstance c)
   then ["HiddenServiceEnableIntroDoSDefense 1"; "HiddenServicePoWDefensesEnabled 1"] else []) ++
  (if MetricsPort c >? 0
   then ["MetricsPort 0.0.0.0:" +:+ Itoa (MetricsPort c);
         "MetricsPortPolicy " +:+ MetricsPortPolicy c] else []) ++
  (if bool_decide (ClientAuthDir c = "") then []
   else ["# client authorization enabled (authorized_clients/*.auth)"]).
Definition render_extra (range : list string) (c : TorrcConfig) : list string :=
  if (0 <? size (ExtraDirectives c))%nat then
    [""; "# extra directives"] ++
    map (λ k, let v := default "" (ExtraDirectives c !! k) in
              if bool_decide (v = "") then k else k +:+ " " +:+ v)
        (sort_strings range)
  else [].

Definition Render (range : list string) (c : TorrcConfig) : result torrc_error string :=
  let* _ := Validate range c in
  Ok (String.concat "" (map line (render_head c)) +:+ render_include c +:+
      String.concat "" (map line (render_service c)) +:+
      String.concat "" (map line (render_extra range c))).

(** ** Reading a torrc

    Tor reads lines; a comment or a blank line says nothing; otherwise the keyword
    extends to the first space. *)
Inductive directive := Directive (key arg : string).
#[export] Instance directive_eq_dec : EqDecision directive.
Proof. solve_decision. Defined.

Definition read_line (l : string) : option directive :=
  match l with
  | "" => None
  | String "#" _ => None
  | _ => match cut_first " " l with
         | Some (k, a) => Some (Directive k a)
         | None => Some (Directive l "")
         end
  end.
Definition read_torrc (text : string) : list directive :=
  omap read_line (split_on "010" text).

(** What a configuration without an include and extra directives asks of Tor. *)
Definition directives (c : TorrcConfig) : list directive :=
  let p := HiddenServicePort c in
  [Directive "DataDirectory" (DataDirectory c);
   Directive "Log" (effective_level c +:+ " stdout");
   Directive "SocksPort" "0"; Directive "ClientUseIPv4" "1"; Directive "ClientUseIPv6" "1";
   Directive "HiddenServiceDir" (HiddenServiceDir c); Directive "HiddenServiceVersion" "3";
   Directive "HiddenServicePort"
     (Itoa (VirtualPort p) +:+ " " +:+ TargetHost p +:+ ":" +:+ Itoa (TargetPort p))] ++
  (if OnionbalanceInstance c then [Directive "HiddenServiceOnionbalanceInstance" "1"]
   else if PoWDefensesEnabled c
   then [Directive "HiddenServiceEnableIntroDoSDefense" "1";
         Directive "HiddenServicePoWDefensesEnabled" "1"] else []) ++
  (if MetricsPort c >? 0
   then [Directive "MetricsPort" ("0.0.0.0:" +:+ Itoa (MetricsPort c));
         Directive "MetricsPortPolicy" (MetricsPortPolicy c)] else []).

(** * Lemmas *)
(** ** Lines *)
Lemma read_torrc_lines ls :
  Forall (λ s, no_nl s = true) ls →
  ∀ t, read_torrc (String.concat "" (map line ls) +:+ t) = omap read_line ls ++ read_torrc t.
Proof.
  induction 1 as [|s ls Hs _ IH]; intros t; [done|].
  assert (String.concat "" (map line (s :: ls)) = line s +:+ String.concat "" (map line ls)) as ->.
  { destruct ls; simpl; [by rewrite str_app_nil_r | done]. }
  rewrite <- str_app_assoc. unfold read_torrc in *. rewrite split_on_line by done. simpl.
  rewrite IH. by destruct (read_line s).
Qed.
Lemma no_nl_level c l : validLogLevel l = true → LogLevel c = l → no_nl (effective_level c) = true.
Proof.
  unfold validLogLevel, effective_level. intros Hl <-. bools.
  case_bool_decide; [done|].
  repeat (apply elem_of_cons in Hl as [->|Hl]; [done|]). by apply elem_of_nil in Hl.
Qed.

(** ** Validation *)
Lemma Validate_Ok range c :
  Validate range c = Ok () ↔
  IsAbs (HiddenServiceDir c) = true ∧ IsAbs (DataDirectory c) = true ∧
  1 ≤ VirtualPort (HiddenServicePort c) ≤ 65535 ∧ 1 ≤ TargetPort (HiddenServicePort c) ≤ 65535 ∧
  loopback_host (TargetHost (HiddenServicePort c)) = true ∧
  (LogLevel c = "" ∨ validLogLevel (LogLevel c) = true) ∧
  (ClientAuthDir c = "" ∨ IsAbs (ClientAuthDir c) = true ∧
     ClientAuthDir c = path_Join (HiddenServiceDir c) "authorized_clients") ∧
  0 ≤ MetricsPort c ≤ 65535 ∧ (0 < MetricsPort c → MetricsPortPolicy c ≠ "") ∧
  Forall (λ k, valid_extra_key k = true) range.
Proof.
  unfold Validate. rewrite !guard_Ok. unfold port_ok.
  rewrite !negb_true_iff, !orb_true_iff, !orb_false_iff, !andb_false_iff, !bool_decide_eq_true,
    !bool_decide_eq_false, !Z.gtb_ltb, !Z.ltb_ge.
  assert (match filter (λ k, valid_extra_key k = false) range with
          | [] => Ok () | k :: _ => Err (ErrExtraKey k) end = Ok () ↔
          Forall (λ k, valid_extra_key k = true) range) as ->.
  { rewrite Forall_forall. destruct (filter _ range) as [|k ks] eqn:Hf.
    - split; [|done]. intros _ k Hk. apply not_false_iff_true. intros Hv.
      assert (k ∈ filter (λ k, valid_extra_key k = false) range) as Hin
        by (by apply list_elem_of_filter).
      rewrite Hf in Hin. by apply elem_of_nil in Hin.
    - split; [done|]. intros Hall.
      assert (k ∈ filter (λ k, valid_extra_key k = false) range) as Hin by (rewrite Hf; left).
      apply list_elem_of_filter in Hin as [Hv Hk]. by rewrite Hall in Hv. }
  destruct (decide (MetricsPortPolicy c = "")); split; intros; destruct_and!; split_and!;
    try tauto; try lia; intuition (try lia; try congruence).
  all: destruct (Z.le_gt_cases (MetricsPort c) 0); [by left | right; auto].
Qed.

Lemma Render_Ok range c text :
  Render range c = Ok text ↔ Validate range c = Ok () ∧
  text = String.concat "" (map line (render_head c)) +:+ render_include c +:+
      String.concat "" (map line (render_service c)) +:+
      String.concat "" (map line (render_extra range c)).
Proof.
  unfold Render. rewrite rbind_Ok. split.
  - intros ([] & H & [= <-]). done.
  - intros [H ->]. by exists ().
Qed.

(** Values that cannot end the line they are written on. *)
Definition single_line_values (c : TorrcConfig) : Prop :=
  no_nl (DataDirectory c) = true ∧ no_nl (HiddenServiceDir c) = true ∧
  no_nl (TargetHost (HiddenServicePort c)) = true ∧ no_nl (MetricsPortPolicy c) = true.

Lemma head_lines_ok c :
  no_nl (DataDirectory c) = true → no_nl (effective_level c) = true →
  Forall (λ s, no_nl s = true) (render_head c).
Proof.
  intros Hd Hl. unfold render_head. repeat constructor;
    rewrite ?no_nl_app, ?Hd, ?Hl; done.
Qed.
Lemma service_lines_ok c :
  single_line_values c → Forall (λ s, no_nl s = true) (render_service c).
Proof.
  intros (Hd & Hs & Ht & Hm). unfold render_service.
  repeat first [apply Forall_app; split | case_match | constructor];
    rewrite ?no_nl_app, ?Hs, ?Ht, ?Hm, ?no_nl_Itoa; done.
Qed.
Lemma read_head c :
  omap read_line (render_head c) = take 5 (directives c).
Proof. reflexivity. Qed.
Lemma read_service c :
  omap read_line (render_service c) = drop 5 (directives c).
Proof.
  unfold render_service, directives. simpl.
  destruct (OnionbalanceInstance c), (PoWDefensesEnabled c), (MetricsPort c >? 0); simpl;
    repeat f_equal; by case_bool_decide.
Qed.

Lemma Render_reads (c : TorrcConfig) (text : string) :
  single_line_values c → TestingNetworkInclude c = "" → ExtraDirectives c = ∅ →
  Render [] c = Ok text → read_torrc text = directives c.
Proof.
  intros Hv Hi He (Hval & ->)%Render_Ok. apply Validate_Ok in Hval as (_ & _ & _ & _ & _ & Hlvl & _).
  unfold render_include, render_extra. rewrite Hi, He, bool_decide_true by done.
  change (0 <? size (∅ : gmap string string))%nat with false.
  change (String.concat "" (map line [])) with "".
  assert (no_nl (effective_level c) = true) as Hl.
  { destruct Hlvl as [Hlvl|Hlvl]; [unfold effective_level; by rewrite Hlvl|by eapply no_nl_level]. }
  rewrite read_torrc_lines by (apply head_lines_ok; [apply Hv|done]).
  change ("" +:+ ?t) with t. rewrite read_torrc_lines by (by apply service_lines_ok).
  rewrite read_head, read_service. change (read_torrc "") with (@nil directive).
  by rewrite app_nil_r, take_drop.
Qed.

(** * The contract *)

(** C12.  No injection: the text rendered from a configuration without an include and
    extra directives, whose paths, host and metrics policy are single lines, is read
    by Tor as exactly the intended directives, whatever the log level asked for;
    the proof-of-work pair is there only outside onionbalance mode. *)
Theorem render_reads_back (c : TorrcConfig) (text : string) :
  single_line_values c → TestingNetworkInclude c = "" → ExtraDirectives c = ∅ →
  Render [] c = Ok text → read_torrc text = directives c.
Proof. apply Render_reads. Qed.

Lemma sort_strings_Permutation l k : l ≡ₚ k → sort_strings l = sort_strings k.
Proof.
  intros Hp. unfold sort_strings. apply (StronglySorted_unique String.le).
  - apply (StronglySorted_merge_sort _).
  - apply (StronglySorted_merge_sort _).
  - by rewrite !merge_sort_Permutation.
Qed.

(** Determinism: the rendered text does not depend on the order in which Go's map
    iteration yields the extra directives, and neither does being accepted. *)
Theorem render_range_independent (range1 range2 : list string) (c : TorrcConfig) (text : string) :
  range1 ≡ₚ range2 → Render range1 c = Ok text → Render range2 c = Ok text.
Proof.
  intros Hp (Hval & ->)%Render_Ok. apply Render_Ok. split.
  - apply Validate_Ok in Hval. apply Validate_Ok. by rewrite <- Hp.
  - unfold render_extra. by rewrite (sort_strings_Permutation _ _ Hp).
Qed.

(** ** Witnesses: the configuration of a standalone Gateway pod *)
Definition sample_config : TorrcConfig := {|
  HiddenServiceDir := "/var/lib/tor/hs/hs";
  HiddenServicePort := {| VirtualPort := 80; TargetHost := "127.0.0.1"; TargetPort := 9080 |};
  LogLevel := "info"; DataDirectory := "/var/lib/tor/data/data"; PoWDefensesEnabled := true;
  ClientAuthDir := "/var/lib/tor/hs/hs/authorized_clients"; MetricsPort := 9035;
  MetricsPortPolicy := "accept 0.0.0.0/0"; ExtraDirectives := ∅;
  OnionbalanceInstance := false; TestingNetworkInclude := ""
|}.
Definition sample_extra : TorrcConfig := {|
  HiddenServiceDir := "/hs";
  HiddenServicePort := {| VirtualPort := 80; TargetHost := "::1"; TargetPort := 9080 |};
  LogLevel := ""; DataDirectory := "/data"; PoWDefensesEnabled := true;
  ClientAuthDir := ""; MetricsPort := 0; MetricsPortPolicy := "";
  ExtraDirectives := {[ "SafeLogging" := "1"; "AvoidDiskWrites" := "" ]};
  OnionbalanceInstance := true; TestingNetworkInclude := ""
|}.
Definition rendered (r : result torrc_error string) : string :=
  match r with Ok s => s | Err _ => "" end.

Lemma render_reads_back_witness :
  read_torrc (rendered (Render [] sample_config)) = directives sample_config.
Proof.
  apply render_reads_back; [repeat split; vm_compute; reflexivity|reflexivity|reflexivity|].
  vm_compute. reflexivity.
Defined.
Lemma render_range_independent_witness :
  Render ["AvoidDiskWrites"; "SafeLogging"] sample_extra =
  Ok (rendered (Render ["SafeLogging"; "AvoidDiskWrites"] sample_extra)).
Proof.
  apply (render_range_independent ["SafeLogging"; "AvoidDiskWrites"]).
  - apply perm_swap.
  - vm_compute. reflexivity.
Defined.
