(* ===== verification/Regex.v ===== *)
(** * Regular expressions

    The fragment of Go's [regexp] the program's three anchored patterns use:
    classes of ASCII characters, sequence, alternative, option and bounded
    repetition.  [matches] is the declarative meaning, [re_match] decides it by
    derivatives. *)

From Stdlib Require Import Ascii.
From S2P Require Import Prelude GoStrings.

Inductive regex :=
| Void
| Eps
| Class (p : ascii → bool)
| Seq (r s : regex)
| Alt (r s : regex).

Definition Opt (r : regex) : regex := Alt Eps r.
(** [r{n}] and [r{lo,hi}]. *)
Fixpoint Times (n : nat) (r : regex) : regex :=
  match n with 0 => Eps | S n => Seq r (Times n r) end.
Fixpoint UpTo (n : nat) (r : regex) : regex :=
  match n with 0 => Eps | S n => Opt (Seq r (UpTo n r)) end.
Definition Between (lo hi : nat) (r : regex) : regex := Seq (Times lo r) (UpTo (hi - lo) r).

Inductive matches : regex → string → Prop :=
| m_eps : matches Eps ""
| m_class p c : p c = true → matches (Class p) (String c "")
| m_seq r s u v : matches r u → matches s v → matches (Seq r s) (u +:+ v)
| m_left r s u : matches r u → matches (Alt r s) u
| m_right r s u : matches s u → matches (Alt r s) u.

(** ** Deciding a match *)
Fixpoint nullable (r : regex) : bool :=
  match r with
  | Void | Class _ => false
  | Eps => true
  | Seq r s => nullable r && nullable s
  | Alt r s => nullable r || nullable s
  end.

(** Sequences and alternatives that drop [Void], which keeps derivatives small. *)
Definition mk_seq (r s : regex) : regex :=
  match r with Void => Void | Eps => s | _ => Seq r s end.
Definition mk_alt (r s : regex) : regex :=
  match r with Void => s | _ => match s with Void => r | _ => Alt r s end end.

Fixpoint deriv (c : ascii) (r : regex) : regex :=
  match r with
  | Void | Eps => Void
  | Class p => if p c then Eps else Void
  | Seq r s =>
      if nullable r then mk_alt (mk_seq (deriv c r) s) (deriv c s) else mk_seq (deriv c r) s
  | Alt r s => mk_alt (deriv c r) (deriv c s)
  end.
Fixpoint re_match (r : regex) (s : string) : bool :=
  match s with "" => nullable r | String c s => re_match (deriv c r) s end.

(** ** Correctness *)
#[local] Arguments String.append !_ _ / : assert.

Lemma matches_void s : ¬ matches Void s.
Proof. by inversion 1. Qed.
Lemma matches_seq r s t :
  matches (Seq r s) t ↔ ∃ u v, t = u +:+ v ∧ matches r u ∧ matches s v.
Proof. split; [inversion 1; subst; eauto | intros (?&?&->&?&?); by constructor]. Qed.
Lemma matches_alt r s t : matches (Alt r s) t ↔ matches r t ∨ matches s t.
Proof. split; [inversion 1; auto | intros []; by constructor]. Qed.
Lemma matches_eps t : matches Eps t ↔ t = "".
Proof. split; [by inversion 1 | intros ->; constructor]. Qed.
Lemma matches_class p t : matches (Class p) t ↔ ∃ c, p c = true ∧ t = String c "".
Proof. split; [inversion 1; eauto | intros (?&?&->); by constructor]. Qed.

Lemma matches_mk_seq r s t : matches (mk_seq r s) t ↔ matches (Seq r s) t.
Proof.
  destruct r; try done; rewrite matches_seq.
  - split; [by intros ?%matches_void | by intros (?&?&_&?%matches_void&_)].
  - setoid_rewrite matches_eps. split; [intros; by exists "", t | by intros (?&?&->&->&?)].
Qed.
Lemma matches_mk_alt r s t : matches (mk_alt r s) t ↔ matches (Alt r s) t.
Proof.
  pose proof matches_void. rewrite matches_alt.
  destruct r; simpl; [naive_solver|..]; destruct s; rewrite ?matches_alt; naive_solver.
Qed.

Lemma nullable_matches r : nullable r = true ↔ matches r "".
Proof.
  induction r; simpl.
  - pose proof (matches_void ""). naive_solver.
  - by rewrite matches_eps.
  - rewrite matches_class. naive_solver.
  - rewrite andb_true_iff, IHr1, IHr2, matches_seq. split.
    + intros [??]. by exists "", "".
    + by intros ([]&[]&?&?&?).
  - by rewrite orb_true_iff, IHr1, IHr2, matches_alt.
Qed.

Lemma deriv_matches c r s : matches (deriv c r) s ↔ matches r (String c s).
Proof.
  revert s. induction r as [| |p|r IHr s' IHs|r IHr s' IHs]; intros t; simpl.
  - split; by intros ?%matches_void.
  - rewrite matches_eps. by split; [intros ?%matches_void|].
  - rewrite matches_class. destruct (p c) eqn:Hp; rewrite ?matches_eps.
    + split; [intros ->; eauto | by intros (?&?&[= -> ->])].
    + split; [by intros ?%matches_void | intros (?&?&[= -> ->]); congruence].
  - assert (Hcons : matches (mk_seq (deriv c r) s') t ↔
        ∃ u v, t = u +:+ v ∧ matches r (String c u) ∧ matches s' v).
    { rewrite matches_mk_seq, matches_seq. by setoid_rewrite IHr. }
    rewrite matches_seq. destruct (nullable r) eqn:Hn.
    + rewrite matches_mk_alt, matches_alt, Hcons, IHs. split.
      * intros [(u&v&->&?&?)|?]; [by exists (String c u), v|].
        exists "", (String c t). split; [done|]. by rewrite <- nullable_matches.
      * intros ([|c' u]&v&Heq&?&?); simpl in Heq; simplify_eq; eauto 10.
    + rewrite Hcons. split.
      * intros (u&v&->&?&?). by exists (String c u), v.
      * intros ([|c' u]&v&Heq&Hu&?); simpl in Heq; simplify_eq; eauto 10.
        apply nullable_matches in Hu. congruence.
  - by rewrite matches_mk_alt, !matches_alt, IHr, IHs.
Qed.

Theorem re_match_matches r s : re_match r s = true ↔ matches r s.
Proof.
  revert r. induction s as [|c s IH]; intros r; simpl.
  - apply nullable_matches.
  - by rewrite IH, deriv_matches.
Qed.

(** ** What a match says about the string *)
Fixpoint classes_within (p : ascii → bool) (r : regex) : Prop :=
  match r with
  | Void | Eps => True
  | Class q => ∀ c, q c = true → p c = true
  | Seq r s | Alt r s => classes_within p r ∧ classes_within p s
  end.
Fixpoint max_len (r : regex) : nat :=
  match r with
  | Void | Eps => 0
  | Class _ => 1
  | Seq r s => max_len r + max_len s
  | Alt r s => Nat.max (max_len r) (max_len s)
  end.
Fixpoint min_len (r : regex) : nat :=
  match r with
  | Void | Eps => 0
  | Class _ => 1
  | Seq r s => min_len r + min_len s
  | Alt r s => Nat.min (min_len r) (min_len s)
  end.

Lemma matches_chars p r s : classes_within p r → matches r s → str_forallb p s = true.
Proof.
  intros Hr Hm. induction Hm; simpl in *; rewrite ?str_forallb_app; try tauto.
  - rewrite Hr; done.
  - destruct Hr. rewrite IHHm1, IHHm2; done.
Qed.
Lemma matches_max_len r s : matches r s → String.length s ≤ max_len r.
Proof. induction 1; simpl; rewrite ?str_length_app; lia. Qed.
Lemma matches_min_len r s : matches r s → min_len r ≤ String.length s.
Proof. induction 1; simpl; rewrite ?str_length_app; lia. Qed.

Lemma re_match_chars p r s : classes_within p r → re_match r s = true → str_forallb p s = true.
Proof. rewrite re_match_matches. apply matches_chars. Qed.

Lemma classes_within_Times p n r : classes_within p r → classes_within p (Times n r).
Proof. induction n; simpl; auto. Qed.
Lemma classes_within_UpTo p n r : classes_within p r → classes_within p (UpTo n r).
Proof. induction n; simpl; auto. Qed.
Lemma classes_within_Between p lo hi r :
  classes_within p r → classes_within p (Between lo hi r).
Proof. split; [by apply classes_within_Times | by apply classes_within_UpTo]. Qed.
#[export] Hint Resolve classes_within_Times classes_within_UpTo classes_within_Between : torgw.

Lemma max_len_Times n r : max_len (Times n r) = n * max_len r.
Proof. induction n; simpl; lia. Qed.
Lemma min_len_Times n r : min_len (Times n r) = n * min_len r.
Proof. induction n; simpl; lia. Qed.
