(* ===== verification/ClientAuth.v ===== *)
(** * Client authorization files (internal/tor/clientauth.go)

    Loading client keys from a mounted Secret and writing one [<label>.auth] file per
    valid entry.  Valid entries are written whatever the others are, and nothing is
    written outside the [authorized_clients] directory. *)

From Stdlib Require Import Ascii NArith.
From stdpp Require Import sorting.
From S2P Require Import Prelude Monad GoStrings GoNet GoOS Regex.

Definition AuthorizedClientsSubdir : string := "authorized_clients".
Definition AuthFileSuffix : string := ".auth".
Definition AuthorizedClientsDirMode : N := 448. (* 0o700 *)
Definition auth_file_mode : N := 384. (* 0o600 *)

(** [^[a-z0-9]([-a-z0-9]{0,62}[a-z0-9])?$] *)
Definition lower_alnum (c : ascii) : bool := in_range 97 122 c || in_range 48 57 c.
Definition label_char (c : ascii) : bool := (ch c =? 45)%N || lower_alnum c.
Definition clientLabelPattern : regex :=
  Seq (Class lower_alnum) (Opt (Seq (Between 0 62 (Class label_char)) (Class lower_alnum))).
(** [^[A-Z2-7]{52}$] *)
Definition upper_base32 (c : ascii) : bool := in_range 65 90 c || in_range 50 55 c.
Definition pubkeyPattern : regex := Times 52 (Class upper_base32).

Inductive entry_error := ErrLabel (label : string) | ErrPubkey.
Inductive auth_error :=
| ErrOutDir
| ErrCreate (dir : string) (e : io_error)
| ErrWrite (path : string) (e : io_error)
| ErrRejected (entries : list (string * entry_error)).

(** What [os.ReadDir] yields for an entry of a Secret volume: its name, the type from
    [entry.Info], and the body behind it ([os.ReadFile] follows links). *)
Record dirent := {
  d_name : string;
  d_info : result io_error kind;
  d_body : result io_error bytes;
}.

Section auth.
Context `{OS, UnicodeCase}.

Definition validateAuthEntry (label pubkey : string) : result entry_error () :=
  guard! re_match clientLabelPattern label else ErrLabel label;;
  guard! re_match pubkeyPattern (ToUpper pubkey) else ErrPubkey;;
  Ok ().

Definition auth_content (raw : string) : bytes :=
  bytes_of_string ("descriptor:x25519:" +:+ raw +:+ nl).

(** The loop over the sorted labels, collecting the rejected ones. *)
Fixpoint write_entries (authDir : string) (clients : gmap string string)
    (labels : list string) (rejected : list (string * entry_error))
  : M fsys auth_error (list (string * entry_error)) :=
  match labels with
  | [] => ret rejected
  | label :: labels =>
      let raw := TrimSpace (default "" (clients !! label)) in
      match validateAuthEntry label raw with
      | Err e => write_entries authDir clients labels (rejected ++ [(label, e)])
      | Ok _ =>
          let p := path_Join authDir (label +:+ AuthFileSuffix) in
          do! wrap (ErrWrite p) (WriteFile p (auth_content raw) auth_file_mode) in
          write_entries authDir clients labels rejected
      end
  end.

(** Sorting makes the order in which the map is ranged over irrelevant. *)
Definition sorted_keys {A} (m : gmap string A) : list string := sort_strings (map_to_list m).*1.

Definition WriteAuthorizedClients (outDir : string) (clients : gmap string string)
  : M fsys auth_error () :=
  if bool_decide (outDir = "") then throw ErrOutDir
  else
    let authDir := path_Join outDir AuthorizedClientsSubdir in
    do! wrap (ErrCreate authDir) (MkdirAll authDir AuthorizedClientsDirMode) in
    let! rejected := write_entries authDir clients (sorted_keys clients) [] in
    match rejected with
    | [] => ret ()
    | _ => throw (ErrRejected rejected)
    end.

(** The loop of [LoadAuthorizedClientsFromDir] over the directory's entries. *)
Fixpoint load_entries (entries : list dirent) (out : gmap string string)
  : result io_error (gmap string string) :=
  match entries with
  | [] => Ok out
  | e :: entries =>
      if HasPrefix (d_name e) ".." then load_entries entries out
      else
        let* k := d_info e in
        if negb (bool_decide (k ∈ [KFile; KLink])) then load_entries entries out
        else
          let* body := d_body e in
          load_entries entries (<[d_name e := TrimSpace (string_of_bytes body)]> out)
  end.
Definition LoadAuthorizedClientsFromDir (dir : result io_error (list dirent))
  : result io_error (gmap string string) :=
  let* entries := dir in load_entries entries ∅.
End auth.

(** * Lemmas *)
Lemma label_plain label : re_match clientLabelPattern label = true →
  plain_name (label +:+ AuthFileSuffix) = true.
Proof.
  intros Hl. pose proof (proj1 (re_match_matches _ _) Hl) as Hm.
  apply matches_min_len in Hm. simpl in Hm.
  apply (re_match_chars (λ c, negb (Ascii.eqb c "/"))) in Hl.
  - unfold plain_name, no_slash. rewrite str_forallb_app, Hl. cbn [andb].
    apply negb_true_iff, bool_decide_eq_false. intros Hin.
    assert (String.length (label +:+ AuthFileSuffix) ≤ 2).
    { assert (∀ s : string, s ∈ [""; "."; ".."] → String.length s ≤ 2) as Hs; [|by apply Hs].
      intros s. rewrite !elem_of_cons, elem_of_nil.
      intros [->|[->|[->|[]]]]; simpl; lia. }
    rewrite str_length_app in *. simpl in *. lia.
  - assert (∀ c, label_char c = true → negb (Ascii.eqb c "/") = true) as Hc
      by (apply ascii_impl; vm_compute; reflexivity).
    assert (∀ c, lower_alnum c = true → label_char c = true) as Hd
      by (intros c Hd; unfold label_char; by rewrite Hd, orb_true_r).
    unfold clientLabelPattern. cbn [classes_within Opt].
    repeat split; auto; apply classes_within_Between; simpl; auto.
Qed.

Section spec.
Context `{OS, UnicodeCase}.
Implicit Types fs : fsys.

Definition entry_valid (clients : gmap string string) (label : string) : bool :=
  is_ok (validateAuthEntry label (TrimSpace (default "" (clients !! label)))).
Definition auth_path (authDir : path) (label : string) : path :=
  authDir ++ [label +:+ AuthFileSuffix].
(** The file written for an entry: a new one has mode 0600 less the umask, an existing one
    keeps its mode. *)
Definition auth_file (fs : fsys) (p : path) (raw : string) : node :=
  match fs !! p with
  | Some n => {| n_kind := n_kind n; n_mode := n_mode n; n_data := auth_content raw |}
  | None => {| n_kind := KFile; n_mode := N.ldiff auth_file_mode umask; n_data := auth_content raw |}
  end.

Lemma auth_path_inj dir l k : auth_path dir l = auth_path dir k → l = k.
Proof. unfold auth_path. intros [_ [= Heq%str_app_inj_r]]%app_inj_tail. done. Qed.

Lemma entry_valid_label clients label :
  entry_valid clients label = true → re_match clientLabelPattern label = true.
Proof. unfold entry_valid, validateAuthEntry. by destruct (re_match _ label). Qed.

Definition links_free fs (dir : path) : Prop :=
  ∀ name n, fs !! (dir ++ [name]) = Some n → n_kind n ≠ KLink.

Lemma WriteFile_Ok fs fs' p data perm :
  (∀ n, fs !! elems p = Some n → n_kind n ≠ KLink) →
  WriteFile p data perm fs = (fs', Ok ()) →
  fs' = <[elems p := match fs !! elems p with
                     | Some n => {| n_kind := n_kind n; n_mode := n_mode n; n_data := data |}
                     | None => {| n_kind := KFile; n_mode := N.ldiff perm umask; n_data := data |}
                     end]> fs.
Proof.
  intros Hl. unfold WriteFile, resolve.
  destruct (fs !! elems p) as [n|] eqn:Hn.
  - rewrite bool_decide_false by eauto. unfold write_at. rewrite Hn.
    destruct (attempt _); [|done]. by case_bool_decide; intros [= <-].
  - unfold write_at. rewrite Hn. destruct (attempt _); [|done].
    by case_bool_decide; [|destruct (is_dir _ _)]; intros [= <-].
Qed.

(** The loop, when it meets no I/O error. *)
Lemma write_entries_spec authDir clients labels :
  authDir ≠ "" → ∀ rej fs fs' rej',
  links_free fs (elems authDir) →
  write_entries authDir clients labels rej fs = (fs', Ok rej') →
  rej'.*1 = rej.*1 ++ filter (λ l, entry_valid clients l = false) labels ∧
  ∀ p, fs' !! p =
    match list_find (λ l, entry_valid clients l = true ∧ p = auth_path (elems authDir) l) labels with
    | Some (_, l) => Some (auth_file fs p (TrimSpace (default "" (clients !! l))))
    | None => fs !! p
    end.
Proof.
  intros Hdir. induction labels as [|l ls IH]; intros rej fs fs' rej' Hlf Hrun; simpl in Hrun.
  { injection Hrun as <- <-. simpl. by rewrite app_nil_r. }
  pose proof (entry_valid_label clients l) as Hlab.
  destruct (validateAuthEntry l _) as [[]|e] eqn:Hval; cycle 1.
  { assert (entry_valid clients l = false) as Hv by (unfold entry_valid; by rewrite Hval).
    apply IH in Hrun as [Hr Hfs]; [|done]. split.
    - rewrite Hr, fmap_app, filter_cons, decide_True, <- app_assoc by done. done.
    - intros p. rewrite Hfs. simpl. rewrite decide_False by (intros [? _]; congruence).
      by destruct (list_find _ ls) as [[]|]. }
  assert (entry_valid clients l = true) as Hv by (unfold entry_valid; by rewrite Hval).
  pose proof (elems_path_Join _ _ Hdir (label_plain _ (Hlab Hv))) as Hel.
  fold (auth_path (elems authDir) l) in Hel.
  apply bind_Ok in Hrun as (fs1 & [] & Hw%wrap_Ok & Hrun).
  apply WriteFile_Ok in Hw; [|rewrite Hel; intros n; apply Hlf]. rewrite Hel in Hw.
  fold (auth_file fs (auth_path (elems authDir) l) (TrimSpace (default "" (clients !! l)))) in Hw.
  assert (links_free fs1 (elems authDir)) as Hlf1.
  { intros name n. rewrite Hw. destruct (decide (auth_path (elems authDir) l = elems authDir ++ [name])) as [Heq|Hne].
    - rewrite Heq, lookup_insert_eq. intros [= <-]. unfold auth_file.
      destruct (fs !! _) eqn:Hfs; simpl; [by eapply Hlf | done].
    - rewrite lookup_insert_ne by done. apply Hlf. }
  apply IH in Hrun as [Hr Hfs]; [|done]. split.
  { rewrite Hr, filter_cons, decide_False by congruence. done. }
  intros p. rewrite Hfs. simpl. clear Hfs Hr IH.
  destruct (decide (entry_valid clients l = true ∧ p = auth_path (elems authDir) l)) as [[_ ->]|Hp].
  - assert (∀ raw, auth_file fs1 (auth_path (elems authDir) l) raw =
                   auth_file fs (auth_path (elems authDir) l) raw) as Hsame.
    { intros raw. unfold auth_file at 1. rewrite Hw, lookup_insert_eq.
      unfold auth_file. by destruct (fs !! _). }
    destruct (list_find _ ls) as [[i k]|] eqn:Hf.
    + apply list_find_Some in Hf as (_ & [_ ->%auth_path_inj] & _). by rewrite Hsame.
    + by rewrite Hw, lookup_insert_eq.
  - assert (p ≠ auth_path (elems authDir) l) by tauto.
    assert (fs1 !! p = fs !! p) as Heq by (rewrite Hw; by apply lookup_insert_ne).
    destruct (list_find _ ls) as [[i k]|]; [|done]. simpl. unfold auth_file. by rewrite Heq.
Qed.

Lemma elem_of_sorted_keys {A} (m : gmap string A) k : k ∈ sorted_keys m ↔ is_Some (m !! k).
Proof.
  unfold sorted_keys, sort_strings. rewrite merge_sort_Permutation, list_elem_of_fmap. split.
  - intros ([k' a] & -> & Hk%elem_of_map_to_list). by exists a.
  - intros [a Ha]. exists (k, a). split; [done|]. by apply elem_of_map_to_list.
Qed.

(** Not an I/O error: the files were all written, whatever entries were rejected. *)
Definition io_done (r : result auth_error ()) : bool :=
  match r with Ok _ | Err (ErrRejected _) => true | _ => false end.

Lemma WriteAuthorizedClients_run outDir clients fs fs' r :
  io_done r = true → WriteAuthorizedClients outDir clients fs = (fs', r) →
  ∃ rejected, outDir ≠ "" ∧
    write_entries (path_Join outDir AuthorizedClientsSubdir) clients (sorted_keys clients) []
      (MkdirAll (path_Join outDir AuthorizedClientsSubdir) AuthorizedClientsDirMode fs).1 =
      (fs', Ok rejected) ∧
    r = match rejected with [] => Ok () | _ => Err (ErrRejected rejected) end.
Proof.
  intros Hdone. unfold WriteAuthorizedClients. case_bool_decide as Ho.
  { intros [= <- <-]. done. }
  unfold bind at 1, wrap. destruct (MkdirAll _ _ fs) as [fs1 [[]|e]]; cbn [wrap_err fst].
  2:{ by intros [= <- <-]. }
  unfold bind. destruct (write_entries _ _ _ _ fs1) as [fs2 [rej|e]] eqn:Hw.
  - intros Hr. exists rej. destruct rej; injection Hr as <- <-; done.
  - intros [= <- <-]. exfalso. revert Hw Hdone. clear.
    generalize (@nil (string * entry_error)). revert fs1.
    induction (sorted_keys clients) as [|l ls IH]; intros fs1 rej; simpl; [done|].
    destruct (validateAuthEntry _ _); [|apply IH].
    unfold bind, wrap. destruct (WriteFile _ _ _ fs1) as [? []]; simpl; [apply IH|].
    by intros [= _ <-].
Qed.

(** C19.  [WriteAuthorizedClients], whenever the operating system lets it finish: every valid
    entry ends up in its own file directly inside [authorized_clients], with exactly one
    [descriptor:x25519:] line; every other path keeps its contents, the directories leading
    to [authorized_clients] apart, so no label can reach outside it; and the error returned
    lists exactly the invalid entries, in sorted order, being nil when there is none. *)
Theorem write_authorized_clients_spec outDir clients fs fs' r
    (Hlinks : links_free fs (elems outDir ++ [AuthorizedClientsSubdir]))
    (Hdone : io_done r = true)
    (Hrun : WriteAuthorizedClients outDir clients fs = (fs', r)) :
  let dir := elems outDir ++ [AuthorizedClientsSubdir] in
  (∀ label raw, clients !! label = Some raw → entry_valid clients label = true →
     fs' !! auth_path dir label = Some (auth_file fs (auth_path dir label) (TrimSpace raw))) ∧
  (∀ p, p ∉ ancestors dir →
     (∀ label, is_Some (clients !! label) → entry_valid clients label = true →
        p ≠ auth_path dir label) →
     fs' !! p = fs !! p) ∧
  (r = Ok () ↔ ∀ label, is_Some (clients !! label) → entry_valid clients label = true) ∧
  (∀ rejected, r = Err (ErrRejected rejected) →
     rejected.*1 = filter (λ l, entry_valid clients l = false) (sorted_keys clients)).
Proof.
  intros dir. apply WriteAuthorizedClients_run in Hrun as (rej & Ho & Hw & ->); [|done].
  assert (elems (path_Join outDir AuthorizedClientsSubdir) = dir) as Hdir
    by (by apply elems_path_Join).
  assert (path_Join outDir AuthorizedClientsSubdir ≠ "") as Hne.
  { intros Hnil. rewrite Hnil in Hdir. by destruct (elems outDir). }
  apply write_entries_spec in Hw as [Hrej Hfs]; [|done|].
  2:{ rewrite Hdir. intros name n. rewrite MkdirAll_other; [apply Hlinks|].
      rewrite Hdir. apply descendant_not_ancestor. }
  rewrite Hdir in Hfs. repeat split.
  - intros label raw Hraw Hv. rewrite Hfs.
    destruct (list_find _ _) as [[i k]|] eqn:Hf.
    + apply list_find_Some in Hf as (_ & [_ <-%auth_path_inj] & _). rewrite Hraw. simpl.
      unfold auth_file. rewrite MkdirAll_other; [done|]. rewrite Hdir.
      apply descendant_not_ancestor.
    + apply list_find_None in Hf. rewrite Forall_forall in Hf. exfalso.
      apply (Hf label); [by apply elem_of_sorted_keys; eexists | done].
  - intros p Hp Hnot. rewrite Hfs. destruct (list_find _ _) as [[i k]|] eqn:Hf.
    + apply list_find_Some in Hf as (Hk%list_elem_of_lookup_2 & [Hv ->] & _).
      apply elem_of_sorted_keys in Hk. by destruct (Hnot k).
    + apply MkdirAll_other. by rewrite Hdir.
  - intros Hr label Hl%elem_of_sorted_keys. apply not_false_iff_true. intros Hv.
    assert (label ∈ rej.*1) by (rewrite Hrej; simpl; by apply list_elem_of_filter).
    destruct rej; [set_solver | done].
  - intros Hall. destruct rej as [|[l e] rej]; [done|].
    assert (l ∈ filter (λ l, entry_valid clients l = false) (sorted_keys clients))
      as [Hv Hl%elem_of_sorted_keys]%list_elem_of_filter by (rewrite app_nil_l in Hrej; rewrite <- Hrej; set_solver).
    rewrite Hall in Hv; done.
  - intros rejected Hr. destruct rej; [done|]. by injection Hr as <-.
Qed.
End spec.

(** Two valid clients and one whose label would leave the directory. *)
Definition witness_clients : gmap string string :=
  {[ "alice" := "  ABCDEFGHIJKLMNOPQRSTUVWXYZ234567ABCDEFGHIJKLMNOPQRST ";
     "../../evil" := "ABCDEFGHIJKLMNOPQRSTUVWXYZ234567ABCDEFGHIJKLMNOPQRST";
     "bob" := "not-a-key" ]}.
Lemma write_authorized_clients_spec_witness :
  let r := WriteAuthorizedClients "/var/lib/tor/hs" witness_clients ∅ in
  (r.1 !! ["var"; "lib"; "tor"; "hs"; "authorized_clients"; "alice.auth"] =
     Some {| n_kind := KFile; n_mode := 384; n_data := auth_content
             "ABCDEFGHIJKLMNOPQRSTUVWXYZ234567ABCDEFGHIJKLMNOPQRST" |}) ∧
  r.1 !! ["var"; "lib"; "evil.auth"] = None ∧
  r.2 = Err (ErrRejected [("../../evil", ErrLabel "../../evil"); ("bob", ErrPubkey)]).
Proof.
  assert (Hd : io_done (WriteAuthorizedClients "/var/lib/tor/hs" witness_clients ∅).2 = true)
    by (vm_compute; reflexivity).
  assert (Hl : links_free ∅ (elems "/var/lib/tor/hs" ++ [AuthorizedClientsSubdir]))
    by (intros ? ? Hn; rewrite lookup_empty in Hn; discriminate Hn).
  destruct (write_authorized_clients_spec _ _ _ _ _ Hl Hd (surjective_pairing _)) as (Hw & _).
  split; [|split; vm_compute; reflexivity].
  etransitivity; [apply (Hw "alice" "  ABCDEFGHIJKLMNOPQRSTUVWXYZ234567ABCDEFGHIJKLMNOPQRST ")|];
    vm_compute; reflexivity.
Defined.
