(* ===== verification/Permissions.v ===== *)
(** * Permissions of a HiddenServiceDir (internal/tor/permissions.go)

    Tor refuses to start on a directory with loose modes.  [CheckPermissions] lists every
    offending path, [FixPermissions] changes modes so that the check passes. *)

From Stdlib Require Import Ascii NArith.
From stdpp Require Import sorting.
From S2P Require Import Prelude Monad GoStrings GoNet GoOS Keys.

Definition HiddenServiceDirMode : N := 448. (* 0o700 *)
Definition SecretKeyMode : N := 384. (* 0o600 *)
Definition PublicKeyMaxMode : N := 420. (* 0o644 *)
Definition AuthorizedClientsDirMode : N := 448. (* 0o700 *)

Inductive reason := RootMode | AuthorizedClientsMode | SecretMode | FileMode.
#[global] Instance reason_eq_dec : EqDecision reason.
Proof. solve_decision. Defined.
Record PermissionViolation := {
  v_Path : string;
  v_Got : N;
  v_Want : N;
  v_Reason : reason;
}.
Inductive perm_error :=
| ErrStat (e : io_error)
| ErrNotDir
| ErrWalk (e : io_error)
| PermissionError (violations : list PermissionViolation)
| ErrOpenRoot (e : io_error)
| ErrChmodRoot (e : io_error)
| ErrFixWalk (e : io_error).

(** [errors.As(err, &PermissionError)]. *)
Definition IsPermissionError (r : result perm_error ()) : bool :=
  match r with Err (PermissionError _) => true | _ => false end.

Section permissions.
Context `{OS}.

(** The path [WalkDir] reports for the elements [rel] below the directory it was given. *)
Definition walk_name (dir : string) (rel : path) : string := foldl path_Join dir rel.
Definition base (p : path) : string := default "" (last p).

(** The body of the check on one entry below the root. *)
Definition check_entry (name : string) (p : path) (n : node) : list PermissionViolation :=
  let isdir := bool_decide (n_kind n = KDir) in
  if isdir && bool_decide (base p = "authorized_clients") then
    if bool_decide (Perm (n_mode n) = AuthorizedClientsDirMode) then []
    else [{| v_Path := name; v_Got := n_mode n; v_Want := AuthorizedClientsDirMode;
             v_Reason := AuthorizedClientsMode |}]
  else if negb isdir && bool_decide (base p = FileSecretKeyName) then
    if bool_decide (Perm (n_mode n) = SecretKeyMode) then []
    else [{| v_Path := name; v_Got := n_mode n; v_Want := SecretKeyMode;
             v_Reason := SecretMode |}]
  else if negb isdir then
    if bool_decide (N.ldiff (Perm (n_mode n)) PublicKeyMaxMode = 0%N) then []
    else [{| v_Path := name; v_Got := n_mode n; v_Want := PublicKeyMaxMode;
             v_Reason := FileMode |}]
  else [].

Definition check_root (dir : string) (n : node) : list PermissionViolation :=
  if bool_decide (Perm (n_mode n) = HiddenServiceDirMode) then []
  else [{| v_Path := dir; v_Got := n_mode n; v_Want := HiddenServiceDirMode;
           v_Reason := RootMode |}].

(** The walk: each entry's info, the check, then its directory's listing. *)
Definition after_visit (p : path) (n : node) : result io_error () :=
  if bool_decide (n_kind n = KDir) then attempt (OpReadDir p) else Ok ().
Fixpoint check_walk (fs : fsys) (dir : string) (root : path) (ps : list path)
  : result io_error (list PermissionViolation) :=
  match ps with
  | [] => Ok []
  | p :: ps =>
      let* n := Lstat fs p in
      let* _ := after_visit p n in
      let* vs := check_walk fs dir root ps in
      Ok (check_entry (walk_name dir (drop (length root) p)) p n ++ vs)
  end.
Definition walk_root (fs : fsys) (dir : string) : result io_error (list PermissionViolation) :=
  let root := elems dir in
  let* n := Lstat fs root in
  let* _ := after_visit root n in
  check_walk fs dir root (if bool_decide (n_kind n = KDir) then walk_paths fs root else []).

Definition violation_le (v w : PermissionViolation) : Prop := String.le (v_Path v) (v_Path w).
#[global] Instance violation_le_dec v w : Decision (violation_le v w).
Proof. unfold violation_le. apply _. Defined.

Definition CheckPermissions (dir : string) (fs : fsys) : result perm_error () :=
  let* n := wrap_err ErrStat (Stat fs (elems dir)) in
  guard! bool_decide (n_kind n = KDir) else ErrNotDir;;
  let* vs := wrap_err ErrWalk (walk_root fs dir) in
  match check_root dir n ++ vs with
  | [] => Ok ()
  | vs => Err (PermissionError (merge_sort violation_le vs))
  end.

(** ** Fixing *)
(** What kind an entry is comes from its directory's listing; its mode only is looked up. *)
Definition listed_as_dir (fs : fsys) (p : path) : bool :=
  match fs !! p with Some n => bool_decide (n_kind n = KDir) | None => false end.
Definition fix_entry (p : path) : M fsys io_error () :=
  let! isdir := gets (λ fs, Ok (listed_as_dir fs p)) in
  do! (if isdir && bool_decide (base p = "authorized_clients") then
         chmod_at p AuthorizedClientsDirMode
       else if negb isdir && bool_decide (base p = FileSecretKeyName) then
         chmod_at p SecretKeyMode
       else if negb isdir then
         let! n := gets (λ fs, Lstat fs p) in
         if bool_decide (N.ldiff (Perm (n_mode n)) PublicKeyMaxMode = 0%N) then ret ()
         else chmod_at p (N.land (Perm (n_mode n)) PublicKeyMaxMode)
       else ret ()) in
  lift (if isdir then attempt (OpReadDir p) else Ok ()).

(** [os.OpenRoot] resolves the directory, and everything below goes through the handle. *)
Definition OpenRoot (fs : fsys) (dir : string) : result io_error path :=
  let* n := Stat fs (elems dir) in
  guard! bool_decide (n_kind n = KDir) else ENOTDIR;;
  resolve fs (elems dir).

Definition FixPermissions (dir : string) : M fsys perm_error () :=
  let! root := wrap ErrOpenRoot (gets (λ fs, OpenRoot fs dir)) in
  do! wrap ErrChmodRoot (chmod_at root HiddenServiceDirMode) in
  wrap ErrFixWalk (
    do! lift (attempt (OpStat root)) in
    do! lift (attempt (OpReadDir root)) in
    let! ps := gets (λ fs, Ok (walk_paths fs root)) in
    for_each fix_entry ps).
End permissions.

(** * Lemmas *)
Section spec.
Context `{OS}.
Implicit Types fs : fsys.

Lemma elem_of_walk_paths fs d p :
  p ∈ walk_paths fs d ↔ below d p = true ∧ is_Some (fs !! p).
Proof.
  unfold walk_paths. rewrite merge_sort_Permutation, list_elem_of_filter, list_elem_of_fmap.
  split.
  - intros (Hb & [q n] & -> & Hn%elem_of_map_to_list). split; [done | by exists n].
  - intros (Hb & n & Hn). split; [done|]. exists (p, n).
    split; [done | by apply elem_of_map_to_list].
Qed.
Lemma NoDup_walk_paths fs d : NoDup (walk_paths fs d).
Proof.
  unfold walk_paths. rewrite merge_sort_Permutation.
  apply NoDup_filter, NoDup_fst_map_to_list.
Qed.
Lemma below_irrefl d : below d d = false.
Proof. unfold below. by rewrite Nat.ltb_irrefl, andb_false_r. Qed.

Lemma Lstat_Ok fs p n : Lstat fs p = Ok n → fs !! p = Some n.
Proof. unfold Lstat. intros ?. invert_ok. destruct (fs !! p); congruence. Qed.
Lemma Lstat_total fs p :
  (∀ q, fault (OpStat q) = None) →
  Lstat fs p = match fs !! p with Some n => Ok n | None => Err ENOENT end.
Proof. intros Hf. unfold Lstat, attempt. by rewrite Hf. Qed.

(** ** The mode an entry is left with *)
Definition fixed_mode (p : path) (n : node) : N :=
  let isdir := bool_decide (n_kind n = KDir) in
  if isdir && bool_decide (base p = "authorized_clients") then AuthorizedClientsDirMode
  else if negb isdir && bool_decide (base p = FileSecretKeyName) then SecretKeyMode
  else if negb isdir then
    if bool_decide (N.ldiff (Perm (n_mode n)) PublicKeyMaxMode = 0%N) then n_mode n
    else N.land (Perm (n_mode n)) PublicKeyMaxMode
  else n_mode n.
Definition set_mode (n : node) (m : N) : node :=
  {| n_kind := n_kind n; n_mode := m; n_data := n_data n |}.

Lemma fixed_mode_passes name p n : check_entry name p (set_mode n (fixed_mode p n)) = [].
Proof.
  unfold check_entry, fixed_mode, set_mode. cbn [n_kind n_mode].
  destruct (bool_decide (n_kind n = KDir)); cbn [andb negb].
  - destruct (bool_decide (base p = "authorized_clients")); [|done].
    by rewrite bool_decide_true.
  - destruct (bool_decide (base p = FileSecretKeyName)); [by rewrite bool_decide_true|].
    destruct (bool_decide (N.ldiff (Perm (n_mode n)) PublicKeyMaxMode = 0%N)) eqn:Hm; cbn iota;
      [by rewrite Hm|].
    rewrite bool_decide_true; [done|]. apply N.bits_inj. intros i. unfold Perm.
    rewrite N.ldiff_spec, !N.land_spec, N.bits_0.
    by destruct (N.testbit (n_mode n) i), (N.testbit 511 i), (N.testbit PublicKeyMaxMode i).
Qed.

Lemma chmod_at_Ok fs fs' p m n :
  fs !! p = Some n → n_kind n ≠ KLink → chmod_at p m fs = (fs', Ok ()) →
  fs' = <[p := set_mode n m]> fs.
Proof.
  intros Hn Hk. unfold chmod_at, resolve. destruct (attempt _); [|done].
  rewrite Hn, bool_decide_false by done. rewrite Hn. by intros [= <-].
Qed.

Lemma fix_entry_Ok fs fs' p n :
  fs !! p = Some n → n_kind n ≠ KLink → fix_entry p fs = (fs', Ok ()) →
  fs' = <[p := set_mode n (fixed_mode p n)]> fs ∧ after_visit p n = Ok ().
Proof.
  intros Hn Hk Hrun. unfold fix_entry in Hrun.
  apply bind_Ok in Hrun as (fs1 & isdir & Hg & Hrun). unfold gets, listed_as_dir in Hg. rewrite Hn in Hg.
  injection Hg as <- <-. apply bind_Ok in Hrun as (fs1 & [] & Hm & Hrun). injection Hrun as <- Ha. split; [|done].
  assert (<[p := set_mode n (n_mode n)]> fs = fs) as Hid.
  { apply insert_id. rewrite Hn. by destruct n. }
  unfold fixed_mode. revert Hm.
  destruct (bool_decide (n_kind n = KDir)); cbn [andb negb].
  - destruct (bool_decide (base p = _)); [by apply chmod_at_Ok|].
    rewrite Hid. by intros [= <-].
  - destruct (bool_decide (base p = _)); [by apply chmod_at_Ok|].
    intros (fs2 & n' & [-> Hl%Lstat_Ok]%gets_Ok & Hm)%bind_Ok. rewrite Hn in Hl. injection Hl as <-. revert Hm.
    destruct (bool_decide _); [|by apply chmod_at_Ok]. rewrite Hid. by intros [= <-].
Qed.

Lemma fix_walk_Ok ps fs fs' :
  NoDup ps → (∀ p, p ∈ ps → ∃ n, fs !! p = Some n ∧ n_kind n ≠ KLink) →
  for_each fix_entry ps fs = (fs', Ok ()) →
  ∀ p, fs' !! p = (λ n, if bool_decide (p ∈ ps) then set_mode n (fixed_mode p n) else n) <$> fs !! p
       ∧ (∀ n, p ∈ ps → fs !! p = Some n → after_visit p n = Ok ()).
Proof.
  intros Hnd. revert fs. induction Hnd as [|q ps Hq Hnd IH]; intros fs Hps Hrun p.
  { injection Hrun as <-. split; [|set_solver]. rewrite bool_decide_false by set_solver.
    by destruct (fs !! p). }
  destruct (Hps q) as (n & Hn & Hk); [set_solver|].
  cbn [for_each] in Hrun. apply bind_Ok in Hrun as (fs1 & [] & Hf & Hrun).
  apply (fix_entry_Ok _ _ _ n) in Hf as [-> Hav]; [|done..].
  destruct (IH (<[q := set_mode n (fixed_mode q n)]> fs)) with (p := p) as [Hp Hv]; [|done|].
  { intros r Hr. rewrite lookup_insert_ne by set_solver. apply Hps. set_solver. }
  rewrite Hp. destruct (decide (p = q)) as [->|Hne].
  - rewrite lookup_insert_eq, Hn. simpl.
    rewrite (bool_decide_false (q ∈ ps)), bool_decide_true by set_solver.
    split; [done|]. intros n' _ [= <-]. done.
  - rewrite lookup_insert_ne by done. rewrite lookup_insert_ne in Hv by done. split.
    + destruct (fs !! p); [|done]. simpl. f_equal.
      destruct (decide (p ∈ ps)); [rewrite !bool_decide_true by set_solver; done|].
      rewrite !bool_decide_false by set_solver. done.
    + intros n' Hin. apply Hv. set_solver.
Qed.

Lemma check_walk_total ps fs dir root :
  (∀ q, fault (OpStat q) = None) →
  (∀ p, p ∈ ps → ∃ n, fs !! p = Some n ∧ after_visit p n = Ok ()) →
  check_walk fs dir root ps =
  Ok (ps ≫= λ p, from_option (check_entry (walk_name dir (drop (length root) p)) p) [] (fs !! p)).
Proof.
  intros Hf. induction ps as [|p ps IH]; intros Hps; simpl; [done|].
  destruct (Hps p) as (n & Hn & Hav); [set_solver|].
  rewrite Lstat_total, Hn by done. cbn [rbind]. rewrite Hav. cbn [rbind].
  rewrite IH by (intros q Hq; apply Hps; set_solver). done.
Qed.

Lemma CheckPermissions_total dir fs n :
  (∀ q, fault (OpStat q) = None) →
  fs !! elems dir = Some n → n_kind n = KDir → after_visit (elems dir) n = Ok () →
  (∀ p m, below (elems dir) p = true → fs !! p = Some m → after_visit p m = Ok ()) →
  CheckPermissions dir fs =
  match check_root dir n ++
    (walk_paths fs (elems dir) ≫= λ p,
       from_option (check_entry (walk_name dir (drop (length (elems dir)) p)) p) [] (fs !! p))
  with [] => Ok () | vs => Err (PermissionError (merge_sort violation_le vs)) end.
Proof.
  intros Hf Hn Hk Hav Hall. unfold CheckPermissions, walk_root, Stat, resolve, attempt.
  rewrite Hf, Hn. cbn [rbind]. rewrite bool_decide_false by (rewrite Hk; done). cbn [rbind].
  rewrite Hn. cbn [wrap_err rbind]. rewrite !(bool_decide_true (n_kind n = KDir)) by done.
  rewrite Lstat_total, Hn by done. cbn [rbind]. rewrite Hav. cbn [rbind].
  rewrite ?(bool_decide_true (n_kind n = KDir)) by done.
  rewrite check_walk_total; [done|done|].
  intros p [Hb [m Hm]]%elem_of_walk_paths. exists m. eauto.
Qed.

Definition links_free_below (dir : path) fs : Prop :=
  ∀ p n, p = dir ∨ below dir p = true → fs !! p = Some n → n_kind n ≠ KLink.

Lemma OpenRoot_Ok dir fs root :
  links_free_below (elems dir) fs → OpenRoot fs dir = Ok root →
  root = elems dir ∧ ∃ n, fs !! root = Some n ∧ n_kind n = KDir.
Proof.
  intros Hlinks Hr. unfold OpenRoot, Stat, resolve in Hr. apply rbind_Ok in Hr as (n & Hs & Hr).
  destruct (attempt _); [|done]. cbn [rbind] in Hs.
  destruct (fs !! elems dir) as [n0|] eqn:Hn; cbn [rbind] in Hs; [|by rewrite Hn in Hs].
  assert (n_kind n0 ≠ KLink) by (by eapply Hlinks; eauto).
  rewrite (bool_decide_false (n_kind n0 = KLink)) in Hs, Hr by done.
  cbn [rbind] in Hs. rewrite Hn in Hs.
  injection Hs as <-. apply guard_Ok in Hr as [Hd [= <-]]. bools. eauto.
Qed.

(** The tree a successful run leaves. *)
Definition fixed_tree (root : path) fs (p : path) : option node :=
  if bool_decide (p = root) then (λ n, set_mode n HiddenServiceDirMode) <$> fs !! p
  else if below root p then (λ n, set_mode n (fixed_mode p n)) <$> fs !! p
  else fs !! p.

Lemma FixPermissions_Ok dir fs fs' :
  links_free_below (elems dir) fs → FixPermissions dir fs = (fs', Ok ()) →
  (∃ n, fs !! elems dir = Some n ∧ n_kind n = KDir) ∧
  (∀ p, fs' !! p = fixed_tree (elems dir) fs p) ∧
  attempt (OpReadDir (elems dir)) = Ok () ∧
  (∀ p n, below (elems dir) p = true → fs !! p = Some n → after_visit p n = Ok ()).
Proof.
  intros Hlinks Hrun. unfold FixPermissions in Hrun.
  apply bind_Ok in Hrun as (fs0 & root & Ho%wrap_Ok & Hrun).
  injection Ho as <- (-> & n & Hn & Hk)%OpenRoot_Ok; [|done].
  apply bind_Ok in Hrun as (fs1 & [] & Hc%wrap_Ok & Hrun%wrap_Ok).
  apply (chmod_at_Ok _ _ _ _ n) in Hc as Hfs1; [|done|by rewrite Hk].
  apply bind_Ok in Hrun as (fs2 & [] & [= <- _] & Hrun).
  apply bind_Ok in Hrun as (fs3 & [] & [= <- Hrd] & Hw).
  apply bind_Ok in Hw as (fs3 & ps & [= <- <-] & Hw).
  assert (∀ p, p ≠ elems dir → fs1 !! p = fs !! p) as Hne
    by (intros p Hp; rewrite Hfs1; by apply lookup_insert_ne).
  assert (fs1 !! elems dir = Some (set_mode n HiddenServiceDirMode)) as Hroot
    by (rewrite Hfs1; by apply lookup_insert_eq).
  assert (∀ p, below (elems dir) p = true → p ≠ elems dir) as Hbne
    by (intros p Hb ->; by rewrite below_irrefl in Hb).
  assert (∀ p, p ∈ walk_paths fs1 (elems dir) → ∃ m, fs1 !! p = Some m ∧ n_kind m ≠ KLink) as Hpre.
  { intros p [Hb [m Hm]]%elem_of_walk_paths. exists m. split; [done|].
    rewrite Hne in Hm by auto. eauto. }
  pose proof (fix_walk_Ok _ _ _ (NoDup_walk_paths fs1 (elems dir)) Hpre Hw) as Hfix.
  split; [eauto|]. split; [|split; [done|]].
  - intros p. rewrite (proj1 (Hfix p)). unfold fixed_tree.
    destruct (decide (p = elems dir)) as [->|Hp].
    + rewrite (bool_decide_true (elems dir = _)), Hroot, Hn by done. simpl.
      rewrite bool_decide_false; [done|]. intros [Hb _]%elem_of_walk_paths.
      by rewrite below_irrefl in Hb.
    + rewrite (bool_decide_false (p = _)), Hne by done.
      destruct (fs !! p) as [m|] eqn:Hm; simpl; [|by destruct (below _ _)].
      destruct (below (elems dir) p) eqn:Hb.
      * rewrite bool_decide_true; [done|]. apply elem_of_walk_paths. rewrite Hne by done. eauto.
      * rewrite bool_decide_false; [done|]. intros [? _]%elem_of_walk_paths. congruence.
  - intros p m Hb Hm. apply (proj2 (Hfix p)); [|rewrite Hne; auto].
    apply elem_of_walk_paths. rewrite Hne by auto. eauto.
Qed.

Lemma tree_passes dir fs n :
  (∀ q, fault (OpStat q) = None) →
  fs !! elems dir = Some n → n_kind n = KDir → Perm (n_mode n) = HiddenServiceDirMode →
  attempt (OpReadDir (elems dir)) = Ok () →
  (∀ p m, below (elems dir) p = true → fs !! p = Some m →
     after_visit p m = Ok () ∧ ∀ name, check_entry name p m = []) →
  CheckPermissions dir fs = Ok ().
Proof.
  intros Hstat Hn Hk Hm Hrd Hall.
  rewrite (CheckPermissions_total _ _ n); [|done|done|done| |].
  - unfold check_root. rewrite bool_decide_true by done. simpl.
    enough (∀ qs, (∀ p, p ∈ qs → p ∈ walk_paths fs (elems dir)) →
      (qs ≫= λ p, from_option (check_entry (walk_name dir (drop (length (elems dir)) p)) p) []
         (fs !! p)) = []) as Hnil by (by rewrite Hnil).
    induction qs as [|q qs IH]; [done|]. intros Hq. csimpl. rewrite IH by set_solver.
    destruct (proj1 (elem_of_walk_paths fs (elems dir) q)) as [Hb [m Hq']]; [set_solver|].
    rewrite Hq'. simpl. by rewrite (proj2 (Hall q m Hb Hq')).
  - unfold after_visit. by rewrite bool_decide_true.
  - intros p m Hb Hp. by apply Hall.
Qed.
(** What the check says of a tree that was fixed. *)
Lemma fixed_tree_passes dir fs fs' :
  links_free_below (elems dir) fs → FixPermissions dir fs = (fs', Ok ()) →
  (∃ n, fs' !! elems dir = Some n ∧ n_kind n = KDir ∧ Perm (n_mode n) = HiddenServiceDirMode) ∧
  attempt (OpReadDir (elems dir)) = Ok () ∧
  (∀ p m, below (elems dir) p = true → fs' !! p = Some m →
     after_visit p m = Ok () ∧ ∀ name, check_entry name p m = []).
Proof.
  intros Hlinks Hrun. apply FixPermissions_Ok in Hrun as ((n & Hn & Hk) & Htree & Hrd & Hav); [|done].
  split; [|split; [done|]].
  - exists (set_mode n HiddenServiceDirMode). rewrite Htree. unfold fixed_tree.
    by rewrite bool_decide_true, Hn.
  - intros p m Hb. rewrite Htree. unfold fixed_tree.
    rewrite bool_decide_false, Hb by (intros ->; by rewrite below_irrefl in Hb).
    destruct (fs !! p) as [m'|] eqn:Hm'; [|done]. intros [= <-]. split; [by apply (Hav p m')|].
    intros name. apply fixed_mode_passes.
Qed.

(** C20.  [FixPermissions], when it returns nil on a tree without symbolic links, leaves a tree
    that [CheckPermissions] accepts, so Tor will start on it; it changes modes only, and only
    at the directory and below it. *)
Theorem fix_then_check dir fs fs'
    (Hstat : ∀ q, fault (OpStat q) = None)
    (Hlinks : links_free_below (elems dir) fs)
    (Hrun : FixPermissions dir fs = (fs', Ok ())) :
  CheckPermissions dir fs' = Ok () ∧
  (∀ p, (λ n, (n_kind n, n_data n)) <$> fs' !! p = (λ n, (n_kind n, n_data n)) <$> fs !! p) ∧
  (∀ p, p ≠ elems dir → below (elems dir) p = false → fs' !! p = fs !! p).
Proof.
  destruct (fixed_tree_passes _ _ _ Hlinks Hrun) as ((n & Hn & Hk & Hm) & Hrd & Hall).
  apply FixPermissions_Ok in Hrun as (_ & Htree & _); [|done].
  split; [by eapply tree_passes|split].
  - intros p. rewrite Htree. unfold fixed_tree.
    by destruct (bool_decide _), (below (elems dir) p), (fs !! p).
  - intros p Hp Hb. rewrite Htree. unfold fixed_tree. by rewrite bool_decide_false, Hb.
Qed.

(** What Tor rejects, stated on the tree. *)
Inductive offends (root : path) : path → node → N → reason → Prop :=
| off_root n :
    Perm (n_mode n) ≠ HiddenServiceDirMode → offends root root n HiddenServiceDirMode RootMode
| off_auth p n :
    below root p = true → n_kind n = KDir → last p = Some "authorized_clients" →
    Perm (n_mode n) ≠ AuthorizedClientsDirMode →
    offends root p n AuthorizedClientsDirMode AuthorizedClientsMode
| off_secret p n :
    below root p = true → n_kind n ≠ KDir → last p = Some FileSecretKeyName →
    Perm (n_mode n) ≠ SecretKeyMode → offends root p n SecretKeyMode SecretMode
| off_file p n i :
    below root p = true → n_kind n ≠ KDir → last p ≠ Some FileSecretKeyName →
    N.testbit (Perm (n_mode n)) i = true → N.testbit PublicKeyMaxMode i = false →
    offends root p n PublicKeyMaxMode FileMode.

Lemma base_Some p s : s ≠ "" → base p = s ↔ last p = Some s.
Proof. unfold base. destruct (last p); simpl; naive_solver. Qed.

Lemma base_secret p : base p = FileSecretKeyName ↔ last p = Some FileSecretKeyName.
Proof. by apply base_Some. Qed.

Lemma ldiff_nonzero a b :
  N.ldiff a b ≠ 0%N ↔ ∃ i, N.testbit a i = true ∧ N.testbit b i = false.
Proof.
  split.
  - intros Hne. exists (N.log2 (N.ldiff a b)).
    pose proof (N.bit_log2 _ Hne) as Hb. rewrite N.ldiff_spec in Hb. bools. done.
  - intros (i & Ha & Hb) H0. apply (f_equal (λ x, N.testbit x i)) in H0.
    rewrite N.ldiff_spec, N.bits_0, Ha, Hb in H0. done.
Qed.

Lemma check_entry_offends root name p n v :
  below root p = true →
  v ∈ check_entry name p n ↔
  ∃ w r, r ≠ RootMode ∧ offends root p n w r ∧
    v = {| v_Path := name; v_Got := n_mode n; v_Want := w; v_Reason := r |}.
Proof.
  intros Hb. assert (p ≠ root) by (intros ->; by rewrite below_irrefl in Hb).
  unfold check_entry. split.
  - repeat (case_bool_decide; cbn [andb negb]); rewrite ?elem_of_nil, ?list_elem_of_singleton;
      try done; intros ->; eexists _, _; (split; [|split; [|reflexivity]]); try done;
      repeat match goal with H : base p = _ |- _ => apply base_Some in H; [|done] end.
    + by constructor.
    + by constructor.
    + match goal with H : N.ldiff _ _ ≠ _ |- _ => apply ldiff_nonzero in H as (i&?&?) end.
      econstructor; eauto. by rewrite <- base_Some.
  - intros (w & r & Hr & Hoff & ->). inversion Hoff; subst; try done.
    + rewrite (bool_decide_true (n_kind n = KDir)) by done. cbn [andb negb].
      rewrite bool_decide_true, bool_decide_false by (done || by apply base_Some). set_solver.
    + rewrite (bool_decide_false (n_kind n = KDir)) by done. cbn [andb negb].
      rewrite bool_decide_true, bool_decide_false by (done || by apply base_secret). set_solver.
    + rewrite (bool_decide_false (n_kind n = KDir)) by done. cbn [andb negb].
      rewrite (bool_decide_false (base p = _)), bool_decide_false
        by (by rewrite base_secret) || (apply ldiff_nonzero; eauto). set_solver.
Qed.

(** [CheckPermissions] on a readable directory reports exactly the offending entries: it
    returns nil when there is none, and otherwise a [PermissionError] listing each of them
    once per path, sorted by path, with the mode found and the mode wanted. *)
Theorem check_permissions_spec dir fs n
    (Hok : ∀ op, fault op = None)
    (Hn : fs !! elems dir = Some n) (Hk : n_kind n = KDir) :
  ∃ vs,
    CheckPermissions dir fs = (match vs with [] => Ok () | _ => Err (PermissionError vs) end) ∧
    Sorted violation_le vs ∧
    ∀ v, v ∈ vs ↔ ∃ p m w r, fs !! p = Some m ∧ offends (elems dir) p m w r ∧
      v = {| v_Path := walk_name dir (drop (length (elems dir)) p);
             v_Got := n_mode m; v_Want := w; v_Reason := r |}.
Proof.
  rewrite (CheckPermissions_total _ _ n); try done;
    [|intros; unfold after_visit, attempt; rewrite Hok; by case_bool_decide..].
  set (l := _ ++ _). exists (merge_sort violation_le l). split; [|split].
  - pose proof (merge_sort_Permutation violation_le l) as Hp.
    destruct l as [|v l]; [done|]. destruct (merge_sort _ _); [|done].
    by apply Permutation_nil_cons in Hp.
  - apply Sorted_merge_sort. intros v w. unfold violation_le. apply String.le_total.
  - intros v. rewrite merge_sort_Permutation. unfold l. rewrite elem_of_app, list_elem_of_bind. split.
    + intros [Hv|(p & Hv & [Hb [m Hm]]%elem_of_walk_paths)].
      * unfold check_root in Hv. case_bool_decide; [set_solver|].
        apply list_elem_of_singleton in Hv as ->. exists (elems dir), n, HiddenServiceDirMode, RootMode.
        rewrite drop_all. split; [done|]. split; [by constructor | done].
      * rewrite Hm in Hv. simpl in Hv. apply (check_entry_offends (elems dir)) in Hv as (w & r & _ & ? & ->); [|done].
        by exists p, m, w, r.
    + intros (p & m & w & r & Hm & Hoff & ->).
      destruct (decide (r = RootMode)) as [->|Hr].
      * inversion Hoff; subst. left. rewrite Hn in Hm. injection Hm as ->.
        unfold check_root. rewrite bool_decide_false, drop_all by done. set_solver.
      * right. assert (below (elems dir) p = true) by (by inversion Hoff; subst).
        exists p. rewrite elem_of_walk_paths. split; [|eauto]. rewrite Hm. simpl.
        apply (check_entry_offends (elems dir)); [done|]. eauto.
Qed.
End spec.

(** ** A loose directory *)
Definition file_node (k : kind) (m : N) : node := {| n_kind := k; n_mode := m; n_data := [] |}.
Definition loose_tree : fsys :=
  {[ ["hs"] := file_node KDir 493;
     ["hs"; "hs_ed25519_secret_key"] := file_node KFile 420;
     ["hs"; "hostname"] := file_node KFile 511;
     ["hs"; "authorized_clients"] := file_node KDir 493;
     ["hs"; "authorized_clients"; "alice.auth"] := file_node KFile 384;
     ["other"] := file_node KFile 511 ]}.
Lemma loose_tree_links : map_Forall (λ _ n, n_kind n ≠ KLink) loose_tree.
Proof. apply (bool_decide_unpack _). vm_compute. exact I. Qed.

Lemma fix_then_check_witness :
  (FixPermissions "/hs" loose_tree).2 = Ok () ∧
  CheckPermissions "/hs" (FixPermissions "/hs" loose_tree).1 = Ok ().
Proof.
  assert (Hr : (FixPermissions "/hs" loose_tree).2 = Ok ()) by (vm_compute; reflexivity).
  split; [exact Hr|].
  apply (fix_then_check "/hs" loose_tree).
  - reflexivity.
  - intros p n _ Hn. exact (loose_tree_links p n Hn).
  - rewrite <- Hr. apply surjective_pairing.
Defined.

Lemma check_permissions_spec_witness :
  ∃ vs, CheckPermissions "/hs" loose_tree = Err (PermissionError vs) ∧
        v_Path <$> vs = ["/hs"; "/hs/authorized_clients"; "/hs/hostname"; "/hs/hs_ed25519_secret_key"] ∧
        Sorted violation_le vs.
Proof.
  destruct (check_permissions_spec "/hs" loose_tree (file_node KDir 493)) as (vs & Hr & Hs & _);
    [reflexivity | vm_compute; reflexivity | reflexivity |].
  exists vs. assert (vs = match CheckPermissions "/hs" loose_tree with
    | Err (PermissionError vs) => vs | _ => [] end) as Hvs by (rewrite Hr; by destruct vs).
  split; [|split; [|exact Hs]].
  - rewrite Hr. destruct vs; [|done]. vm_compute in Hvs. done.
  - rewrite Hvs. vm_compute. reflexivity.
Defined.
