(* ===== verification/KubeTypes.v ===== *)
(** * API objects

    The objects of the Kubernetes, Gateway and policy APIs, with the fields the program
    reads or writes.  The policy kinds are those of api/v1alpha1; the others are declared by
    the packages the program imports.  A Go pointer is an [option], a string type a
    [string], an [int32] a [Z]. *)

From Stdlib Require Import ZArith.
From S2P Require Import Prelude.

(** int32 arithmetic wraps. *)
Definition wrap32 (z : Z) : Z := ((z + 2 ^ 31) mod 2 ^ 32 - 2 ^ 31)%Z.

(** [types.NamespacedName]. *)
Record NamespacedName := { nn_Namespace : string; nn_Name : string }.
#[global] Instance NamespacedName_eq_dec : EqDecision NamespacedName.
Proof. solve_decision. Defined.
#[global] Instance NamespacedName_countable : Countable NamespacedName.
Proof.
  refine (inj_countable' (λ n, (nn_Namespace n, nn_Name n))
    (λ p, {| nn_Namespace := p.1; nn_Name := p.2 |}) _); by intros [].
Defined.

(** ** Metadata *)
Record OwnerReference := {
  or_Kind : string;
  or_Name : string;
  or_UID : string;
  or_Controller : option bool;
}.
Record ObjectMeta := {
  Name : string;
  Namespace : string;
  UID : string;
  ResourceVersion : string;
  Generation : Z;
  Labels : gmap string string;
  Annotations : gmap string string;
  OwnerReferences : list OwnerReference;
  Finalizers : list string;
  DeletionTimestamp : option Z;
}.
(** Metadata with a name, a namespace and labels only, as the builders write it. *)
Definition new_meta (name ns : string) (labels : gmap string string) : ObjectMeta := {|
  Name := name; Namespace := ns; UID := ""; ResourceVersion := ""; Generation := 0;
  Labels := labels; Annotations := ∅; OwnerReferences := []; Finalizers := [];
  DeletionTimestamp := None |}.
Definition with_Labels (l : gmap string string) (m : ObjectMeta) : ObjectMeta := {|
  Name := Name m; Namespace := Namespace m; UID := UID m; ResourceVersion := ResourceVersion m;
  Generation := Generation m; Labels := l; Annotations := Annotations m;
  OwnerReferences := OwnerReferences m; Finalizers := Finalizers m;
  DeletionTimestamp := DeletionTimestamp m |}.
Definition with_Annotations (a : gmap string string) (m : ObjectMeta) : ObjectMeta := {|
  Name := Name m; Namespace := Namespace m; UID := UID m; ResourceVersion := ResourceVersion m;
  Generation := Generation m; Labels := Labels m; Annotations := a;
  OwnerReferences := OwnerReferences m; Finalizers := Finalizers m;
  DeletionTimestamp := DeletionTimestamp m |}.
Definition with_OwnerReferences (o : list OwnerReference) (m : ObjectMeta) : ObjectMeta := {|
  Name := Name m; Namespace := Namespace m; UID := UID m; ResourceVersion := ResourceVersion m;
  Generation := Generation m; Labels := Labels m; Annotations := Annotations m;
  OwnerReferences := o; Finalizers := Finalizers m;
  DeletionTimestamp := DeletionTimestamp m |}.
Definition with_Finalizers (f : list string) (m : ObjectMeta) : ObjectMeta := {|
  Name := Name m; Namespace := Namespace m; UID := UID m; ResourceVersion := ResourceVersion m;
  Generation := Generation m; Labels := Labels m; Annotations := Annotations m;
  OwnerReferences := OwnerReferences m; Finalizers := f;
  DeletionTimestamp := DeletionTimestamp m |}.

(** Every kind has metadata. *)
Class Object (T : Type) := {
  meta : T → ObjectMeta;
  with_meta : ObjectMeta → T → T;
}.
Definition key {T} `{Object T} (x : T) : NamespacedName :=
  {| nn_Namespace := Namespace (meta x); nn_Name := Name (meta x) |}.
Definition set_labels {T} `{Object T} (l : gmap string string) (x : T) : T :=
  with_meta (with_Labels l (meta x)) x.
Definition set_owners {T} `{Object T} (o : list OwnerReference) (x : T) : T :=
  with_meta (with_OwnerReferences o (meta x)) x.
Definition set_annotations {T} `{Object T} (a : gmap string string) (x : T) : T :=
  with_meta (with_Annotations a (meta x)) x.
Definition set_finalizers {T} `{Object T} (f : list string) (x : T) : T :=
  with_meta (with_Finalizers f (meta x)) x.

(** [metav1.Condition]; [ConditionTrue] and [ConditionFalse] are these strings. *)
Record Condition := {
  c_Type : string;
  c_Status : string;
  c_Reason : string;
  c_Message : string;
  c_ObservedGeneration : Z;
  c_LastTransitionTime : Z;
}.
Definition ConditionTrue : string := "True".
Definition ConditionFalse : string := "False".

(** ** Gateway API *)
Record GatewayClass := {
  gc_meta : ObjectMeta;
  gc_ControllerName : string;
  gc_Conditions : list Condition;
}.

Record Listener := { l_Name : string; l_Protocol : string }.
Record GatewayStatusAddress := { a_Type : option string; a_Value : string }.
Record ListenerStatus := {
  ls_Name : string;
  ls_SupportedKinds : list (option string * string);
  ls_AttachedRoutes : Z;
  ls_Conditions : list Condition;
}.
Record GatewayStatus := {
  gs_Addresses : list GatewayStatusAddress;
  gs_Conditions : list Condition;
  gs_Listeners : list ListenerStatus;
}.
Record Gateway := {
  gw_meta : ObjectMeta;
  gw_GatewayClassName : string;
  gw_Listeners : list Listener;
  gw_Status : GatewayStatus;
}.

Record ParentReference := {
  pr_Group : option string;
  pr_Kind : option string;
  pr_Namespace : option string;
  pr_Name : string;
  pr_SectionName : option string;
}.
Record HTTPPathMatch := { pm_Type : option string; pm_Value : option string }.
Record HTTPRouteMatch := { hm_Path : option HTTPPathMatch }.
Record HTTPBackendRef := {
  br_Name : string;
  br_Namespace : option string;
  br_Port : option Z;
}.
Record HTTPRouteRule := {
  hr_Matches : list HTTPRouteMatch;
  hr_BackendRefs : list HTTPBackendRef;
}.
Record RouteParentStatus := {
  ps_ParentRef : ParentReference;
  ps_ControllerName : string;
  ps_Conditions : list Condition;
}.
Record HTTPRoute := {
  rt_meta : ObjectMeta;
  rt_ParentRefs : list ParentReference;
  rt_Rules : list HTTPRouteRule;
  rt_Parents : list RouteParentStatus;
}.

Record ReferenceGrantFrom := { f_Group : string; f_Kind : string; f_Namespace : string }.
Record ReferenceGrantTo := { t_Group : string; t_Kind : string; t_Name : option string }.
Record ReferenceGrant := {
  rg_meta : ObjectMeta;
  rg_From : list ReferenceGrantFrom;
  rg_To : list ReferenceGrantTo;
}.

Record LocalPolicyTargetReference := { tr_Group : string; tr_Kind : string; tr_Name : string }.
Record PolicyAncestorStatus := {
  as_AncestorRef : ParentReference;
  as_ControllerName : string;
  as_Conditions : list Condition;
}.

(** ** Core, apps, batch, networking and RBAC *)
Inductive IntOrString := IntPort (n : Z) | StrPort (s : string).
#[global] Instance IntOrString_eq_dec : EqDecision IntOrString.
Proof. solve_decision. Defined.

(** Quantities are kept as the text [resource.MustParse] is given. *)
Record ResourceRequirements := {
  rr_Requests : option (gmap string string);
  rr_Limits : option (gmap string string);
}.

Record Secret := {
  sec_meta : ObjectMeta;
  sec_Type : string;
  sec_Data : gmap string bytes;
}.
Record ConfigMap := { cm_meta : ObjectMeta; cm_Data : gmap string string }.
Record ServiceAccount := { sa_meta : ObjectMeta }.
Record PolicyRule := {
  APIGroups : list string;
  Resources : list string;
  Verbs : list string;
  ResourceNames : list string;
}.
Record Role := { ro_meta : ObjectMeta; ro_Rules : list PolicyRule }.
Record RoleRef := { rref_APIGroup : string; rref_Kind : string; rref_Name : string }.
Record Subject := { sub_Kind : string; sub_Name : string; sub_Namespace : string }.
Record RoleBinding := {
  rb_meta : ObjectMeta;
  rb_RoleRef : RoleRef;
  rb_Subjects : list Subject;
}.
Record ServicePort := {
  sp_Name : string;
  sp_Port : Z;
  sp_TargetPort : IntOrString;
  sp_Protocol : string;
}.
Record Service := {
  svc_meta : ObjectMeta;
  svc_ClusterIP : string;
  svc_Selector : gmap string string;
  svc_Ports : list ServicePort;
}.

Record SeccompProfile := { seccomp_Type : string }.
Record PodSecurityContext := {
  psc_RunAsNonRoot : option bool;
  psc_RunAsUser : option Z;
  psc_RunAsGroup : option Z;
  psc_FSGroup : option Z;
  psc_SeccompProfile : option SeccompProfile;
}.
Record SecurityContext := {
  sc_AllowPrivilegeEscalation : option bool;
  sc_ReadOnlyRootFilesystem : option bool;
  sc_RunAsNonRoot : option bool;
  sc_DropCapabilities : list string;
}.
Inductive VolumeSource :=
| SecretVolume (name : string) (mode : Z)
| ConfigMapVolume (name : string)
| EmptyDirVolume.
Record Volume := { v_Name : string; v_Source : VolumeSource }.
Record VolumeMount := { vm_Name : string; vm_MountPath : string; vm_ReadOnly : bool }.
Inductive ProbeHandler := HTTPGet (path : string) (port : Z) | Exec (command : list string).
Record Probe := {
  p_Handler : ProbeHandler;
  p_InitialDelaySeconds : Z;
  p_PeriodSeconds : Z;
  p_TimeoutSeconds : Z;
  p_FailureThreshold : Z;
}.
Record ContainerPort := { cp_Name : string; cp_Port : Z; cp_Protocol : string }.
(** An environment variable taken from a field of the pod. *)
Record EnvVar := { e_Name : string; e_FieldPath : string }.
Record Container := {
  ct_Name : string;
  ct_Image : string;
  ct_ImagePullPolicy : string;
  ct_Args : list string;
  ct_Env : list EnvVar;
  ct_Ports : list ContainerPort;
  ct_Resources : ResourceRequirements;
  ct_SecurityContext : option SecurityContext;
  ct_VolumeMounts : list VolumeMount;
  ct_StartupProbe : option Probe;
  ct_LivenessProbe : option Probe;
  ct_ReadinessProbe : option Probe;
}.
Record TopologySpreadConstraint := {
  tsc_MaxSkew : Z;
  tsc_TopologyKey : string;
  tsc_WhenUnsatisfiable : string;
  tsc_MatchLabels : gmap string string;
}.
Record PodSpec := {
  pod_RestartPolicy : string;
  pod_ServiceAccountName : string;
  pod_ShareProcessNamespace : option bool;
  pod_SecurityContext : option PodSecurityContext;
  pod_Volumes : list Volume;
  pod_InitContainers : list Container;
  pod_Containers : list Container;
  pod_TopologySpread : list TopologySpreadConstraint;
}.
Record PodTemplateSpec := {
  pt_Labels : gmap string string;
  pt_Annotations : gmap string string;
  pt_Spec : PodSpec;
}.
Record DeploymentSpec := {
  ds_Replicas : option Z;
  ds_Selector : gmap string string;
  ds_Strategy : string;
  ds_Template : PodTemplateSpec;
}.
(** [dep_Spec] is [None] in the empty object [CreateOrUpdate] starts from. *)
Record Deployment := {
  dep_meta : ObjectMeta;
  dep_Spec : option DeploymentSpec;
  dep_Conditions : list (string * string);
}.
Record StatefulSetSpec := {
  ss_Replicas : option Z;
  ss_Selector : gmap string string;
  ss_ServiceName : string;
  ss_Template : PodTemplateSpec;
  ss_PodManagementPolicy : string;
}.
Record StatefulSet := {
  sts_meta : ObjectMeta;
  sts_Spec : option StatefulSetSpec;
  sts_StatusReplicas : Z;
}.
Record JobSpec := {
  js_BackoffLimit : option Z;
  js_ActiveDeadlineSeconds : option Z;
  js_TTLSecondsAfterFinished : option Z;
  js_Template : PodTemplateSpec;
}.
(** The conditions of a Job and of a Deployment are pairs of a type and a status. *)
Record Job := {
  job_meta : ObjectMeta;
  job_Spec : JobSpec;
  job_Conditions : list (string * string);
}.

Record IPBlock := { ip_CIDR : string; ip_Except : list string }.
Record NetworkPolicyPeer := {
  np_NamespaceSelector : option (gmap string string);
  np_PodSelector : option (gmap string string);
  np_IPBlock : option IPBlock;
}.
Record NetworkPolicyPort := {
  npp_Protocol : option string;
  npp_Port : option IntOrString;
  npp_EndPort : option Z;
}.
Record NetworkPolicyEgressRule := {
  eg_To : list NetworkPolicyPeer;
  eg_Ports : list NetworkPolicyPort;
}.
Record NetworkPolicySpec := {
  nps_PodSelector : gmap string string;
  nps_PolicyTypes : list string;
  nps_Egress : list NetworkPolicyEgressRule;
}.
Record NetworkPolicy := { netpol_meta : ObjectMeta; netpol_Spec : option NetworkPolicySpec }.

(** ** Policies (api/v1alpha1) *)
Record TorServicePolicySpec := {
  tsp_TargetRefs : list LocalPolicyTargetReference;
  tsp_VanityPrefix : string;
  tsp_VanityAcknowledgeLongRunning : bool;
  tsp_LogLevel : string;
  tsp_PoWDefensesEnabled : option bool;
  tsp_Resources : option ResourceRequirements;
}.
Record TorServicePolicy := {
  tsp_meta : ObjectMeta;
  tsp_Spec : TorServicePolicySpec;
  tsp_Ancestors : list PolicyAncestorStatus;
}.
Definition ClientAuthModeStrict : string := "Strict".
Definition ClientAuthModeAudit : string := "Audit".
Record ClientsSecretRef := { csr_Name : string; csr_Namespace : string }.
Record TorClientAuthPolicySpec := {
  tcap_TargetRefs : list LocalPolicyTargetReference;
  tcap_ClientsSecretRef : ClientsSecretRef;
  tcap_Mode : string;
}.
Record TorClientAuthPolicy := {
  tcap_meta : ObjectMeta;
  tcap_Spec : TorClientAuthPolicySpec;
  tcap_Ancestors : list PolicyAncestorStatus;
}.
Record MasterKeySecretRef := { mk_Name : string; mk_Namespace : string }.
(** [RefreshInterval] in nanoseconds, as [time.Duration]. *)
Record OnionBalancePolicySpec := {
  obp_TargetRefs : list LocalPolicyTargetReference;
  obp_Replicas : Z;
  obp_RefreshInterval : Z;
  obp_MasterKeySecretRef : MasterKeySecretRef;
  obp_BackendResources : option ResourceRequirements;
  obp_FrontendResources : option ResourceRequirements;
}.
Record OnionBalancePolicyStatus := {
  obp_Ancestors : list PolicyAncestorStatus;
  obp_ReadyBackends : Z;
}.
Record OnionBalancePolicy := {
  obp_meta : ObjectMeta;
  obp_Spec : OnionBalancePolicySpec;
  obp_Status : OnionBalancePolicyStatus;
}.

(** ** Instances *)
#[global] Instance GatewayClass_Object : Object GatewayClass := {|
  meta := gc_meta;
  with_meta m x := {| gc_meta := m; gc_ControllerName := gc_ControllerName x;
                      gc_Conditions := gc_Conditions x |} |}.
#[global] Instance Gateway_Object : Object Gateway := {|
  meta := gw_meta;
  with_meta m x := {| gw_meta := m; gw_GatewayClassName := gw_GatewayClassName x;
                      gw_Listeners := gw_Listeners x; gw_Status := gw_Status x |} |}.
#[global] Instance HTTPRoute_Object : Object HTTPRoute := {|
  meta := rt_meta;
  with_meta m x := {| rt_meta := m; rt_ParentRefs := rt_ParentRefs x; rt_Rules := rt_Rules x;
                      rt_Parents := rt_Parents x |} |}.
#[global] Instance ReferenceGrant_Object : Object ReferenceGrant := {|
  meta := rg_meta;
  with_meta m x := {| rg_meta := m; rg_From := rg_From x; rg_To := rg_To x |} |}.
#[global] Instance Secret_Object : Object Secret := {|
  meta := sec_meta;
  with_meta m x := {| sec_meta := m; sec_Type := sec_Type x; sec_Data := sec_Data x |} |}.
#[global] Instance ConfigMap_Object : Object ConfigMap := {|
  meta := cm_meta; with_meta m x := {| cm_meta := m; cm_Data := cm_Data x |} |}.
#[global] Instance ServiceAccount_Object : Object ServiceAccount := {|
  meta := sa_meta; with_meta m x := {| sa_meta := m |} |}.
#[global] Instance Role_Object : Object Role := {|
  meta := ro_meta; with_meta m x := {| ro_meta := m; ro_Rules := ro_Rules x |} |}.
#[global] Instance RoleBinding_Object : Object RoleBinding := {|
  meta := rb_meta;
  with_meta m x := {| rb_meta := m; rb_RoleRef := rb_RoleRef x; rb_Subjects := rb_Subjects x |} |}.
#[global] Instance Service_Object : Object Service := {|
  meta := svc_meta;
  with_meta m x := {| svc_meta := m; svc_ClusterIP := svc_ClusterIP x;
                      svc_Selector := svc_Selector x; svc_Ports := svc_Ports x |} |}.
#[global] Instance Deployment_Object : Object Deployment := {|
  meta := dep_meta;
  with_meta m x := {| dep_meta := m; dep_Spec := dep_Spec x; dep_Conditions := dep_Conditions x |} |}.
#[global] Instance StatefulSet_Object : Object StatefulSet := {|
  meta := sts_meta;
  with_meta m x := {| sts_meta := m; sts_Spec := sts_Spec x;
                      sts_StatusReplicas := sts_StatusReplicas x |} |}.
#[global] Instance Job_Object : Object Job := {|
  meta := job_meta;
  with_meta m x := {| job_meta := m; job_Spec := job_Spec x; job_Conditions := job_Conditions x |} |}.
#[global] Instance NetworkPolicy_Object : Object NetworkPolicy := {|
  meta := netpol_meta;
  with_meta m x := {| netpol_meta := m; netpol_Spec := netpol_Spec x |} |}.
#[global] Instance TorServicePolicy_Object : Object TorServicePolicy := {|
  meta := tsp_meta;
  with_meta m x := {| tsp_meta := m; tsp_Spec := tsp_Spec x; tsp_Ancestors := tsp_Ancestors x |} |}.
#[global] Instance TorClientAuthPolicy_Object : Object TorClientAuthPolicy := {|
  meta := tcap_meta;
  with_meta m x := {| tcap_meta := m; tcap_Spec := tcap_Spec x;
                      tcap_Ancestors := tcap_Ancestors x |} |}.
#[global] Instance OnionBalancePolicy_Object : Object OnionBalancePolicy := {|
  meta := obp_meta;
  with_meta m x := {| obp_meta := m; obp_Spec := obp_Spec x; obp_Status := obp_Status x |} |}.
