(* ===== verification/Router.v ===== *)
(** * The in-pod HTTP router (internal/router)

    Compiling HTTPRoutes to a table, matching a request path, resolving the backend, and
    keeping the proxy's table in sync with the cluster. *)

From Stdlib Require Import Ascii ZArith.
From S2P Require Import Prelude GoStrings GoNet GoOS KubeTypes.

(** ** match.go *)
Inductive PathMatchType := PathExact | PathPrefix.
#[global] Instance PathMatchType_eq_dec : EqDecision PathMatchType.
Proof. solve_decision. Defined.
Record PathMatch := { path_Type : PathMatchType; path_Value : string }.
(** [Match], the match condition; [Match] below is the table's method. *)
Record MatchCond := { m_Path : PathMatch }.
Record Backend := { b_Namespace : string; b_Name : string; b_Port : Z }.
#[global] Instance Backend_eq_dec : EqDecision Backend.
Proof. solve_decision. Defined.
Record Rule := { r_Matches : list MatchCond; r_Backends : list Backend }.
Record RouteTable := { rules : list Rule }.
Definition NewRouteTable (rs : list Rule) : RouteTable := {| rules := rs |}.

Definition pathMatches (p : PathMatch) (reqPath : string) : bool :=
  match path_Type p with
  | PathExact => bool_decide (reqPath = path_Value p)
  | PathPrefix =>
      if bool_decide (reqPath = path_Value p) then true
      else
        let prefix := if bool_decide (path_Value p = "/") then path_Value p
                      else path_Value p +:+ "/" in
        (String.length prefix <=? String.length reqPath) &&
        bool_decide (str_take (String.length prefix) reqPath = prefix)
  end.

Definition exactTier : Z := 2 ^ 16.
Definition pathScore (p : PathMatch) : Z :=
  match path_Type p with
  | PathExact => exactTier + Z.of_nat (String.length (path_Value p))
  | PathPrefix => Z.of_nat (String.length (path_Value p))
  end.

(** The loop's variables. *)
Record search := { best : Backend; bestScore : Z; found : bool }.
Definition zero_backend : Backend := {| b_Namespace := ""; b_Name := ""; b_Port := 0 |}.

Definition match_step (reqPath : string) (b : Backend) (st : search) (m : MatchCond) : search :=
  if negb (pathMatches (m_Path m) reqPath) then st
  else if (pathScore (m_Path m) >? bestScore st)%Z then
    {| best := b; bestScore := pathScore (m_Path m); found := true |}
  else st.
Definition rule_step (reqPath : string) (st : search) (r : Rule) : search :=
  match r_Backends r with
  | [] => st
  | b :: _ => foldl (match_step reqPath b) st (r_Matches r)
  end.
Definition Match (t : RouteTable) (reqPath : string) : Backend * bool :=
  let st := foldl (rule_step reqPath) {| best := zero_backend; bestScore := -1; found := false |}
              (rules t) in
  (best st, found st).

(** ** httproute.go *)
Definition convertPath (p : option HTTPPathMatch) : PathMatch :=
  match p with
  | None => {| path_Type := PathPrefix; path_Value := "/" |}
  | Some p =>
      {| path_Type :=
           match pm_Type p with
           | Some t => if bool_decide (t = "Exact") then PathExact else PathPrefix
           | None => PathPrefix
           end;
         path_Value := default "/" (pm_Value p) |}
  end.
Definition convertMatches (ms : list HTTPRouteMatch) : list MatchCond :=
  match ms with
  | [] => [{| m_Path := {| path_Type := PathPrefix; path_Value := "/" |} |}]
  | _ => map (λ m, {| m_Path := convertPath (hm_Path m) |}) ms
  end.
Definition convertBackend (routeNS : string) (ref : HTTPBackendRef) : Backend :=
  {| b_Namespace := default routeNS (br_Namespace ref);
     b_Name := br_Name ref;
     b_Port := default 0%Z (br_Port ref) |}.
Definition convertBackends (refs : list HTTPBackendRef) (routeNS : string) : list Backend :=
  map (convertBackend routeNS) refs.
Definition RulesFromHTTPRoute (route : HTTPRoute) : list Rule :=
  map (λ hr, {| r_Matches := convertMatches (hr_Matches hr);
                r_Backends := convertBackends (hr_BackendRefs hr) (Namespace (meta route)) |})
    (rt_Rules route).

(** ** aggregate.go *)
Definition dropCrossNSBackends (rs : list Rule) (routeNS : string) : list Rule :=
  map (λ r, {| r_Matches := r_Matches r;
               r_Backends := filter (λ b, b_Namespace b = routeNS) (r_Backends r) |}) rs.

(** The condition decides when there is one; otherwise the next parent is tried. *)
Fixpoint resolved_condition (cs : list Condition) : option bool :=
  match cs with
  | [] => None
  | c :: cs => if bool_decide (c_Type c = "ResolvedRefs")
               then Some (bool_decide (c_Status c = ConditionTrue))
               else resolved_condition cs
  end.
Definition parent_is (ps : RouteParentStatus) (routeNS : string) (gw : NamespacedName) : bool :=
  bool_decide (pr_Name (ps_ParentRef ps) = nn_Name gw) &&
  bool_decide (default routeNS (pr_Namespace (ps_ParentRef ps)) = nn_Namespace gw).
Fixpoint refs_resolved (parents : list RouteParentStatus) (routeNS : string) (gw : NamespacedName)
  : bool :=
  match parents with
  | [] => false
  | p :: parents =>
      if negb (parent_is p routeNS gw) then refs_resolved parents routeNS gw
      else match resolved_condition (ps_Conditions p) with
           | Some b => b
           | None => refs_resolved parents routeNS gw
           end
  end.
Definition refsResolvedFor (route : HTTPRoute) (gw : NamespacedName) : bool :=
  refs_resolved (rt_Parents route) (Namespace (meta route)) gw.

Definition parent_ref_targets (routeNS : string) (gw : NamespacedName) (ref : ParentReference) : bool :=
  bool_decide (pr_Name ref = nn_Name gw) &&
  match pr_Kind ref with Some k => bool_decide (k = "Gateway") | None => true end &&
  match pr_Group ref with Some g => bool_decide (g = "gateway.networking.k8s.io") | None => true end &&
  bool_decide (default routeNS (pr_Namespace ref) = nn_Namespace gw).
Definition routeTargetsGateway (route : HTTPRoute) (gw : NamespacedName) : bool :=
  existsb (parent_ref_targets (Namespace (meta route)) gw) (rt_ParentRefs route).

Definition rulesForRoute (gw : NamespacedName) (route : HTTPRoute) : list Rule :=
  if negb (routeTargetsGateway route gw) then []
  else
    let rls := RulesFromHTTPRoute route in
    if refsResolvedFor route gw then rls
    else dropCrossNSBackends rls (Namespace (meta route)).
Definition rulesForGateway (routes : list HTTPRoute) (gw : NamespacedName) : list Rule :=
  routes ≫= rulesForRoute gw.

(** ** resolver.go *)
Record URL := { Scheme : string; Host : string }.
(** A [BackendResolver]: [None] is a nil URL, the boolean is [ok]. *)
Definition BackendResolver : Type := Backend → option URL * bool.
Definition ClusterResolver : BackendResolver := λ b,
  if bool_decide (b_Name b = "") || bool_decide (b_Namespace b = "") || bool_decide (b_Port b = 0%Z)
  then (None, false)
  else (Some {| Scheme := "http";
                Host := b_Name b +:+ "." +:+ b_Namespace b +:+ ".svc:" +:+ Itoa (b_Port b) |}, true).

(** ** proxy.go *)
Record Proxy := { resolver : BackendResolver; table : option RouteTable }.
Definition NewProxy (resolve : BackendResolver) : Proxy := {| resolver := resolve; table := None |}.
Definition SetTable (p : Proxy) (t : RouteTable) : Proxy :=
  {| resolver := resolver p; table := Some t |}.
(** What the handler does with a request: an error page, or hand it to the reverse proxy. *)
Inductive response := HTTPError (code : nat) (msg : string) | ReverseProxy (target : URL).
Definition ServeHTTP (p : Proxy) (reqPath : string) : response :=
  match table p with
  | None => HTTPError 404 "no routes configured"
  | Some t =>
      let '(backend, ok) := Match t reqPath in
      if negb ok then HTTPError 404 "no matching route"
      else match resolver p backend with
           | (Some target, true) => ReverseProxy target
           | _ => HTTPError 502 "backend unavailable"
           end
  end.

(** ** sync.go and router.go

    [listed] is the answer of [reader.List]; a failed list leaves the table alone. *)
Section sync.
Context {E : Type}.
Definition sync (gw : NamespacedName) (listed : result E (list HTTPRoute)) (p : Proxy)
  : Proxy * result E () :=
  match listed with
  | Err e => (p, Err e)
  | Ok items => (SetTable p (NewRouteTable (rulesForGateway items gw)), Ok ())
  end.

Record Config := {
  GatewayName : string;
  GatewayNamespace : string;
  RestConfig : option ();
  Resolve : option BackendResolver;
}.
Inductive new_error :=
| ErrConfigRequired
| ErrLoadConfig (e : E) | ErrScheme (e : E) | ErrBuildCache (e : E)
| ErrInformer (e : E) | ErrHandler (e : E) | ErrCacheSync | ErrInitialSync (e : E).
(** What the libraries and the cluster answer while [New] runs, in the order it asks: the
    ambient configuration, the scheme, the cache, the informer, the handler registration,
    whether the cache synced, and the initial list. *)
Record Environment := {
  env_GetConfig : result E ();
  env_Install : result E ();
  env_NewCache : result E ();
  env_GetInformer : result E ();
  env_AddEventHandler : result E ();
  env_CacheSynced : bool;
  env_InitialList : result E (list HTTPRoute);
}.
Definition New (cfg : Config) (env : Environment) : result new_error Proxy :=
  guard! negb (bool_decide (GatewayName cfg = "") || bool_decide (GatewayNamespace cfg = ""))
    else ErrConfigRequired;;
  let* _ := match RestConfig cfg with
            | Some _ => Ok ()
            | None => wrap_err ErrLoadConfig (env_GetConfig env)
            end in
  let resolve := default ClusterResolver (Resolve cfg) in
  let* _ := wrap_err ErrScheme (env_Install env) in
  let* _ := wrap_err ErrBuildCache (env_NewCache env) in
  let proxy := NewProxy resolve in
  let gw := {| nn_Name := GatewayName cfg; nn_Namespace := GatewayNamespace cfg |} in
  let* _ := wrap_err ErrInformer (env_GetInformer env) in
  let* _ := wrap_err ErrHandler (env_AddEventHandler env) in
  guard! env_CacheSynced env else ErrCacheSync;;
  match sync gw (env_InitialList env) proxy with
  | (_, Err e) => Err (ErrInitialSync e)
  | (proxy, Ok _) => Ok proxy
  end.
(** An informer event calls [rebuild], which logs the error of [sync] and goes on. *)
Definition rebuild (gw : NamespacedName) (p : Proxy) (listed : result E (list HTTPRoute)) : Proxy :=
  (sync gw listed p).1.
End sync.
#[global] Arguments new_error : clear implicits.
#[global] Arguments Environment : clear implicits.

(** * Lemmas *)

(** ** Selection

    The candidates for a path: every matching condition of a rule with backends, in the order
    written, with the rule's first backend. *)
Definition rule_candidates (reqPath : string) (r : Rule) : list (PathMatch * Backend) :=
  match r_Backends r with
  | [] => []
  | b :: _ => map (λ m, (m_Path m, b)) (filter (λ m, pathMatches (m_Path m) reqPath = true) (r_Matches r))
  end.
Definition candidates (t : RouteTable) (reqPath : string) : list (PathMatch * Backend) :=
  rules t ≫= rule_candidates reqPath.

(** The Gateway API's order: an exact path over a prefix, then the longer value. *)
Definition more_specific (p q : PathMatch) : Prop :=
  match path_Type p, path_Type q with
  | PathExact, PathPrefix => True
  | PathPrefix, PathExact => False
  | _, _ => String.length (path_Value q) < String.length (path_Value p)
  end.
(** [c] is the first of the most specific candidates. *)
Definition selected (cs : list (PathMatch * Backend)) (c : PathMatch * Backend) : Prop :=
  ∃ l1 l2, cs = l1 ++ c :: l2 ∧
    Forall (λ d, more_specific c.1 d.1) l1 ∧ Forall (λ d, ¬ more_specific d.1 c.1) l2.

Definition pick (st : search) (c : PathMatch * Backend) : search :=
  if (pathScore c.1 >? bestScore st)%Z then
    {| best := c.2; bestScore := pathScore c.1; found := true |}
  else st.

Lemma rule_step_candidates p st r : rule_step p st r = foldl pick st (rule_candidates p r).
Proof.
  unfold rule_step, rule_candidates. destruct (r_Backends r) as [|b bs]; [done|].
  revert st. induction (r_Matches r) as [|m ms IH]; intros st; simpl; [done|].
  rewrite filter_cons. unfold match_step at 2.
  destruct (pathMatches (m_Path m) p) eqn:Hm; cbn [negb].
  - rewrite decide_True by done. simpl. apply IH.
  - rewrite decide_False by done. apply IH.
Qed.
Lemma rules_candidates p st rs :
  foldl (rule_step p) st rs = foldl pick st (rs ≫= rule_candidates p).
Proof.
  revert st. induction rs as [|r rs IH]; intros st; csimpl; [done|].
  by rewrite foldl_app, IH, rule_step_candidates.
Qed.

(** The scan keeps its start unless some candidate scores higher, and then ends on the first
    of the best. *)
Lemma foldl_pick cs : ∀ st,
  (Forall (λ d, (pathScore d.1 ≤ bestScore st)%Z) cs ∧ foldl pick st cs = st) ∨
  ∃ l1 c l2, cs = l1 ++ c :: l2 ∧ (bestScore st < pathScore c.1)%Z ∧
    Forall (λ d, (pathScore d.1 < pathScore c.1)%Z) l1 ∧
    Forall (λ d, (pathScore d.1 ≤ pathScore c.1)%Z) l2 ∧
    foldl pick st cs = {| best := c.2; bestScore := pathScore c.1; found := true |}.
Proof.
  induction cs as [|d cs IH]; intros st; simpl; [by left|].
  unfold pick at 2 4. destruct (Z.gtb_spec (pathScore d.1) (bestScore st)) as [Hgt|Hle].
  - set (st1 := {| best := _; bestScore := _; found := _ |}).
    right. destruct (IH st1) as [[Hall ->]|(l1 & c & l2 & -> & Hc & Hl1 & Hl2 & ->)]; simpl in *.
    + exists [], d, cs. repeat split; auto.
    + exists (d :: l1), c, l2. split; [done|]. split; [lia|]. split; [by constructor | done].
  - destruct (IH st) as [[Hall Heq]|(l1 & c & l2 & -> & Hc & Hl1 & Hl2 & ->)].
    + left. split; [by constructor | done].
    + right. exists (d :: l1), c, l2. split; [done|]. split; [done|].
      split; [constructor; [lia | done] | done].
Qed.

Lemma score_more_specific p q :
  (Z.of_nat (String.length (path_Value p)) < exactTier)%Z →
  (Z.of_nat (String.length (path_Value q)) < exactTier)%Z →
  more_specific p q ↔ (pathScore q < pathScore p)%Z.
Proof. unfold more_specific, pathScore, exactTier. destruct (path_Type p), (path_Type q); lia. Qed.

Lemma pathMatches_length p reqPath :
  pathMatches p reqPath = true → String.length (path_Value p) ≤ String.length reqPath.
Proof.
  unfold pathMatches. destruct (path_Type p); intros H.
  - bools. by subst.
  - case_bool_decide; [by subst|]. bools.
    case_bool_decide; rewrite ?str_length_app in *; simpl in *; lia.
Qed.
Lemma elem_of_candidates t reqPath c :
  c ∈ candidates t reqPath ↔
  ∃ r m bs, r ∈ rules t ∧ r_Backends r = c.2 :: bs ∧ m ∈ r_Matches r ∧ m_Path m = c.1 ∧
    pathMatches c.1 reqPath = true.
Proof.
  unfold candidates. rewrite list_elem_of_bind. split.
  - intros (r & Hc & Hr). unfold rule_candidates in Hc.
    destruct (r_Backends r) as [|b bs] eqn:Hb; [set_solver|].
    apply list_elem_of_fmap in Hc as (m & -> & [Hp Hm]%list_elem_of_filter). by exists r, m, bs.
  - intros (r & m & bs & Hr & Hb & Hm & Heq & Hp). exists r. split; [|done].
    unfold rule_candidates. rewrite Hb. apply list_elem_of_fmap. exists m.
    split; [by rewrite Heq; destruct c|]. apply list_elem_of_filter. by rewrite Heq.
Qed.

(** C18.  [RouteTable.Match] implements the Gateway API's precedence: for a path shorter than
    the exact tier it returns the backend of the first of the most specific matching
    conditions (exact over prefix, longer over shorter, then the order written), where rules
    without backends do not count, and it reports no match exactly when nothing matches. *)
Theorem match_precedence t reqPath (Hlen : (Z.of_nat (String.length reqPath) < 2 ^ 16)%Z) :
  (candidates t reqPath = [] ∧ Match t reqPath = (zero_backend, false)) ∨
  ∃ c, selected (candidates t reqPath) c ∧ Match t reqPath = (c.2, true).
Proof.
  unfold Match. rewrite rules_candidates. fold (candidates t reqPath).
  assert (∀ c, c ∈ candidates t reqPath →
            (Z.of_nat (String.length (path_Value c.1)) < exactTier)%Z) as Hshort.
  { intros c (?&?&?&?&?&?&?&Hp)%elem_of_candidates. apply pathMatches_length in Hp.
    unfold exactTier. lia. }
  destruct (foldl_pick (candidates t reqPath) {| best := zero_backend; bestScore := -1; found := false |})
    as [[Hall ->]|(l1 & c & l2 & Hcs & _ & Hl1 & Hl2 & ->)]; simpl in *.
  - left. split; [|done]. destruct (candidates t reqPath) as [|d ds]; [done|].
    inversion_clear Hall as [|?? Hd _]. unfold pathScore, exactTier in Hd.
    destruct (path_Type d.1); lia.
  - right. exists c. split; [|done]. exists l1, l2. split; [done|]. rewrite Hcs in Hshort.
    split; apply Forall_forall; intros d Hd.
    + rewrite Forall_forall in Hl1. rewrite score_more_specific by (apply Hshort; set_solver). by apply Hl1.
    + rewrite Forall_forall in Hl2. specialize (Hl2 d Hd).
      rewrite score_more_specific by (apply Hshort; set_solver). lia.
Qed.

(** ** Path segments *)
#[local] Arguments String.append !_ _ / : assert.

Lemma split_on_prefix sep v p :
  (p = v ∨ ∃ r, p = v +:+ String sep r) ↔ split_on sep v `prefix_of` split_on sep p.
Proof.
  split.
  - intros [->|[r ->]]; [done|]. rewrite split_on_sep_app. by apply prefix_app_r.
  - revert p. induction v as [|c v IH]; intros p Hp.
    + destruct p as [|d p]; [by left|]. simpl in Hp.
      destruct (split_on_cons sep p) as (w & ws & Hw). rewrite Hw in Hp.
      destruct (Ascii.eqb_spec d sep) as [->|Hd]; [right; by exists p|].
      apply prefix_cons_inv_1 in Hp. done.
    + simpl in Hp. destruct (split_on_cons sep v) as (w & ws & Hw). rewrite Hw in Hp.
      destruct p as [|d p]; simpl in Hp.
      { destruct (Ascii.eqb c sep); [|by apply prefix_cons_inv_1 in Hp].
        apply prefix_cons_inv_2 in Hp. by apply prefix_nil_not in Hp. }
      destruct (split_on_cons sep p) as (x & xs & Hx). rewrite Hx in Hp.
      assert (c = d ∧ w :: ws `prefix_of` x :: xs) as [-> Hp'].
      { destruct (Ascii.eqb_spec c sep) as [->|Hc], (Ascii.eqb_spec d sep) as [->|Hd].
        - apply prefix_cons_inv_2 in Hp. done.
        - by apply prefix_cons_inv_1 in Hp.
        - by apply prefix_cons_inv_1 in Hp.
        - pose proof (prefix_cons_inv_1 _ _ _ _ Hp) as Heq. injection Heq as -> ->.
          apply prefix_cons_inv_2 in Hp. split; [done|]. by apply prefix_cons. }
      rewrite <- Hw, <- Hx in Hp'. destruct (IH p Hp') as [->|[r ->]]; [by left | right; by exists r].
Qed.

(** C39.  A [PathPrefix] match works on whole path segments: a value other than ["/"] matches
    exactly the paths whose ["/"]-separated segments start with the value's, so ["/api"]
    matches ["/api"] and ["/api/..."] but not ["/apiv2"]; ["/"] matches every path that
    starts with it; an [Exact] match is equality. *)
Theorem path_match_segments v reqPath :
  (pathMatches {| path_Type := PathExact; path_Value := v |} reqPath = true ↔ reqPath = v) ∧
  (v ≠ "/" → pathMatches {| path_Type := PathPrefix; path_Value := v |} reqPath = true ↔
             split_on "/" v `prefix_of` split_on "/" reqPath) ∧
  (pathMatches {| path_Type := PathPrefix; path_Value := "/" |} reqPath = true ↔
     HasPrefix reqPath "/" = true).
Proof.
  assert (∀ q s : string, (String.length q <=? String.length s) &&
            bool_decide (str_take (String.length q) s = q) = true ↔ HasPrefix s q = true) as Hpre.
  { intros q s. rewrite HasPrefix_true, andb_true_iff, Nat.leb_le, bool_decide_eq_true. split.
    - intros [_ Hq]. exists (str_drop (String.length q) s). rewrite <- Hq at 1.
      by rewrite str_take_drop.
    - intros [r ->]. rewrite str_take_app, str_length_app. split; [lia | done]. }
  unfold pathMatches. cbn [path_Type path_Value]. split; [by rewrite bool_decide_eq_true|]. split.
  - intros Hv. rewrite <- split_on_prefix. rewrite (bool_decide_false (v = "/")) by done.
    case_bool_decide; [by split; [left|]|]. rewrite Hpre, HasPrefix_true.
    setoid_rewrite <- str_app_assoc. simpl. naive_solver.
  - rewrite (bool_decide_true ("/" = "/")) by done.
    case_bool_decide; [by subst|]. apply Hpre.
Qed.

(** A prefix written with a trailing slash does not match below itself, although the Gateway
    API ignores a trailing slash. *)
Lemma trailing_slash_prefix :
  pathMatches {| path_Type := PathPrefix; path_Value := "/api/" |} "/api/users" = false ∧
  pathMatches {| path_Type := PathPrefix; path_Value := "/api" |} "/api/users" = true.
Proof. split; vm_compute; reflexivity. Qed.

(** ** Whose backends a Gateway's table holds *)
Lemma elem_of_rulesForGateway routes gw r :
  r ∈ rulesForGateway routes gw ↔
  ∃ route, route ∈ routes ∧ routeTargetsGateway route gw = true ∧ r ∈ rulesForRoute gw route.
Proof.
  unfold rulesForGateway. rewrite list_elem_of_bind. unfold rulesForRoute. split.
  - intros (route & Hr & Hin). exists route.
    destruct (routeTargetsGateway route gw) eqn:Ht; [done|]. by apply elem_of_nil in Hr.
  - intros (route & Hin & _ & Hr). eauto.
Qed.

Lemma rulesForRoute_backend gw route r b :
  r ∈ rulesForRoute gw route → b ∈ r_Backends r →
  (∃ hr ref, hr ∈ rt_Rules route ∧ ref ∈ hr_BackendRefs hr ∧
     b = convertBackend (Namespace (meta route)) ref) ∧
  (b_Namespace b = Namespace (meta route) ∨ refsResolvedFor route gw = true).
Proof.
  unfold rulesForRoute. destruct (routeTargetsGateway route gw); [|by intros ?%elem_of_nil].
  cbn [negb]. intros Hr Hb.
  assert (∀ r', r' ∈ RulesFromHTTPRoute route → b ∈ r_Backends r' →
    ∃ hr ref, hr ∈ rt_Rules route ∧ ref ∈ hr_BackendRefs hr ∧
     b = convertBackend (Namespace (meta route)) ref) as Hsrc.
  { intros r' (hr & -> & Hhr)%list_elem_of_fmap (ref & -> & Href)%list_elem_of_fmap. eauto 6. }
  destruct (refsResolvedFor route gw); [split; [eauto | by right]|].
  apply list_elem_of_fmap in Hr as (r' & -> & Hr'). simpl in Hb.
  apply list_elem_of_filter in Hb as [Hns Hb]. split; [eauto | by left].
Qed.

(** Cross-namespace backends fail closed: a backend the router picks for a Gateway comes
    from a backendRef of an HTTPRoute whose parentRefs target that Gateway, and it is either in
    the route's own namespace or the route's ResolvedRefs condition for that Gateway is True. *)
Theorem match_fail_closed routes gw reqPath b
    (Hmatch : Match (NewRouteTable (rulesForGateway routes gw)) reqPath = (b, true)) :
  ∃ route hr ref, route ∈ routes ∧ routeTargetsGateway route gw = true ∧
    hr ∈ rt_Rules route ∧ ref ∈ hr_BackendRefs hr ∧
    b = convertBackend (Namespace (meta route)) ref ∧
    (b_Namespace b = Namespace (meta route) ∨ refsResolvedFor route gw = true).
Proof.
  unfold Match in Hmatch. rewrite rules_candidates in Hmatch.
  fold (candidates (NewRouteTable (rulesForGateway routes gw)) reqPath) in Hmatch.
  destruct (foldl_pick (candidates (NewRouteTable (rulesForGateway routes gw)) reqPath)
    {| best := zero_backend; bestScore := -1; found := false |})
    as [[_ Heq]|(l1 & c & l2 & Hcs & _ & _ & _ & Heq)]; rewrite Heq in Hmatch; simplify_eq/=.
  assert (c ∈ candidates (NewRouteTable (rulesForGateway routes gw)) reqPath)
    as (r & m & bs & Hr & Hb & _)%elem_of_candidates by (rewrite Hcs; set_solver).
  apply elem_of_rulesForGateway in Hr as (route & Hin & Ht & Hr).
  destruct (rulesForRoute_backend gw route r c.2) as [(hr & ref & ?) ?];
    [done | rewrite Hb; set_solver | naive_solver].
Qed.

(** ** Serving *)
Section serving.
Context {E : Type}.
Implicit Types (cfg : Config) (env : Environment E) (listed : result E (list HTTPRoute)).

Definition gateway_of (cfg : Config) : NamespacedName :=
  {| nn_Name := GatewayName cfg; nn_Namespace := GatewayNamespace cfg |}.
(** The routes last listed successfully, [items] at first. *)
Definition last_listed (items : list HTTPRoute) (events : list (result E (list HTTPRoute)))
  : list HTTPRoute :=
  foldl (λ last ev, match ev with Ok items => items | Err _ => last end) items events.

Lemma rebuild_last_listed gw p items events :
  table p = Some (NewRouteTable (rulesForGateway items gw)) →
  resolver (foldl (rebuild gw) p events) = resolver p ∧
  table (foldl (rebuild gw) p events) =
    Some (NewRouteTable (rulesForGateway (last_listed items events) gw)).
Proof.
  revert p items. induction events as [|ev events IH]; intros p items Hp; simpl; [done|].
  destruct ev as [items'|e]; simpl; [|by apply IH].
  by apply (IH (SetTable p (NewRouteTable (rulesForGateway items' gw)))).
Qed.

Lemma New_Ok cfg env p :
  New cfg env = Ok p →
  GatewayName cfg ≠ "" ∧ GatewayNamespace cfg ≠ "" ∧
  ∃ items, env_InitialList env = Ok items ∧
    p = SetTable (NewProxy (default ClusterResolver (Resolve cfg)))
          (NewRouteTable (rulesForGateway items (gateway_of cfg))).
Proof.
  unfold New. intros H. invert_ok. bools. do 2 (split; [done|]).
  destruct (env_InitialList env) as [items|e]; simplify_eq/=. by exists items.
Qed.

(** C40.  The handler [New] returns serves the routes listed last: after any sequence of
    informer events, of which some may have failed to list, a request is answered from the
    last successful list, with 404 when no rule matches, 502 when the matched backend cannot
    be resolved, and otherwise by proxying to the resolved backend; it never reports
    ["no routes configured"]. *)
Theorem served_from_last_list cfg env p0 events reqPath
    (Hnew : New cfg env = Ok p0) :
  ∃ items, env_InitialList env = Ok items ∧
    ServeHTTP (foldl (rebuild (gateway_of cfg)) p0 events) reqPath =
    match Match (NewRouteTable (rulesForGateway (last_listed items events) (gateway_of cfg))) reqPath with
    | (_, false) => HTTPError 404 "no matching route"
    | (b, true) =>
        match default ClusterResolver (Resolve cfg) b with
        | (Some target, true) => ReverseProxy target
        | _ => HTTPError 502 "backend unavailable"
        end
    end.
Proof.
  apply New_Ok in Hnew as (_ & _ & items & Hinit & ->). exists items. split; [done|].
  destruct (rebuild_last_listed (gateway_of cfg)
    (SetTable (NewProxy (default ClusterResolver (Resolve cfg)))
       (NewRouteTable (rulesForGateway items (gateway_of cfg)))) items events eq_refl) as [Hr Ht].
  unfold ServeHTTP. rewrite Hr, Ht. cbn [resolver SetTable NewProxy].
  by destruct (Match _ reqPath) as [b []].
Qed.
End serving.

(** ** A concrete router *)
Definition route_example (resolved : string) : HTTPRoute := {|
  rt_meta := new_meta "shop" "apps" ∅;
  rt_ParentRefs := [{| pr_Group := None; pr_Kind := None; pr_Namespace := Some "tor";
                       pr_Name := "onion"; pr_SectionName := None |}];
  rt_Rules := [
    {| hr_Matches := [{| hm_Path := Some {| pm_Type := None; pm_Value := Some "/api" |} |}];
       hr_BackendRefs := [{| br_Name := "api"; br_Namespace := Some "backend"; br_Port := Some 8080%Z |};
                          {| br_Name := "fallback"; br_Namespace := None; br_Port := Some 80%Z |}] |};
    {| hr_Matches := []; hr_BackendRefs := [{| br_Name := "web"; br_Namespace := None; br_Port := Some 80%Z |}] |}];
  rt_Parents := [
    {| ps_ParentRef := {| pr_Group := None; pr_Kind := None; pr_Namespace := Some "tor";
                          pr_Name := "onion"; pr_SectionName := None |};
       ps_ControllerName := "torgateway.io/gateway-controller";
       ps_Conditions := [{| c_Type := "ResolvedRefs"; c_Status := resolved; c_Reason := "";
                            c_Message := ""; c_ObservedGeneration := 1; c_LastTransitionTime := 0 |}] |}] |}.
Definition example_config : Config := {|
  GatewayName := "onion"; GatewayNamespace := "tor"; RestConfig := Some (); Resolve := None |}.
Definition example_env : Environment () := {|
  env_GetConfig := Ok (); env_Install := Ok (); env_NewCache := Ok (); env_GetInformer := Ok ();
  env_AddEventHandler := Ok (); env_CacheSynced := true;
  env_InitialList := Ok [route_example "False"] |}.
Definition example_proxy : Proxy :=
  SetTable (NewProxy ClusterResolver)
    (NewRouteTable (rulesForGateway [route_example "False"] (gateway_of example_config))).

Lemma match_precedence_witness :
  Match (NewRouteTable (rulesForGateway [route_example "True"] (gateway_of example_config))) "/api/x" =
    ({| b_Namespace := "backend"; b_Name := "api"; b_Port := 8080 |}, true) ∧
  ∃ c, selected (candidates (NewRouteTable
         (rulesForGateway [route_example "True"] (gateway_of example_config))) "/api/x") c.
Proof.
  split; [vm_compute; reflexivity|].
  destruct (match_precedence
    (NewRouteTable (rulesForGateway [route_example "True"] (gateway_of example_config))) "/api/x")
    as [[_ Heq]|(c & Hc & _)]; [vm_compute; reflexivity | vm_compute in Heq; discriminate |].
  exists c. exact Hc.
Defined.
Lemma match_fail_closed_witness :
  Match (NewRouteTable (rulesForGateway [route_example "False"] (gateway_of example_config))) "/api/x" =
    ({| b_Namespace := "apps"; b_Name := "fallback"; b_Port := 80 |}, true) ∧
  ∃ route, route ∈ [route_example "False"] ∧ routeTargetsGateway route (gateway_of example_config) = true.
Proof.
  assert (Hm : Match (NewRouteTable (rulesForGateway [route_example "False"] (gateway_of example_config)))
    "/api/x" = ({| b_Namespace := "apps"; b_Name := "fallback"; b_Port := 80 |}, true))
    by (vm_compute; reflexivity).
  split; [exact Hm|].
  destruct (match_fail_closed _ _ _ _ Hm) as (route & _ & _ & Hin & Ht & _). eauto.
Defined.
Lemma served_from_last_list_witness :
  ServeHTTP (foldl (rebuild (gateway_of example_config)) example_proxy
               [Err (); Ok [route_example "True"]; Err ()]) "/api/x" =
  ReverseProxy {| Scheme := "http"; Host := "api.backend.svc:8080" |}.
Proof.
  destruct (served_from_last_list example_config example_env example_proxy
    [Err (); Ok [route_example "True"]; Err ()] "/api/x") as (items & Hi & Hs); [reflexivity|].
  injection Hi as <-. etransitivity; [exact Hs | vm_compute; reflexivity].
Defined.
Lemma path_match_segments_witness :
  pathMatches {| path_Type := PathPrefix; path_Value := "/api" |} "/api/x" = true ∧
  pathMatches {| path_Type := PathPrefix; path_Value := "/api" |} "/apiv2" = false.
Proof.
  destruct (path_match_segments "/api" "/api/x") as (_ & Hp & _).
  destruct (path_match_segments "/api" "/apiv2") as (_ & Hq & _).
  split.
  - apply Hp; [discriminate|]. exists ["x"]. reflexivity.
  - apply not_true_iff_false. rewrite Hq by discriminate. intros [k Hk]. discriminate Hk.
Defined.
