(* ===== verification/Onionbalance.v ===== *)
(** * The onionbalance configuration (internal/onionbalance)

    Choosing the backends among the Secrets the informer lists, sorting them, rendering
    config.yaml, and one rebuild with its effects.  The scheduling of rebuilds is in
    Refresher. *)

From Stdlib Require Import Ascii ZArith.
From stdpp Require Import sorting.
From S2P Require Import Prelude Monad GoStrings GoNet GoOS Onion KubeTypes.

Definition ReasonReloadConfigFailed : string := "OnionbalanceConfigRenderFailed".
Definition ReasonReloadSighupFailed : string := "OnionbalanceReloadFailed".
Definition LabelGateway : string := "torgateway.io/gateway".
Definition LabelRole : string := "torgateway.io/role".
Definition LabelOwnerUID : string := "torgateway.io/owner-uid".
Definition HostnameField : string := "hostname".

(** ** config.go *)
(** The loop over [backends], from index [i]. *)
Fixpoint render_instances (i : nat) (backends : list OnionAddress) : string :=
  match backends with
  | [] => ""
  | a :: backends =>
      line ("  - address: " +:+ OnionAddress_String a) +:+
      line ("    name: backend-" +:+ Itoa (Z.of_nat i)) +:+ render_instances (S i) backends
  end.
Definition Render (master : OnionAddress) (backends : list OnionAddress) (keyPath : string)
  : result string string :=
  guard! negb (bool_decide (keyPath = "")) else "onionbalance: keyPath is required";;
  let head := line "# generated by tor-gateway operator — do not edit by hand" +:+
              line "services:" +:+ line ("- key: " +:+ keyPath) in
  match backends with
  | [] => Ok (head +:+ line "  instances: []")
  | _ => Ok (head +:+ line "  instances:" +:+ render_instances 0 backends +:+
             line ("# master: " +:+ OnionAddress_String master))
  end.

(** ** Sorting *)
(** [a > b] on strings. *)
Definition str_gt (a b : string) : bool := negb (bool_decide (String.le a b)).
Definition addr_at (a : list OnionAddress) (i : nat) : OnionAddress :=
  nth i a {| pubKey := [] |}.
Definition swap (i j : nat) (a : list OnionAddress) : list OnionAddress :=
  <[i := addr_at a j]> (<[j := addr_at a i]> a).
(** [for j := i; j > 0 && a[j-1] > a[j]; j-- { swap }] *)
Fixpoint sift (j : nat) (a : list OnionAddress) : list OnionAddress :=
  match j with
  | 0 => a
  | S j' =>
      if str_gt (OnionAddress_String (addr_at a j')) (OnionAddress_String (addr_at a j))
      then sift j' (swap j' j a) else a
  end.
Definition sortAddrs (a : list OnionAddress) : list OnionAddress :=
  foldl (λ a i, sift i a) a (seq 1 (length a - 1)).

(** ** Choosing the backends *)
Definition is_blank (c : ascii) : bool :=
  bool_decide (c ∈ [" "; "010"; "013"; "009"]%char).
Definition stringNoSpace (b : bytes) : string :=
  string_of_bytes (filter (λ c, is_blank (ascii_of_byte c) = false) b).

(** What an informer's store may hold. *)
Inductive stored := SecretObj (s : Secret) | OtherObj.

Definition owned_by (ownerUID : string) (s : Secret) : bool :=
  existsb (λ o, bool_decide (or_UID o = ownerUID) && bool_decide (or_Controller o = Some true))
    (OwnerReferences (sec_meta s)).

Section backends.
Context {U : UnicodeCase}.

Definition backend_of (ownerUID : string) (o : stored) : option OnionAddress :=
  match o with
  | OtherObj => None
  | SecretObj s =>
      if negb (bool_decide (default "" (Labels (sec_meta s) !! LabelOwnerUID) = ownerUID)) then None
      else if negb (owned_by ownerUID s) then None
      else match sec_Data s !! HostnameField with
           | None => None
           | Some raw =>
               if bool_decide (length raw = 0) then None
               else match ParseAddress (stringNoSpace raw) with
                    | Ok addr => Some addr
                    | Err _ => None
                    end
           end
  end.
Definition backendsFromSecrets (objs : list stored) (ownerUID : string) : list OnionAddress :=
  sortAddrs (omap (backend_of ownerUID) objs).
End backends.

(** ** The refresher's configuration *)
Definition second : Z := 1000000000.
Record RefresherConfig := {
  rc_GatewayName : string;
  rc_GatewayNamespace : string;
  rc_MasterKeyPath : string;
  rc_ConfigPath : string;
  rc_PIDFile : string;
  rc_Interval : Z;
  rc_Master : OnionAddress;
  rc_OwnerUID : string;
  rc_Client : option ();
  rc_HealthcheckFile : string;
  rc_Recorder : bool;
}.
Definition with_Interval (d : Z) (c : RefresherConfig) : RefresherConfig := {|
  rc_GatewayName := rc_GatewayName c; rc_GatewayNamespace := rc_GatewayNamespace c;
  rc_MasterKeyPath := rc_MasterKeyPath c; rc_ConfigPath := rc_ConfigPath c;
  rc_PIDFile := rc_PIDFile c; rc_Interval := d; rc_Master := rc_Master c;
  rc_OwnerUID := rc_OwnerUID c; rc_Client := rc_Client c;
  rc_HealthcheckFile := rc_HealthcheckFile c; rc_Recorder := rc_Recorder c |}.
Inductive refresher_error :=
| ErrGatewayRequired | ErrPathsRequired | ErrClientRequired | ErrOwnerUIDRequired
| ErrMasterRequired.
Definition NewRefresher (cfg : RefresherConfig) : result refresher_error RefresherConfig :=
  guard! negb (bool_decide (rc_GatewayName cfg = "") || bool_decide (rc_GatewayNamespace cfg = ""))
    else ErrGatewayRequired;;
  guard! negb (bool_decide (rc_ConfigPath cfg = "") || bool_decide (rc_PIDFile cfg = "") ||
               bool_decide (rc_MasterKeyPath cfg = "")) else ErrPathsRequired;;
  guard! bool_decide (is_Some (rc_Client cfg)) else ErrClientRequired;;
  guard! negb (bool_decide (rc_OwnerUID cfg = "")) else ErrOwnerUIDRequired;;
  guard! negb (bool_decide (OnionAddress_String (rc_Master cfg) = "")) else ErrMasterRequired;;
  let interval := if (rc_Interval cfg <=? 0)%Z then (30 * second)%Z else rc_Interval cfg in
  let minInterval := (5 * second)%Z in
  Ok (with_Interval (if (interval <? minInterval)%Z then minInterval else interval) cfg).
(** The informer's label selector, built in [Run]. *)
Definition selector (cfg : RefresherConfig) : string :=
  LabelGateway +:+ "=" +:+ rc_GatewayName cfg +:+ "," +:+ LabelRole +:+ "=backend," +:+
  LabelOwnerUID +:+ "=" +:+ rc_OwnerUID cfg.

(** ** One rebuild

    Files are contents by path.  What the system calls answer is given: [tmp_name] by
    [os.CreateTemp], how much of the data a failing write left behind, and so on. *)
Abbreviation files := (gmap string bytes).
Record WriteEnv := {
  create_temp : result io_error string;
  write_tmp : result (nat * io_error) ();
  close_tmp : result io_error ();
  rename_tmp : result io_error ();
}.
Definition atomicWrite (env : WriteEnv) (path : string) (data : bytes) : M files io_error () := λ fs,
  match create_temp env with
  | Err e => (fs, Err e)
  | Ok tmp =>
      match write_tmp env with
      | Err (_, e) => (delete tmp (<[tmp := data]> fs), Err e)
      | Ok _ =>
          let fs := <[tmp := data]> fs in
          match close_tmp env with
          | Err e => (delete tmp fs, Err e)
          | Ok _ =>
              match rename_tmp env with
              | Err e => (fs, Err e)
              | Ok _ => (<[path := data]> (delete tmp fs), Ok ())
              end
          end
      end
  end.

Inductive sighup_error := ErrPidRead | ErrPidParse | ErrKill (e : io_error).
(** [kill] answers [syscall.Kill]; the pid signalled is returned with the result. *)
Definition sighupPID (fs : files) (kill : Z → result io_error ()) (pidfile : string)
  : option Z * result sighup_error () :=
  match fs !! pidfile with
  | None => (None, Err ErrPidRead)
  | Some raw =>
      match Atoi (stringNoSpace raw) with
      | None => (None, Err ErrPidParse)
      | Some pid => (Some pid, wrap_err ErrKill (kill pid))
      end
  end.

(** The world a rebuild changes: files, signals sent, warning events, and the time of the
    last write of the healthcheck file. *)
Record World := {
  w_files : files;
  w_signalled : list Z;
  w_warnings : list string;
  w_healthy_at : option Z;
}.
Definition emitWarning (cfg : RefresherConfig) (reason : string) (w : World) : World :=
  if negb (rc_Recorder cfg) then w
  else {| w_files := w_files w; w_signalled := w_signalled w;
          w_warnings := w_warnings w ++ [reason]; w_healthy_at := w_healthy_at w |}.

Record RebuildEnv := {
  re_write : WriteEnv;
  re_kill : Z → result io_error ();
  re_health : result io_error ();
  re_now : Z;
}.
Definition rebuild {U : UnicodeCase} (cfg : RefresherConfig) (env : RebuildEnv)
    (objs : list stored) (w : World) : World :=
  let backends := backendsFromSecrets objs (rc_OwnerUID cfg) in
  match Render (rc_Master cfg) backends (rc_MasterKeyPath cfg) with
  | Err _ => emitWarning cfg ReasonReloadConfigFailed w
  | Ok rendered =>
      let '(fs, r) := atomicWrite (re_write env) (rc_ConfigPath cfg) (bytes_of_string rendered)
                        (w_files w) in
      let w := {| w_files := fs; w_signalled := w_signalled w; w_warnings := w_warnings w;
                  w_healthy_at := w_healthy_at w |} in
      match r with
      | Err _ => emitWarning cfg ReasonReloadConfigFailed w
      | Ok _ =>
          let '(pid, r) := sighupPID (w_files w) (re_kill env) (rc_PIDFile cfg) in
          let w := {| w_files := w_files w;
                      w_signalled := w_signalled w ++ match pid with Some p => [p] | None => [] end;
                      w_warnings := w_warnings w; w_healthy_at := w_healthy_at w |} in
          match r with
          | Err _ => emitWarning cfg ReasonReloadSighupFailed w
          | Ok _ =>
              if bool_decide (rc_HealthcheckFile cfg = "") then w
              else match re_health env with
                   | Err _ => w
                   | Ok _ => {| w_files := <[rc_HealthcheckFile cfg := bytes_of_string (line "ok")]>
                                             (w_files w);
                                w_signalled := w_signalled w; w_warnings := w_warnings w;
                                w_healthy_at := Some (re_now env) |}
                   end
          end
      end
  end.

(** ** cmd/obrefresh: the liveness check *)
Definition wrap64 (z : Z) : Z := ((z + 2 ^ 63) mod 2 ^ 64 - 2 ^ 63)%Z.
(** [runHealthcheck] exits 0 when the file's age is within [2*interval]. *)
Definition runHealthcheck (interval : Z) (mtime : option Z) (now : Z) : bool :=
  match mtime with
  | None => false
  | Some m => negb (now - m >? wrap64 (2 * interval))%Z
  end.

(** * Lemmas *)

(** ** Insertion sort *)
Definition addr_le (a b : OnionAddress) : Prop :=
  String.le (OnionAddress_String a) (OnionAddress_String b).
#[global] Instance addr_le_dec a b : Decision (addr_le a b).
Proof. unfold addr_le. apply _. Defined.
#[global] Instance addr_le_trans : Transitive addr_le.
Proof. intros a b c. unfold addr_le. apply String.le_po. Qed.

Lemma addr_gt_le a b : str_gt (OnionAddress_String a) (OnionAddress_String b) = true → addr_le b a.
Proof.
  unfold str_gt. intros H. bools. unfold addr_le.
  destruct (String.le_total (OnionAddress_String a) (OnionAddress_String b)); [done | done].
Qed.
Lemma addr_not_gt a b : str_gt (OnionAddress_String a) (OnionAddress_String b) = false → addr_le a b.
Proof. unfold str_gt. intros H. by bools. Qed.

Lemma swap_at pre x y post :
  swap (length pre) (S (length pre)) (pre ++ x :: y :: post) = pre ++ y :: x :: post.
Proof.
  unfold swap, addr_at. rewrite !app_nth2 by lia. rewrite Nat.sub_diag.
  replace (S (length pre) - length pre) with 1 by lia. simpl.
  rewrite insert_app_r_alt by lia. replace (S (length pre) - length pre) with 1 by lia. simpl.
  rewrite insert_app_r_alt by lia. by rewrite Nat.sub_diag.
Qed.

(** The inner loop moves the element at [length pre] to its place among a sorted prefix. *)
Lemma sift_spec pre x post :
  StronglySorted addr_le pre →
  ∃ p1 p2, pre = p1 ++ p2 ∧ sift (length pre) (pre ++ x :: post) = p1 ++ x :: p2 ++ post ∧
    Forall (λ a, addr_le a x) p1 ∧ Forall (addr_le x) p2.
Proof.
  revert post. induction pre as [|y pre IH] using rev_ind; intros post Hs; simpl.
  { by exists [], []. }
  rewrite length_app, Nat.add_comm. cbn [length Nat.add sift].
  apply StronglySorted_app in Hs as (Hle & Hs & _).
  assert (addr_at ((pre ++ [y]) ++ x :: post) (length pre) = y) as Hy.
  { unfold addr_at. rewrite <- app_assoc, app_nth2, Nat.sub_diag by lia. done. }
  assert (addr_at ((pre ++ [y]) ++ x :: post) (S (length pre)) = x) as Hx.
  { unfold addr_at. rewrite app_nth2; rewrite length_app; simpl; [|lia].
    by replace (S (length pre) - (length pre + 1)) with 0 by lia. }
  rewrite Hx, Hy. destruct (str_gt _ _) eqn:Hgt.
  - rewrite <- app_assoc. simpl. rewrite swap_at.
    destruct (IH (y :: post) Hs) as (p1 & p2 & -> & -> & H1 & H2).
    exists p1, (p2 ++ [y]). rewrite <- !app_assoc. repeat (split; [done|]).
    apply Forall_app. split; [done|]. constructor; [by apply addr_gt_le | done].
  - exists (pre ++ [y]), []. rewrite app_nil_r. repeat (split; [done|]). split; [|done].
    apply addr_not_gt in Hgt. apply Forall_app. split; [|by constructor].
    apply Forall_forall. intros a Ha. transitivity y; [|done]. apply Hle; set_solver.
Qed.

Lemma StronglySorted_insert pre1 pre2 x :
  StronglySorted addr_le (pre1 ++ pre2) → Forall (λ a, addr_le a x) pre1 → Forall (addr_le x) pre2 →
  StronglySorted addr_le (pre1 ++ x :: pre2).
Proof.
  rewrite !StronglySorted_app. intros (H12 & H1 & H2) Hx1 Hx2.
  rewrite Forall_forall in Hx1, Hx2. split; [|split; [done|]].
  - intros a b Ha [->|Hb]%elem_of_cons; auto.
  - constructor; [done|]. by apply Forall_forall.
Qed.

Lemma sort_prefix n a :
  n < length a →
  ∃ pre post, foldl (λ a i, sift i a) a (seq 1 n) = pre ++ post ∧ length pre = S n ∧
    StronglySorted addr_le pre ∧ pre ++ post ≡ₚ a.
Proof.
  induction n as [|n IH]; intros Hn.
  - destruct a as [|x a]; simpl in *; [lia|]. exists [x], a. repeat (split; [done|]).
    split; [by repeat constructor | done].
  - destruct IH as (pre & post & Heq & Hlen & Hs & Hp); [lia|].
    rewrite seq_S, foldl_app, Heq. cbn [foldl]. rewrite Nat.add_comm, Nat.add_1_r.
    destruct post as [|x post].
    { apply Permutation_length in Hp. rewrite app_nil_r in Hp. lia. }
    rewrite <- Hlen. destruct (sift_spec pre x post Hs) as (p1 & p2 & -> & -> & H1 & H2).
    exists (p1 ++ x :: p2), post. rewrite <- app_assoc. simpl. split; [done|].
    rewrite !length_app in *. simpl. split; [lia|].
    split; [by apply StronglySorted_insert|].
    rewrite <- Hp, <- app_assoc. by rewrite <- (Permutation_middle p2 post x).
Qed.

Lemma sortAddrs_spec a : StronglySorted addr_le (sortAddrs a) ∧ sortAddrs a ≡ₚ a.
Proof.
  unfold sortAddrs. destruct a as [|x a]; [by split; [constructor|]|].
  destruct (sort_prefix (length a) (x :: a)) as (pre & post & Heq & Hlen & Hs & Hp); [simpl; lia|].
  simpl length. rewrite Nat.sub_succ, Nat.sub_0_r, Heq.
  assert (post = []) as ->.
  { apply Permutation_length in Hp. rewrite length_app in Hp. simpl in Hp.
    destruct post; [done | simpl in Hp; lia]. }
  rewrite app_nil_r in *. done.
Qed.

(** Sorted lists of well-formed addresses are determined by their elements. *)
Lemma sorted_unique l k :
  Forall onion_wf l → StronglySorted addr_le l → StronglySorted addr_le k → l ≡ₚ k → l = k.
Proof.
  intros Hwf Hl. revert k. induction Hl as [|x l Hl IH Hx]; intros k Hk Hp.
  { by apply Permutation_nil_l in Hp. }
  inversion_clear Hwf as [|?? Hwx Hwl]. destruct Hk as [|y k Hk Hy].
  { by apply Permutation_nil_r in Hp. }
  assert (x = y) as ->.
  { assert (Forall onion_wf (y :: k)) as Hwy by (rewrite <- Hp; by constructor).
    inversion_clear Hwy. apply OnionAddress_String_inj; [done..|].
    rewrite Forall_forall in Hx, Hy.
    assert (x ∈ y :: k) as [->|Hxk]%elem_of_cons by (rewrite <- Hp; set_solver); [done|].
    assert (y ∈ x :: l) as [->|Hyl]%elem_of_cons by (rewrite Hp; set_solver); [done|].
    eapply (anti_symm String.le); [by apply Hx | by apply Hy]. }
  f_equal. apply IH; [done..|]. by apply Permutation_cons_inv in Hp.
Qed.

Section backend_lemmas.
Context {U : UnicodeCase}.

(** What makes a Secret a backend's: the label, an owner that is the controller and has the
    Gateway's UID, and a hostname that parses once blanks are dropped. *)
Definition trusted_backend (uid : string) (o : stored) (a : OnionAddress) : Prop :=
  ∃ s owner raw, o = SecretObj s ∧
    default "" (Labels (sec_meta s) !! LabelOwnerUID) = uid ∧
    owner ∈ OwnerReferences (sec_meta s) ∧ or_UID owner = uid ∧ or_Controller owner = Some true ∧
    sec_Data s !! HostnameField = Some raw ∧ raw ≠ [] ∧ ParseAddress (stringNoSpace raw) = Ok a.

Lemma backend_of_Some uid o a : backend_of uid o = Some a ↔ trusted_backend uid o a.
Proof.
  unfold trusted_backend. split.
  - destruct o as [s|]; simpl; [|done].
    destruct (bool_decide (default "" _ = uid)) eqn:Hl; [|done]. cbn [negb].
    destruct (owned_by uid s) eqn:Ho; [|done]. cbn [negb].
    destruct (sec_Data s !! _) as [raw|] eqn:Hr; [|done].
    destruct (bool_decide (length raw = 0)) eqn:Hz; [done|].
    destruct (ParseAddress _) as [a'|] eqn:Hp; [|done].
    intros [= ->]. apply existsb_Exists in Ho as (ow & Ho & Ho'). bools.
    exists s, ow, raw. repeat (split; [done|]). split; [by intros -> | done].
  - intros (s & ow & raw & -> & Hl & Ho & Huid & Hc & Hr & Hne & Hp). simpl.
    rewrite bool_decide_true by done. cbn [negb].
    replace (owned_by uid s) with true; [cbn [negb]|].
    + rewrite Hr, bool_decide_false, Hp; [done|]. by destruct raw.
    + symmetry. apply existsb_Exists. exists ow. split; [done|].
      rewrite !bool_decide_true; done.
Qed.

(** C26.  The backends put in the configuration are exactly those of the Secrets that carry the
    Gateway's UID both as a label and as their controller owner reference, so a Secret a
    tenant planted is never used; they are sorted, and the order in which the informer's
    store lists the Secrets does not matter, so the same Secrets give the same file. *)
Theorem backends_from_secrets_spec (objs : list stored) (uid : string) :
  (∀ a, a ∈ backendsFromSecrets objs uid ↔ ∃ o, o ∈ objs ∧ trusted_backend uid o a) ∧
  Sorted addr_le (backendsFromSecrets objs uid) ∧
  (∀ objs', objs ≡ₚ objs' → backendsFromSecrets objs' uid = backendsFromSecrets objs uid).
Proof.
  unfold backendsFromSecrets. pose proof (sortAddrs_spec (omap (backend_of uid) objs)) as [Hs Hp].
  split; [|split].
  - intros a. rewrite Hp, list_elem_of_omap. by setoid_rewrite backend_of_Some.
  - by apply StronglySorted_Sorted.
  - intros objs' Hobjs.
    pose proof (sortAddrs_spec (omap (backend_of uid) objs')) as [Hs' Hp'].
    apply sorted_unique; [|done..|by rewrite Hp, Hp', Hobjs].
    rewrite Hp'. apply Forall_forall. intros a (o & _ & Ho)%list_elem_of_omap.
    apply backend_of_Some in Ho as (?&?&?&_&_&_&_&_&_&_&Ha). by apply ParseAddress_wf in Ha.
Qed.
End backend_lemmas.

(** ** Reading config.yaml back, line by line *)
Definition key_line (l : string) : option string :=
  if HasPrefix l "- key: " then Some (TrimPrefix l "- key: ") else None.
Definition address_line (l : string) : option string :=
  if HasPrefix l "  - address: " then Some (TrimPrefix l "  - address: ") else None.
Definition config_keys (text : string) : list string := omap key_line (split_on "010" text).
Definition config_addresses (text : string) : list string := omap address_line (split_on "010" text).

Lemma config_keys_line s t :
  no_nl s = true → config_keys (line s +:+ t) = option_list (key_line s) ++ config_keys t.
Proof. intros H. unfold config_keys. rewrite split_on_line by done. simpl. by destruct (key_line s). Qed.
Lemma config_addresses_line s t :
  no_nl s = true → config_addresses (line s +:+ t) = option_list (address_line s) ++ config_addresses t.
Proof.
  intros H. unfold config_addresses. rewrite split_on_line by done. simpl.
  by destruct (address_line s).
Qed.
Lemma key_line_app s : key_line ("- key: " +:+ s) = Some s.
Proof. unfold key_line. rewrite (proj2 (HasPrefix_true _ _)) by (by eexists). by rewrite TrimPrefix_app. Qed.
Lemma address_line_app s : address_line ("  - address: " +:+ s) = Some s.
Proof.
  unfold address_line. rewrite (proj2 (HasPrefix_true _ _)) by (by eexists). by rewrite TrimPrefix_app.
Qed.
Lemma no_nl_onion a : no_nl (OnionAddress_String a) = true.
Proof.
  generalize (onion_string_chars a). apply str_forallb_impl, ascii_impl. vm_compute. reflexivity.
Qed.

Lemma render_instances_read i backends t :
  config_keys (render_instances i backends +:+ t) = config_keys t ∧
  config_addresses (render_instances i backends +:+ t) =
    map OnionAddress_String backends ++ config_addresses t.
Proof.
  revert i. induction backends as [|a backends IH]; intros i; [done|].
  cbn [render_instances]. rewrite <- !str_app_assoc.
  assert (no_nl ("  - address: " +:+ OnionAddress_String a) = true) as H1
    by (rewrite no_nl_app, no_nl_onion; done).
  assert (no_nl ("    name: backend-" +:+ Itoa (Z.of_nat i)) = true) as H2
    by (rewrite no_nl_app, no_nl_Itoa; done).
  rewrite !config_keys_line, !config_addresses_line by done.
  rewrite address_line_app. destruct (IH (S i)) as [-> ->]. split; done.
Qed.

(** C33.  The rendered config.yaml says what it was rendered from: rendering fails exactly for
    an empty key path, and otherwise, read line by line, the file has one key entry, the given
    path, and one instance per backend, in order, with the backend's address. *)
Theorem config_reads_back master backends keyPath
    (Hkey : no_nl keyPath = true) :
  match Render master backends keyPath with
  | Ok text => keyPath ≠ "" ∧ config_keys text = [keyPath] ∧
               config_addresses text = map OnionAddress_String backends
  | Err _ => keyPath = ""
  end.
Proof.
  unfold Render. destruct (bool_decide (keyPath = "")) eqn:Hb; bools; [done|]. cbn [negb].
  assert (no_nl ("- key: " +:+ keyPath) = true) as Hk by (rewrite no_nl_app, Hkey; done).
  assert (no_nl ("# master: " +:+ OnionAddress_String master) = true) as Hm
    by (rewrite no_nl_app, no_nl_onion; done).
  destruct backends as [|a backends].
  - split; [done|]. rewrite <- !str_app_assoc. rewrite <- (str_app_nil_r (line "  instances: []")).
    rewrite !config_keys_line, !config_addresses_line by done. by rewrite key_line_app.
  - split; [done|]. rewrite <- !str_app_assoc.
    rewrite <- (str_app_nil_r (line ("# master: " +:+ _))).
    rewrite !config_keys_line, !config_addresses_line by done.
    destruct (render_instances_read 0 (a :: backends)
      (line ("# master: " +:+ OnionAddress_String master) +:+ "")) as [-> ->].
    rewrite config_keys_line, config_addresses_line by done.
    rewrite key_line_app. split; [done|]. simpl. by rewrite app_nil_r.
Qed.

(** ** One rebuild *)
Lemma atomicWrite_spec env path data fs :
  match atomicWrite env path data fs with
  | (fs', Ok _) => fs' !! path = Some data ∧ is_ok (rename_tmp env) = true
  | (fs', Err _) =>
      ∀ p, Ok p ≠ create_temp env → fs' !! p = fs !! p
  end.
Proof.
  unfold atomicWrite. destruct (create_temp env) as [tmp|]; [|done].
  destruct (write_tmp env) as [|[n e]]; [destruct (close_tmp env); [destruct (rename_tmp env)|]|].
  - by rewrite lookup_insert_eq.
  - intros p Hp. rewrite lookup_insert_ne; congruence.
  - intros p Hp. rewrite lookup_delete_ne, lookup_insert_ne; congruence.
  - intros p Hp. rewrite lookup_delete_ne, lookup_insert_ne; congruence.
Qed.

(** A rebuild is all or nothing for its readers: config.yaml is afterwards either exactly
    what it was or the complete rendering of the trusted backends, the daemon is signalled
    only when the new file is in place, and the healthcheck time advances only when file and
    signal both succeeded. *)
Theorem rebuild_all_or_nothing `{U : UnicodeCase} cfg env objs w
    (Htmp : create_temp (re_write env) ≠ Ok (rc_ConfigPath cfg))
    (Hhealth : rc_HealthcheckFile cfg ≠ rc_ConfigPath cfg) :
  let w' := rebuild cfg env objs w in
  let wrote := ∃ text,
    Render (rc_Master cfg) (backendsFromSecrets objs (rc_OwnerUID cfg)) (rc_MasterKeyPath cfg) = Ok text ∧
    w_files w' !! rc_ConfigPath cfg = Some (bytes_of_string text) in
  (w_files w' !! rc_ConfigPath cfg = w_files w !! rc_ConfigPath cfg ∧
   w_signalled w' = w_signalled w ∧ w_healthy_at w' = w_healthy_at w) ∨
  (wrote ∧ ∃ pids, w_signalled w' = w_signalled w ++ pids ∧ length pids ≤ 1 ∧
     (w_healthy_at w' = w_healthy_at w ∨
      w_healthy_at w' = Some (re_now env) ∧
      ∃ pid, pids = [pid] ∧ re_kill env pid = Ok ())).
Proof.
  assert (∀ r w0, w_files (emitWarning cfg r w0) = w_files w0 ∧
    w_signalled (emitWarning cfg r w0) = w_signalled w0 ∧
    w_healthy_at (emitWarning cfg r w0) = w_healthy_at w0) as Hwarn.
  { intros r w0. unfold emitWarning. by destruct (rc_Recorder cfg). }
  unfold rebuild. destruct (Render _ _ _) as [text|]; cbn zeta.
  2:{ left. by destruct (Hwarn ReasonReloadConfigFailed w) as (-> & -> & ->). }
  pose proof (atomicWrite_spec (re_write env) (rc_ConfigPath cfg) (bytes_of_string text) (w_files w)) as Hw.
  destruct (atomicWrite _ _ _ _) as [fs [[]|e]].
  2:{ left. destruct (Hwarn ReasonReloadConfigFailed {| w_files := fs; w_signalled := w_signalled w;
        w_warnings := w_warnings w; w_healthy_at := w_healthy_at w |}) as (-> & -> & ->).
      split; [apply Hw; congruence | done]. }
  destruct Hw as [Hfs _]. cbn [w_files w_signalled w_warnings w_healthy_at]. right.
  destruct (sighupPID fs (re_kill env) (rc_PIDFile cfg)) as [pid r] eqn:Hs.
  assert (length (match pid with Some p => [p] | None => [] end) ≤ 1) as Hlen
    by (destruct pid; simpl; lia).
  destruct r as [[]|e].
  - assert (∃ p, pid = Some p ∧ re_kill env p = Ok ()) as (p & -> & Hkill).
    { unfold sighupPID in Hs. destruct (fs !! rc_PIDFile cfg) as [raw|]; [|done].
      destruct (Atoi (stringNoSpace raw)) as [p|]; [|done].
      injection Hs as <- Hk. exists p. split; [done|]. by destruct (re_kill env p) as [[]|]. }
    case_bool_decide; [split; [by exists text|]; exists [p]; auto|].
    destruct (re_health env) as [[]|]; cbn [w_files w_signalled w_healthy_at].
    + split; [exists text; by rewrite lookup_insert_ne|]. exists [p].
      split; [done|]. split; [done|]. right. split; [done|]. by exists p.
    + split; [by exists text|]. exists [p]. auto.
  - match goal with |- context [emitWarning cfg ?r ?w0] =>
      destruct (Hwarn r w0) as (-> & -> & ->) end.
    split; [by exists text|]. eauto.
Qed.

(** ** A concrete refresher *)
Definition zero_address : OnionAddress := {| pubKey := zero_key |}.
Definition backend_secret (uid : string) (controller : bool) : Secret := {|
  sec_meta := with_OwnerReferences
    [{| or_Kind := "Gateway"; or_Name := "gw"; or_UID := uid; or_Controller := Some controller |}]
    (new_meta "gw-backend-0-keys" "ns" {[ LabelOwnerUID := "uid-1" ]});
  sec_Type := "Opaque";
  sec_Data := {[ HostnameField := bytes_of_string (OnionAddress_String zero_address +:+ nl) ]} |}.
Definition example_cfg : RefresherConfig := {|
  rc_GatewayName := "gw"; rc_GatewayNamespace := "ns"; rc_MasterKeyPath := "/keys/secret";
  rc_ConfigPath := "/config.yaml"; rc_PIDFile := "/pid"; rc_Interval := 30 * second;
  rc_Master := zero_address; rc_OwnerUID := "uid-1"; rc_Client := Some ();
  rc_HealthcheckFile := "/last-success"; rc_Recorder := true |}.
Definition example_rebuild_env : RebuildEnv := {|
  re_write := {| create_temp := Ok "/.obrefresh-1"; write_tmp := Ok (); close_tmp := Ok ();
                 rename_tmp := Ok () |};
  re_kill := λ _, Ok (); re_health := Ok (); re_now := 7 |}.
Definition example_world : World := {|
  w_files := {[ "/pid" := bytes_of_string (line "42") ]}; w_signalled := []; w_warnings := [];
  w_healthy_at := None |}.

Lemma config_reads_back_witness :
  no_nl "/keys/secret" = true ∧
  ∃ text, Render zero_address [zero_address] "/keys/secret" = Ok text ∧
          config_addresses text = [OnionAddress_String zero_address].
Proof.
  pose proof (config_reads_back zero_address [zero_address] "/keys/secret" eq_refl) as H.
  split; [reflexivity|].
  destruct (Render zero_address [zero_address] "/keys/secret") as [text|]; [|discriminate H].
  exists text. split; [reflexivity | exact (proj2 (proj2 H))].
Defined.
Lemma rebuild_all_or_nothing_witness :
  let w' := @rebuild unicode_id example_cfg example_rebuild_env
              [SecretObj (backend_secret "uid-1" true); SecretObj (backend_secret "uid-2" true);
               SecretObj (backend_secret "uid-1" false)] example_world in
  (w_signalled w', w_healthy_at w', w_warnings w') = ([42%Z], Some 7%Z, []) ∧
  ∃ text, w_files w' !! "/config.yaml" = Some (bytes_of_string text) ∧
    config_addresses text = [OnionAddress_String zero_address].
Proof.
  set (objs := [SecretObj _; SecretObj _; SecretObj _]).
  assert (Hs : w_signalled (@rebuild unicode_id example_cfg example_rebuild_env objs example_world) = [42%Z])
    by (vm_compute; reflexivity).
  assert (Hr : ∃ text, Render zero_address (@backendsFromSecrets unicode_id objs "uid-1") "/keys/secret" =
            Ok text ∧ config_addresses text = [OnionAddress_String zero_address]).
  { eexists. split; vm_compute; reflexivity. }
  destruct (@rebuild_all_or_nothing unicode_id example_cfg example_rebuild_env objs example_world)
    as [(_ & Hc & _)|((text & Ht & Hf) & _)].
  - discriminate.
  - discriminate.
  - rewrite Hs in Hc. discriminate Hc.
  - split; [vm_compute; reflexivity|]. destruct Hr as (text' & Hr & Ha).
    exists text. split; [exact Hf|]. cbn [rc_Master rc_OwnerUID rc_MasterKeyPath example_cfg] in Ht.
    rewrite Hr in Ht. injection Ht as <-. exact Ha.
Defined.
