(* ===== verification/Refresher.v ===== *)
(** * Scheduling rebuilds (internal/onionbalance/refresher.go)

    [schedule], [fire] and [Run] under the mutex, as a step relation.  A step is one critical
    section or one call outside it, so the relation has every interleaving of informer
    callbacks, timer goroutines and the initial rebuild.  Time passes by ticks. *)

From Stdlib Require Import ZArith.
From stdpp Require Import relations.
From S2P Require Import Prelude GoStrings GoNet GoOS Onion KubeTypes Onionbalance.

(** A rebuild in progress: a [fire] after its critical section, or [Run]'s own. *)
Inductive phase := Start | Listed (objs : list stored) | Done.
Record job := { j_pending : bool; j_phase : phase }.

Record state := {
  st_objs : list stored;      (* the informer's store *)
  st_store : bool;            (* r.store is set *)
  st_timer : bool;            (* r.timer != nil *)
  st_pending : bool;          (* r.pending *)
  st_jobs : list job;
  st_world : World;
  st_failed : bool;           (* the last rebuild could not write the file *)
  st_now : Z;
}.
Definition init (objs : list stored) (w : World) (now : Z) : state := {|
  st_objs := objs; st_store := false; st_timer := false; st_pending := false; st_jobs := [];
  st_world := w; st_failed := false; st_now := now |}.

Definition with_timer (timer pending : bool) (s : state) : state := {|
  st_objs := st_objs s; st_store := st_store s; st_timer := timer; st_pending := pending;
  st_jobs := st_jobs s; st_world := st_world s; st_failed := st_failed s; st_now := st_now s |}.
Definition with_jobs (jobs : list job) (s : state) : state := {|
  st_objs := st_objs s; st_store := st_store s; st_timer := st_timer s;
  st_pending := st_pending s; st_jobs := jobs; st_world := st_world s;
  st_failed := st_failed s; st_now := st_now s |}.

(** [schedule]: arm the timer, or note that one is armed already. *)
Definition schedule (s : state) : state :=
  if st_timer s then with_timer true true s else with_timer true (st_pending s) s.
(** The critical section of [fire], and what is left for the goroutine to do: without a
    store there is no rebuild. *)
Definition fire (s : state) : state :=
  with_jobs (st_jobs s ++ [{| j_pending := st_pending s;
                              j_phase := if st_store s then Start else Done |}])
    (with_timer false false s).
(** An informer event: the store has changed before the handler runs. *)
Definition event (objs : list stored) (s : state) : state :=
  schedule {| st_objs := objs; st_store := st_store s; st_timer := st_timer s;
              st_pending := st_pending s; st_jobs := st_jobs s; st_world := st_world s;
              st_failed := st_failed s; st_now := st_now s |}.
(** [Run] after the cache has synced: publish the store, then rebuild. *)
Definition run_synced (s : state) : state := {|
  st_objs := st_objs s; st_store := true; st_timer := st_timer s; st_pending := st_pending s;
  st_jobs := st_jobs s ++ [{| j_pending := false; j_phase := Start |}];
  st_world := st_world s; st_failed := st_failed s; st_now := st_now s |}.

Section refresher.
Context {U : UnicodeCase} (cfg : RefresherConfig).

(** Whether [rebuild] in this environment replaces the file. *)
Definition write_ok (env : RebuildEnv) (objs : list stored) (w : World) : bool :=
  match Render (rc_Master cfg) (backendsFromSecrets objs (rc_OwnerUID cfg)) (rc_MasterKeyPath cfg) with
  | Ok text => is_ok (atomicWrite (re_write env) (rc_ConfigPath cfg) (bytes_of_string text)
                        (w_files w)).2
  | Err _ => false
  end.
(** The second half of a goroutine: [rebuild] from the list it took. *)
Definition run_rebuild (env : RebuildEnv) (objs : list stored) (jobs : list job) (s : state) : state := {|
  st_objs := st_objs s; st_store := st_store s; st_timer := st_timer s;
  st_pending := st_pending s; st_jobs := jobs; st_world := rebuild cfg env objs (st_world s);
  st_failed := negb (write_ok env objs (st_world s)); st_now := st_now s |}.
(** The end of [fire]. *)
Definition finish (pending : bool) (jobs : list job) (s : state) : state :=
  if pending then schedule (with_jobs jobs s) else with_jobs jobs s.
Definition tick (d : Z) (s : state) : state := {|
  st_objs := st_objs s; st_store := st_store s; st_timer := st_timer s;
  st_pending := st_pending s; st_jobs := st_jobs s; st_world := st_world s;
  st_failed := st_failed s; st_now := (st_now s + d)%Z |}.

(** Steps of the refresher itself; in [serial] mode a timer does not go off while a rebuild
    is still running, as when rebuilds are shorter than the interval. *)
Inductive internal (serial : bool) : state → state → Prop :=
| step_run s : st_store s = false → internal serial s (run_synced s)
| step_fire s :
    st_timer s = true → (serial = true → st_jobs s = []) → internal serial s (fire s)
| step_list s l1 p l2 :
    st_jobs s = l1 ++ {| j_pending := p; j_phase := Start |} :: l2 →
    internal serial s (with_jobs (l1 ++ {| j_pending := p; j_phase := Listed (st_objs s) |} :: l2) s)
| step_rebuild s l1 p objs l2 env :
    st_jobs s = l1 ++ {| j_pending := p; j_phase := Listed objs |} :: l2 →
    create_temp (re_write env) ≠ Ok (rc_ConfigPath cfg) → re_now env = st_now s →
    internal serial s (run_rebuild env objs (l1 ++ {| j_pending := p; j_phase := Done |} :: l2) s)
| step_finish s l1 p l2 :
    st_jobs s = l1 ++ {| j_pending := p; j_phase := Done |} :: l2 →
    internal serial s (finish p (l1 ++ l2) s).
Inductive step (serial : bool) : state → state → Prop :=
| step_internal s s' : internal serial s s' → step serial s s'
| step_event s objs : step serial s (event objs s)
| step_tick s d : (0 ≤ d)%Z → step serial s (tick d s).

Definition quiescent (s : state) : Prop :=
  st_store s = true ∧ st_timer s = false ∧ st_jobs s = [].
(** The file is the rendering of what the store holds. *)
Definition config_current (s : state) : Prop := ∃ text,
  Render (rc_Master cfg) (backendsFromSecrets (st_objs s) (rc_OwnerUID cfg)) (rc_MasterKeyPath cfg) =
    Ok text ∧
  w_files (st_world s) !! rc_ConfigPath cfg = Some (bytes_of_string text).

(** * No update is lost *)
Definition active (j : job) : bool := match j_phase j with Done => false | _ => true end.

(** What the file holds once the rebuilds under way are done is current, unless the timer is
    armed or the write failed. *)
Definition covered (s : state) : Prop :=
  match filter (λ j, active j = true) (st_jobs s) with
  | [] => config_current s ∨ st_failed s = true
  | [j] => j_phase j = Start ∨ j_phase j = Listed (st_objs s)
  | _ => False
  end.
Definition coherent (s : state) : Prop :=
  length (filter (λ j, active j = true) (st_jobs s)) ≤ 1 ∧
  (st_store s = false → filter (λ j, active j = true) (st_jobs s) = []) ∧
  (st_store s = true → st_timer s = true ∨ covered s).

Lemma schedule_timer s : st_timer (schedule s) = true.
Proof. unfold schedule. by destruct (st_timer s). Qed.
Lemma schedule_frame s :
  st_objs (schedule s) = st_objs s ∧ st_store (schedule s) = st_store s ∧
  st_jobs (schedule s) = st_jobs s ∧ st_world (schedule s) = st_world s ∧
  st_failed (schedule s) = st_failed s.
Proof. unfold schedule. by destruct (st_timer s). Qed.

Lemma filter_active_app l1 j l2 :
  filter (λ j, active j = true) (l1 ++ j :: l2) =
  filter (λ j, active j = true) l1 ++ (if active j then [j] else []) ++ filter (λ j, active j = true) l2.
Proof.
  rewrite filter_app, filter_cons. destruct (active j); [rewrite decide_True|rewrite decide_False]; done.
Qed.
(** With one active job at most, an active job in the list is the only one. *)
Lemma only_active l1 j l2 :
  active j = true → length (filter (λ j, active j = true) (l1 ++ j :: l2)) ≤ 1 →
  filter (λ j, active j = true) l1 = [] ∧ filter (λ j, active j = true) l2 = [].
Proof.
  intros Hj. rewrite filter_active_app, Hj, !length_app. simpl. intros Hlen.
  split; apply nil_length_inv; lia.
Qed.

Lemma rebuild_current env objs w :
  rc_HealthcheckFile cfg ≠ rc_ConfigPath cfg → write_ok env objs w = true →
  ∃ text, Render (rc_Master cfg) (backendsFromSecrets objs (rc_OwnerUID cfg)) (rc_MasterKeyPath cfg) =
      Ok text ∧
    w_files (rebuild cfg env objs w) !! rc_ConfigPath cfg = Some (bytes_of_string text).
Proof.
  intros Hh. unfold write_ok, rebuild. destruct (Render _ _ _) as [text|] eqn:Hr; [|done].
  pose proof (atomicWrite_spec (re_write env) (rc_ConfigPath cfg) (bytes_of_string text) (w_files w)) as Hw.
  destruct (atomicWrite _ _ _ _) as [fs [[]|e]]; [|done]. intros _. destruct Hw as [Hfs _].
  exists text. split; [done|]. cbn [w_files w_signalled w_warnings w_healthy_at].
  destruct (sighupPID _ _ _) as [pid [[]|]].
  - case_bool_decide; [done|]. destruct (re_health env); [|done]. cbn [w_files].
    by rewrite lookup_insert_ne.
  - unfold emitWarning. by destruct (rc_Recorder cfg).
Qed.
Hypothesis health_file : rc_HealthcheckFile cfg ≠ rc_ConfigPath cfg.

Lemma coherent_internal s s' : coherent s → internal true s s' → coherent s'.
Proof.
  intros (Hone & Hoff & Hcov) Hstep. inversion Hstep; subst; clear Hstep.
  - (* run *) unfold coherent, covered, run_synced. cbn [st_jobs st_store st_timer].
    rewrite filter_active_app, Hoff by done. simpl. split; [lia|]. split; [done|]. auto.
  - (* fire *) rewrite H0 in * by done. unfold coherent, covered, fire. cbn [with_jobs with_timer
      st_jobs st_store st_timer]. rewrite H0 by done. simpl.
    destruct (st_store s); simpl; (split; [lia|]); (split; [done|]); auto.
  - (* list *) rewrite H in *. apply only_active in Hone as [H1 H2]; [|done].
    unfold coherent, covered in *. cbn [with_jobs st_jobs st_store st_timer] in *.
    rewrite H in *. rewrite filter_active_app, H1, H2 in *. simpl in *.
    split; [lia|]. split; [intros Hs; by specialize (Hoff Hs)|]. auto.
  - (* rebuild *) rewrite H in *. apply only_active in Hone as [H3 H4]; [|done].
    unfold coherent, covered in *. cbn [run_rebuild st_jobs st_store st_timer st_failed] in *.
    rewrite H in *. rewrite filter_active_app, H3, H4 in *. simpl in *.
    split; [lia|]. split; [done|]. intros Hs. destruct (Hcov Hs) as [?|[?|Heq]]; [auto|done|].
    right. destruct (write_ok env objs (st_world s)) eqn:Hw; [left | by right].
    injection Heq as ->. by apply rebuild_current in Hw.
  - (* finish *) rewrite H in *. rewrite filter_active_app in *. simpl in *.
    assert (coherent (with_jobs (l1 ++ l2) s)) as Hc.
    { unfold coherent, covered in *. cbn [with_jobs st_jobs st_store st_timer] in *.
      rewrite H in *. rewrite filter_active_app in *. simpl in *. rewrite filter_app. auto. }
    unfold finish. destruct p; [|done]. destruct Hc as (Hc1 & Hc2 & Hc3).
    destruct (schedule_frame (with_jobs (l1 ++ l2) s)) as (? & Hst & Hj & _).
    unfold coherent. rewrite Hst, Hj, schedule_timer. auto.
Qed.
Lemma coherent_step s s' : coherent s → step true s s' → coherent s'.
Proof.
  intros Hc Hstep. inversion Hstep; subst; clear Hstep.
  - by eapply coherent_internal.
  - destruct Hc as (H1 & H2 & _). unfold event.
    match goal with |- context [schedule ?t] => destruct (schedule_frame t) as (? & Hst & Hj & _);
      pose proof (schedule_timer t) end.
    unfold coherent. rewrite Hst, Hj. auto.
  - done.
Qed.

(** ** Rebuilding comes to an end *)
Definition weight (j : job) : nat :=
  match j_phase j with Start => 3 | Listed _ => 2 | Done => 1 end + (if j_pending j then 4 else 0).
Definition phase_weight (p : phase) : nat :=
  match p with Start => 3 | Listed _ => 2 | Done => 1 end.
Lemma weight_eq p ph :
  weight {| j_pending := p; j_phase := ph |} = phase_weight ph + (if p then 4 else 0).
Proof. done. Qed.
Definition measure (s : state) : nat :=
  (if st_store s then 0 else 4) + (if st_timer s then 4 else 0) + (if st_pending s then 4 else 0) +
  sum_list_with weight (st_jobs s).

Lemma measure_schedule s : measure (schedule s) ≤ measure s + 4.
Proof. unfold schedule, measure. destruct (st_timer s) eqn:Ht; simpl; destruct (st_pending s); lia. Qed.
Lemma measure_decreases serial s s' : internal serial s s' → measure s' < measure s.
Proof.
  inversion 1; subst.
  - unfold measure, run_synced. simpl. rewrite H0, sum_list_with_app. simpl.
    destruct (st_timer s), (st_pending s); lia.
  - unfold measure, fire. simpl. rewrite H0, sum_list_with_app. cbn [sum_list_with].
    rewrite weight_eq. destruct (st_pending s), (st_store s); simpl; lia.
  - unfold measure. simpl. rewrite H0, !sum_list_with_app. cbn [sum_list_with].
    rewrite !weight_eq. simpl. lia.
  - unfold measure. simpl. rewrite H0, !sum_list_with_app. cbn [sum_list_with].
    rewrite !weight_eq. simpl. lia.
  - unfold finish. assert (measure (with_jobs (l1 ++ l2) s) + 1 + (if p then 4 else 0) = measure s) as Hm.
    { unfold measure. simpl. rewrite H0, !sum_list_with_app. cbn [sum_list_with].
      rewrite weight_eq. simpl. lia. }
    destruct p; [|lia]. pose proof (measure_schedule (with_jobs (l1 ++ l2) s)). lia.
Qed.
Lemma measure_bound serial n s s' : nsteps (internal serial) n s s' → n ≤ measure s.
Proof. induction 1 as [|n s1 s2 s3 H _ IH]; [lia|]. apply measure_decreases in H. lia. Qed.

Lemma progress s : ¬ quiescent s → ∃ s', internal true s s'.
Proof.
  intros Hq. destruct (st_store s) eqn:Hs; [|eexists; by apply step_run].
  destruct (st_jobs s) as [|[p []] l] eqn:Hj.
  - destruct (st_timer s) eqn:Ht; [eexists; by apply step_fire|]. by destruct Hq.
  - eexists. by eapply (step_list true s [] p).
  - eexists. eapply (step_rebuild true s [] p _ l {|
      re_write := {| create_temp := Err ENOENT; write_tmp := Ok (); close_tmp := Ok ();
                     rename_tmp := Ok () |};
      re_kill := λ _, Ok (); re_health := Ok (); re_now := st_now s |}); [exact Hj | done | done].
  - eexists. by eapply (step_finish true s [] p).
Qed.

(** C27.  No change of the backends is lost, and rebuilding settles.  As long as a timer does not
    go off during a rebuild, in every reachable state with nothing left to do the
    configuration file is the rendering of the Secrets the store then holds, unless the last
    rebuild could not write it; without further events only boundedly many steps are left to
    do; and where nothing can be done the refresher is idle, with no timer armed and no
    rebuild under way. *)
Theorem refresher_settles objs w now s
    (Hreach : rtc (step true) (init objs w now) s) :
  (quiescent s → config_current s ∨ st_failed s = true) ∧
  (∀ n s', nsteps (internal true) n s s' → n ≤ measure s) ∧
  ((¬ ∃ s', internal true s s') → quiescent s).
Proof.
  assert (coherent s) as Hc.
  { assert (coherent (init objs w now)) as Hi by (split; simpl; [lia | split; done]).
    induction Hreach as [|? ? ? Hstep _ IH]; [done|]. apply IH. by eapply coherent_step. }
  split; [|split].
  - intros (Hs & Ht & Hj). destruct Hc as (_ & _ & Hc). destruct (Hc Hs) as [?|Hcov]; [congruence|].
    unfold covered in Hcov. by rewrite Hj in Hcov.
  - intros n s'. apply measure_bound.
  - intros Hno. destruct (decide (st_store s = true ∧ st_timer s = false ∧ length (st_jobs s) = 0))
      as [(? & ? & Hl)|Hq].
    + split; [done|]. split; [done|]. by apply nil_length_inv.
    + exfalso. apply Hno, progress. intros (? & ? & Hj). apply Hq. by rewrite Hj.
Qed.

(** ** A quiet refresher fails its liveness check

    An idle refresher takes no step without an informer event, so the healthcheck file is not
    written again and the check fails once two intervals have passed. *)
Lemma quiet_refresher_unhealthy s m d :
  quiescent s → w_healthy_at (st_world s) = Some m →
  (0 < rc_Interval cfg < 2 ^ 61)%Z → (m + 2 * rc_Interval cfg < st_now (tick d s))%Z →
  (∀ serial, ¬ ∃ s', internal serial s s') ∧ quiescent (tick d s) ∧
  runHealthcheck (rc_Interval cfg) (w_healthy_at (st_world (tick d s))) (st_now (tick d s)) = false.
Proof.
  intros (Hs & Ht & Hj) Hm Hi Hd. split; [|split; [done|]].
  - intros serial [s' Hstep]. inversion Hstep; try congruence;
      match goal with H : st_jobs s = ?l ++ _ :: _ |- _ => rewrite Hj in H; by destruct l end.
  - cbn [tick st_world st_now] in *. rewrite Hm. unfold runHealthcheck, wrap64.
    rewrite Z.mod_small by lia. apply negb_false_iff. rewrite Z.gtb_lt. lia.
Qed.
End refresher.

(** ** Concrete runs *)
Definition slow_env (now : Z) (tmp : string) : RebuildEnv := {|
  re_write := {| create_temp := Ok tmp; write_tmp := Ok (); close_tmp := Ok (); rename_tmp := Ok () |};
  re_kill := λ _, Ok (); re_health := Ok (); re_now := now |}.
Definition one_backend : list stored := [SecretObj (backend_secret "uid-1" true)].

(** The initial rebuild, then an event whose timer fires and rebuilds. *)
Definition settled : state :=
  let s1 := run_synced (init [] example_world 0) in
  let s2 := with_jobs [{| j_pending := false; j_phase := Listed [] |}] s1 in
  let s3 := @run_rebuild unicode_id example_cfg (slow_env 0 "/.a") [] [{| j_pending := false; j_phase := Done |}] s2 in
  let s4 := finish false [] s3 in
  let s5 := fire (event one_backend s4) in
  let s6 := with_jobs [{| j_pending := false; j_phase := Listed one_backend |}] s5 in
  finish false [] (@run_rebuild unicode_id example_cfg (slow_env 0 "/.b") one_backend
                     [{| j_pending := false; j_phase := Done |}] s6).
Lemma settled_reachable serial :
  rtc (@step unicode_id example_cfg serial) (init [] example_world 0) settled.
Proof.
  eapply rtc_l; [apply step_internal, step_run; reflexivity|].
  eapply rtc_l; [apply step_internal, (step_list _ _ _ [] false []); reflexivity|].
  eapply rtc_l; [apply step_internal, (step_rebuild _ _ _ [] false [] [] (slow_env 0 "/.a"));
                 [reflexivity | discriminate | reflexivity]|].
  eapply rtc_l; [apply step_internal, (step_finish _ _ _ [] false []); reflexivity|].
  eapply rtc_l; [apply (step_event _ _ _ one_backend)|].
  eapply rtc_l; [apply step_internal, step_fire; [reflexivity | intros _; reflexivity]|].
  eapply rtc_l; [apply step_internal, (step_list _ _ _ [] false []); reflexivity|].
  eapply rtc_l; [apply step_internal, (step_rebuild _ _ _ [] false one_backend [] (slow_env 0 "/.b"));
                 [reflexivity | discriminate | reflexivity]|].
  eapply rtc_l; [apply step_internal, (step_finish _ _ _ [] false []); reflexivity|].
  apply rtc_refl.
Defined.
Lemma refresher_settles_witness :
  quiescent settled ∧ (@config_current unicode_id example_cfg settled ∨ st_failed settled = true).
Proof.
  assert (Hq : quiescent settled) by (split; [|split]; reflexivity).
  split; [exact Hq|].
  exact (proj1 (@refresher_settles unicode_id example_cfg ltac:(discriminate) [] example_world 0
    settled (settled_reachable true)) Hq).
Defined.

(** When a timer goes off during a slow rebuild, the older list can be written last: the
    refresher is then idle with a stale file. *)
Definition overlapped : state :=
  let s1 := run_synced (init [] example_world 0) in
  let s2 := with_jobs [{| j_pending := false; j_phase := Listed [] |}] s1 in
  let s3 := fire (event one_backend s2) in
  let s4 := with_jobs [{| j_pending := false; j_phase := Listed [] |};
                       {| j_pending := false; j_phase := Listed one_backend |}] s3 in
  let s5 := @run_rebuild unicode_id example_cfg (slow_env 0 "/.b") one_backend
              [{| j_pending := false; j_phase := Listed [] |}; {| j_pending := false; j_phase := Done |}] s4 in
  let s6 := finish false [{| j_pending := false; j_phase := Listed [] |}] s5 in
  let s7 := @run_rebuild unicode_id example_cfg (slow_env 0 "/.a") []
              [{| j_pending := false; j_phase := Done |}] s6 in
  finish false [] s7.
Lemma overlap_goes_stale :
  rtc (@step unicode_id example_cfg false) (init [] example_world 0) overlapped ∧
  quiescent overlapped ∧ st_failed overlapped = false ∧ ¬ @config_current unicode_id example_cfg overlapped.
Proof.
  split; [|split; [|split]].
  - eapply rtc_l; [apply step_internal, step_run; reflexivity|].
    eapply rtc_l; [apply step_internal, (step_list _ _ _ [] false []); reflexivity|].
    eapply rtc_l; [apply (step_event _ _ _ one_backend)|].
    eapply rtc_l; [apply step_internal, step_fire; [reflexivity | discriminate]|].
    eapply rtc_l; [apply step_internal,
      (step_list _ _ _ [{| j_pending := false; j_phase := Listed [] |}] false []); reflexivity|].
    eapply rtc_l; [apply step_internal, (step_rebuild _ _ _
      [{| j_pending := false; j_phase := Listed [] |}] false one_backend [] (slow_env 0 "/.b"));
      [reflexivity | discriminate | reflexivity]|].
    eapply rtc_l; [apply step_internal, (step_finish _ _ _
      [{| j_pending := false; j_phase := Listed [] |}] false []); reflexivity|].
    eapply rtc_l; [apply step_internal, (step_rebuild _ _ _ [] false [] [] (slow_env 0 "/.a"));
      [reflexivity | discriminate | reflexivity]|].
    eapply rtc_l; [apply step_internal, (step_finish _ _ _ [] false []); reflexivity|].
    apply rtc_refl.
  - split; [|split]; reflexivity.
  - vm_compute. reflexivity.
  - intros (text & Hr & Hf).
    assert (Ok text = Ok (E := string) (string_of_bytes (default [] (w_files (st_world overlapped) !! "/config.yaml")))) as Ht.
    { change (rc_ConfigPath example_cfg) with "/config.yaml" in Hf. rewrite Hf. simpl.
      by rewrite string_of_bytes_of_string. }
    rewrite <- Hr in Ht. vm_compute in Ht. discriminate Ht.
Qed.
