(* ===== verification/Kube.v ===== *)
(** * The API server, as the controllers see it

    [Store S T] is the client for one kind: reads of the state [S] of the cluster and writes
    that change it.  A controller's theorems are proved for every client; [Cluster] below is
    an in-memory one, on which the witnesses run.  The class [Controlled] is controller-runtime's
    SetControllerReference, [Retry] client-go's RetryOnConflict, [Events] the event recorder;
    the laws they carry are the documented behaviour the controllers rely on. *)

From Stdlib Require Import ZArith.
From S2P Require Import Prelude Monad GoStrings Keys Torrc KubeTypes.

(** ** Errors *)
Inductive api_error := NotFound | AlreadyExists | Conflict | ApiError (msg : string).
#[global] Instance api_error_eq_dec : EqDecision api_error.
Proof. solve_decision. Defined.

(** The errors the controllers return: those of the API and of the packages they call, their
    own sentinels and texts, and [fmt.Errorf("ctx: %w", err)]. *)
Inductive error :=
| ErrApi (e : api_error)
| ErrKey (e : key_error)
| ErrMaster (e : master_error)
| ErrTorrc (e : torrc_error)
| ErrCrossNSDenied (ns name : string)
| ErrText (msg : string)
| ErrWrap (ctx : string) (e : error).

(** [errors.Is] and [errors.As] look under the wrapping. *)
Fixpoint root_cause (e : error) : error :=
  match e with ErrWrap _ e => root_cause e | _ => e end.
Definition is_not_found {A} (r : result api_error A) : bool :=
  match r with Err NotFound => true | _ => false end.

(** ** The client *)
Class Store (S T : Type) `{Object T} := {
  kget : S → NamespacedName → result api_error T;
  (** [List] in a namespace (all of them without one), of the objects with the labels *)
  klist : S → option string → gmap string string → result api_error (list T);
  kcreate : T → M S api_error ();
  (** the writes below return the object as the server holds it *)
  kupdate : T → M S api_error T;
  kupdate_status : T → M S api_error T;
  kpatch : T → M S api_error T;
  kdelete : NamespacedName → M S api_error ();
  (** [controllerutil.CreateOrUpdate] from an empty object of the name, with the mutation *)
  kapply : T → (T → T) → M S api_error ();
}.

(** [client.IgnoreNotFound]. *)
Definition ignore_not_found {S} (m : M S api_error ()) : M S api_error () := λ s,
  match m s with
  | (s', Err NotFound) => (s', Ok ())
  | r => r
  end.
Definition api {S A} (m : M S api_error A) : M S error A := wrap ErrApi m.
Definition read {S A} (f : S → result api_error A) : M S error A :=
  gets (λ s, wrap_err ErrApi (f s)).

(** [if err := r.Get(...); IsNotFound(err)]: nothing, or the object. *)
Definition find {S T} `{Store S T} (k : NamespacedName) : M S error (option T) := λ s,
  match kget s k with
  | Ok x => (s, Ok (Some x))
  | Err NotFound => (s, Ok None)
  | Err e => (s, Err (ErrApi e))
  end.
Lemma find_Ok {S T} `{Store S T} k s s' (r : option T) :
  find k s = (s', Ok r) ↔
  s' = s ∧ match r with Some x => kget s k = Ok x | None => kget s k = Err NotFound end.
Proof.
  unfold find. destruct (kget s k) as [x|[]]; destruct r; naive_solver.
Qed.
Lemma find_state {S T} `{Store S T} k s : (find k s : S * result error (option T)).1 = s.
Proof. unfold find. by destruct (kget s k) as [|[]]. Qed.

(** ** Owner references, retries, events *)
Class Controlled := {
  (** the metadata of the controlled object after SetControllerReference(owner, ...) *)
  set_controller : ObjectMeta → ObjectMeta → result error ObjectMeta;
  set_controller_spec owner m m' : set_controller owner m = Ok m' →
    m' = with_OwnerReferences (OwnerReferences m') m ∧
    Exists (λ o, or_UID o = UID owner ∧ or_Controller o = Some true) (OwnerReferences m');
}.
(** SetControllerReference on an object. *)
Definition SetControllerReference `{Controlled} {T} `{Object T} (owner : ObjectMeta) (x : T)
  : result error T :=
  let* m := set_controller owner (meta x) in Ok (with_meta m x).

Class Retry (S : Type) := {
  retry_on_conflict : M S error () → M S error ();
  (** a function that does not end in a conflict is called once *)
  retry_once m s s' r : m s = (s', r) → (∀ e, r = Err e → root_cause e ≠ ErrApi Conflict) →
    retry_on_conflict m s = (s', r);
  (** the function is all that is called *)
  retry_invariant (P : S → Prop) m s : (∀ s, P s → P (m s).1) → P s → P (retry_on_conflict m s).1;
}.

Record Event := { ev_type : string; ev_reason : string; ev_message : string }.
Class Events (S : Type) := { record_event : NamespacedName → Event → S → S }.
Definition emit {S} `{Events S} (k : NamespacedName) (e : Event) : M S error () :=
  λ s, (record_event k e s, Ok ()).

(** ** An in-memory cluster *)
Inductive any :=
| AGatewayClass (x : GatewayClass) | AGateway (x : Gateway) | AHTTPRoute (x : HTTPRoute)
| AReferenceGrant (x : ReferenceGrant) | ASecret (x : Secret) | AConfigMap (x : ConfigMap)
| AServiceAccount (x : ServiceAccount) | ARole (x : Role) | ARoleBinding (x : RoleBinding)
| AService (x : Service) | ADeployment (x : Deployment) | AStatefulSet (x : StatefulSet)
| AJob (x : Job) | ANetworkPolicy (x : NetworkPolicy) | ATorServicePolicy (x : TorServicePolicy)
| ATorClientAuthPolicy (x : TorClientAuthPolicy) | AOnionBalancePolicy (x : OnionBalancePolicy).

(** A kind: its name, its place among [any], and its object with the status of another. *)
Class Kind (T : Type) `{Object T} := {
  kind_name : string;
  inj : T → any;
  prj : any → option T;
  with_status_of : T → T → T;
}.

Record Cluster := {
  objects : gmap (string * NamespacedName) any;
  events : list Event;
  writes : nat;
}.
Definition put (k : string * NamespacedName) (x : any) (c : Cluster) : Cluster :=
  {| objects := <[k := x]> (objects c); events := events c; writes := S (writes c) |}.
Definition drop_object (k : string * NamespacedName) (c : Cluster) : Cluster :=
  {| objects := delete k (objects c); events := events c; writes := S (writes c) |}.

Section memory.
Context {T : Type} `{Kind T}.
Definition mem_get (c : Cluster) (k : NamespacedName) : result api_error T :=
  match objects c !! (kind_name, k) ≫= prj with Some x => Ok x | None => Err NotFound end.
Definition has_labels (sel : gmap string string) (x : T) : bool :=
  bool_decide (map_Forall (λ k v, Labels (meta x) !! k = Some v) sel).
Definition mem_list (c : Cluster) (ns : option string) (sel : gmap string string)
  : result api_error (list T) :=
  Ok (omap (λ kx, match prj kx.2 with
                  | Some x => if match ns with Some n => bool_decide (Namespace (meta x) = n) | None => true end &&
                                 has_labels sel x then Some x else None
                  | None => None
                  end) (map_to_list (filter (λ kx, kx.1.1 = kind_name) (objects c)))).
(** The server sets the resource version. *)
Definition stamp (x : T) : T :=
  let m := meta x in
  with_meta {| Name := Name m; Namespace := Namespace m; UID := UID m; ResourceVersion := "1";
               Generation := Generation m; Labels := Labels m; Annotations := Annotations m;
               OwnerReferences := OwnerReferences m; Finalizers := Finalizers m;
               DeletionTimestamp := DeletionTimestamp m |} x.
Definition mem_create (x : T) : M Cluster api_error () := λ c,
  match mem_get c (key x) with
  | Ok _ => (c, Err AlreadyExists)
  | Err _ => (put (kind_name, key x) (inj (stamp x)) c, Ok ())
  end.
Definition mem_write (merge : T → T → T) (x : T) : M Cluster api_error T := λ c,
  match mem_get c (key x) with
  | Ok old => (put (kind_name, key x) (inj (merge x old)) c, Ok (merge x old))
  | Err e => (c, Err e)
  end.
Definition mem_delete (k : NamespacedName) : M Cluster api_error () := λ c,
  match mem_get c k with
  | Ok _ => (drop_object (kind_name, k) c, Ok ())
  | Err e => (c, Err e)
  end.
(** The mutation may not rename the object. *)
Definition mem_apply (x : T) (f : T → T) : M Cluster api_error () := λ c,
  let refused := Err (ApiError "MutateFn cannot mutate object name and/or object namespace") in
  match mem_get c (key x) with
  | Err NotFound => if bool_decide (key (f x) = key x) then mem_create (f x) c else (c, refused)
  | Err e => (c, Err e)
  | Ok cur =>
      if bool_decide (key (f cur) = key cur) then (put (kind_name, key x) (inj (f cur)) c, Ok ())
      else (c, refused)
  end.
#[global] Instance mem_store : Store Cluster T := {|
  kget := mem_get; klist := mem_list; kcreate := mem_create;
  kupdate := mem_write with_status_of;
  kupdate_status := mem_write (λ x old, with_status_of old x);
  kpatch := mem_write with_status_of;
  kdelete := mem_delete; kapply := mem_apply |}.
End memory.

(** Reads of a kind depend on its objects only. *)
Lemma mem_get_frame {T} `{Kind T} c c' k :
  (∀ k, objects c' !! (kind_name (T := T), k) = objects c !! (kind_name (T := T), k)) →
  mem_get (T := T) c' k = mem_get c k.
Proof. intros Heq. unfold mem_get. by rewrite Heq. Qed.
Lemma mem_list_frame {T} `{Kind T} c c' ns sel :
  (∀ k, objects c' !! (kind_name (T := T), k) = objects c !! (kind_name (T := T), k)) →
  mem_list (T := T) c' ns sel = mem_list c ns sel.
Proof.
  intros Heq. unfold mem_list. do 3 f_equal. apply map_eq. intros [kind k].
  rewrite !map_lookup_filter. destruct (decide (kind = kind_name (T := T))) as [->|Hne].
  - by rewrite Heq.
  - destruct (objects c' !! (kind, k)), (objects c !! (kind, k)); simpl;
      rewrite ?option_guard_False by done; done.
Qed.

Lemma mem_list_spec {T} `{Kind T} c ns sel (l : list T) x :
  mem_list c ns sel = Ok l →
  x ∈ l ↔ ∃ k a, objects c !! (kind_name (T := T), k) = Some a ∧ prj a = Some x ∧
    (∀ n, ns = Some n → Namespace (meta x) = n) ∧ has_labels sel x = true.
Proof.
  intros [= <-]. rewrite list_elem_of_omap. split.
  - intros ([[kd k] a] & Hin & Hx). apply elem_of_map_to_list, map_lookup_filter_Some in Hin as [Ha Hkd].
    cbn in *. subst kd. exists k, a. destruct (prj a) as [y|]; [|done].
    destruct (match ns with Some n => _ | None => _ end) eqn:Hns; [|done].
    destruct (has_labels sel y) eqn:Hl; [|done]. injection Hx as <-.
    repeat split; try done. intros n ->. by bools.
  - intros (k & a & Ha & Hx & Hns & Hl). exists ((kind_name (T := T), k), a). split.
    + by apply elem_of_map_to_list, map_lookup_filter_Some.
    + cbn. rewrite Hx, Hl. destruct ns as [n|]; [|done]. by rewrite bool_decide_true by auto.
Qed.

(** Dropping an object that is not listed leaves the list as it is, but for its order. *)
Lemma mem_list_drop {T} `{Kind T} c at_ ns sel (l l0 : list T) :
  mem_list c ns sel = Ok l → mem_list (drop_object at_ c) ns sel = Ok l0 →
  (∀ a x, objects c !! at_ = Some a → prj a = Some x → x ∉ l) → l ≡ₚ l0.
Proof.
  unfold mem_list, drop_object. cbn [objects]. intros [= <-] [= <-] Hno. rewrite map_filter_delete.
  set (m := filter _ (objects c)) in *.
  destruct (m !! at_) as [a|] eqn:Ha; [|by rewrite delete_id].
  match goal with |- omap ?g _ ≡ₚ _ => set (f := g) in * end.
  rewrite <- (map_to_list_delete m at_ a Ha). cbn [omap list_omap].
  destruct (f (at_, a)) as [x|] eqn:Hf; [|done]. exfalso.
  assert (objects c !! at_ = Some a ∧ at_.1 = kind_name (T := T)) as [Hat _]
    by (by apply map_lookup_filter_Some in Ha).
  apply (Hno a x Hat).
  - unfold f in Hf. cbn in Hf. destruct (prj a) as [y|]; [|done]. by destruct (_ && _); simplify_eq.
  - apply list_elem_of_omap. exists (at_, a). split; [by apply elem_of_map_to_list|done].
Qed.

#[global] Instance mem_events : Events Cluster := {|
  record_event := λ _ e c, {| objects := objects c; events := events c ++ [e]; writes := writes c |} |}.
#[global] Program Instance mem_retry : Retry Cluster := {| retry_on_conflict := λ m, m |}.
Next Obligation. done. Qed.
Next Obligation. auto. Qed.
#[global] Program Instance mem_controlled : Controlled := {|
  set_controller := λ owner m,
    Ok (with_OwnerReferences [{| or_Kind := "Gateway"; or_Name := Name owner; or_UID := UID owner;
                                 or_Controller := Some true |}] m) |}.
Next Obligation. intros owner m m' [= <-]. split; [done|]. by left. Qed.

#[global] Instance GatewayClass_Kind : Kind GatewayClass := {|
  kind_name := "GatewayClass"; inj := AGatewayClass;
  prj := λ a, match a with AGatewayClass x => Some x | _ => None end;
  with_status_of := λ x y, {| gc_meta := gc_meta x; gc_ControllerName := gc_ControllerName x;
                              gc_Conditions := gc_Conditions y |} |}.
#[global] Instance Gateway_Kind : Kind Gateway := {|
  kind_name := "Gateway"; inj := AGateway;
  prj := λ a, match a with AGateway x => Some x | _ => None end;
  with_status_of := λ x y, {| gw_meta := gw_meta x; gw_GatewayClassName := gw_GatewayClassName x;
                              gw_Listeners := gw_Listeners x; gw_Status := gw_Status y |} |}.
#[global] Instance HTTPRoute_Kind : Kind HTTPRoute := {|
  kind_name := "HTTPRoute"; inj := AHTTPRoute;
  prj := λ a, match a with AHTTPRoute x => Some x | _ => None end;
  with_status_of := λ x y, {| rt_meta := rt_meta x; rt_ParentRefs := rt_ParentRefs x;
                              rt_Rules := rt_Rules x; rt_Parents := rt_Parents y |} |}.
#[global] Instance ReferenceGrant_Kind : Kind ReferenceGrant := {|
  kind_name := "ReferenceGrant"; inj := AReferenceGrant;
  prj := λ a, match a with AReferenceGrant x => Some x | _ => None end;
  with_status_of := λ x _, x |}.
#[global] Instance Secret_Kind : Kind Secret := {|
  kind_name := "Secret"; inj := ASecret;
  prj := λ a, match a with ASecret x => Some x | _ => None end; with_status_of := λ x _, x |}.
#[global] Instance ConfigMap_Kind : Kind ConfigMap := {|
  kind_name := "ConfigMap"; inj := AConfigMap;
  prj := λ a, match a with AConfigMap x => Some x | _ => None end; with_status_of := λ x _, x |}.
#[global] Instance ServiceAccount_Kind : Kind ServiceAccount := {|
  kind_name := "ServiceAccount"; inj := AServiceAccount;
  prj := λ a, match a with AServiceAccount x => Some x | _ => None end; with_status_of := λ x _, x |}.
#[global] Instance Role_Kind : Kind Role := {|
  kind_name := "Role"; inj := ARole;
  prj := λ a, match a with ARole x => Some x | _ => None end; with_status_of := λ x _, x |}.
#[global] Instance RoleBinding_Kind : Kind RoleBinding := {|
  kind_name := "RoleBinding"; inj := ARoleBinding;
  prj := λ a, match a with ARoleBinding x => Some x | _ => None end; with_status_of := λ x _, x |}.
#[global] Instance Service_Kind : Kind Service := {|
  kind_name := "Service"; inj := AService;
  prj := λ a, match a with AService x => Some x | _ => None end; with_status_of := λ x _, x |}.
#[global] Instance Deployment_Kind : Kind Deployment := {|
  kind_name := "Deployment"; inj := ADeployment;
  prj := λ a, match a with ADeployment x => Some x | _ => None end;
  with_status_of := λ x y, {| dep_meta := dep_meta x; dep_Spec := dep_Spec x;
                              dep_Conditions := dep_Conditions y |} |}.
#[global] Instance StatefulSet_Kind : Kind StatefulSet := {|
  kind_name := "StatefulSet"; inj := AStatefulSet;
  prj := λ a, match a with AStatefulSet x => Some x | _ => None end;
  with_status_of := λ x y, {| sts_meta := sts_meta x; sts_Spec := sts_Spec x;
                              sts_StatusReplicas := sts_StatusReplicas y |} |}.
#[global] Instance Job_Kind : Kind Job := {|
  kind_name := "Job"; inj := AJob;
  prj := λ a, match a with AJob x => Some x | _ => None end;
  with_status_of := λ x y, {| job_meta := job_meta x; job_Spec := job_Spec x;
                              job_Conditions := job_Conditions y |} |}.
#[global] Instance NetworkPolicy_Kind : Kind NetworkPolicy := {|
  kind_name := "NetworkPolicy"; inj := ANetworkPolicy;
  prj := λ a, match a with ANetworkPolicy x => Some x | _ => None end; with_status_of := λ x _, x |}.
#[global] Instance TorServicePolicy_Kind : Kind TorServicePolicy := {|
  kind_name := "TorServicePolicy"; inj := ATorServicePolicy;
  prj := λ a, match a with ATorServicePolicy x => Some x | _ => None end;
  with_status_of := λ x y, {| tsp_meta := tsp_meta x; tsp_Spec := tsp_Spec x;
                              tsp_Ancestors := tsp_Ancestors y |} |}.
#[global] Instance TorClientAuthPolicy_Kind : Kind TorClientAuthPolicy := {|
  kind_name := "TorClientAuthPolicy"; inj := ATorClientAuthPolicy;
  prj := λ a, match a with ATorClientAuthPolicy x => Some x | _ => None end;
  with_status_of := λ x y, {| tcap_meta := tcap_meta x; tcap_Spec := tcap_Spec x;
                              tcap_Ancestors := tcap_Ancestors y |} |}.
#[global] Instance OnionBalancePolicy_Kind : Kind OnionBalancePolicy := {|
  kind_name := "OnionBalancePolicy"; inj := AOnionBalancePolicy;
  prj := λ a, match a with AOnionBalancePolicy x => Some x | _ => None end;
  with_status_of := λ x y, {| obp_meta := obp_meta x; obp_Spec := obp_Spec x;
                              obp_Status := obp_Status y |} |}.

(** A cluster holding the given objects. *)
Definition cluster (l : list ((string * NamespacedName) * any)) : Cluster :=
  {| objects := list_to_map l; events := []; writes := 0 |}.
Definition obj {T} `{Kind T} (x : T) : (string * NamespacedName) * any := ((kind_name, key x), inj x).
