(* ===== verification/Names.v ===== *)
(** * Names and labels of child objects (internal/controller/names.go and the name helpers
      of gateway_resources_ha.go) *)

From Stdlib Require Import Ascii ZArith DecimalString DecimalPos.
From S2P Require Import Prelude GoStrings GoNet KubeTypes.

Definition GatewayAPIGroup : string := "gateway.networking.k8s.io".
Definition GatewayKind : string := "Gateway".
Definition ControllerName : string := "torgateway.io/gateway-controller".
Definition HiddenServiceProtocol : string := "torgateway.io/HiddenService".
Definition FinalizerName : string := "torgateway.io/finalizer".

Definition keySecretSuffix : string := "-keys".
Definition torrcConfigSuffix : string := "-torrc".
Definition deploymentSuffix : string := "".
Definition serviceSuffix : string := "".
Definition routerRBACSuffix : string := "-router".
Definition vanityRBACSuffix : string := "-vanity".
Definition vanityOutSecretSuffix : string := "-vanity-out".
Definition networkPolicySuffix : string := "-netpol".
Definition vanityFailedAnnotation : string := "torgateway.io/vanity-failed".
Definition vanityPrefixLabel : string := "torgateway.io/vanity-prefix".
Definition awaitVanityAnnotation : string := "torgateway.io/await-vanity".
Definition dataVolumeName : string := "tor-data".
Definition keysVolumeName : string := "tor-keys".
Definition configVolumeName : string := "tor-config".
Definition hsDirVolumeName : string := "tor-hsdir".
Definition torContainerName : string := "tor".
Definition routerContainer : string := "router".
Definition obrefreshContainer : string := "obrefresh".
Definition initContainerName : string := "tor-init".
Definition managedByLabelKey : string := "app.kubernetes.io/managed-by".
Definition managedByLabelVal : string := "tor-gateway".
Definition gatewayLabelKey : string := "torgateway.io/gateway".
Definition hsDirMountPath : string := "/var/lib/tor/hs".
Definition dataMountPath : string := "/var/lib/tor/data".
Definition hsServiceDir : string := hsDirMountPath +:+ "/hs".
Definition torDataDir : string := dataMountPath +:+ "/data".
Definition keysMountPath : string := "/etc/tor/keys".
Definition configMountPath : string := "/etc/tor".
Definition loopbackTargetHost : string := "127.0.0.1".
Definition loopbackTargetPort : Z := 9080.
Definition routerProbePort : Z := 8081.
Definition torMetricsPort : Z := 9035.
Definition clientAuthVolumeName : string := "tor-client-auth".
Definition clientAuthMountPath : string := "/etc/tor-client-auth".

Definition KeySecretName (gw : string) : string := gw +:+ keySecretSuffix.
Definition TorrcConfigMapName (gw : string) : string := gw +:+ torrcConfigSuffix.
Definition DeploymentName (gw : string) : string := gw +:+ deploymentSuffix.
Definition ServiceName (gw : string) : string := gw +:+ serviceSuffix.
Definition RouterRBACName (gw : string) : string := gw +:+ routerRBACSuffix.
Definition VanityRBACName (gw : string) : string := gw +:+ vanityRBACSuffix.
Definition VanityOutSecretName (gw : string) : string := gw +:+ vanityOutSecretSuffix.
Definition NetworkPolicyName (gw : string) : string := gw +:+ networkPolicySuffix.
Definition ChildLabels (gw : string) : gmap string string :=
  {[ managedByLabelKey := managedByLabelVal; gatewayLabelKey := gw ]}.

(** [%q] of [fmt], for printable ASCII: quotes around, a backslash before a quote or a
    backslash.  The names and prefixes quoted in messages are DNS labels. *)
Fixpoint escape (s : string) : string :=
  match s with
  | EmptyString => EmptyString
  | String c s =>
      if bool_decide (c = ascii_of_nat 34) || bool_decide (c = ascii_of_nat 92)
      then String (ascii_of_nat 92) (String c (escape s)) else String c (escape s)
  end.
Definition Quote (s : string) : string :=
  String (ascii_of_nat 34) (escape s +:+ String (ascii_of_nat 34) EmptyString).

(** gateway_resources_ha.go *)
Definition haRoleBackend : string := "backend".
Definition haRoleFrontend : string := "frontend".
Definition haRoleKey : string := "torgateway.io/role".
Definition ownerUIDKey : string := "torgateway.io/owner-uid".
Definition gw_name (gw : Gateway) : string := Name (gw_meta gw).
Definition gw_ns (gw : Gateway) : string := Namespace (gw_meta gw).
Definition HALabels (gw : Gateway) (role : string) : gmap string string :=
  {[ managedByLabelKey := managedByLabelVal; "app.kubernetes.io/name" := "tor-gateway";
     "app.kubernetes.io/instance" := gw_name gw; gatewayLabelKey := gw_name gw;
     haRoleKey := role ]}.
Definition ownerLabels (gw : Gateway) (role : string) : gmap string string :=
  <[ownerUIDKey := UID (gw_meta gw)]> (HALabels gw role).

Definition FrontendName (gw : Gateway) : string := gw_name gw +:+ "-frontend".
Definition BackendStatefulSetName (gw : Gateway) : string := gw_name gw +:+ "-backend".
Definition BackendHeadlessServiceName (gw : Gateway) : string := gw_name gw +:+ "-backends".
Definition BackendKeySecretName (gw : Gateway) (idx : Z) : string :=
  gw_name gw +:+ "-backend-" +:+ Itoa idx +:+ "-keys".
Definition OnionbalanceConfigMapName (gw : Gateway) : string := gw_name gw +:+ "-onionbalance-config".
Definition BackendTorrcConfigMapName (gw : Gateway) : string := gw_name gw +:+ "-backend-torrc".
Definition FrontendTorrcConfigMapName (gw : Gateway) : string := gw_name gw +:+ "-frontend-torrc".
Definition CrossNSMasterRoleName (gw : Gateway) : string := FrontendName gw +:+ "-master-fetch".

(** ** The index in a backend Secret's name (gateway_controller.go) *)
Definition backendSecretIndex (secretName gw : string) : Z :=
  let prefix := gw +:+ "-backend-" in
  let suffix := "-keys" in
  if negb (HasPrefix secretName prefix) || negb (HasSuffix secretName suffix) then (-1)%Z
  else
    let mid := TrimSuffix (TrimPrefix secretName prefix) suffix in
    match Atoi mid with
    | None => (-1)%Z
    | Some n => if (n <? 0)%Z then (-1)%Z else n
    end.

(** * Lemmas *)
#[local] Arguments String.append !_ _ / : assert.

(** ** Decimal numbers parse back *)
Lemma parse_digits_uint d :
  d ≠ Decimal.Nil → parse_digits (NilZero.string_of_uint d) = Some (Z.of_N (N.of_uint d)).
Proof. intros H. unfold parse_digits. by rewrite NilZero.usu by done. Qed.
Lemma Itoa_nonneg z :
  (0 ≤ z)%Z → ∃ d, d ≠ Decimal.Nil ∧ Itoa z = NilZero.string_of_uint d ∧ Z.of_N (N.of_uint d) = z.
Proof.
  intros Hz. unfold Itoa. destruct z as [|p|p]; [| |lia].
  - by exists (Decimal.D0 Decimal.Nil).
  - exists (Pos.to_uint p). split; [|split; [done|]].
    + apply DecimalPos.Unsigned.to_uint_nonnil.
    + unfold N.of_uint. by rewrite DecimalPos.Unsigned.of_to.
Qed.
Lemma Atoi_Itoa z : (0 ≤ z ≤ int64_max)%Z → Atoi (Itoa z) = Some z.
Proof.
  intros Hz. destruct (Itoa_nonneg z) as (d & Hd & -> & Hv); [lia|]. unfold Atoi.
  assert (match NilZero.string_of_uint d with
          | String "-" t => Z.opp <$> parse_digits t
          | String "+" t => parse_digits t
          | _ => parse_digits (NilZero.string_of_uint d)
          end = parse_digits (NilZero.string_of_uint d)) as ->.
  { by destruct d. }
  rewrite parse_digits_uint, Hv by done. cbn.
  rewrite option_guard_True; [done|]. unfold int64_min. lia.
Qed.
Lemma Itoa_inj x y : (0 ≤ x ≤ int64_max)%Z → (0 ≤ y ≤ int64_max)%Z → Itoa x = Itoa y → x = y.
Proof. intros Hx Hy Heq. apply Atoi_Itoa in Hx, Hy. congruence. Qed.

(** ** The index of a backend Secret *)
Lemma backend_secret_middle gw mid :
  backendSecretIndex (gw +:+ "-backend-" +:+ mid +:+ "-keys") gw =
  match Atoi mid with Some n => if (n <? 0)%Z then (-1)%Z else n | None => (-1)%Z end.
Proof.
  unfold backendSecretIndex. rewrite str_app_assoc.
  replace (HasPrefix ((gw +:+ "-backend-") +:+ mid +:+ "-keys") (gw +:+ "-backend-")) with true
    by (symmetry; apply HasPrefix_true; by eexists).
  rewrite TrimPrefix_app, TrimSuffix_app.
  replace (HasSuffix ((gw +:+ "-backend-") +:+ mid +:+ "-keys") "-keys") with true
    by (symmetry; apply HasSuffix_true; eexists; by rewrite !str_app_assoc).
  done.
Qed.
Lemma backendSecretIndex_name gw i :
  (0 ≤ i ≤ int64_max)%Z → backendSecretIndex (BackendKeySecretName gw i) (gw_name gw) = i.
Proof.
  intros Hi. unfold BackendKeySecretName. rewrite backend_secret_middle, Atoi_Itoa by done.
  destruct (Z.ltb_spec i 0); [lia | done].
Qed.
Lemma BackendKeySecretName_inj gw i j :
  (0 ≤ i ≤ int64_max)%Z → (0 ≤ j ≤ int64_max)%Z →
  BackendKeySecretName gw i = BackendKeySecretName gw j → i = j.
Proof.
  intros Hi Hj Heq. by rewrite <- (backendSecretIndex_name gw i), Heq, backendSecretIndex_name.
Qed.

(** ** Children of one Gateway have distinct names *)
Definition secret_names (gw : Gateway) (replicas : nat) : list string :=
  KeySecretName (gw_name gw) :: VanityOutSecretName (gw_name gw) ::
  map (λ i, BackendKeySecretName gw (Z.of_nat i)) (seq 0 replicas).
Definition configmap_names (gw : Gateway) : list string :=
  [TorrcConfigMapName (gw_name gw); OnionbalanceConfigMapName gw; FrontendTorrcConfigMapName gw;
   BackendTorrcConfigMapName gw].
Definition account_names (gw : Gateway) : list string :=
  [RouterRBACName (gw_name gw); VanityRBACName (gw_name gw); FrontendName gw; CrossNSMasterRoleName gw].
Definition deployment_names (gw : Gateway) : list string :=
  [DeploymentName (gw_name gw); FrontendName gw].
Definition service_names (gw : Gateway) : list string :=
  [ServiceName (gw_name gw); BackendHeadlessServiceName gw].

(** Names made of the Gateway's name and a suffix differ when the suffixes do. *)
Lemma NoDup_suffixes gw l : NoDup l → NoDup (map (λ s, gw +:+ s) l).
Proof. apply NoDup_fmap_2. intros s t. apply str_app_inj_l. Qed.

(** Within a Gateway no two children of a kind share a name, for any number of backends
    an int64 can index, and the index of a backend's key Secret is recovered from its name,
    which is also the name tor-init composes from the pod's ordinal. *)
Theorem child_names_distinct (gw : Gateway) (replicas : nat)
    (Hreplicas : (Z.of_nat replicas ≤ int64_max)%Z) :
  NoDup (secret_names gw replicas) ∧ NoDup (configmap_names gw) ∧ NoDup (account_names gw) ∧
  NoDup (deployment_names gw) ∧ NoDup (service_names gw) ∧
  (∀ i, i < replicas →
     backendSecretIndex (BackendKeySecretName gw (Z.of_nat i)) (gw_name gw) = Z.of_nat i).
Proof.
  assert (∀ l, bool_decide (NoDup l) = true → NoDup (map (λ s, gw_name gw +:+ s) l)) as Hsuf
    by (intros l Hl; bools; by apply NoDup_suffixes).
  split; [|split; [|split; [|split; [|split]]]].
  - unfold secret_names. constructor; [|constructor].
    + rewrite elem_of_cons, list_elem_of_fmap. intros [Heq%str_app_inj_l|(i & Heq%str_app_inj_l & _)];
        discriminate Heq.
    + rewrite list_elem_of_fmap. intros (i & Heq%str_app_inj_l & _). discriminate Heq.
    + apply NoDup_fmap_2_strong; [|apply NoDup_seq].
      intros i j Hi%elem_of_seq Hj%elem_of_seq Heq%BackendKeySecretName_inj; lia.
  - apply (Hsuf ["-torrc"; "-onionbalance-config"; "-frontend-torrc"; "-backend-torrc"]).
    vm_compute. reflexivity.
  - unfold account_names, CrossNSMasterRoleName, FrontendName. rewrite <- str_app_assoc.
    apply (Hsuf ["-router"; "-vanity"; "-frontend"; "-frontend-master-fetch"]).
    vm_compute. reflexivity.
  - apply (Hsuf [""; "-frontend"]). vm_compute. reflexivity.
  - apply (Hsuf [""; "-backends"]). vm_compute. reflexivity.
  - intros i Hi. apply backendSecretIndex_name. lia.
Qed.

(** Two Gateways of a namespace can want the same Secret. *)
Lemma gateways_share_secret_name gw :
  KeySecretName (gw_name gw +:+ "-backend-0") = BackendKeySecretName gw 0.
Proof. unfold KeySecretName, BackendKeySecretName. by rewrite <- str_app_assoc. Qed.

Definition example_gateway : Gateway := {|
  gw_meta := {| Name := "onion"; Namespace := "tor"; UID := "uid-1"; ResourceVersion := "1";
                Generation := 3; Labels := ∅; Annotations := ∅; OwnerReferences := [];
                Finalizers := []; DeletionTimestamp := None |};
  gw_GatewayClassName := "tor";
  gw_Listeners := [{| l_Name := "http"; l_Protocol := HiddenServiceProtocol |}];
  gw_Status := {| gs_Addresses := []; gs_Conditions := []; gs_Listeners := [] |} |}.
Lemma child_names_distinct_witness :
  secret_names example_gateway 2 =
    ["onion-keys"; "onion-vanity-out"; "onion-backend-0-keys"; "onion-backend-1-keys"] ∧
  NoDup (secret_names example_gateway 2).
Proof.
  split; [vm_compute; reflexivity|].
  apply (child_names_distinct example_gateway 2). unfold int64_max. lia.
Defined.
