(* ===== verification/RefGrant.v ===== *)
(** * ReferenceGrants (internal/controller/referencegrant.go) *)

From S2P Require Import Prelude KubeTypes Kube.

Record FromRef := { from_Group : string; from_Kind : string; from_Namespace : string }.
Record ToRef := { to_Group : string; to_Kind : string; to_Name : string }.

Definition grantMatchesFrom (g : ReferenceGrant) (from : FromRef) : bool :=
  existsb (λ f, bool_decide (f_Group f = from_Group from) && bool_decide (f_Kind f = from_Kind from) &&
                bool_decide (f_Namespace f = from_Namespace from)) (rg_From g).
Definition grantMatchesTo (g : ReferenceGrant) (to : ToRef) : bool :=
  existsb (λ t,
    if negb (bool_decide (t_Group t = to_Group to)) || negb (bool_decide (t_Kind t = to_Kind to)) then false
    else match t_Name t with
         | None => true
         | Some n => bool_decide (n = "") || bool_decide (n = to_Name to)
         end) (rg_To g).
Definition Allows (grants : list ReferenceGrant) (from : FromRef) (to : ToRef) : bool :=
  existsb (λ g, grantMatchesFrom g from && grantMatchesTo g to) grants.

(** What the master key of an OnionBalancePolicy needs in the Secret's namespace. *)
Definition master_from (pol : OnionBalancePolicy) : FromRef :=
  {| from_Group := "policy.torgateway.io"; from_Kind := "OnionBalancePolicy";
     from_Namespace := Namespace (obp_meta pol) |}.
Definition master_to (pol : OnionBalancePolicy) : ToRef :=
  {| to_Group := ""; to_Kind := "Secret"; to_Name := mk_Name (obp_MasterKeySecretRef (obp_Spec pol)) |}.
Definition MasterKeyReferenceGrantAllows {S} `{!Store S ReferenceGrant} (s : S)
    (pol : OnionBalancePolicy) : result error bool :=
  let targetNS := mk_Namespace (obp_MasterKeySecretRef (obp_Spec pol)) in
  let* grants := wrap_err ErrApi (klist s (Some targetNS) ∅) in
  Ok (Allows grants (master_from pol) (master_to pol)).

(** * What a grant allows *)

(** The Gateway API's rule: some grant lists the referrer, and the same grant lists the
    referent, by name or without one. *)
Definition granted (grants : list ReferenceGrant) (from : FromRef) (to : ToRef) : Prop :=
  ∃ g f t, g ∈ grants ∧ f ∈ rg_From g ∧ t ∈ rg_To g ∧
    f = {| f_Group := from_Group from; f_Kind := from_Kind from; f_Namespace := from_Namespace from |} ∧
    t_Group t = to_Group to ∧ t_Kind t = to_Kind to ∧
    (t_Name t = None ∨ t_Name t = Some "" ∨ t_Name t = Some (to_Name to)).

Lemma Allows_granted grants from to : Allows grants from to = true ↔ granted grants from to.
Proof.
  unfold Allows, granted, grantMatchesFrom, grantMatchesTo. rewrite existsb_Exists. split.
  - intros (g & Hg & [Hfrom Hto]%andb_true_iff). exists g.
    apply existsb_Exists in Hfrom as (f & Hf & Hf'). apply existsb_Exists in Hto as (t & Ht & Ht').
    bools. exists f, t. repeat (split; [done|]). split; [destruct f; simpl in *; by subst|].
    destruct (bool_decide (t_Group t = _)) eqn:Hgr, (bool_decide (t_Kind t = _)) eqn:Hk;
      try discriminate Ht'. bools. do 2 (split; [done|]). cbn in Ht'.
    destruct (t_Name t) as [n|]; [|by left]. right.
    apply orb_true_iff in Ht' as [?|?]; bools; subst; auto.
  - intros (g & f & t & Hg & Hf & Ht & -> & H1 & H2 & H3). exists g. split; [done|].
    apply andb_true_iff. split; apply existsb_Exists.
    + eexists. split; [exact Hf|]. by rewrite !bool_decide_true.
    + exists t. split; [done|]. rewrite !bool_decide_true by done. cbn.
      destruct H3 as [->|[->| ->]]; [done|done|]. apply orb_true_iff. right. by apply bool_decide_true.
Qed.

(** A reference is allowed exactly when one grant of the referent's namespace lists both
    the referrer, by group, kind and namespace, and the referent, by group, kind and either its
    name or no name; entries of different grants never combine. *)
Theorem reference_granted_iff grants from to :
  Allows grants from to = true ↔ granted grants from to.
Proof. apply Allows_granted. Qed.
