(* ===== verification/Status.v ===== *)
(** * Conditions and GatewayClasses (internal/controller/gatewayclass_controller.go) *)

From Stdlib Require Import ZArith.
From S2P Require Import Prelude Monad GoStrings KubeTypes Kube Names.

(** [setCondition]: the list after, and whether it changed. *)
Definition same_condition (a b : Condition) : bool :=
  bool_decide (c_Status a = c_Status b) && bool_decide (c_Reason a = c_Reason b) &&
  bool_decide (c_Message a = c_Message b) &&
  bool_decide (c_ObservedGeneration a = c_ObservedGeneration b).
Definition keep_time (existing c : Condition) : Condition :=
  if bool_decide (c_Status existing = c_Status c) then
    {| c_Type := c_Type c; c_Status := c_Status c; c_Reason := c_Reason c; c_Message := c_Message c;
       c_ObservedGeneration := c_ObservedGeneration c;
       c_LastTransitionTime := c_LastTransitionTime existing |}
  else c.
Fixpoint setCondition (conds : list Condition) (cond : Condition) : list Condition * bool :=
  match conds with
  | [] => ([cond], true)
  | existing :: rest =>
      if negb (bool_decide (c_Type existing = c_Type cond)) then
        let '(rest', changed) := setCondition rest cond in (existing :: rest', changed)
      else if same_condition existing cond then (conds, false)
      else (keep_time existing cond :: rest, true)
  end.
(** [for _, c := range wanted { if setCondition(&conds, c) { changed = true } }] *)
Definition setConditions (conds wanted : list Condition) : list Condition * bool :=
  foldl (λ st c, let '(l, changed) := setCondition st.1 c in (l, st.2 || changed)) (conds, false) wanted.

Definition condition (now : Z) (generation : Z) (type status reason message : string) : Condition :=
  {| c_Type := type; c_Status := status; c_Reason := reason; c_Message := message;
     c_ObservedGeneration := generation; c_LastTransitionTime := now |}.

Definition with_gc_Conditions (l : list Condition) (gc : GatewayClass) : GatewayClass :=
  {| gc_meta := gc_meta gc; gc_ControllerName := gc_ControllerName gc; gc_Conditions := l |}.

(** [GatewayClassReconciler.Reconcile]. *)
Definition GatewayClass_Reconcile {S} `{!Store S GatewayClass} (now : Z) (req : NamespacedName)
  : M S error () :=
  let! found := find req in
  match found with
  | None => ret ()
  | Some gc =>
      if negb (bool_decide (gc_ControllerName gc = ControllerName)) then ret ()
      else
        let acceptedCond := condition now (Generation (gc_meta gc)) "Accepted" ConditionTrue
          "Accepted" "GatewayClass accepted by tor-gateway controller" in
        let '(conds, changed) := setCondition (gc_Conditions gc) acceptedCond in
        if changed then do! api (kupdate_status (with_gc_Conditions conds gc)) in ret () else ret ()
  end.

(** * Lemmas *)
(** The first condition of a type, which is the one readers use. *)
Definition condition_of (type : string) (l : list Condition) : option Condition :=
  head (filter (λ c, c_Type c = type) l).
Definition same_content (a b : Condition) : Prop :=
  c_Type a = c_Type b ∧ c_Status a = c_Status b ∧ c_Reason a = c_Reason b ∧
  c_Message a = c_Message b ∧ c_ObservedGeneration a = c_ObservedGeneration b.

Lemma same_condition_content a b :
  c_Type a = c_Type b → same_condition a b = true ↔ same_content a b.
Proof.
  unfold same_condition, same_content. intros Ht.
  rewrite !andb_true_iff, !bool_decide_eq_true. naive_solver.
Qed.

#[global] Instance same_content_equiv : Equivalence same_content.
Proof.
  unfold same_content. split.
  - by intros a.
  - intros a b. intuition congruence.
  - intros a b c. intuition congruence.
Qed.
Lemma keep_time_content e c : same_content (keep_time e c) c.
Proof. unfold keep_time, same_content. by case_bool_decide. Qed.
Lemma keep_time_type e c : c_Type (keep_time e c) = c_Type c.
Proof. unfold keep_time. by case_bool_decide. Qed.

Lemma setCondition_set l c :
  ∃ c', condition_of (c_Type c) (setCondition l c).1 = Some c' ∧ same_content c' c ∧
    c_LastTransitionTime c' =
      match condition_of (c_Type c) l with
      | Some old => if bool_decide (c_Status old = c_Status c) then c_LastTransitionTime old
                    else c_LastTransitionTime c
      | None => c_LastTransitionTime c
      end.
Proof.
  unfold condition_of. induction l as [|e l IH]; simpl.
  - rewrite filter_cons_True by done. simpl. exists c. by repeat split.
  - destruct (bool_decide (c_Type e = c_Type c)) eqn:Ht; bools; cbn [negb].
    + rewrite (filter_cons_True _ e) by done. simpl.
      destruct (same_condition e c) eqn:Hs; simpl.
      * rewrite filter_cons_True by done. simpl. exists e. apply same_condition_content in Hs; [|done].
        split; [done|]. split; [done|]. rewrite bool_decide_true; [done | apply Hs].
      * rewrite filter_cons_True by apply keep_time_type. simpl.
        eexists. split; [done|]. unfold keep_time. by case_bool_decide; repeat split.
    + rewrite (filter_cons_False _ e) by done.
      destruct (setCondition l c) as [l' ch]. simpl in *.
      by rewrite filter_cons_False.
Qed.
Lemma setCondition_others l c t :
  t ≠ c_Type c → condition_of t (setCondition l c).1 = condition_of t l.
Proof.
  intros Ht. unfold condition_of. induction l as [|e l IH]; simpl.
  - by rewrite filter_cons_False.
  - destruct (bool_decide (c_Type e = c_Type c)) eqn:He; bools; cbn [negb].
    + destruct (same_condition e c); [done|]. simpl.
      by rewrite !filter_cons_False by (rewrite ?keep_time_type; congruence).
    + destruct (setCondition l c) as [l' ch]. simpl in *. rewrite !filter_cons.
      destruct (decide _); [done | apply IH].
Qed.
Lemma setCondition_types l c :
  NoDup (c_Type <$> l) → NoDup (c_Type <$> (setCondition l c).1).
Proof.
  induction l as [|e l IH]; simpl; intros Hnd; [by apply NoDup_singleton|].
  inversion_clear Hnd as [|?? Hni Hnd'].
  destruct (bool_decide (c_Type e = c_Type c)) eqn:He; bools; cbn [negb].
  - destruct (same_condition e c); [by constructor|]. simpl.
    rewrite keep_time_type, <- He.
    by constructor.
  - specialize (IH Hnd').
    assert (∀ t, t ∈ c_Type <$> (setCondition l c).1 → t = c_Type c ∨ t ∈ c_Type <$> l) as Hsub.
    { clear. induction l as [|e l IH]; simpl; [set_solver|].
      destruct (bool_decide (c_Type e = c_Type c)) eqn:He; bools; cbn [negb].
      - destruct (same_condition e c); [by right|]. simpl. intros t [->|?]%elem_of_cons; [|by right; right].
        left. apply keep_time_type.
      - destruct (setCondition l c) as [l' ch]. simpl in *. set_solver. }
    destruct (setCondition l c) as [l' ch]. simpl in *. constructor; [|done]. intros Hin.
    destruct (Hsub _ Hin); [done|done].
Qed.
Lemma setCondition_unchanged l c l' : setCondition l c = (l', false) → l' = l.
Proof.
  revert l'. induction l as [|e l IH]; simpl; intros l' H; [done|].
  destruct (negb _); [|destruct (same_condition e c); congruence].
  destruct (setCondition l c) as [r ch]. injection H as <- ->. by rewrite (IH r).
Qed.
Lemma same_content_same_condition a b : same_content a b → same_condition a b = true.
Proof. intros H. apply same_condition_content; [apply H | done]. Qed.
Lemma setCondition_again l c c' :
  same_content c' c → setCondition (setCondition l c).1 c' = ((setCondition l c).1, false).
Proof.
  intros Hc. pose proof Hc as (Ht & _).
  assert (∀ e r, same_content e c → setCondition (e :: r) c' = (e :: r, false)) as Hsame.
  { intros e r He. assert (same_content e c') as He' by (by etrans).
    simpl. rewrite bool_decide_true by apply He'. cbn [negb].
    by rewrite same_content_same_condition. }
  induction l as [|e l IH]; [by apply (Hsame c [])|]. cbn [setCondition].
  destruct (bool_decide (c_Type e = c_Type c)) eqn:He; bools; cbn [negb].
  - destruct (same_condition e c) eqn:Hs; cbn [fst]; apply Hsame.
    + by apply same_condition_content in Hs.
    + apply keep_time_content.
  - destruct (setCondition l c) as [l' ch]. simpl in *.
    rewrite bool_decide_false by congruence. cbn [negb]. by rewrite IH.
Qed.

(** ** Several conditions in a row *)
Lemma setConditions_cons l c ws :
  setConditions l (c :: ws) =
  let '(l1, ch) := setCondition l c in let '(l2, ch') := setConditions l1 ws in (l2, ch || ch').
Proof.
  unfold setConditions. cbn. destruct (setCondition l c) as [l1 ch]. cbn.
  assert (∀ ws l b, foldl (λ st c, let '(l, changed) := setCondition st.1 c in (l, st.2 || changed)) (l, b) ws =
    let '(l2, ch') := foldl (λ st c, let '(l, changed) := setCondition st.1 c in (l, st.2 || changed)) (l, false) ws in
    (l2, b || ch')) as Hfrom.
  { clear. induction ws as [|c ws IH]; intros l b; cbn; [by rewrite orb_false_r|].
    destruct (setCondition l c) as [l1 ch]. cbn. rewrite (IH l1 (b || ch)), (IH l1 ch).
    destruct (foldl _ _ _) as [l2 ch']. by rewrite orb_assoc. }
  by rewrite Hfrom.
Qed.
Lemma setConditions_unchanged l ws l' : setConditions l ws = (l', false) → l' = l.
Proof.
  revert l. induction ws as [|c ws IH]; intros l; [by intros [= <-]|]. rewrite setConditions_cons.
  destruct (setCondition l c) as [l1 ch] eqn:H1. destruct (setConditions l1 ws) as [l2 ch'] eqn:H2.
  intros [= -> [-> ->]%orb_false_iff]. apply setCondition_unchanged in H1 as ->. by apply IH.
Qed.
Lemma setConditions_others l ws t :
  t ∉ map c_Type ws → condition_of t (setConditions l ws).1 = condition_of t l.
Proof.
  revert l. induction ws as [|c ws IH]; intros l Ht; [done|]. rewrite setConditions_cons.
  cbn in Ht. apply not_elem_of_cons in Ht as [Hc Ht].
  pose proof (setCondition_others l c t Hc) as H1. destruct (setCondition l c) as [l1 ch]. cbn in H1.
  pose proof (IH l1 Ht) as H2. destruct (setConditions l1 ws) as [l2 ch']. cbn in *. congruence.
Qed.
Lemma setConditions_set l ws :
  NoDup (map c_Type ws) →
  Forall (λ w, ∃ c, condition_of (c_Type w) (setConditions l ws).1 = Some c ∧ same_content c w) ws.
Proof.
  revert l. induction ws as [|w ws IH]; intros l; cbn [map]; [constructor|].
  intros [Hw Hnd]%NoDup_cons. rewrite setConditions_cons.
  destruct (setCondition_set l w) as (c & Hc & Hsame & _).
  destruct (setCondition l w) as [l1 ch]. cbn in Hc. specialize (IH l1 Hnd).
  pose proof (setConditions_others l1 ws (c_Type w) Hw) as Ho.
  destruct (setConditions l1 ws) as [l2 ch']. cbn in *. constructor; [|done].
  exists c. split; [congruence | done].
Qed.
Lemma setCondition_found l c e :
  condition_of (c_Type c) l = Some e → same_content e c → setCondition l c = (l, false).
Proof.
  unfold condition_of. induction l as [|x l IH]; [done|]. cbn [setCondition].
  destruct (bool_decide (c_Type x = c_Type c)) eqn:Hx; bools; cbn [negb].
  - rewrite filter_cons_True by done. intros [= ->] Hs. by rewrite same_content_same_condition.
  - rewrite filter_cons_False by done. intros He Hs. by rewrite IH.
Qed.
Lemma setConditions_settle l ws ws' :
  NoDup (map c_Type ws) → Forall2 same_content ws ws' →
  setConditions (setConditions l ws).1 ws' = ((setConditions l ws).1, false).
Proof.
  intros Hnd Hsame. pose proof (setConditions_set l ws Hnd) as Hset.
  generalize dependent ((setConditions l ws).1). intros l1 Hset. clear Hnd.
  induction Hsame as [|w w' ws ws' Hw Hws IH]; [done|]. inversion_clear Hset as [|?? (c & Hc & Hcw) Hset'].
  rewrite setConditions_cons, (setCondition_found l1 w' c); [by rewrite IH| |by etrans].
  by replace (c_Type w') with (c_Type w) by apply Hw.
Qed.

(** [setCondition] upserts by type: afterwards the condition of that type says what was
    asked for, with the old transition time when the status did not flip and the new one
    otherwise; conditions of other types are untouched; types that were distinct stay so; a
    report of no change means the list is as it was; and setting the same content again, at
    any later time, changes nothing. *)
Theorem set_condition_upserts (l : list Condition) (c : Condition) :
  (∃ c', condition_of (c_Type c) (setCondition l c).1 = Some c' ∧ same_content c' c ∧
     c_LastTransitionTime c' =
       match condition_of (c_Type c) l with
       | Some old => if bool_decide (c_Status old = c_Status c) then c_LastTransitionTime old
                     else c_LastTransitionTime c
       | None => c_LastTransitionTime c
       end) ∧
  (∀ t, t ≠ c_Type c → condition_of t (setCondition l c).1 = condition_of t l) ∧
  (NoDup (c_Type <$> l) → NoDup (c_Type <$> (setCondition l c).1)) ∧
  ((setCondition l c).2 = false → (setCondition l c).1 = l) ∧
  (∀ c', same_content c' c → setCondition (setCondition l c).1 c' = ((setCondition l c).1, false)).
Proof.
  split; [apply setCondition_set|]. split; [apply setCondition_others|].
  split; [apply setCondition_types|]. split; [|apply setCondition_again].
  destruct (setCondition l c) as [l' ch] eqn:H. simpl. intros ->. by apply setCondition_unchanged in H.
Qed.
