(* ===== verification/Policies.v ===== *)
(** * The policy controllers (torservicepolicy, torclientauthpolicy and onionbalancepolicy
      controllers)

    Each reports, per target, whether the policy is accepted.  The two Tor policies share
    their code up to the kind, which the class [Policy] abstracts. *)

From Stdlib Require Import ZArith.
From S2P Require Import Prelude Monad GoStrings Onion Keys KubeTypes Kube Names RefGrant Status.

(** ** Comparing ancestors (torservicepolicy_controller.go) *)
Definition objEqual (a b : option string) : bool :=
  match a, b with
  | None, None => true
  | Some a, Some b => bool_decide (a = b)
  | _, _ => false
  end.
(** Pointwise comparison of lists of equal length. *)
Fixpoint all_equal {A} (eq : A → A → bool) (a b : list A) : bool :=
  match a, b with
  | [], [] => true
  | x :: a, y :: b => eq x y && all_equal eq a b
  | _, _ => false
  end.
(** Type, status and reason. *)
Definition conditionEqual (a b : Condition) : bool :=
  bool_decide (c_Type a = c_Type b) && bool_decide (c_Status a = c_Status b) &&
  bool_decide (c_Reason a = c_Reason b).
Definition ancestorEqual (a b : PolicyAncestorStatus) : bool :=
  let ar := as_AncestorRef a in let br := as_AncestorRef b in
  objEqual (pr_Group ar) (pr_Group br) && objEqual (pr_Kind ar) (pr_Kind br) &&
  bool_decide (pr_Name ar = pr_Name br) && objEqual (pr_Namespace ar) (pr_Namespace br) &&
  bool_decide (as_ControllerName a = as_ControllerName b) &&
  all_equal conditionEqual (as_Conditions a) (as_Conditions b).
Definition ancestorsEqual (a b : list PolicyAncestorStatus) : bool := all_equal ancestorEqual a b.

(** ** Acceptance of a target *)
Section evaluate.
Context {S : Type} `{!Store S Gateway, !Store S GatewayClass}.

(** Status, reason and message of the Accepted condition. *)
Definition evaluatePolicyTarget (s : S) (ref : LocalPolicyTargetReference) (ns : string)
  : result error (string * string * string) :=
  match kget s {| nn_Name := tr_Name ref; nn_Namespace := ns |} with
  | Err NotFound => Ok (ConditionFalse, "TargetNotFound", "Referenced Gateway does not exist")
  | Err e => Err (ErrApi e)
  | Ok gw =>
      match kget (T := GatewayClass) s {| nn_Name := gw_GatewayClassName gw; nn_Namespace := "" |} with
      | Err NotFound => Ok (ConditionFalse, "TargetNotManaged", "Gateway's GatewayClass does not exist")
      | Err e => Err (ErrApi e)
      | Ok gc =>
          if negb (bool_decide (gc_ControllerName gc = ControllerName))
          then Ok (ConditionFalse, "TargetNotManaged", "Gateway is managed by a different controller")
          else Ok (ConditionTrue, "Accepted", "Policy accepted by tor-gateway")
      end
  end.
End evaluate.

(** An ancestor entry without its conditions. *)
Definition ancestor_for (ns : string) (ref : LocalPolicyTargetReference) (conds : list Condition)
  : PolicyAncestorStatus :=
  {| as_AncestorRef := {| pr_Group := Some (tr_Group ref); pr_Kind := Some (tr_Kind ref);
                          pr_Namespace := Some ns; pr_Name := tr_Name ref; pr_SectionName := None |};
     as_ControllerName := ControllerName;
     as_Conditions := conds |}.
(** [for _, x := range l { y, err := f(x); ...; out = append(out, y) }] *)
Fixpoint collect {E A B} (f : A → result E B) (l : list A) : result E (list B) :=
  match l with
  | [] => Ok []
  | x :: l => let* y := f x in let* ys := collect f l in Ok (y :: ys)
  end.

Class Policy (T : Type) `{Object T} := {
  p_TargetRefs : T → list LocalPolicyTargetReference;
  p_Ancestors : T → list PolicyAncestorStatus;
  set_Ancestors : list PolicyAncestorStatus → T → T;
}.
#[global] Instance TorServicePolicy_Policy : Policy TorServicePolicy := {|
  p_TargetRefs p := tsp_TargetRefs (tsp_Spec p); p_Ancestors := tsp_Ancestors;
  set_Ancestors l p := {| tsp_meta := tsp_meta p; tsp_Spec := tsp_Spec p; tsp_Ancestors := l |} |}.
#[global] Instance TorClientAuthPolicy_Policy : Policy TorClientAuthPolicy := {|
  p_TargetRefs p := tcap_TargetRefs (tcap_Spec p); p_Ancestors := tcap_Ancestors;
  set_Ancestors l p := {| tcap_meta := tcap_meta p; tcap_Spec := tcap_Spec p; tcap_Ancestors := l |} |}.

Section tor_policies.
Context {S T : Type} `{!Store S Gateway, !Store S GatewayClass, Policy T, !Store S T} (now : Z).

Definition buildAncestors (s : S) (p : T) : result error (list PolicyAncestorStatus) :=
  let ns := Namespace (meta p) in
  collect (λ ref,
    let* (status, reason, msg) := evaluatePolicyTarget s ref ns in
    Ok (ancestor_for ns ref
          [condition now (Generation (meta p)) "Accepted" status reason msg])) (p_TargetRefs p).

Definition Policy_Reconcile (req : NamespacedName) : M S error () :=
  let! found := find req in
  match found with
  | None => ret ()
  | Some p =>
      let! ancestors := gets (λ s, buildAncestors s p) in
      if ancestorsEqual (p_Ancestors p) ancestors then ret ()
      else do! api (kupdate_status (set_Ancestors ancestors p)) in ret ()
  end.
End tor_policies.
Definition TorServicePolicy_Reconcile {S} `{!Store S Gateway, !Store S GatewayClass,
    !Store S TorServicePolicy} : Z → NamespacedName → M S error () :=
  Policy_Reconcile (T := TorServicePolicy).
Definition TorClientAuthPolicy_Reconcile {S} `{!Store S Gateway, !Store S GatewayClass,
    !Store S TorClientAuthPolicy} : Z → NamespacedName → M S error () :=
  Policy_Reconcile (T := TorClientAuthPolicy).
Definition TorClientAuthPolicy_buildAncestors {S} `{!Store S Gateway, !Store S GatewayClass}
  : Z → S → TorClientAuthPolicy → result error (list PolicyAncestorStatus) := buildAncestors.

(** ** OnionBalancePolicy *)
Definition ReasonOBPAccepted : string := "Accepted".
Definition ReasonOBPGatewayMissing : string := "GatewayMissing".
Definition ReasonOBPMasterKeyMissing : string := "MasterKeyMissing".
Definition ReasonOBPMasterKeyInvalid : string := "MasterKeyInvalid".
Definition ReasonOBPMasterKeyCrossNSDenied : string := "MasterKeyCrossNamespaceDenied".

Definition reasonFromMasterErr (e : error) : string :=
  match root_cause e with
  | ErrMaster ErrMasterKeyMissingSecret | ErrMaster ErrMasterKeyMissingPublic =>
      ReasonOBPMasterKeyMissing
  | ErrCrossNSDenied _ _ => ReasonOBPMasterKeyCrossNSDenied
  | _ => ReasonOBPMasterKeyInvalid
  end.

(** [policyTargets] (gateway_controller.go). *)
Definition policyTargets (refs : list LocalPolicyTargetReference) (gw : string) : bool :=
  existsb (λ r, bool_decide (tr_Group r = GatewayAPIGroup) && bool_decide (tr_Kind r = GatewayKind) &&
                bool_decide (tr_Name r = gw)) refs.

Definition master_ns (pol : OnionBalancePolicy) : string :=
  let ns := mk_Namespace (obp_MasterKeySecretRef (obp_Spec pol)) in
  if bool_decide (ns = "") then Namespace (obp_meta pol) else ns.

Section obp.
Context {S : Type} `{!Ed25519, !Store S Gateway, !Store S Secret, !Store S ReferenceGrant,
  !Store S TorServicePolicy, !Store S OnionBalancePolicy}.
(** [err.Error()]. *)
Context (error_text : error → string) (now : Z).

Definition validateMasterKey (s : S) (pol : OnionBalancePolicy) : result error KeyPair :=
  let ns := master_ns pol in
  let name := mk_Name (obp_MasterKeySecretRef (obp_Spec pol)) in
  let* _ :=
    (if bool_decide (ns = Namespace (obp_meta pol)) then Ok ()
     else
       let* allowed := wrap_err (ErrWrap "evaluate ReferenceGrant") (MasterKeyReferenceGrantAllows s pol) in
       guard! allowed else ErrCrossNSDenied ns name;; Ok ()) in
  match kget (T := Secret) s {| nn_Namespace := ns; nn_Name := name |} with
  | Err NotFound => Err (ErrMaster ErrMasterKeyMissingSecret)
  | Err e => Err (ErrWrap "get master key Secret" (ErrApi e))
  | Ok sec => wrap_err ErrMaster (ValidateMasterKeySecret (sec_Data sec))
  end.

Definition backend_selector (gw : Gateway) : gmap string string :=
  {[ gatewayLabelKey := gw_name gw; haRoleKey := haRoleBackend ]}.
Definition has_hostname (sec : Secret) : bool :=
  match sec_Data sec !! FileHostnameName with Some v => (0 <? length v)%nat | None => false end.
Definition countReadyBackends (s : S) (gw : Gateway) : result error Z :=
  let* secs := wrap_err (ErrWrap "list backend Secrets" ∘ ErrApi)
                 (klist (T := Secret) s (Some (gw_ns gw)) (backend_selector gw)) in
  Ok (wrap32 (Z.of_nat (length (filter (λ x, has_hostname x = true) secs)))).

Definition powForcedOff (s : S) (gw : Gateway) : bool :=
  match klist (T := TorServicePolicy) s (Some (gw_ns gw)) ∅ with
  | Err _ => false
  | Ok tsps => existsb (λ t, policyTargets (tsp_TargetRefs (tsp_Spec t)) (gw_name gw) &&
                             default true (tsp_PoWDefensesEnabled (tsp_Spec t))) tsps
  end.

(** One target: its Accepted condition, and what it adds to the ready backends. *)
Definition obp_target (s : S) (pol : OnionBalancePolicy) (masterErr : result error KeyPair)
    (ref : LocalPolicyTargetReference) : result error (PolicyAncestorStatus * Z) :=
  let ns := Namespace (obp_meta pol) in
  let accepted := condition now (Generation (obp_meta pol)) "Accepted" in
  let* (cond, ready) :=
    match kget (T := Gateway) s {| nn_Namespace := ns; nn_Name := tr_Name ref |} with
    | Err NotFound =>
        Ok (accepted ConditionFalse ReasonOBPGatewayMissing
              ("Gateway " +:+ ns +:+ "/" +:+ tr_Name ref +:+ " does not exist"), 0%Z)
    | Err e => Err (ErrApi e)
    | Ok gw =>
        match masterErr with
        | Err e => Ok (accepted ConditionFalse (reasonFromMasterErr e) (error_text e), 0%Z)
        | Ok _ =>
            Ok (accepted ConditionTrue ReasonOBPAccepted
                  (if powForcedOff s gw
                   then "PoW disabled on backends; onionbalance behind PoW is currently worse than no PoW (see onionbalance#13)"
                   else "OnionBalancePolicy accepted"),
                match countReadyBackends s gw with Ok n => n | Err _ => 0%Z end)
        end
    end in
  Ok (ancestor_for ns ref [cond], ready).
Definition obp_buildAncestors (s : S) (pol : OnionBalancePolicy)
  : result error (list PolicyAncestorStatus * Z) :=
  let masterErr := validateMasterKey s pol in
  let* targets := collect (obp_target s pol masterErr) (obp_TargetRefs (obp_Spec pol)) in
  Ok (map fst targets, foldl (λ n t, wrap32 (n + t.2)) 0%Z targets).

Definition with_obp_Status (st : OnionBalancePolicyStatus) (pol : OnionBalancePolicy)
  : OnionBalancePolicy :=
  {| obp_meta := obp_meta pol; obp_Spec := obp_Spec pol; obp_Status := st |}.
Definition OnionBalancePolicy_Reconcile (req : NamespacedName) : M S error () :=
  let! found := find req in
  match found with
  | None => ret ()
  | Some pol =>
      let! (ancestors, readyBackends) := gets (λ s, obp_buildAncestors s pol) in
      if ancestorsEqual (obp_Ancestors (obp_Status pol)) ancestors &&
         bool_decide (obp_ReadyBackends (obp_Status pol) = readyBackends) then ret ()
      else
        do! api (kupdate_status (with_obp_Status
              {| obp_Ancestors := ancestors; obp_ReadyBackends := readyBackends |} pol)) in
        ret ()
  end.

(** ** What to reconcile after a change *)
Definition request (p : OnionBalancePolicy) : NamespacedName := key p.

Definition obp_for_secret (sec : Secret) (p : OnionBalancePolicy) : bool :=
  let ns := Namespace (sec_meta sec) in
  let gwLabel := default "" (Labels (sec_meta sec) !! gatewayLabelKey) in
  (bool_decide (master_ns p = ns) &&
   bool_decide (mk_Name (obp_MasterKeySecretRef (obp_Spec p)) = Name (sec_meta sec))) ||
  (bool_decide (default "" (Labels (sec_meta sec) !! haRoleKey) = haRoleBackend) &&
   negb (bool_decide (gwLabel = "")) &&
   existsb (λ ref, bool_decide (tr_Name ref = gwLabel) && bool_decide (ns = Namespace (obp_meta p)))
     (obp_TargetRefs (obp_Spec p))).
Definition obpsForSecret (s : S) (sec : Secret) : list NamespacedName :=
  match klist (T := OnionBalancePolicy) s None ∅ with
  | Err _ => []
  | Ok l => map request (filter (λ p, obp_for_secret sec p = true) l)
  end.
Definition obpsForGateway (s : S) (gw : Gateway) : list NamespacedName :=
  match klist (T := OnionBalancePolicy) s (Some (gw_ns gw)) ∅ with
  | Err _ => []
  | Ok l => map request (filter (λ p,
      existsb (λ ref, bool_decide (tr_Name ref = gw_name gw)) (obp_TargetRefs (obp_Spec p)) = true) l)
  end.
Definition obp_for_grant (rg : ReferenceGrant) (p : OnionBalancePolicy) : bool :=
  let ns := mk_Namespace (obp_MasterKeySecretRef (obp_Spec p)) in
  negb (bool_decide (ns = "")) && bool_decide (ns = Namespace (rg_meta rg)) &&
  existsb (λ f, bool_decide (f_Group f = "policy.torgateway.io") &&
                bool_decide (f_Kind f = "OnionBalancePolicy") &&
                bool_decide (f_Namespace f = Namespace (obp_meta p))) (rg_From rg).
Definition obpsForReferenceGrant (s : S) (rg : ReferenceGrant) : list NamespacedName :=
  match klist (T := OnionBalancePolicy) s None ∅ with
  | Err _ => []
  | Ok l => map request (filter (λ p, obp_for_grant rg p = true) l)
  end.
Definition obpsForTorServicePolicy (s : S) (tsp : TorServicePolicy) : list NamespacedName :=
  match klist (T := OnionBalancePolicy) s (Some (Namespace (tsp_meta tsp))) ∅ with
  | Err _ => []
  | Ok l =>
      let gwNames := map tr_Name (tsp_TargetRefs (tsp_Spec tsp)) in
      map request (filter (λ p,
        existsb (λ ref, bool_decide (tr_Name ref ∈ gwNames)) (obp_TargetRefs (obp_Spec p)) = true) l)
  end.
End obp.

(** * Lemmas *)

(** ** What the comparisons compare *)
Lemma all_equal_map {A B} (eq : A → A → bool) (f : A → B) a b :
  (∀ x y, eq x y = true ↔ f x = f y) → all_equal eq a b = true ↔ map f a = map f b.
Proof.
  intros Heq. revert b. induction a as [|x a IH]; intros [|y b]; simpl; [done..|].
  rewrite andb_true_iff, Heq, IH. split; [intros [-> ->] | intros [= -> ->]]; done.
Qed.
Definition condition_shape (c : Condition) : string * string * string :=
  (c_Type c, c_Status c, c_Reason c).
Definition ancestor_shape (a : PolicyAncestorStatus) :=
  (pr_Group (as_AncestorRef a), pr_Kind (as_AncestorRef a), pr_Name (as_AncestorRef a),
   pr_Namespace (as_AncestorRef a), as_ControllerName a, map condition_shape (as_Conditions a)).

Lemma conditionEqual_shape a b : conditionEqual a b = true ↔ condition_shape a = condition_shape b.
Proof.
  unfold conditionEqual, condition_shape. rewrite !andb_true_iff, !bool_decide_eq_true.
  split; [intros [[-> ->] ->]; done | intros H; injection H; auto].
Qed.
Lemma objEqual_eq a b : objEqual a b = true ↔ a = b.
Proof.
  destruct a, b; simpl; rewrite ?bool_decide_eq_true; split; congruence.
Qed.
Lemma ancestorsEqual_shape a b :
  ancestorsEqual a b = true ↔ map ancestor_shape a = map ancestor_shape b.
Proof.
  apply all_equal_map. intros x y. unfold ancestorEqual, ancestor_shape.
  rewrite !andb_true_iff, !objEqual_eq, !bool_decide_eq_true,
    (all_equal_map _ condition_shape) by apply conditionEqual_shape.
  split; [intros [[[[[-> ->] ->] ->] ->] ->]; done | intros H; injection H; auto 9].
Qed.

Lemma collect_Ok {E A B} (f : A → result E B) l ys :
  collect f l = Ok ys ↔ Forall2 (λ x y, f x = Ok y) l ys.
Proof.
  revert ys. induction l as [|x l IH]; intros ys; simpl.
  - split; [by intros [= <-] | by inversion 1].
  - rewrite rbind_Ok. setoid_rewrite rbind_Ok. setoid_rewrite IH. split.
    + intros (y & Hy & ys' & Hys & [= <-]). by constructor.
    + inversion 1; subst. eauto 6.
Qed.

(** ** Acceptance *)
Section acceptance.
Context {S : Type} `{!Store S Gateway, !Store S GatewayClass}.

(** A Gateway of the namespace whose class names this controller. *)
Definition managed_gateway (s : S) (ns name : string) : Prop := ∃ gw gc,
  kget s {| nn_Namespace := ns; nn_Name := name |} = Ok gw ∧
  kget (T := GatewayClass) s {| nn_Namespace := ""; nn_Name := gw_GatewayClassName gw |} = Ok gc ∧
  gc_ControllerName gc = ControllerName.

Lemma evaluatePolicyTarget_spec s ref ns status reason msg :
  evaluatePolicyTarget s ref ns = Ok (status, reason, msg) →
  (status = ConditionTrue ∧ reason = "Accepted" ∧ managed_gateway s ns (tr_Name ref)) ∨
  (status = ConditionFalse ∧ ¬ managed_gateway s ns (tr_Name ref) ∧
   (reason = "TargetNotFound" ∧
      kget (T := Gateway) s {| nn_Namespace := ns; nn_Name := tr_Name ref |} = Err NotFound ∨
    reason = "TargetNotManaged" ∧
      is_ok (kget (T := Gateway) s {| nn_Namespace := ns; nn_Name := tr_Name ref |}) = true)).
Proof.
  unfold evaluatePolicyTarget, managed_gateway.
  destruct (kget s {| nn_Namespace := ns; nn_Name := tr_Name ref |}) as [gw|[]] eqn:Hg; try done.
  - destruct (kget s {| nn_Namespace := ""; nn_Name := gw_GatewayClassName gw |}) as [gc|[]] eqn:Hc; try done.
    + destruct (decide (gc_ControllerName gc = ControllerName)) as [Hn|Hn].
      * rewrite bool_decide_true by done. intros [= <- <- <-]. left. eauto 8.
      * rewrite bool_decide_false by done. intros [= <- <- <-]. right. split; [done|].
        split; [|by right]. intros (gw' & gc' & [= <-] & ? & ?). congruence.
    + intros [= <- <- <-]. right. split; [done|]. split; [|by right].
      intros (gw' & gc' & [= <-] & ? & _). congruence.
  - intros [= <- <- <-]. right. split; [done|]. split; [|by left].
    intros (gw' & gc' & ? & _). congruence.
Qed.
End acceptance.

Section tor_policy_specs.
Context {S T : Type} `{!Store S Gateway, !Store S GatewayClass, Policy T, !Store S T}.

(** The status of a TorServicePolicy or TorClientAuthPolicy has one entry per target, in
    order, naming the target in the policy's namespace and this controller, with a single
    Accepted condition of the policy's generation; it is True exactly when the target is an
    existing Gateway whose class names this controller, and otherwise says whether the Gateway
    is missing or managed by another. *)
Theorem policy_acceptance now (s : S) (p : T) ancestors
    (Hbuild : buildAncestors now s p = Ok ancestors) :
  Forall2 (λ ref a,
    as_AncestorRef a = {| pr_Group := Some (tr_Group ref); pr_Kind := Some (tr_Kind ref);
      pr_Namespace := Some (Namespace (meta p)); pr_Name := tr_Name ref; pr_SectionName := None |} ∧
    as_ControllerName a = ControllerName ∧
    ∃ c, as_Conditions a = [c] ∧ c_Type c = "Accepted" ∧ c_ObservedGeneration c = Generation (meta p) ∧
      (c_Status c = ConditionTrue ∧ managed_gateway s (Namespace (meta p)) (tr_Name ref) ∨
       c_Status c = ConditionFalse ∧ ¬ managed_gateway s (Namespace (meta p)) (tr_Name ref) ∧
       (c_Reason c = "TargetNotFound" ∧ kget (T := Gateway) s
           {| nn_Namespace := Namespace (meta p); nn_Name := tr_Name ref |} = Err NotFound ∨
        c_Reason c = "TargetNotManaged" ∧ is_ok (kget (T := Gateway) s
           {| nn_Namespace := Namespace (meta p); nn_Name := tr_Name ref |}) = true)))
    (p_TargetRefs p) ancestors.
Proof.
  unfold buildAncestors in Hbuild. apply collect_Ok in Hbuild.
  eapply Forall2_impl; [exact Hbuild|]. intros ref a Ha.
  apply rbind_Ok in Ha as ([[status reason] msg] & He & [= <-]).
  split; [done|]. split; [done|]. eexists. split; [done|]. do 2 (split; [done|]).
  apply evaluatePolicyTarget_spec in He. simpl. naive_solver.
Qed.

(** The laws of the status subresource a settled status needs: the status written is read
    back, the name, the spec and the rest of the object is the server's, and
    Gateways and classes are untouched. *)
Class StatusLaws := {
  status_written : ∀ (x old x' : T) s s', kget s (key x) = Ok old → kupdate_status x s = (s', Ok x') →
    kget s' (key x) = Ok x' ∧ p_Ancestors x' = p_Ancestors x ∧ p_TargetRefs x' = p_TargetRefs old ∧
    key x' = key old;
  status_frame_gateway : ∀ (x : T) s s' r k, kupdate_status x s = (s', r) →
    kget (T := Gateway) s' k = kget s k;
  status_frame_class : ∀ (x : T) s s' r k, kupdate_status x s = (s', r) →
    kget (T := GatewayClass) s' k = kget s k;
  set_ancestors_key : ∀ l (x : T), key (set_Ancestors l x) = key x;
  ancestors_set : ∀ l (x : T), p_Ancestors (set_Ancestors l x) = l;
}.

(** The entries do not depend on the time or the generation, but for those fields. *)
Lemma buildAncestors_shape now1 now2 s1 s2 (p1 p2 : T) a1 :
  (∀ k, kget (T := Gateway) s2 k = kget s1 k) → (∀ k, kget (T := GatewayClass) s2 k = kget s1 k) →
  p_TargetRefs p2 = p_TargetRefs p1 → Namespace (meta p2) = Namespace (meta p1) →
  buildAncestors now1 s1 p1 = Ok a1 →
  ∃ a2, buildAncestors now2 s2 p2 = Ok a2 ∧ map ancestor_shape a2 = map ancestor_shape a1.
Proof.
  intros Hg Hc Hr Hn. unfold buildAncestors. rewrite Hr, Hn. clear Hr.
  revert a1. induction (p_TargetRefs p1) as [|ref refs IH]; intros a1; cbn [collect].
  - intros [= <-]. by exists [].
  - intros (a & Ha & (ys & Hys & [= <-])%rbind_Ok)%rbind_Ok.
    destruct (IH _ Hys) as (a2 & -> & Hs).
    apply rbind_Ok in Ha as ([[status reason] msg] & He & [= <-]).
    assert (evaluatePolicyTarget s2 ref (Namespace (meta p1)) = Ok (status, reason, msg)) as ->.
    { rewrite <- He. unfold evaluatePolicyTarget. rewrite Hg.
      destruct (kget s1 _) as [gw|]; [by rewrite Hc | done]. }
    cbn. eexists. split; [done|]. cbn. by rewrite Hs.
Qed.
End tor_policy_specs.

Section tor_policy_settles.
Context {S T : Type} `{!Store S Gateway, !Store S GatewayClass, Policy T, !Store S T, !StatusLaws}.

(** C36.  Reconciling a TorServicePolicy or TorClientAuthPolicy settles: a second run right
    after a successful one succeeds at any later time without writing anything, because the
    comparison of the entries ignores transition times, messages and generations.  The server
    finds a policy under its own name. *)
Theorem policy_reconcile_settles now1 now2 req (s s' : S)
    (Hkey : ∀ p : T, kget s req = Ok p → key p = req)
    (Hrun : Policy_Reconcile (T := T) now1 req s = (s', Ok ())) :
  Policy_Reconcile (T := T) now2 req s' = (s', Ok ()).
Proof.
  unfold Policy_Reconcile in *.
  apply bind_Ok in Hrun as (s1 & found & [-> Hf]%find_Ok & Hrun).
  destruct found as [p|]; [|].
  2:{ injection Hrun as <-. unfold bind, find. by rewrite Hf. }
  apply bind_Ok in Hrun as (s1 & anc & Hg & Hrun). injection Hg as <- Hanc.
  destruct (ancestorsEqual (p_Ancestors p) anc) eqn:Heq.
  - injection Hrun as <-. unfold bind, find, gets. rewrite Hf.
    destruct (buildAncestors_shape now1 now2 s s p p anc) as (anc2 & -> & Hs); try done.
    apply ancestorsEqual_shape in Heq.
    replace (ancestorsEqual _ anc2) with true; [done|].
    symmetry. apply ancestorsEqual_shape. congruence.
  - apply bind_Ok in Hrun as (s1 & p' & Hu%wrap_Ok & Hret). injection Hret as <-.
    pose proof (Hkey _ Hf) as Hk.
    destruct (status_written _ p _ _ _ ltac:(by rewrite set_ancestors_key, Hk) Hu) as (Hf' & Ha & Hr & Hk').
    rewrite set_ancestors_key, Hk in Hf'. rewrite ancestors_set in Ha.
    unfold bind, find, gets. rewrite Hf'.
    destruct (buildAncestors_shape now1 now2 s s1 p p' anc) as (anc2 & -> & Hs); try done.
    + intros k. by eapply status_frame_gateway.
    + intros k. by eapply status_frame_class.
    + unfold key in *. congruence.
    + replace (ancestorsEqual _ anc2) with true; [done|].
      symmetry. apply ancestorsEqual_shape. congruence.
Qed.
End tor_policy_settles.

(** ** The in-memory cluster has the laws *)
Lemma mem_write_frame {T U} `{Kind T, Kind U} (merge : T → T → T) (x : T) c c' r k :
  kind_name (T := U) ≠ kind_name (T := T) → mem_write merge x c = (c', r) →
  mem_get (T := U) c' k = mem_get (T := U) c k.
Proof.
  unfold mem_write. intros Hne. destruct (mem_get c (key x)) as [old|e].
  - intros [= <- <-]. unfold mem_get, put. simpl. by rewrite lookup_insert_ne by congruence.
  - by intros [= <- <-].
Qed.
#[global] Instance mem_status_laws : StatusLaws (S := Cluster) (T := TorServicePolicy).
Proof.
  split; [|intros x s s' r k H; by refine (mem_write_frame _ x s s' r k _ H)|
           intros x s s' r k H; by refine (mem_write_frame _ x s s' r k _ H)|done|done].
  intros x old x' c c' Hold. unfold kupdate_status, kget, mem_store, mem_write in *. rewrite Hold.
  intros [= <- <-]. split; [|split; [done|]; split; [done|]; reflexivity].
  unfold mem_get, put. cbn [objects].
  by rewrite lookup_insert_eq.
Qed.

Definition example_class : GatewayClass := {|
  gc_meta := new_meta "tor" "" ∅; gc_ControllerName := ControllerName; gc_Conditions := [] |}.
Definition target (name : string) : LocalPolicyTargetReference :=
  {| tr_Group := GatewayAPIGroup; tr_Kind := GatewayKind; tr_Name := name |}.
Definition example_policy : TorServicePolicy := {|
  tsp_meta := new_meta "pol" "tor" ∅;
  tsp_Spec := {| tsp_TargetRefs := [target "onion"; target "gone"]; tsp_VanityPrefix := "";
                 tsp_VanityAcknowledgeLongRunning := false; tsp_LogLevel := "notice";
                 tsp_PoWDefensesEnabled := None; tsp_Resources := None |};
  tsp_Ancestors := [] |}.
Definition example_cluster : Cluster :=
  cluster [obj example_class; obj example_gateway; obj example_policy].
Definition pol_req : NamespacedName := {| nn_Namespace := "tor"; nn_Name := "pol" |}.

Definition statuses (l : list PolicyAncestorStatus) : list (list (string * string)) :=
  map (λ a, map (λ c, (c_Status c, c_Reason c)) (as_Conditions a)) l.

Lemma policy_acceptance_witness : ∃ l,
  buildAncestors 7 example_cluster example_policy = Ok l ∧
  statuses l = [[("True", "Accepted")]; [("False", "TargetNotFound")]] ∧
  length (p_TargetRefs example_policy) = length l.
Proof.
  eexists. split; [vm_compute; reflexivity|]. split; [vm_compute; reflexivity|].
  eapply Forall2_length.
  eapply (policy_acceptance 7 example_cluster example_policy). vm_compute. reflexivity.
Defined.

Lemma policy_reconcile_settles_witness : ∃ c,
  Policy_Reconcile (T := TorServicePolicy) 7 pol_req example_cluster = (c, Ok ()) ∧ writes c = 1 ∧
  Policy_Reconcile (T := TorServicePolicy) 9 pol_req c = (c, Ok ()).
Proof.
  eexists. split; [vm_compute; reflexivity|]. split; [reflexivity|].
  apply (policy_reconcile_settles 7 9 pol_req example_cluster).
  - intros p Hp. vm_compute in Hp. injection Hp as <-. reflexivity.
  - vm_compute. reflexivity.
Defined.

(** ** OnionBalancePolicy acceptance *)
Section obp_specs.
Context {S : Type} `{!Ed25519, !Store S Gateway, !Store S Secret, !Store S ReferenceGrant,
  !Store S TorServicePolicy, !Store S OnionBalancePolicy}.
Context (error_text : error → string).

(** The master Secret may be read from its namespace. *)
Definition master_allowed (s : S) (pol : OnionBalancePolicy) : Prop :=
  master_ns pol = Namespace (obp_meta pol) ∨
  ∃ grants, klist s (Some (mk_Namespace (obp_MasterKeySecretRef (obp_Spec pol)))) ∅ = Ok grants ∧
    granted grants (master_from pol) (master_to pol).
Definition master_valid (s : S) (pol : OnionBalancePolicy) : Prop := ∃ sec kp,
  kget (T := Secret) s {| nn_Namespace := master_ns pol;
                          nn_Name := mk_Name (obp_MasterKeySecretRef (obp_Spec pol)) |} = Ok sec ∧
  ValidateMasterKeySecret (sec_Data sec) = Ok kp.

Lemma validateMasterKey_ok s pol :
  is_ok (validateMasterKey s pol) = true ↔ master_allowed s pol ∧ master_valid s pol.
Proof.
  set (m := match kget (T := Secret) s {| nn_Namespace := master_ns pol;
              nn_Name := mk_Name (obp_MasterKeySecretRef (obp_Spec pol)) |} with
            | Ok sec => wrap_err ErrMaster (ValidateMasterKeySecret (sec_Data sec))
            | Err NotFound => Err (ErrMaster ErrMasterKeyMissingSecret)
            | Err e => Err (ErrWrap "get master key Secret" (ErrApi e))
            end).
  assert (is_ok m = true ↔ master_valid s pol) as Hm.
  { unfold m, master_valid. destruct (kget s _) as [sec|[]].
    2-5: split; [done | by intros (? & ? & ? & _)].
    destruct (ValidateMasterKeySecret (sec_Data sec)) as [kp|e] eqn:Hv; cbn; split; try done.
    - eauto.
    - intros (? & ? & [= <-] & ?). congruence. }
  rewrite <- Hm. unfold validateMasterKey, master_allowed. fold m.
  destruct (decide (master_ns pol = Namespace (obp_meta pol))) as [Heq|Hne].
  { rewrite bool_decide_true by done. cbn. naive_solver. }
  rewrite bool_decide_false by done. unfold MasterKeyReferenceGrantAllows.
  destruct (klist s _ ∅) as [grants|e]; cbn.
  2:{ split; [done|]. intros [[?|(? & ? & _)] _]; done. }
  setoid_rewrite <- Allows_granted.
  destruct (Allows grants (master_from pol) (master_to pol)) eqn:Ha; cbn.
  - split; [|by intros [_ ?]]. intros ?. split; [right; eauto | done].
  - split; [done|]. intros [[?|(g & [= <-] & ?)] _]; [done|congruence].
Qed.

(** Why the master key is refused. *)
Lemma master_denied s pol grants :
  master_ns pol ≠ Namespace (obp_meta pol) →
  klist s (Some (mk_Namespace (obp_MasterKeySecretRef (obp_Spec pol)))) ∅ = Ok grants →
  ¬ granted grants (master_from pol) (master_to pol) →
  validateMasterKey s pol =
    Err (ErrCrossNSDenied (master_ns pol) (mk_Name (obp_MasterKeySecretRef (obp_Spec pol)))).
Proof.
  intros Hne Hl Hng. unfold validateMasterKey, MasterKeyReferenceGrantAllows.
  rewrite bool_decide_false, Hl by done. cbn.
  destruct (Allows grants _ _) eqn:Ha; [|done]. by apply Allows_granted in Ha.
Qed.
Lemma master_missing s pol :
  master_allowed s pol →
  kget (T := Secret) s {| nn_Namespace := master_ns pol;
    nn_Name := mk_Name (obp_MasterKeySecretRef (obp_Spec pol)) |} = Err NotFound →
  validateMasterKey s pol = Err (ErrMaster ErrMasterKeyMissingSecret).
Proof.
  intros Ha Hs. unfold validateMasterKey. rewrite Hs. destruct Ha as [Heq|(grants & Hl & Hg)].
  - by rewrite bool_decide_true.
  - destruct (bool_decide _); [done|]. unfold MasterKeyReferenceGrantAllows. rewrite Hl. cbn.
    apply Allows_granted in Hg. by rewrite Hg.
Qed.

(** C15.  An OnionBalancePolicy reports one entry per target, with a single Accepted condition.
    It is True exactly when a Gateway of the target's name exists, whatever its class, and the
    master key Secret is valid and either in the policy's namespace or granted to it; otherwise
    its reason tells a missing Gateway from a cross-namespace reference nothing grants and from a
    missing Secret.  (The design asks for the operator's class; the code does not look at it, see
    [foreign_gateway_accepted].) *)
Theorem obp_accepted_iff now s pol ancestors ready
    (Hbuild : obp_buildAncestors error_text now s pol = Ok (ancestors, ready)) :
  Forall2 (λ ref a,
    let gateway := kget (T := Gateway) s
      {| nn_Namespace := Namespace (obp_meta pol); nn_Name := tr_Name ref |} in
    pr_Name (as_AncestorRef a) = tr_Name ref ∧ as_ControllerName a = ControllerName ∧
    ∃ c, as_Conditions a = [c] ∧ c_Type c = "Accepted" ∧
      (c_Status c = ConditionTrue ↔ is_ok gateway = true ∧ master_allowed s pol ∧ master_valid s pol) ∧
      (gateway = Err NotFound → c_Reason c = ReasonOBPGatewayMissing) ∧
      (is_ok gateway = true → ∀ e, validateMasterKey s pol = Err e →
         c_Reason c = reasonFromMasterErr e ∧ c_Status c = ConditionFalse))
    (obp_TargetRefs (obp_Spec pol)) ancestors ∧
  (∀ grants, master_ns pol ≠ Namespace (obp_meta pol) →
     klist s (Some (mk_Namespace (obp_MasterKeySecretRef (obp_Spec pol)))) ∅ = Ok grants →
     ¬ granted grants (master_from pol) (master_to pol) →
     ∃ e, validateMasterKey s pol = Err e ∧ reasonFromMasterErr e = ReasonOBPMasterKeyCrossNSDenied) ∧
  (master_allowed s pol →
   kget (T := Secret) s {| nn_Namespace := master_ns pol;
     nn_Name := mk_Name (obp_MasterKeySecretRef (obp_Spec pol)) |} = Err NotFound →
   ∃ e, validateMasterKey s pol = Err e ∧ reasonFromMasterErr e = ReasonOBPMasterKeyMissing).
Proof.
  split; [|split].
  2:{ intros grants H1 H2 H3. eexists. split; [by eapply master_denied|done]. }
  2:{ intros H1 H2. eexists. split; [by apply master_missing|done]. }
  unfold obp_buildAncestors in Hbuild.
  apply rbind_Ok in Hbuild as (targets & Ht%collect_Ok & [= <- _]).
  apply Forall2_fmap_r. eapply Forall2_impl; [exact Ht|]. clear Ht. intros ref [a n] Ha. cbn.
  setoid_rewrite <- validateMasterKey_ok. unfold obp_target in Ha.
  apply rbind_Ok in Ha as ([c ready'] & Hc & [= <- <-]). split; [done|]. split; [done|].
  exists c. split; [done|].
  destruct (kget s _) as [gw|[]]; try discriminate Hc.
  - destruct (validateMasterKey s pol) as [kp|e]; injection Hc as <- _; (split; [done|]).
    + split; [done|]. split; [done|]. by intros _ e.
    + split; [split; [done|]; by intros [_ ?]|]. split; [done|]. by intros _ e' [= <-].
  - injection Hc as <- _. split; [done|]. split; [split; [done|]; by intros [? _]|].
    by split.
Qed.

(** What enqueues an OnionBalancePolicy: its master Secret, a backend key Secret of a Gateway it
    targets, such a Gateway, a grant that would allow its reference, and a TorServicePolicy that
    targets one of its Gateways. *)
Lemma obp_mappers s pol all (in_ns : list OnionBalancePolicy)
    (Hall : klist s None ∅ = Ok all) (Hin : pol ∈ all)
    (Hns : klist s (Some (Namespace (obp_meta pol))) ∅ = Ok in_ns) (Hin' : pol ∈ in_ns) :
  (∀ sec : Secret, key sec = {| nn_Namespace := master_ns pol;
      nn_Name := mk_Name (obp_MasterKeySecretRef (obp_Spec pol)) |} →
    key pol ∈ obpsForSecret s sec) ∧
  (∀ (sec : Secret) ref, ref ∈ obp_TargetRefs (obp_Spec pol) → tr_Name ref ≠ "" →
    Namespace (sec_meta sec) = Namespace (obp_meta pol) →
    Labels (sec_meta sec) !! gatewayLabelKey = Some (tr_Name ref) →
    Labels (sec_meta sec) !! haRoleKey = Some haRoleBackend → key pol ∈ obpsForSecret s sec) ∧
  (∀ gw ref, ref ∈ obp_TargetRefs (obp_Spec pol) →
    key gw = {| nn_Namespace := Namespace (obp_meta pol); nn_Name := tr_Name ref |} →
    key pol ∈ obpsForGateway s gw) ∧
  (∀ rg, mk_Namespace (obp_MasterKeySecretRef (obp_Spec pol)) = Namespace (rg_meta rg) →
    Namespace (rg_meta rg) ≠ "" → granted [rg] (master_from pol) (master_to pol) →
    key pol ∈ obpsForReferenceGrant s rg) ∧
  (∀ tsp ref, Namespace (tsp_meta tsp) = Namespace (obp_meta pol) →
    ref ∈ obp_TargetRefs (obp_Spec pol) →
    policyTargets (tsp_TargetRefs (tsp_Spec tsp)) (tr_Name ref) = true →
    key pol ∈ obpsForTorServicePolicy s tsp).
Proof.
  assert (∀ (f : OnionBalancePolicy → bool) l, pol ∈ l → f pol = true →
    key pol ∈ map request (filter (λ p, f p = true) l)) as Hreq.
  { intros f l Hl Hf. apply list_elem_of_fmap. exists pol. split; [done|].
    by apply list_elem_of_filter. }
  unfold obpsForSecret, obpsForGateway, obpsForReferenceGrant, obpsForTorServicePolicy.
  rewrite Hall. repeat split.
  - intros sec [= Hs1 Hs2]. apply Hreq; [done|]. unfold obp_for_secret. apply orb_true_iff. left.
    by rewrite !bool_decide_true.
  - intros sec ref Href Hne Hn Hl Hr. apply Hreq; [done|]. unfold obp_for_secret.
    apply orb_true_iff. right. rewrite Hl, Hr. cbn [default].
    rewrite bool_decide_true, bool_decide_false by done. cbn.
    apply existsb_Exists. exists ref. split; [done|]. by rewrite !bool_decide_true.
  - intros gw ref Href [= Hk1 Hk2]. unfold gw_ns. rewrite Hk1, Hns. apply Hreq; [done|].
    apply existsb_Exists. exists ref. split; [done|]. unfold gw_name. by rewrite bool_decide_true.
  - intros rg Hn Hne (g & f & t & ->%list_elem_of_singleton & Hf & _ & -> & _).
    apply Hreq; [done|]. unfold obp_for_grant. rewrite bool_decide_false, bool_decide_true by congruence.
    cbn. apply existsb_Exists. eexists. split; [exact Hf|]. by rewrite !bool_decide_true.
  - intros tsp ref Hn Href Ht. rewrite Hn, Hns. apply (Hreq (λ p, existsb (λ ref, bool_decide
      (tr_Name ref ∈ map tr_Name (tsp_TargetRefs (tsp_Spec tsp)))) (obp_TargetRefs (obp_Spec p)))); [done|].
    apply existsb_Exists. exists ref. split; [done|]. apply bool_decide_true, list_elem_of_fmap.
    apply existsb_Exists in Ht as (r & Hr & Hm). bools. by exists r.
Qed.
End obp_specs.

Definition example_master : Secret := {|
  sec_meta := new_meta "master" "tor" ∅; sec_Type := "Opaque"; sec_Data := key_files zero_pair |}.
Definition example_obp : OnionBalancePolicy := {|
  obp_meta := new_meta "ob" "tor" ∅;
  obp_Spec := {| obp_TargetRefs := [target "onion"; target "gone"]; obp_Replicas := 2;
                 obp_RefreshInterval := 600000000000;
                 obp_MasterKeySecretRef := {| mk_Name := "master"; mk_Namespace := "" |};
                 obp_BackendResources := None; obp_FrontendResources := None |};
  obp_Status := {| obp_Ancestors := []; obp_ReadyBackends := 0 |} |}.
Definition obp_cluster : Cluster :=
  cluster [obj example_class; obj example_gateway; obj example_master; obj example_obp].
Definition no_text : error → string := λ _, "".

Lemma obp_accepted_iff_witness : ∃ l,
  obp_buildAncestors no_text 7 obp_cluster example_obp = Ok (l, 0%Z) ∧
  statuses l = [[("True", "Accepted")]; [("False", "GatewayMissing")]] ∧
  length (obp_TargetRefs (obp_Spec example_obp)) = length l.
Proof.
  eexists. split; [vm_compute; reflexivity|]. split; [vm_compute; reflexivity|].
  eapply Forall2_length.
  eapply (obp_accepted_iff no_text 7 obp_cluster example_obp). vm_compute. reflexivity.
Defined.

(** The class of the target is not looked at: a Gateway of another controller is accepted. *)
Definition foreign_gateway : Gateway := {|
  gw_meta := gw_meta example_gateway; gw_GatewayClassName := "nginx";
  gw_Listeners := gw_Listeners example_gateway; gw_Status := gw_Status example_gateway |}.
Lemma foreign_gateway_accepted :
  let c := cluster [obj example_class; obj foreign_gateway; obj example_master; obj example_obp] in
  (∀ gc, kget (T := GatewayClass) c {| nn_Namespace := ""; nn_Name := gw_GatewayClassName foreign_gateway |} ≠ Ok gc) ∧
  match obp_buildAncestors no_text 7 c example_obp with
  | Ok (l, _) => statuses l = [[("True", "Accepted")]; [("False", "GatewayMissing")]]
  | Err _ => False
  end.
Proof. split; [intros gc; vm_compute; discriminate|vm_compute; reflexivity]. Qed.
