(* ===== verification/HTTPRouteCtl.v ===== *)
(** * HTTPRoutes (internal/controller/httproute_controller.go)

    The controller tells, per parent Gateway, whether a route is accepted and whether its
    cross-namespace backends are granted, and counts the routes attached to each listener.
    The router (file [Router]) relies on the second condition. *)

From Stdlib Require Import ZArith.
From S2P Require Import Prelude Monad GoStrings KubeTypes Router Kube Names RefGrant Status.
From S2P Require Import Policies.

(** ** Parents *)
Definition parentRefGroupKindIsGateway (pr : ParentReference) : bool :=
  match pr_Group pr with
  | Some g => bool_decide (g = "") || bool_decide (g = GatewayAPIGroup)
  | None => true
  end &&
  match pr_Kind pr with
  | Some k => bool_decide (k = "") || bool_decide (k = GatewayKind)
  | None => true
  end.
Definition parentRefMatches (pr : ParentReference) (gwName gwNS routeNS : string) : bool :=
  if negb (parentRefGroupKindIsGateway pr) then false
  else bool_decide (pr_Name pr = gwName) && bool_decide (default routeNS (pr_Namespace pr) = gwNS).

Definition route_from (route : HTTPRoute) : FromRef :=
  {| from_Group := GatewayAPIGroup; from_Kind := "HTTPRoute"; from_Namespace := Namespace (rt_meta route) |}.
Definition service_to (bref : HTTPBackendRef) : ToRef :=
  {| to_Group := ""; to_Kind := "Service"; to_Name := br_Name bref |}.
Definition bref_ns (route : HTTPRoute) (bref : HTTPBackendRef) : string :=
  default (Namespace (rt_meta route)) (br_Namespace bref).

Section handlers.
Context {S : Type} `{!Store S Gateway, !Store S GatewayClass, !Store S HTTPRoute, !Store S ReferenceGrant}.

(** Whether the parent is managed here, and whether the section is one of its listeners. *)
Definition parentManagedByUs (s : S) (pr : ParentReference) (defaultNS : string)
  : result error (bool * bool) :=
  let group := default GatewayAPIGroup (pr_Group pr) in
  let kind := default GatewayKind (pr_Kind pr) in
  if negb (bool_decide (group = GatewayAPIGroup)) || negb (bool_decide (kind = GatewayKind))
  then Ok (false, false)
  else
    match kget s {| nn_Name := pr_Name pr; nn_Namespace := default defaultNS (pr_Namespace pr) |} with
    | Err NotFound => Ok (false, false)
    | Err e => Err (ErrApi e)
    | Ok gw =>
        match kget (T := GatewayClass) s {| nn_Name := gw_GatewayClassName gw; nn_Namespace := "" |} with
        | Err NotFound => Ok (false, false)
        | Err e => Err (ErrApi e)
        | Ok gc =>
            if negb (bool_decide (gc_ControllerName gc = ControllerName)) then Ok (false, false)
            else match pr_SectionName pr with
                 | Some section => Ok (true, existsb (λ l, bool_decide (l_Name l = section)) (gw_Listeners gw))
                 | None => Ok (true, true)
                 end
        end
    end.

(** Every cross-namespace backendRef is granted. *)
Fixpoint brefs_permitted (s : S) (route : HTTPRoute) (brefs : list HTTPBackendRef) : result error bool :=
  match brefs with
  | [] => Ok true
  | bref :: brefs =>
      let ns := bref_ns route bref in
      if bool_decide (ns = Namespace (rt_meta route)) then brefs_permitted s route brefs
      else
        let* grants := wrap_err ErrApi (klist s (Some ns) ∅) in
        if Allows grants (route_from route) (service_to bref) then brefs_permitted s route brefs
        else Ok false
  end.
Definition backendRefsPermitted (s : S) (route : HTTPRoute) : result error bool :=
  brefs_permitted s route (rt_Rules route ≫= hr_BackendRefs).

(** The entry of one parent, when it is managed here. *)
Definition parent_status (now : Z) (s : S) (route : HTTPRoute) (resolved : bool) (pr : ParentReference)
  : result error (list RouteParentStatus) :=
  let* (managed, listenerExists) := parentManagedByUs s pr (Namespace (rt_meta route)) in
  if negb managed then Ok []
  else
    let gen := Generation (rt_meta route) in
    let cond :=
      if listenerExists
      then condition now gen "Accepted" ConditionTrue "Accepted" "Route accepted by tor-gateway"
      else condition now gen "Accepted" ConditionFalse "NoMatchingParent"
             "ParentRef sectionName does not match any listener" in
    let resolvedCond :=
      if resolved
      then condition now gen "ResolvedRefs" ConditionTrue "ResolvedRefs" "All backendRefs resolved"
      else condition now gen "ResolvedRefs" ConditionFalse "RefNotPermitted"
             "A cross-namespace backendRef is not permitted by any ReferenceGrant" in
    Ok [{| ps_ParentRef := pr; ps_ControllerName := ControllerName;
           ps_Conditions := [cond; resolvedCond] |}].
Definition buildRouteParentStatuses (now : Z) (s : S) (route : HTTPRoute)
  : result error (list RouteParentStatus) :=
  let* resolved := backendRefsPermitted s route in
  let* out := collect (parent_status now s route resolved) (rt_ParentRefs route) in
  Ok (concat out).
End handlers.

(** ** Merging statuses *)
Definition routeParentEqual (a b : RouteParentStatus) : bool :=
  bool_decide (ps_ControllerName a = ps_ControllerName b) &&
  bool_decide (pr_Name (ps_ParentRef a) = pr_Name (ps_ParentRef b)) &&
  all_equal conditionEqual (ps_Conditions a) (ps_Conditions b).
Definition routeParentsEqual (a b : list RouteParentStatus) : bool := all_equal routeParentEqual a b.
Definition foreign (p : RouteParentStatus) : Prop := ps_ControllerName p ≠ ControllerName.
#[global] Instance foreign_dec p : Decision (foreign p).
Proof. unfold foreign. apply _. Defined.
Definition with_Parents (l : list RouteParentStatus) (route : HTTPRoute) : HTTPRoute :=
  {| rt_meta := rt_meta route; rt_ParentRefs := rt_ParentRefs route; rt_Rules := rt_Rules route;
     rt_Parents := l |}.
(** The route after, and whether its list changed. *)
Definition mergeRouteParentStatuses (route : HTTPRoute) (desired : list RouteParentStatus)
  : HTTPRoute * bool :=
  let kept := filter foreign (rt_Parents route) in
  let merged := kept ++ desired in
  if routeParentsEqual (rt_Parents route) merged then (route, false)
  else (with_Parents merged route, true).

(** ** Counting attached routes *)
Definition incr (n : Z) : Z := wrap32 (n + 1).
Definition count_ref (gwName gwNS routeNS : string) (counts : gmap string Z) (pr : ParentReference)
  : gmap string Z :=
  if negb (parentRefMatches pr gwName gwNS routeNS) then counts
  else match pr_SectionName pr with
       | Some section => alter incr section counts
       | None => incr <$> counts
       end.
Definition count_route (gwName gwNS : string) (counts : gmap string Z) (route : HTTPRoute)
  : gmap string Z :=
  foldl (count_ref gwName gwNS (Namespace (rt_meta route))) counts (rt_ParentRefs route).
Definition zero_counts (gw : Gateway) : gmap string Z :=
  foldl (λ m l, <[l_Name l := 0%Z]> m) ∅ (gw_Listeners gw).
Definition attached_counts (gwName gwNS : string) (gw : Gateway) (routes : list HTTPRoute)
  : gmap string Z :=
  foldl (count_route gwName gwNS) (zero_counts gw) routes.
Definition with_AttachedRoutes (n : Z) (ls : ListenerStatus) : ListenerStatus :=
  {| ls_Name := ls_Name ls; ls_SupportedKinds := ls_SupportedKinds ls; ls_AttachedRoutes := n;
     ls_Conditions := ls_Conditions ls |}.
(** Reading a missing key of a Go map gives zero. *)
Definition recount (counts : gmap string Z) (l : list ListenerStatus) : list ListenerStatus :=
  map (λ ls, with_AttachedRoutes (default 0%Z (counts !! ls_Name ls)) ls) l.
Definition count_changed (counts : gmap string Z) (l : list ListenerStatus) : bool :=
  existsb (λ ls, negb (bool_decide (ls_AttachedRoutes ls = default 0%Z (counts !! ls_Name ls)))) l.
Definition with_gw_Status (st : GatewayStatus) (gw : Gateway) : Gateway :=
  {| gw_meta := gw_meta gw; gw_GatewayClassName := gw_GatewayClassName gw;
     gw_Listeners := gw_Listeners gw; gw_Status := st |}.
Definition with_gs_Listeners (l : list ListenerStatus) (st : GatewayStatus) : GatewayStatus :=
  {| gs_Addresses := gs_Addresses st; gs_Conditions := gs_Conditions st; gs_Listeners := l |}.

Section reconcile.
Context {S : Type} `{!Store S Gateway, !Store S GatewayClass, !Store S HTTPRoute, !Store S ReferenceGrant}.

Definition updateGatewayAttachedRoutes (gwName gwNS : string) : M S error () :=
  let! found := find {| nn_Name := gwName; nn_Namespace := gwNS |} in
  match found with
  | None => ret ()
  | Some gw =>
      let! routes := read (λ s, klist s None ∅) in
      let counts := attached_counts gwName gwNS gw routes in
      let old := gs_Listeners (gw_Status gw) in
      if negb (count_changed counts old) then ret ()
      else do! api (kupdate_status (with_gw_Status
             (with_gs_Listeners (recount counts old) (gw_Status gw)) gw)) in ret ()
  end.

Definition HTTPRoute_Reconcile (now : Z) (req : NamespacedName) : M S error () :=
  let! found := find (T := HTTPRoute) req in
  match found with
  | None => ret ()
  | Some route =>
      let! parents := gets (λ s, buildRouteParentStatuses now s route) in
      let '(route, changed) := mergeRouteParentStatuses route parents in
      let! route := (if changed then api (kupdate_status route) else ret route) in
      for_each (λ p, updateGatewayAttachedRoutes (pr_Name (ps_ParentRef p))
                       (default (Namespace (rt_meta route)) (pr_Namespace (ps_ParentRef p)))) parents
  end.

(** ** What to reconcile after a grant changes *)
Fixpoint grant_routes (s : S) (seen : list string) (from : list ReferenceGrantFrom)
  : list NamespacedName :=
  match from with
  | [] => []
  | f :: from =>
      if negb (bool_decide (f_Group f = GatewayAPIGroup)) || negb (bool_decide (f_Kind f = "HTTPRoute"))
      then grant_routes s seen from
      else if bool_decide (f_Namespace f ∈ seen) then grant_routes s seen from
      else
        match klist (T := HTTPRoute) s (Some (f_Namespace f)) ∅ with
        | Err _ => []
        | Ok routes => map key routes
        end ++ grant_routes s (f_Namespace f :: seen) from
  end.
Definition httproutesForReferenceGrant (s : S) (grant : ReferenceGrant) : list NamespacedName :=
  grant_routes s [] (rg_From grant).
End reconcile.

(** * Lemmas *)

(** ** Grants *)
Section permitted.
Context {S : Type} `{!Store S ReferenceGrant}.

(** The Gateway API's rule for a cross-namespace backend. *)
Definition bref_granted (s : S) (route : HTTPRoute) (bref : HTTPBackendRef) : Prop :=
  bref_ns route bref ≠ Namespace (rt_meta route) → ∃ grants,
    klist s (Some (bref_ns route bref)) ∅ = Ok grants ∧
    granted grants (route_from route) (service_to bref).

Lemma brefs_permitted_true s route brefs :
  brefs_permitted s route brefs = Ok true ↔ Forall (bref_granted s route) brefs.
Proof.
  induction brefs as [|bref brefs IH]; cbn [brefs_permitted]; [by split|].
  rewrite Forall_cons, <- IH. unfold bref_granted.
  destruct (bool_decide (bref_ns route bref = Namespace (rt_meta route))) eqn:Hns; bools.
  - split; [|by intros [_ ?]]. by split.
  - destruct (klist s (Some (bref_ns route bref)) ∅) as [grants|e]; cbn.
    + setoid_rewrite <- Allows_granted.
      destruct (Allows grants (route_from route) (service_to bref)) eqn:Ha.
      * split; [|by intros [_ ?]]. intros ?. split; [|done]. intros _. eauto.
      * split; [done|]. intros [(g & [= <-] & ?) _]; [done|congruence].
    + split; [done|]. intros [(g & [=] & _) _]; done.
Qed.
Lemma backendRefsPermitted_true s route :
  backendRefsPermitted s route = Ok true ↔
  ∀ hr bref, hr ∈ rt_Rules route → bref ∈ hr_BackendRefs hr → bref_granted s route bref.
Proof.
  unfold backendRefsPermitted. rewrite brefs_permitted_true, Forall_forall.
  setoid_rewrite list_elem_of_bind. naive_solver.
Qed.
End permitted.

(** ** The entries written *)
Lemma all_equal_refl {A} (eq : A → A → bool) l : (∀ x, eq x x = true) → all_equal eq l l = true.
Proof. intros H. induction l as [|x l IH]; [done|]. simpl. by rewrite H, IH. Qed.
Lemma all_equal_app_inv {A} (eq : A → A → bool) (l a b : list A) :
  all_equal eq l (a ++ b) = true → ∃ la lb, l = la ++ lb ∧ all_equal eq la a = true ∧
    all_equal eq lb b = true.
Proof.
  revert l. induction a as [|x a IH]; intros l; simpl.
  - intros H. by exists [], l.
  - destruct l as [|y l]; [done|]. intros [H (la & lb & -> & Ha & Hb)%IH]%andb_true_iff.
    exists (y :: la), lb. split; [done|]. simpl. by rewrite H, Ha, Hb.
Qed.
Lemma all_equal_elem {A} (eq : A → A → bool) l k x :
  all_equal eq l k = true → x ∈ l → ∃ y, y ∈ k ∧ eq x y = true.
Proof.
  revert k. induction l as [|z l IH]; intros [|y k]; simpl; try done.
  - by intros _ ?%not_elem_of_nil.
  - intros [H1 H2]%andb_true_iff [->|Hx]%elem_of_cons.
    + exists y. split; [by left | done].
    + destruct (IH _ H2 Hx) as (w & ? & ?). exists w. split; [by right | done].
Qed.

Section entries.
Context {S : Type} `{!Store S Gateway, !Store S GatewayClass, !Store S HTTPRoute, !Store S ReferenceGrant}.

Lemma build_entry now s route parents p :
  buildRouteParentStatuses now s route = Ok parents → p ∈ parents →
  ∃ resolved pr listener cond rcond, backendRefsPermitted s route = Ok resolved ∧
    pr ∈ rt_ParentRefs route ∧ parentManagedByUs s pr (Namespace (rt_meta route)) = Ok (true, listener) ∧
    p = {| ps_ParentRef := pr; ps_ControllerName := ControllerName; ps_Conditions := [cond; rcond] |} ∧
    c_Type cond = "Accepted" ∧ c_Type rcond = "ResolvedRefs" ∧
    c_Status cond = (if listener then ConditionTrue else ConditionFalse) ∧
    c_Status rcond = (if resolved then ConditionTrue else ConditionFalse).
Proof.
  unfold buildRouteParentStatuses.
  intros (resolved & -> & (out & Hout%collect_Ok & [= <-])%rbind_Ok)%rbind_Ok Hp.
  apply list_elem_of_In, in_concat in Hp as (l & Hl & Hp).
  apply list_elem_of_In in Hl, Hp.
  apply list_elem_of_lookup in Hl as [i Hl].
  destruct (Forall2_lookup_r _ _ _ _ _ Hout Hl) as (pr & Hpr & Hst).
  apply rbind_Ok in Hst as ([managed listener] & Hm & Hst).
  destruct managed; cbn [negb] in Hst; injection Hst as <-; [|by apply not_elem_of_nil in Hp].
  apply list_elem_of_singleton in Hp as ->.
  exists resolved, pr, listener. do 2 eexists. split; [done|].
  split; [by eapply list_elem_of_lookup_2|]. split; [done|]. split; [done|].
  by destruct listener, resolved.
Qed.

Lemma build_ours now s route parents :
  buildRouteParentStatuses now s route = Ok parents → Forall (λ p, ¬ foreign p) parents.
Proof.
  intros Hb. apply Forall_forall. intros p Hp.
  destruct (build_entry now s route parents p Hb Hp) as (?&?&?&?&?&_&_&_&->&_). unfold foreign. auto.
Qed.
End entries.

(** ** Reading the ResolvedRefs condition back *)
Lemma refs_resolved_true parents ns gw :
  refs_resolved parents ns gw = true →
  ∃ p, p ∈ parents ∧ parent_is p ns gw = true ∧ resolved_condition (ps_Conditions p) = Some true.
Proof.
  induction parents as [|p parents IH]; simpl; [done|].
  destruct (parent_is p ns gw) eqn:Hp; cbn [negb].
  - destruct (resolved_condition (ps_Conditions p)) as [b|] eqn:Hr.
    + intros ->. exists p. split; [by left | done].
    + intros (q & ? & ?)%IH. exists q. split; [by right | done].
  - intros (q & ? & ?)%IH. exists q. split; [by right | done].
Qed.
Lemma resolved_condition_shape cs ds :
  all_equal conditionEqual cs ds = true → resolved_condition cs = resolved_condition ds.
Proof.
  revert ds. induction cs as [|c cs IH]; intros [|d ds]; simpl; try done.
  intros [Hc Hds]%andb_true_iff. apply conditionEqual_shape in Hc. injection Hc as Ht Hs _.
  rewrite Ht, Hs. by rewrite (IH _ Hds).
Qed.
(** Each of our entries after the merge says the same as one of the entries computed. *)
Lemma merged_entry route desired p :
  p ∈ rt_Parents (mergeRouteParentStatuses route desired).1 →
  (foreign p ∧ p ∈ rt_Parents route) ∨ ∃ q, q ∈ desired ∧
    resolved_condition (ps_Conditions p) = resolved_condition (ps_Conditions q).
Proof.
  unfold mergeRouteParentStatuses. destruct (routeParentsEqual _ _) eqn:Heq; simpl; intros Hp.
  - destruct (decide (foreign p)) as [Hf|Hf]; [by left|]. right.
    destruct (all_equal_elem _ _ _ _ Heq Hp) as (q & Hq & Hpq).
    unfold routeParentEqual in Hpq. bools.
    apply elem_of_app in Hq as [[Hq _]%list_elem_of_filter|Hq].
    + destruct Hf. unfold foreign in *. congruence.
    + exists q. split; [done|]. by apply resolved_condition_shape.
  - apply elem_of_app in Hp as [[? ?]%list_elem_of_filter|Hp]; [by left|]. right. by exists p.
Qed.

Section properties.
Context {S : Type} `{!Store S Gateway, !Store S GatewayClass, !Store S HTTPRoute, !Store S ReferenceGrant}.

(** C10.  From the API to the data path, cross-namespace backends need a grant: once a route's
    status is reconciled, every backend the router compiles from it for a Gateway and that is
    outside the route's namespace is the target of a backendRef some ReferenceGrant of the
    backend's namespace allowed.  Entries of other controllers are assumed not to be about this
    Gateway, because the router does not look at the controller name. *)
Theorem served_cross_namespace_granted now (s : S) route parents gw r b
    (Hbuild : buildRouteParentStatuses now s route = Ok parents)
    (Hforeign : ∀ p, p ∈ rt_Parents route → foreign p →
       parent_is p (Namespace (rt_meta route)) gw = false)
    (Hr : r ∈ rulesForRoute gw (mergeRouteParentStatuses route parents).1)
    (Hb : b ∈ r_Backends r) (Hns : b_Namespace b ≠ Namespace (rt_meta route)) :
  ∃ hr bref grants, hr ∈ rt_Rules route ∧ bref ∈ hr_BackendRefs hr ∧
    b_Name b = br_Name bref ∧ b_Namespace b = bref_ns route bref ∧
    klist s (Some (b_Namespace b)) ∅ = Ok grants ∧
    granted grants (route_from route) (service_to bref).
Proof.
  assert (meta (mergeRouteParentStatuses route parents).1 = rt_meta route ∧
    rt_Rules (mergeRouteParentStatuses route parents).1 = rt_Rules route) as [Hm Hrules].
  { unfold mergeRouteParentStatuses. by destruct (routeParentsEqual _ _). }
  destruct (rulesForRoute_backend _ _ _ _ Hr Hb) as [(hr & bref & Hhr & Hbref & ->) Hres].
  rewrite Hm, Hrules in *. destruct Hres as [?|Hres]; [done|].
  unfold refsResolvedFor in Hres. rewrite Hm in Hres.
  apply refs_resolved_true in Hres as (p & Hp & Hpar & Hrc).
  apply merged_entry in Hp as [[Hf Hp]|(q & Hq & Hsame)].
  { rewrite (Hforeign p Hp Hf) in Hpar. done. }
  destruct (build_entry now s route parents q Hbuild Hq)
    as (resolved & pr & listener & cond & rcond & Hperm & _ & _ & -> & Hc1 & Hc2 & _ & Hst).
  rewrite Hsame in Hrc. cbn in Hrc. rewrite Hc1, Hc2, Hst in Hrc.
  destruct resolved; [|discriminate Hrc].
  destruct (proj1 (backendRefsPermitted_true s route) Hperm hr bref Hhr Hbref) as (grants & Hl & Hg);
    [done|].
  exists hr, bref, grants. do 4 (split; [done|]). by split.
Qed.

(** A route's own status entries are exactly one per parent managed here, in the order of
    the parentRefs, Accepted is False exactly when the section names no listener, and
    ResolvedRefs is True exactly when every cross-namespace backendRef is granted; merging them
    keeps the entries of other controllers as they were, and an unchanged report leaves the
    route as it is. *)
Theorem route_status_spec now (s : S) route parents
    (Hbuild : buildRouteParentStatuses now s route = Ok parents) :
  let '(route', changed) := mergeRouteParentStatuses route parents in
  (∃ managed, Forall2 (λ pr (m : bool * bool),
       parentManagedByUs s pr (Namespace (rt_meta route)) = Ok m) (rt_ParentRefs route) managed ∧
     Forall2 (λ prm p, ps_ParentRef p = prm.1 ∧ ps_ControllerName p = ControllerName ∧
       ∃ cond rcond, ps_Conditions p = [cond; rcond] ∧
         c_Type cond = "Accepted" ∧ (c_Status cond = ConditionTrue ↔ prm.2.2 = true) ∧
         c_Type rcond = "ResolvedRefs" ∧ (c_Status rcond = ConditionTrue ↔
           ∀ hr bref, hr ∈ rt_Rules route → bref ∈ hr_BackendRefs hr → bref_granted s route bref))
       (filter (λ prm, prm.2.1 = true) (zip (rt_ParentRefs route) managed)) parents) ∧
  filter foreign (rt_Parents route') = filter foreign (rt_Parents route) ∧
  rt_meta route' = rt_meta route ∧ rt_ParentRefs route' = rt_ParentRefs route ∧
  rt_Rules route' = rt_Rules route ∧
  (changed = true → rt_Parents route' = filter foreign (rt_Parents route) ++ parents) ∧
  (changed = false → route' = route).
Proof.
  pose proof (build_ours now s route parents Hbuild) as Hours.
  destruct (mergeRouteParentStatuses route parents) as [route' changed] eqn:Hm. split.
  - unfold buildRouteParentStatuses in Hbuild.
    apply rbind_Ok in Hbuild as (resolved & Hperm & (out & Hout & [= <-])%rbind_Ok).
    assert (resolved = true ↔ ∀ hr bref, hr ∈ rt_Rules route → bref ∈ hr_BackendRefs hr →
      bref_granted s route bref) as Hres.
    { rewrite <- backendRefsPermitted_true, Hperm. split; [by intros -> | by intros [= ->]]. }
    apply collect_Ok in Hout. clear Hours Hm.
    induction Hout as [|pr l refs out Hst Hout (managed & IH1 & IH2)].
    { exists []. split; constructor. }
    apply rbind_Ok in Hst as ([m listener] & Hpm & Hl).
    exists ((m, listener) :: managed). split; [by constructor|]. simpl.
    rewrite filter_cons. simpl. destruct m; cbn [negb] in Hl; injection Hl as <-; simpl; [|done].
    constructor; [|done]. simpl. do 2 (split; [done|]). do 2 eexists. split; [done|].
    destruct listener, resolved; cbn; do 2 (split; [done|]); (split; [done|]);
      rewrite <- Hres; done.
  - unfold mergeRouteParentStatuses in Hm. destruct (routeParentsEqual _ _); injection Hm as <- <-.
    + done.
    + split; [|done]. simpl. rewrite filter_app, list_filter_filter.
      rewrite (list_filter_iff _ foreign) by (intros; tauto).
      assert (filter foreign parents = []) as ->; [|by rewrite app_nil_r].
      clear -Hours. induction Hours; [done|]. by rewrite filter_cons_False.
Qed.
End properties.

(** ** Attached routes *)
(** The parentRefs of the routes, with the namespace they are read in. *)
Definition parent_refs (routes : list HTTPRoute) : list (string * ParentReference) :=
  routes ≫= λ r, map (pair (Namespace (rt_meta r))) (rt_ParentRefs r).
(** A parentRef attaches to a listener: of this Gateway, and by its name or without one. *)
Definition attaches (gwName gwNS listener : string) (r : string * ParentReference) : bool :=
  parentRefMatches r.2 gwName gwNS r.1 &&
  match pr_SectionName r.2 with Some n => bool_decide (n = listener) | None => true end.
Definition attached (gwName gwNS listener : string) (routes : list HTTPRoute) : nat :=
  length (filter (λ r, attaches gwName gwNS listener r = true) (parent_refs routes)).

Lemma count_ref_lookup gwName gwNS routeNS counts pr n :
  count_ref gwName gwNS routeNS counts pr !! n =
  (if attaches gwName gwNS n (routeNS, pr) then incr else id) <$> counts !! n.
Proof.
  unfold count_ref, attaches. cbn [fst snd].
  destruct (parentRefMatches pr gwName gwNS routeNS); cbn [negb andb].
  2:{ by destruct (counts !! n). }
  destruct (pr_SectionName pr) as [section|].
  - destruct (decide (section = n)) as [->|Hne].
    + by rewrite bool_decide_true, lookup_alter_eq.
    + rewrite bool_decide_false, lookup_alter_ne by done. by destruct (counts !! n).
  - apply lookup_fmap.
Qed.
Lemma count_routes_lookup gwName gwNS counts routes n :
  foldl (count_route gwName gwNS) counts routes !! n =
  Nat.iter (attached gwName gwNS n routes) incr <$> counts !! n.
Proof.
  assert (∀ ns refs counts, foldl (count_ref gwName gwNS ns) counts refs !! n =
    Nat.iter (length (filter (λ r, attaches gwName gwNS n r = true) (map (pair ns) refs))) incr
      <$> counts !! n) as Hrefs.
  { clear. intros ns refs. induction refs as [|pr refs IH]; intros counts; simpl.
    - by destruct (counts !! n).
    - rewrite IH, count_ref_lookup, filter_cons.
      destruct (attaches gwName gwNS n (ns, pr)); destruct (counts !! n); simpl; try done.
      f_equal. apply (eq_sym (Nat.iter_succ_r (length (filter _ _)) incr z)). }
  unfold attached. revert counts. induction routes as [|route routes IH]; intros counts; simpl.
  - by destruct (counts !! n).
  - rewrite IH. unfold count_route. rewrite Hrefs. unfold parent_refs.
    destruct (counts !! n); simpl; [|done]. f_equal.
    rewrite filter_app, length_app, Nat.add_comm. symmetry. apply Nat.iter_add.
Qed.
Lemma iter_incr n : Nat.iter n incr 0%Z = wrap32 (Z.of_nat n).
Proof.
  induction n as [|n IH]; [done|]. rewrite Nat.iter_succ, IH. unfold incr, wrap32. 
  rewrite Nat2Z.inj_succ. f_equal.
  replace (((Z.of_nat n + 2 ^ 31) mod 2 ^ 32 - 2 ^ 31 + 1 + 2 ^ 31))%Z
    with ((Z.of_nat n + 2 ^ 31) mod 2 ^ 32 + 1)%Z by lia.
  rewrite Zplus_mod_idemp_l. f_equal. lia.
Qed.
Lemma zero_counts_lookup gw n :
  zero_counts gw !! n = if bool_decide (n ∈ map l_Name (gw_Listeners gw)) then Some 0%Z else None.
Proof.
  unfold zero_counts.
  assert (∀ (ls : list Listener) (m : gmap string Z),
    foldl (λ m l, <[l_Name l := 0%Z]> m) m ls !! n =
    if bool_decide (n ∈ map l_Name ls) then Some 0%Z else m !! n) as H; [|by rewrite H].
  clear. intros ls. induction ls as [|l ls IH]; intros m; simpl.
  - done.
  - rewrite IH. destruct (bool_decide (n ∈ map l_Name ls)) eqn:Hn; bools.
    + by rewrite bool_decide_true by (by right).
    + destruct (decide (n = l_Name l)) as [->|Hne].
      * rewrite bool_decide_true by (by left). apply lookup_insert_eq.
      * rewrite bool_decide_false by (intros [?|?]%elem_of_cons; done). by apply lookup_insert_ne.
Qed.
Lemma attached_counts_lookup gwName gwNS gw routes n :
  default 0%Z (attached_counts gwName gwNS gw routes !! n) =
  if bool_decide (n ∈ map l_Name (gw_Listeners gw))
  then wrap32 (Z.of_nat (attached gwName gwNS n routes)) else 0%Z.
Proof.
  unfold attached_counts. rewrite count_routes_lookup, zero_counts_lookup.
  destruct (bool_decide _); simpl; [apply iter_incr | done].
Qed.
Lemma count_changed_false counts l : count_changed counts l = false ↔ recount counts l = l.
Proof.
  unfold count_changed, recount. induction l as [|ls l IH]; simpl; [done|].
  rewrite orb_false_iff, negb_false_iff, bool_decide_eq_true, IH. split.
  - intros [H ->]. rewrite <- H. by destruct ls.
  - intros H. injection H as H1 H2. split; [|done]. by rewrite <- H1 at 1.
Qed.

Section attached_routes.
Context {S : Type} `{!Store S Gateway, !Store S HTTPRoute}.

(** After a successful count the Gateway's listener statuses carry, for each listener of
    its spec, the number of parentRefs of all HTTPRoutes that name the Gateway and either this
    section or none, modulo 2^32 as an int32 holds it, and zero for a status without a
    listener; everything else in the status stays, and when the counts are right already
    nothing is written. *)
Theorem attached_routes_counted gwName gwNS (s s' : S) (gw : Gateway) (routes : list HTTPRoute)
    (Hgw : kget s {| nn_Name := gwName; nn_Namespace := gwNS |} = Ok gw)
    (Hroutes : klist s None ∅ = Ok routes)
    (Hrun : updateGatewayAttachedRoutes gwName gwNS s = (s', Ok ())) :
  ∃ listeners,
    Forall2 (λ ls ls', ls' = with_AttachedRoutes
        (if bool_decide (ls_Name ls ∈ map l_Name (gw_Listeners gw))
         then wrap32 (Z.of_nat (attached gwName gwNS (ls_Name ls) routes)) else 0%Z) ls)
      (gs_Listeners (gw_Status gw)) listeners ∧
    (s' = s ∧ listeners = gs_Listeners (gw_Status gw) ∨
     ∃ gw', kupdate_status (with_gw_Status (with_gs_Listeners listeners (gw_Status gw)) gw) s = (s', Ok gw')).
Proof.
  exists (recount (attached_counts gwName gwNS gw routes) (gs_Listeners (gw_Status gw))). split.
  - apply Forall2_fmap_r, Forall_Forall2_diag, Forall_forall. intros ls _. simpl.
    by rewrite attached_counts_lookup.
  - unfold updateGatewayAttachedRoutes in Hrun.
    apply bind_Ok in Hrun as (s1 & found & [-> Hf]%find_Ok & Hrun). destruct found as [g|]; [|congruence].
    rewrite Hgw in Hf. injection Hf as ->.
    unfold bind at 1, read, gets in Hrun. rewrite Hroutes in Hrun. cbn [wrap_err] in Hrun.
    destruct (count_changed _ _) eqn:Hc; cbn [negb] in Hrun.
    + right. apply bind_Ok in Hrun as (s1 & gw' & Hu%wrap_Ok & [= <-]). by exists gw'.
    + left. injection Hrun as <-. split; [done|]. by apply count_changed_false.
Qed.
End attached_routes.

(** Two parentRefs of one route to the same Gateway count twice. *)
Lemma route_counted_twice : ∃ route, attached "onion" "tor" "http" [route] = 2.
Proof.
  exists {| rt_meta := new_meta "shop" "tor" ∅;
    rt_ParentRefs := [{| pr_Group := None; pr_Kind := None; pr_Namespace := None; pr_Name := "onion";
                         pr_SectionName := None |};
                      {| pr_Group := None; pr_Kind := None; pr_Namespace := None; pr_Name := "onion";
                         pr_SectionName := Some "http" |}];
    rt_Rules := []; rt_Parents := [] |}. vm_compute. reflexivity.
Qed.

(** ** A concrete route *)
Definition example_grant : ReferenceGrant := {|
  rg_meta := new_meta "from-apps" "backend" ∅;
  rg_From := [{| f_Group := GatewayAPIGroup; f_Kind := "HTTPRoute"; f_Namespace := "apps" |}];
  rg_To := [{| t_Group := ""; t_Kind := "Service"; t_Name := Some "api" |}] |}.
Definition counted_gateway : Gateway := with_gw_Status
  {| gs_Addresses := []; gs_Conditions := [];
     gs_Listeners := [{| ls_Name := "http"; ls_SupportedKinds := []; ls_AttachedRoutes := 0;
                         ls_Conditions := [] |}] |} example_gateway.
Definition route_cluster : Cluster :=
  cluster [obj example_class; obj counted_gateway; obj example_grant; obj (route_example "False")].
Definition onion_key : NamespacedName := {| nn_Namespace := "tor"; nn_Name := "onion" |}.
Definition api_backend : Backend := {| b_Namespace := "backend"; b_Name := "api"; b_Port := 8080 |}.

Lemma served_cross_namespace_granted_witness : ∃ parents r,
  buildRouteParentStatuses 7 route_cluster (route_example "False") = Ok parents ∧
  r ∈ rulesForRoute onion_key (mergeRouteParentStatuses (route_example "False") parents).1 ∧
  ∃ hr bref grants, hr ∈ rt_Rules (route_example "False") ∧ bref ∈ hr_BackendRefs hr ∧
    b_Name api_backend = br_Name bref ∧ b_Namespace api_backend = bref_ns (route_example "False") bref ∧
    klist (S := Cluster) route_cluster (Some (b_Namespace api_backend)) ∅ = Ok grants ∧
    granted grants (route_from (route_example "False")) (service_to bref).
Proof.
  assert (∃ parents, buildRouteParentStatuses 7 route_cluster (route_example "False") = Ok parents)
    as [parents Hb] by (eexists; vm_compute; reflexivity).
  assert (∃ rl, head (rulesForRoute onion_key
    (mergeRouteParentStatuses (route_example "False") parents).1) = Some rl ∧
    api_backend ∈ r_Backends rl) as (rl & Hrl & Hin).
  { vm_compute in Hb. injection Hb as <-. vm_compute. eexists. split; [reflexivity|]. by left. }
  exists parents, rl. split; [exact Hb|]. apply head_Some_elem_of in Hrl. split; [exact Hrl|].
  apply (served_cross_namespace_granted 7 route_cluster (route_example "False") parents onion_key rl).
  - exact Hb.
  - intros p Hp Hf. destruct Hf. apply list_elem_of_singleton in Hp as ->. reflexivity.
  - exact Hrl.
  - exact Hin.
  - discriminate.
Defined.

Lemma route_status_spec_witness : ∃ parents,
  buildRouteParentStatuses 7 route_cluster (route_example "False") = Ok parents ∧
  map (λ p, map c_Status (ps_Conditions p)) parents = [["True"; "True"]] ∧
  filter foreign (rt_Parents (mergeRouteParentStatuses (route_example "False") parents).1) = [].
Proof.
  assert (∃ parents, buildRouteParentStatuses 7 route_cluster (route_example "False") = Ok parents ∧
    map (λ p, map c_Status (ps_Conditions p)) parents = [["True"; "True"]])
    as (parents & Hb & Hs) by (eexists; split; vm_compute; reflexivity).
  exists parents. split; [exact Hb|]. split; [exact Hs|].
  pose proof (route_status_spec 7 route_cluster (route_example "False") parents Hb) as H.
  destruct (mergeRouteParentStatuses (route_example "False") parents) as [route' changed].
  destruct H as (_ & Hk & _). cbn [fst]. rewrite Hk. vm_compute. reflexivity.
Defined.

Lemma attached_routes_counted_witness : ∃ c listeners,
  updateGatewayAttachedRoutes "onion" "tor" route_cluster = (c, Ok ()) ∧ writes c = 1 ∧
  Forall2 (λ ls ls', ls' = with_AttachedRoutes
      (if bool_decide (ls_Name ls ∈ map l_Name (gw_Listeners counted_gateway))
       then wrap32 (Z.of_nat (attached "onion" "tor" (ls_Name ls) [route_example "False"])) else 0%Z) ls)
    (gs_Listeners (gw_Status counted_gateway)) listeners.
Proof.
  assert (∃ c, updateGatewayAttachedRoutes "onion" "tor" route_cluster = (c, Ok ()) ∧ writes c = 1)
    as (c & Hc & Hw) by (eexists; split; vm_compute; reflexivity).
  destruct (attached_routes_counted "onion" "tor" route_cluster c counted_gateway [route_example "False"])
    as (listeners & Hl & _); [vm_compute; reflexivity | vm_compute; reflexivity | exact Hc |].
  exists c, listeners. split; [exact Hc|]. split; [exact Hw | exact Hl].
Defined.
