(* ===== verification/NetPol.v ===== *)
(** * The NetworkPolicy of a Gateway (internal/controller/network_policy.go and
      network_policy_resolve.go)

    The pods of a Gateway may reach DNS, the API server, the backends of the routes attached
    to it, and either the public internet or a test network. *)

From Stdlib Require Import ZArith.
From S2P Require Import Prelude Monad GoStrings KubeTypes Router Kube Names RefGrant Status.
From S2P Require Import Policies HTTPRouteCtl.

Record ResolvedBackend := {
  rb_Namespace : string;
  rb_PodSelector : gmap string string;
  rb_TargetPort : IntOrString;
  rb_Protocol : string;
}.

(** ** network_policy_resolve.go *)
(** [resolveTargetPort]: the first port of that number. *)
Fixpoint target_port (ports : list ServicePort) (requested : Z) : option (IntOrString * string) :=
  match ports with
  | [] => None
  | p :: ports =>
      if negb (bool_decide (sp_Port p = requested)) then target_port ports requested
      else
        let proto := if bool_decide (sp_Protocol p = "") then "TCP" else sp_Protocol p in
        let tp := if bool_decide (sp_TargetPort p = IntPort 0) then IntPort (sp_Port p) else sp_TargetPort p in
        Some (tp, proto)
  end.
Definition resolveTargetPort (svc : Service) (requested : Z) : option (IntOrString * string) :=
  target_port (svc_Ports svc) requested.

(** A loop that threads a state and may stop with an error. *)
Fixpoint rfold {E A X : Type} (f : A → X → result E A) (a : A) (l : list X) : result E A :=
  match l with
  | [] => Ok a
  | x :: l => let* a := f a x in rfold f a l
  end.

Section resolve.
Context {S : Type} `{!Store S ReferenceGrant, !Store S Service}.
(** The order in which [range] visits the backends found. *)
Context (range : gmap (string * string) ResolvedBackend → list ResolvedBackend).

Definition grantsIn (s : S) (ns : string) (cache : gmap string (list ReferenceGrant))
  : result error (list ReferenceGrant * gmap string (list ReferenceGrant)) :=
  match cache !! ns with
  | Some v => Ok (v, cache)
  | None =>
      let* items := wrap_err (ErrWrap ("list ReferenceGrants in " +:+ ns) ∘ ErrApi)
                      (klist (T := ReferenceGrant) s (Some ns) ∅) in
      Ok (items, <[ns := items]> cache)
  end.

(** The backends seen, by namespace and name, and the grants listed. *)
Record resolving := {
  seen : gmap (string * string) ResolvedBackend;
  grantCache : gmap string (list ReferenceGrant);
}.
Definition resolve_granted (s : S) (route : HTTPRoute) (ref : HTTPBackendRef) (st : resolving)
  : result error (bool * resolving) :=
  let ns := bref_ns route ref in
  if bool_decide (ns = Namespace (rt_meta route)) then Ok (true, st)
  else
    let* (grants, cache) := grantsIn s ns (grantCache st) in
    Ok (Allows grants (route_from route) (service_to ref), {| seen := seen st; grantCache := cache |}).
Definition resolve_service (s : S) (ns : string) (ref : HTTPBackendRef) (st : resolving)
  : result error resolving :=
  match kget s {| nn_Namespace := ns; nn_Name := br_Name ref |} with
  | Err NotFound => Ok st
  | Err e => Err (ErrWrap ("get Service " +:+ ns +:+ "/" +:+ br_Name ref) (ErrApi e))
  | Ok svc =>
      if bool_decide (svc_Selector svc = ∅) then Ok st
      else match resolveTargetPort svc (default 0%Z (br_Port ref)) with
           | None => Ok st
           | Some (target, proto) =>
               Ok {| seen := <[(ns, br_Name ref) :=
                       {| rb_Namespace := ns; rb_PodSelector := svc_Selector svc;
                          rb_TargetPort := target; rb_Protocol := proto |}]> (seen st);
                     grantCache := grantCache st |}
           end
  end.
Definition resolve_ref (s : S) (route : HTTPRoute) (st : resolving) (ref : HTTPBackendRef)
  : result error resolving :=
  let* (allowed, st) := resolve_granted s route ref st in
  if allowed then resolve_service s (bref_ns route ref) ref st else Ok st.
Definition resolve_route (s : S) (st : resolving) (route : HTTPRoute) : result error resolving :=
  rfold (resolve_ref s route) st (rt_Rules route ≫= hr_BackendRefs).
Definition resolveBackends (s : S) (routes : list HTTPRoute) : result error (list ResolvedBackend) :=
  let* st := rfold (resolve_route s) {| seen := ∅; grantCache := ∅ |} routes in
  Ok (range (seen st)).
End resolve.

(** ** network_policy.go *)
Definition firstLabelKey (m : gmap string string) : string :=
  match sort_strings (map fst (map_to_list m)) with [] => "" | k :: _ => k end.

(** [intstr.IntOrString.String]. *)
Definition IntOrString_String (p : IntOrString) : string :=
  match p with IntPort n => Itoa n | StrPort s => s end.
Definition str_less (a b : string) : bool := negb (bool_decide (String.le b a)).
Definition backend_less (a b : ResolvedBackend) : bool :=
  if negb (bool_decide (rb_Namespace a = rb_Namespace b))
  then str_less (rb_Namespace a) (rb_Namespace b)
  else
    let pa := IntOrString_String (rb_TargetPort a) in
    let pb := IntOrString_String (rb_TargetPort b) in
    if negb (bool_decide (pa = pb)) then str_less pa pb
    else str_less (firstLabelKey (rb_PodSelector a)) (firstLabelKey (rb_PodSelector b)).
(** [sort.SliceStable]. *)
Fixpoint insert_stable {A} (less : A → A → bool) (x : A) (l : list A) : list A :=
  match l with
  | [] => [x]
  | y :: l => if less y x then y :: insert_stable less x l else x :: y :: l
  end.
Definition SliceStable {A} (less : A → A → bool) (l : list A) : list A :=
  foldr (insert_stable less) [] l.

Definition namespace_peer (ns : string) (pods : option (gmap string string)) : NetworkPolicyPeer :=
  {| np_NamespaceSelector := Some {[ "kubernetes.io/metadata.name" := ns ]};
     np_PodSelector := pods; np_IPBlock := None |}.
Definition policy_port (proto : string) (p : IntOrString) : NetworkPolicyPort :=
  {| npp_Protocol := Some proto; npp_Port := Some p; npp_EndPort := None |}.

Definition dnsEgress : NetworkPolicyEgressRule :=
  {| eg_To := [namespace_peer "kube-system" None];
     eg_Ports := [policy_port "UDP" (IntPort 53); policy_port "TCP" (IntPort 53)] |}.
Definition apiserverEgress : NetworkPolicyEgressRule :=
  {| eg_To := [namespace_peer "kube-system" None];
     eg_Ports := [policy_port "TCP" (IntPort 6443); policy_port "TCP" (IntPort 443)] |}.
Definition publicInternetEgress (clusterPodCIDRs : list string) : NetworkPolicyEgressRule :=
  {| eg_To := [{| np_NamespaceSelector := None; np_PodSelector := None;
                  np_IPBlock := Some {| ip_CIDR := "0.0.0.0/0"; ip_Except := clusterPodCIDRs |} |}];
     eg_Ports := [] |}.
Definition chutneyPodLabel : string := "chutney".
Definition chutneyORPortFirst : Z := 5000.
Definition chutneyORPortLast : Z := 5005.
Definition chutneyDirPortFirst : Z := 7000.
Definition chutneyDirPortLast : Z := 7005.
Definition testingNetworkEgress (namespace : string) : NetworkPolicyEgressRule :=
  {| eg_To := [namespace_peer namespace (Some {[ "app" := chutneyPodLabel ]})];
     eg_Ports := [
       {| npp_Protocol := Some "TCP"; npp_Port := Some (IntPort chutneyORPortFirst);
          npp_EndPort := Some chutneyORPortLast |};
       {| npp_Protocol := Some "TCP"; npp_Port := Some (IntPort chutneyDirPortFirst);
          npp_EndPort := Some chutneyDirPortLast |}] |}.
Definition backendEgress (b : ResolvedBackend) : NetworkPolicyEgressRule :=
  {| eg_To := [namespace_peer (rb_Namespace b) (Some (rb_PodSelector b))];
     eg_Ports := [policy_port (rb_Protocol b) (rb_TargetPort b)] |}.

Definition BuildNetworkPolicy `{Controlled} (gw : Gateway) (backends : list ResolvedBackend)
    (clusterPodCIDRs : list string) (testingNetworkNamespace : string) : result error NetworkPolicy :=
  match filter (λ b, rb_PodSelector b = ∅) backends with
  | b :: _ => Err (ErrText ("BuildNetworkPolicy: backend in ns " +:+ Quote (rb_Namespace b) +:+
                            " has empty PodSelector"))
  | [] =>
      let last := if negb (bool_decide (testingNetworkNamespace = ""))
                  then testingNetworkEgress testingNetworkNamespace
                  else publicInternetEgress clusterPodCIDRs in
      let egress := [dnsEgress; apiserverEgress] ++
                    map backendEgress (SliceStable backend_less backends) ++ [last] in
      SetControllerReference (gw_meta gw)
        {| netpol_meta := new_meta (NetworkPolicyName (gw_name gw)) (gw_ns gw) (ChildLabels (gw_name gw));
           netpol_Spec := Some {| nps_PodSelector := ChildLabels (gw_name gw);
                                  nps_PolicyTypes := ["Egress"]; nps_Egress := egress |} |}
  end.

(** * What the policy lets through *)

(** A destination: the namespace and labels of the pod it is, if it is one, its address and
    the port, by number or by the name the pod gives it. *)
Record destination := {
  dst_Pod : option (string * gmap string string);
  dst_IP : string;
  dst_Port : IntOrString;
  dst_Protocol : string;
}.

Section semantics.
(** Whether an address is in a CIDR block. *)
Context (in_cidr : string → string → bool).

(** The documented meaning of a policy's egress rules: namespaces carry their name as a label,
    the selectors of a peer must both match, an exception takes addresses out of its block,
    and no ports means all of them. *)
Definition matches_selector (sel : option (gmap string string)) (labels : gmap string string) : bool :=
  match sel with Some m => bool_decide (m ⊆ labels) | None => true end.
Definition peer_matches (p : NetworkPolicyPeer) (d : destination) : bool :=
  match np_IPBlock p with
  | Some b => in_cidr (ip_CIDR b) (dst_IP d) && negb (existsb (λ c, in_cidr c (dst_IP d)) (ip_Except b))
  | None =>
      match dst_Pod d with
      | Some (ns, labels) =>
          matches_selector (np_NamespaceSelector p) {[ "kubernetes.io/metadata.name" := ns ]} &&
          matches_selector (np_PodSelector p) labels
      | None => false
      end
  end.
Definition port_matches (p : NetworkPolicyPort) (d : destination) : bool :=
  match npp_Protocol p with Some proto => bool_decide (proto = dst_Protocol d) | None => true end &&
  match npp_Port p with
  | Some (IntPort first) =>
      match dst_Port d, npp_EndPort p with
      | IntPort n, Some last => (first <=? n)%Z && (n <=? last)%Z
      | q, _ => bool_decide (q = IntPort first)
      end
  | Some q => bool_decide (q = dst_Port d)
  | None => true
  end.
Definition rule_permits (d : destination) (r : NetworkPolicyEgressRule) : bool :=
  existsb (λ p, peer_matches p d) (eg_To r) &&
  (bool_decide (length (eg_Ports r) = 0) || existsb (λ p, port_matches p d) (eg_Ports r)).
Definition permits (np : NetworkPolicy) (d : destination) : bool :=
  match netpol_Spec np with
  | Some spec => existsb (rule_permits d) (nps_Egress spec)
  | None => true
  end.

(** What the Gateway's pods are meant to reach. *)
Definition intended (backends : list ResolvedBackend) (cidrs : list string) (testing : string)
    (d : destination) : Prop :=
  (∃ labels, dst_Pod d = Some ("kube-system", labels) ∧
     (dst_Port d = IntPort 53 ∧ dst_Protocol d ∈ ["UDP"; "TCP"] ∨
      dst_Port d ∈ [IntPort 6443; IntPort 443] ∧ dst_Protocol d = "TCP")) ∨
  (∃ b labels, b ∈ backends ∧ dst_Pod d = Some (rb_Namespace b, labels) ∧
     rb_PodSelector b ⊆ labels ∧ dst_Port d = rb_TargetPort b ∧ dst_Protocol d = rb_Protocol b) ∨
  (testing = "" ∧ in_cidr "0.0.0.0/0" (dst_IP d) = true ∧
     ∀ c, c ∈ cidrs → in_cidr c (dst_IP d) = false) ∨
  (testing ≠ "" ∧ ∃ labels n, dst_Pod d = Some (testing, labels) ∧ labels !! "app" = Some "chutney" ∧
     dst_Port d = IntPort n ∧ dst_Protocol d = "TCP" ∧ (5000 ≤ n ≤ 5005 ∨ 7000 ≤ n ≤ 7005)%Z).

Lemma namespace_peer_matches ns pods d :
  peer_matches (namespace_peer ns pods) d = true ↔
  ∃ labels, dst_Pod d = Some (ns, labels) ∧ matches_selector pods labels = true.
Proof.
  unfold peer_matches, namespace_peer. cbn.
  destruct (dst_Pod d) as [[n labels]|]; [|split; [done | by intros (? & ? & _)]].
  rewrite andb_true_iff, bool_decide_eq_true, map_singleton_subseteq_l, lookup_singleton_Some. split.
  - intros [[_ <-] ?]. eauto.
  - intros (? & [= -> ->] & ?). done.
Qed.
End semantics.

Lemma policy_port_matches proto p d :
  port_matches (policy_port proto p) d = true ↔ dst_Port d = p ∧ dst_Protocol d = proto.
Proof.
  unfold port_matches, policy_port. cbn. rewrite andb_true_iff, bool_decide_eq_true.
  destruct p as [n|x], (dst_Port d) as [m|y]; rewrite bool_decide_eq_true; naive_solver.
Qed.
Lemma range_port_matches first last d :
  port_matches {| npp_Protocol := Some "TCP"; npp_Port := Some (IntPort first);
                  npp_EndPort := Some last |} d = true ↔
  ∃ n, dst_Port d = IntPort n ∧ dst_Protocol d = "TCP" ∧ (first ≤ n ≤ last)%Z.
Proof.
  unfold port_matches. cbn. rewrite andb_true_iff, bool_decide_eq_true.
  destruct (dst_Port d) as [m|y].
  - rewrite andb_true_iff, !Z.leb_le. naive_solver.
  - rewrite bool_decide_eq_true. naive_solver.
Qed.

(** ** Sorting *)
Lemma insert_stable_Permutation {A} (less : A → A → bool) x l : insert_stable less x l ≡ₚ x :: l.
Proof.
  induction l as [|y l IH]; simpl; [done|]. destruct (less y x); [|done]. rewrite IH. constructor.
Qed.
Lemma SliceStable_Permutation {A} (less : A → A → bool) l : SliceStable less l ≡ₚ l.
Proof.
  induction l as [|x l IH]; simpl; [done|]. by rewrite insert_stable_Permutation, IH.
Qed.

(** ** Owner references change the metadata only *)
Lemma SetControllerReference_spec `{Controlled} {T} `{Object T} owner (x y : T) :
  SetControllerReference owner x = Ok y → ∃ m, y = with_meta m x ∧
    Name m = Name (meta x) ∧ Namespace m = Namespace (meta x) ∧ Labels m = Labels (meta x) ∧
    Exists (λ o, or_UID o = UID owner ∧ or_Controller o = Some true) (OwnerReferences m).
Proof.
  unfold SetControllerReference. intros (m & Hm & [= <-])%rbind_Ok.
  apply set_controller_spec in Hm as [Hm Ho]. exists m. split; [done|].
  pose proof (f_equal Name Hm). pose proof (f_equal Namespace Hm). pose proof (f_equal Labels Hm). done.
Qed.

Section policy.
Context `{Controlled} (in_cidr : string → string → bool).

Lemma rule_permits_single d p ports :
  rule_permits in_cidr d {| eg_To := [p]; eg_Ports := ports |} = true ↔
  peer_matches in_cidr p d = true ∧ (ports = [] ∨ ∃ q, q ∈ ports ∧ port_matches q d = true).
Proof.
  unfold rule_permits. cbn [eg_To eg_Ports existsb].
  rewrite orb_false_r, andb_true_iff, orb_true_iff, bool_decide_eq_true, existsb_Exists, length_zero_iff_nil.
  done.
Qed.
Lemma backend_permits d b :
  rule_permits in_cidr d (backendEgress b) = true ↔
  ∃ labels, dst_Pod d = Some (rb_Namespace b, labels) ∧ rb_PodSelector b ⊆ labels ∧
    dst_Port d = rb_TargetPort b ∧ dst_Protocol d = rb_Protocol b.
Proof.
  unfold backendEgress. rewrite rule_permits_single, namespace_peer_matches. cbn [matches_selector].
  setoid_rewrite bool_decide_eq_true. setoid_rewrite list_elem_of_singleton. split.
  - intros [(labels & ? & ?) [?|(q & -> & ?%policy_port_matches)]]; [done|]. naive_solver.
  - intros (labels & ? & ? & ? & ?). split; [eauto|]. right. eexists. split; [done|].
    by apply policy_port_matches.
Qed.
Lemma system_permits d :
  rule_permits in_cidr d dnsEgress = true ∨ rule_permits in_cidr d apiserverEgress = true ↔
  ∃ labels, dst_Pod d = Some ("kube-system", labels) ∧
     (dst_Port d = IntPort 53 ∧ dst_Protocol d ∈ ["UDP"; "TCP"] ∨
      dst_Port d ∈ [IntPort 6443; IntPort 443] ∧ dst_Protocol d = "TCP").
Proof.
  unfold dnsEgress, apiserverEgress. rewrite !rule_permits_single, !namespace_peer_matches.
  cbn [matches_selector]. setoid_rewrite elem_of_cons. setoid_rewrite list_elem_of_singleton. split.
  - intros [[(l & Hl & _) [?|(q & [-> | ->] & [? ?]%policy_port_matches)]]|
            [(l & Hl & _) [?|(q & [-> | ->] & [? ?]%policy_port_matches)]]]; try done;
      exists l; (split; [done|]); auto.
  - intros (l & Hl & [[Hp [Hr|Hr]]|[[Hp|Hp] Hr]]); [left|left|right|right];
      (split; [by eauto|]); right; eexists; (split; [|by apply policy_port_matches]); auto.
Qed.
Lemma testing_permits ns d :
  rule_permits in_cidr d (testingNetworkEgress ns) = true ↔
  ∃ labels n, dst_Pod d = Some (ns, labels) ∧ labels !! "app" = Some "chutney" ∧
     dst_Port d = IntPort n ∧ dst_Protocol d = "TCP" ∧ (5000 ≤ n ≤ 5005 ∨ 7000 ≤ n ≤ 7005)%Z.
Proof.
  unfold testingNetworkEgress. rewrite rule_permits_single, namespace_peer_matches.
  cbn [matches_selector]. setoid_rewrite bool_decide_eq_true.
  setoid_rewrite map_singleton_subseteq_l.
  setoid_rewrite elem_of_cons. setoid_rewrite list_elem_of_singleton. split.
  - intros [(l & Hl & Happ) [?|(q & [-> | ->] & (n & ? & ? & ?)%range_port_matches)]]; [done| |];
      exists l, n; auto 6.
  - intros (l & n & Hl & Happ & Hp & Hr & Hn). split; [eauto|]. right.
    destruct Hn as [Hn|Hn]; eexists;
      (split; [|apply range_port_matches; exists n; split; [exact Hp|]; split; [exact Hr | exact Hn]]); auto.
Qed.
Lemma public_permits cidrs d :
  rule_permits in_cidr d (publicInternetEgress cidrs) = true ↔
  in_cidr "0.0.0.0/0" (dst_IP d) = true ∧ ∀ c, c ∈ cidrs → in_cidr c (dst_IP d) = false.
Proof.
  unfold publicInternetEgress. rewrite rule_permits_single. unfold peer_matches. cbn.
  rewrite andb_true_iff, negb_true_iff, existsb_false. naive_solver.
Qed.

(** C13.  Egress is exactly what is meant: a policy that is built selects the Gateway's pods and,
    under the documented meaning of its rules, lets a connection out if and only if it goes to
    DNS or the API server in kube-system, to a pod a resolved backend selects in the backend's
    namespace on its port, or, outside test mode, to an address outside the pod CIDRs and, in
    test mode, only to the test network's pods on their ports.  The order in which the backends
    are listed or sorted does not matter. *)
Theorem egress_exact gw backends cidrs testing np d
    (Hbuild : BuildNetworkPolicy gw backends cidrs testing = Ok np) :
  (permits in_cidr np d = true ↔ intended in_cidr backends cidrs testing d) ∧
  key np = {| nn_Namespace := gw_ns gw; nn_Name := NetworkPolicyName (gw_name gw) |} ∧
  (∃ spec, netpol_Spec np = Some spec ∧ nps_PodSelector spec = ChildLabels (gw_name gw) ∧
     nps_PolicyTypes spec = ["Egress"]).
Proof.
  unfold BuildNetworkPolicy in Hbuild. destruct (filter _ backends); [|discriminate Hbuild].
  apply SetControllerReference_spec in Hbuild as (m & -> & Hn & Hns & _).
  split; [|split; [unfold key; cbn; by rewrite Hn, Hns | eauto]].
  unfold permits, intended. cbn [netpol_Spec with_meta NetworkPolicy_Object nps_Egress].
  rewrite existsb_Exists. setoid_rewrite elem_of_app. setoid_rewrite elem_of_app.
  setoid_rewrite list_elem_of_singleton. rewrite <- system_permits, <- testing_permits, <- public_permits.
  split.
  - intros (r & [Hr|[Hr|Hr]] & Hp).
    + left. apply elem_of_cons in Hr as [->|Hr%list_elem_of_singleton]; [by left|]. right. by rewrite <- Hr.
    + right; left. apply list_elem_of_fmap in Hr as (b & -> & Hb). rewrite SliceStable_Permutation in Hb.
      apply backend_permits in Hp as (labels & ?). by exists b, labels.
    + right; right. subst r.
      destruct (bool_decide (testing = "")) eqn:Ht; bools; cbn [negb] in Hp; [left|right]; done.
  - intros [Hp|[(b & labels & Hb & Hp)|Hp]].
    + destruct Hp as [Hp|Hp]; eexists; (split; [|exact Hp]); left; [left | right; left].
    + exists (backendEgress b). split; [|by apply backend_permits; exists labels]. right; left.
      apply list_elem_of_fmap. exists b. by rewrite SliceStable_Permutation.
    + eexists. split; [right; right; reflexivity|].
      destruct Hp as [[Ht Hp]|[Ht Hp]]; [rewrite bool_decide_true by done|rewrite bool_decide_false by done];
        exact Hp.
Qed.
End policy.

(** ** Which backends are resolved *)
Lemma rfold_invariant {E A X} (f : A → X → result E A) (P : list X → A → Prop) l :
  (∀ pre a x a', P pre a → f a x = Ok a' → P (pre ++ [x]) a') →
  ∀ pre a a', P pre a → rfold f a l = Ok a' → P (pre ++ l) a'.
Proof.
  intros Hstep. induction l as [|x l IH]; intros pre a a' Hp Hr; simpl in Hr.
  - injection Hr as <-. by rewrite app_nil_r.
  - apply rbind_Ok in Hr as (a1 & Hx & Hr). rewrite cons_middle, app_assoc.
    by eapply IH; [eapply Hstep|].
Qed.

Section resolved.
Context {S : Type} `{!Store S ReferenceGrant, !Store S Service}.

Definition service_key (route : HTTPRoute) (ref : HTTPBackendRef) : string * string :=
  (bref_ns route ref, br_Name ref).
(** A backendRef that may be reached, and the pods and the port it leads to. *)
Definition resolves (s : S) (route : HTTPRoute) (ref : HTTPBackendRef) (b : ResolvedBackend) : Prop :=
  bref_granted s route ref ∧ ∃ svc target proto,
    kget s {| nn_Namespace := bref_ns route ref; nn_Name := br_Name ref |} = Ok svc ∧
    svc_Selector svc ≠ ∅ ∧ resolveTargetPort svc (default 0%Z (br_Port ref)) = Some (target, proto) ∧
    b = {| rb_Namespace := bref_ns route ref; rb_PodSelector := svc_Selector svc;
           rb_TargetPort := target; rb_Protocol := proto |}.
Definition backend_refs (route : HTTPRoute) : list (HTTPRoute * HTTPBackendRef) :=
  map (pair route) (rt_Rules route ≫= hr_BackendRefs).

(** After some backendRefs: the cache holds what was listed, each backend seen comes from one
    of them, and each of them that resolves was seen. *)
Definition resolving_inv (s : S) (refs : list (HTTPRoute * HTTPBackendRef)) (st : resolving) : Prop :=
  map_Forall (λ ns v, klist s (Some ns) ∅ = Ok v) (grantCache st) ∧
  map_Forall (λ k b, ∃ r, r ∈ refs ∧ k = service_key r.1 r.2 ∧ resolves s r.1 r.2 b) (seen st) ∧
  ∀ r b, r ∈ refs → resolves s r.1 r.2 b → is_Some (seen st !! service_key r.1 r.2).

Lemma grantsIn_Ok s ns cache v cache' :
  map_Forall (λ ns v, klist s (Some ns) ∅ = Ok v) cache → grantsIn s ns cache = Ok (v, cache') →
  klist s (Some ns) ∅ = Ok v ∧ map_Forall (λ ns v, klist s (Some ns) ∅ = Ok v) cache'.
Proof.
  unfold grantsIn. intros Hc. destruct (cache !! ns) as [w|] eqn:Hns.
  - intros [= <- <-]. split; [by apply (Hc ns) | done].
  - destruct (klist s (Some ns) ∅) as [items|e] eqn:Hl; cbn; [|done].
    intros [= <- <-]. split; [done|]. by apply map_Forall_insert_2.
Qed.
Lemma resolve_granted_Ok s route ref st allowed st' :
  map_Forall (λ ns v, klist s (Some ns) ∅ = Ok v) (grantCache st) →
  resolve_granted s route ref st = Ok (allowed, st') →
  (allowed = true ↔ bref_granted s route ref) ∧ seen st' = seen st ∧
  map_Forall (λ ns v, klist s (Some ns) ∅ = Ok v) (grantCache st').
Proof.
  unfold resolve_granted, bref_granted. intros Hc.
  destruct (bool_decide (bref_ns route ref = Namespace (rt_meta route))) eqn:Hns; bools.
  - intros [= <- <-]. done.
  - intros ([grants cache] & [Hl Hc']%grantsIn_Ok & [= <- <-])%rbind_Ok; [|done].
    split; [|done]. rewrite Allows_granted, Hl. split; [eauto|].
    intros (g & [= <-] & ?); done.
Qed.

Lemma resolve_ref_inv s route pre st ref st' :
  resolving_inv s pre st → resolve_ref s route st ref = Ok st' →
  resolving_inv s (pre ++ [(route, ref)]) st'.
Proof.
  intros (Hc & Hs & Hd). unfold resolve_ref.
  intros ([allowed st1] & (Ha & Hseen & Hc1)%resolve_granted_Ok & Hr)%rbind_Ok; [|done].
  rewrite <- Hseen in Hs, Hd. clear Hseen Hc st.
  (* when this ref does not resolve the state seen stays *)
  assert ((∀ b, ¬ resolves s route ref b) → resolving_inv s (pre ++ [(route, ref)]) st1) as Hskip.
  { intros Hno. split; [done|]. split.
    - intros k b Hk. destruct (Hs k b Hk) as (r & ? & ?). exists r. split; [set_solver | done].
    - intros r b [Hr'| ->%list_elem_of_singleton]%elem_of_app; [by apply Hd | by intros ?%Hno]. }
  destruct allowed.
  2:{ injection Hr as <-. apply Hskip. intros b [Hg _]. by apply Ha in Hg. }
  unfold resolve_service in Hr.
  destruct (kget s _) as [svc|[]] eqn:Hsvc; try discriminate Hr.
  2:{ injection Hr as <-. apply Hskip. intros b (_ & svc & ? & ? & ? & _). congruence. }
  destruct (bool_decide (svc_Selector svc = ∅)) eqn:Hsel; bools.
  { injection Hr as <-. apply Hskip. intros b (_ & svc' & ? & ? & ? & ? & _). congruence. }
  destruct (resolveTargetPort svc _) as [[target proto]|] eqn:Hp.
  2:{ injection Hr as <-. apply Hskip. intros b (_ & svc' & ? & ? & ? & ? & ? & _). congruence. }
  injection Hr as <-. split; [done|]. split; cbn [seen].
  - apply map_Forall_insert_2.
    + exists (route, ref). split; [set_solver|]. split; [done|].
      split; [by apply Ha|]. by exists svc, target, proto.
    + intros k b Hk. destruct (Hs k b Hk) as (r & ? & ?). exists r. split; [set_solver | done].
  - intros r b Hr Hres. destruct (decide (service_key r.1 r.2 = (bref_ns route ref, br_Name ref))) as [->|Hne].
    + rewrite lookup_insert_eq. by eexists.
    + rewrite lookup_insert_ne by done. apply elem_of_app in Hr as [Hr| ->%list_elem_of_singleton].
      * by eapply Hd.
      * done.
Qed.
Lemma resolve_routes_inv s routes st :
  rfold (resolve_route s) {| seen := ∅; grantCache := ∅ |} routes = Ok st →
  resolving_inv s (routes ≫= backend_refs) st.
Proof.
  intros H. refine (rfold_invariant (resolve_route s) (λ pre, resolving_inv s (pre ≫= backend_refs))
    routes _ [] _ _ _ H).
  - intros pre a route a' Hpre Hr. rewrite bind_app. cbn. rewrite app_nil_r.
    unfold resolve_route, backend_refs in *. revert Hr. generalize (pre ≫= λ x, map (pair x) (rt_Rules x ≫= hr_BackendRefs)) Hpre.
    clear Hpre. intros l Hl Hr.
    refine (rfold_invariant (resolve_ref s route)
      (λ refs, resolving_inv s (l ++ map (pair route) refs)) _ _ [] _ _ _ Hr).
    + intros done_ st1 ref st2 Hd Hstep. rewrite map_app, app_assoc. by eapply resolve_ref_inv.
    + by rewrite app_nil_r.
  - split; [apply map_Forall_empty|]. split; [apply map_Forall_empty|]. by intros r b ?%not_elem_of_nil.
Qed.
End resolved.

Section resolved_spec.
Context {S : Type} `{!Store S ReferenceGrant, !Store S Service}.

(** The egress allow-list follows the routes: every backend in it comes from a backendRef
    of one of the routes that is in the route's namespace or granted to it, with the selector,
    target port and protocol of the Service it names; every such backendRef puts its Service in
    the list, though with one port per Service; and no backend has an empty selector, so that
    building the policy cannot fail on one.  [range] may visit the backends in any order. *)
Theorem resolved_backends_granted range (s : S) routes backends
    (Hrange : ∀ m, range m ≡ₚ map snd (map_to_list m))
    (Hresolve : resolveBackends range s routes = Ok backends) :
  (∀ b, b ∈ backends → ∃ route ref, route ∈ routes ∧ ref ∈ rt_Rules route ≫= hr_BackendRefs ∧
     resolves s route ref b) ∧
  (∀ route ref b, route ∈ routes → ref ∈ rt_Rules route ≫= hr_BackendRefs → resolves s route ref b →
     ∃ b', b' ∈ backends ∧ rb_Namespace b' = rb_Namespace b ∧ rb_PodSelector b' = rb_PodSelector b) ∧
  filter (λ b, rb_PodSelector b = ∅) backends = [].
Proof.
  unfold resolveBackends in Hresolve.
  apply rbind_Ok in Hresolve as (st & (_ & Hs & Hd)%resolve_routes_inv & [= <-]).
  assert (∀ b, b ∈ range (seen st) ↔ ∃ k, seen st !! k = Some b) as Hin.
  { intros b. rewrite Hrange, list_elem_of_fmap. split.
    - intros ([k b'] & -> & Hk%elem_of_map_to_list). by exists k.
    - intros [k Hk]. exists (k, b). split; [done|]. by apply elem_of_map_to_list. }
  assert (∀ r, r ∈ routes ≫= backend_refs ↔
    r.1 ∈ routes ∧ r.2 ∈ rt_Rules r.1 ≫= hr_BackendRefs) as Hrefs.
  { intros [route ref]. rewrite list_elem_of_bind. unfold backend_refs. cbn. split.
    - intros (route' & (ref' & [= -> ->] & ?)%list_elem_of_fmap & ?). done.
    - intros [? ?]. exists route. split; [|done]. apply list_elem_of_fmap. eauto. }
  split; [|split].
  - intros b [k Hk]%Hin. destruct (Hs k b Hk) as (r & [? ?]%Hrefs & _ & ?). eauto.
  - intros route ref b Hroute Href Hres.
    destruct (Hd (route, ref) b) as [b' Hb']; [by apply Hrefs | done|]. cbn in Hb'.
    exists b'. split; [apply Hin; eauto|].
    destruct (Hs _ b' Hb') as ([route' ref'] & _ & [= Hns Hn] & (_ & svc' & t' & p' & Hg' & _ & _ & ->)).
    destruct Hres as (_ & svc & t & p & Hg & _ & _ & ->). cbn in *.
    rewrite Hns, Hn in Hg. rewrite Hg in Hg'. injection Hg' as ->. by rewrite Hns.
  - destruct (filter _ _) as [|b bs] eqn:Hf; [done|].
    assert (b ∈ filter (λ b, rb_PodSelector b = ∅) (range (seen st))) as [He [k Hk]%Hin]%list_elem_of_filter
      by (rewrite Hf; by left).
    destruct (Hs k b Hk) as (r & _ & _ & (_ & svc & ? & ? & _ & Hne & _ & ->)). done.
Qed.
End resolved_spec.

(** ** Concrete backends *)
Definition by_key (m : gmap (string * string) ResolvedBackend) : list ResolvedBackend :=
  map snd (map_to_list m).
Definition api_service : Service := {|
  svc_meta := new_meta "api" "backend" ∅; svc_ClusterIP := ""; svc_Selector := {[ "app" := "api" ]};
  svc_Ports := [{| sp_Name := "http"; sp_Port := 8080; sp_TargetPort := IntPort 0; sp_Protocol := "" |};
                {| sp_Name := "admin"; sp_Port := 9090; sp_TargetPort := StrPort "admin";
                   sp_Protocol := "TCP" |}] |}.
Definition two_ports : HTTPRoute := {|
  rt_meta := new_meta "shop" "apps" ∅; rt_ParentRefs := [];
  rt_Rules := [{| hr_Matches := [];
    hr_BackendRefs := [{| br_Name := "api"; br_Namespace := Some "backend"; br_Port := Some 8080%Z |};
                       {| br_Name := "api"; br_Namespace := Some "backend"; br_Port := Some 9090%Z |}] |}];
  rt_Parents := [] |}.
Definition backend_cluster : Cluster := cluster [obj example_grant; obj api_service].

(** Of two ports of a Service only the last reaches the policy: the router sends requests to
    the first, which the policy does not let out. *)
Lemma first_port_dropped :
  rbind (resolveBackends by_key backend_cluster [two_ports])
    (λ bs, Ok (map rb_TargetPort bs)) = Ok [StrPort "admin"] ∧
  Router.Match (NewRouteTable (RulesFromHTTPRoute two_ports)) "/" =
    ({| b_Namespace := "backend"; b_Name := "api"; b_Port := 8080 |}, true).
Proof. split; vm_compute; reflexivity. Qed.

Definition api_resolved : ResolvedBackend := {|
  rb_Namespace := "backend"; rb_PodSelector := {[ "app" := "api" ]}; rb_TargetPort := IntPort 8080;
  rb_Protocol := "TCP" |}.
Lemma resolved_backends_granted_witness :
  resolveBackends by_key backend_cluster [route_example "False"] = Ok [api_resolved] ∧
  ∃ route ref, route ∈ [route_example "False"] ∧ ref ∈ rt_Rules route ≫= hr_BackendRefs ∧
    resolves backend_cluster route ref api_resolved.
Proof.
  assert (resolveBackends by_key backend_cluster [route_example "False"] = Ok [api_resolved]) as H
    by (vm_compute; reflexivity).
  split; [exact H|].
  apply (proj1 (resolved_backends_granted by_key backend_cluster [route_example "False"] [api_resolved]
    (λ m, reflexivity _) H)). by left.
Defined.
Lemma egress_exact_witness : ∃ np,
  BuildNetworkPolicy example_gateway [api_resolved] ["10.0.0.0/8"] "" = Ok np ∧
  permits (λ c ip, bool_decide (c = "0.0.0.0/0")) np
    {| dst_Pod := Some ("backend", {[ "app" := "api" ]}); dst_IP := "10.1.2.3";
       dst_Port := IntPort 8080; dst_Protocol := "TCP" |} = true.
Proof.
  eexists. split; [reflexivity|].
  eapply (egress_exact (λ c ip, bool_decide (c = "0.0.0.0/0")) example_gateway [api_resolved]
    ["10.0.0.0/8"] ""); [reflexivity|].
  right. left. exists api_resolved, {[ "app" := "api" ]}. split; [by left|]. by split.
Defined.
