(* ===== verification/Resources.v ===== *)
(** * The objects of a Gateway (internal/controller/gateway_resources.go and
      vanity_resources.go, internal/tor/vanity.go)

    Builders are pure: they return an object owned by the Gateway, or an error.  The
    resources of the onionbalance mode are in file [ResourcesHA]. *)

From Stdlib Require Import Ascii ZArith SpecFloat.
From S2P Require Import Prelude GoStrings GoNet GoOS Onion Keys Torrc Regex ClientAuth.
From S2P Require Import KubeTypes Kube Names.

(** ** Policies in effect *)
Record RuntimeImages := {
  img_Tor : string; img_Router : string; img_TorInit : string; img_Mkp224o : string;
  img_VanityFinalize : string; img_Operator : string; img_Onionbalance : string; img_Obrefresh : string;
}.
Record EffectiveServicePolicy := {
  eff_LogLevel : string;
  eff_PoWDefensesEnabled : bool;
  eff_VanityPrefix : string;
  eff_Resources : ResourceRequirements;
}.
Record EffectiveClientAuth := { auth_Enabled : bool; auth_SecretName : string }.
Definition no_resources : ResourceRequirements := {| rr_Requests := None; rr_Limits := None |}.
Definition DefaultPolicy : EffectiveServicePolicy := {|
  eff_LogLevel := "notice"; eff_PoWDefensesEnabled := true; eff_VanityPrefix := "";
  eff_Resources := no_resources |}.
Definition FromTorServicePolicy (p : option TorServicePolicy) : EffectiveServicePolicy :=
  match p with
  | None => DefaultPolicy
  | Some p =>
      let spec := tsp_Spec p in
      {| eff_LogLevel := if bool_decide (tsp_LogLevel spec = "") then eff_LogLevel DefaultPolicy
                         else tsp_LogLevel spec;
         eff_PoWDefensesEnabled :=
           default (eff_PoWDefensesEnabled DefaultPolicy) (tsp_PoWDefensesEnabled spec);
         eff_VanityPrefix := tsp_VanityPrefix spec;
         eff_Resources := default (eff_Resources DefaultPolicy) (tsp_Resources spec) |}
  end.

(** [%+v] of the images. *)
Definition show_images (i : RuntimeImages) : string :=
  "{Tor:" +:+ img_Tor i +:+ " Router:" +:+ img_Router i +:+ " TorInit:" +:+ img_TorInit i +:+
  " Mkp224o:" +:+ img_Mkp224o i +:+ " VanityFinalize:" +:+ img_VanityFinalize i +:+
  " Operator:" +:+ img_Operator i +:+ " Onionbalance:" +:+ img_Onionbalance i +:+
  " Obrefresh:" +:+ img_Obrefresh i +:+ "}".

(** ** What every pod shares *)
Definition pod_security : PodSecurityContext := {|
  psc_RunAsNonRoot := Some true; psc_RunAsUser := Some 65532%Z; psc_RunAsGroup := Some 65532%Z;
  psc_FSGroup := Some 65532%Z; psc_SeccompProfile := Some {| seccomp_Type := "RuntimeDefault" |} |}.
Definition hardenedContainerSec : SecurityContext := {|
  sc_AllowPrivilegeEscalation := Some false; sc_ReadOnlyRootFilesystem := Some true;
  sc_RunAsNonRoot := Some true; sc_DropCapabilities := ["ALL"] |}.
Definition http_probe (path : string) (port initial period timeout failures : Z) : Probe := {|
  p_Handler := HTTPGet path port; p_InitialDelaySeconds := initial; p_PeriodSeconds := period;
  p_TimeoutSeconds := timeout; p_FailureThreshold := failures |}.
Definition mount (name path : string) (ro : bool) : VolumeMount :=
  {| vm_Name := name; vm_MountPath := path; vm_ReadOnly := ro |}.
(** The metadata of a Mode A child. *)
Definition child_meta (gw : Gateway) (name : string) : ObjectMeta :=
  new_meta name (gw_ns gw) (ChildLabels (gw_name gw)).

(** ** tor-init *)
Definition initContainerArgs (auth : EffectiveClientAuth) : list string :=
  ["--src"; keysMountPath; "--dst"; hsServiceDir] ++
  (if auth_Enabled auth then ["--client-auth-src"; clientAuthMountPath] else []).
Definition initContainerMounts (auth : EffectiveClientAuth) : list VolumeMount :=
  [mount keysVolumeName keysMountPath true; mount hsDirVolumeName hsDirMountPath false] ++
  (if auth_Enabled auth then [mount clientAuthVolumeName clientAuthMountPath true] else []).

(** The torrc both modes render, but for the onionbalance instance. *)
Definition torrc_config (onionbalance : bool) (policy : EffectiveServicePolicy)
    (auth : EffectiveClientAuth) (testingNetworkInclude : string) : TorrcConfig := {|
  HiddenServiceDir := hsServiceDir;
  HiddenServicePort := {| VirtualPort := 80; TargetHost := loopbackTargetHost;
                          TargetPort := loopbackTargetPort |};
  LogLevel := eff_LogLevel policy;
  DataDirectory := torDataDir;
  PoWDefensesEnabled := eff_PoWDefensesEnabled policy;
  ClientAuthDir := if auth_Enabled auth then hsServiceDir +:+ "/" +:+ AuthorizedClientsSubdir else "";
  MetricsPort := torMetricsPort;
  MetricsPortPolicy := "accept 0.0.0.0/0";
  ExtraDirectives := ∅;
  OnionbalanceInstance := onionbalance;
  TestingNetworkInclude := testingNetworkInclude |}.

Section builders.
Context `{Controlled}.

Definition owned {T} `{Object T} (gw : Gateway) (x : T) : result error T :=
  SetControllerReference (gw_meta gw) x.

Definition BuildKeySecret (gw : Gateway) (kp : KeyPair) : result error Secret :=
  owned gw {| sec_meta := child_meta gw (KeySecretName (gw_name gw)); sec_Type := "Opaque";
              sec_Data := key_files kp |}.

Definition BuildTorrcConfigMap (gw : Gateway) (policy : EffectiveServicePolicy)
    (auth : EffectiveClientAuth) (testingNetworkInclude : string) : result error ConfigMap :=
  let* rendered := wrap_err (ErrWrap "render torrc" ∘ ErrTorrc)
                     (Render [] (torrc_config false policy auth testingNetworkInclude)) in
  owned gw {| cm_meta := child_meta gw (TorrcConfigMapName (gw_name gw));
              cm_Data := {[ "torrc" := rendered ]} |}.

Definition metrics_probe (period failures : Z) : Probe := http_probe "/metrics" torMetricsPort 0 period 2 failures.
Definition tor_init_container (auth : EffectiveClientAuth) (images : RuntimeImages) : Container := {|
  ct_Name := initContainerName; ct_Image := img_TorInit images; ct_ImagePullPolicy := "IfNotPresent";
  ct_Args := initContainerArgs auth; ct_Env := []; ct_Ports := []; ct_Resources := no_resources;
  ct_SecurityContext := Some hardenedContainerSec; ct_VolumeMounts := initContainerMounts auth;
  ct_StartupProbe := None; ct_LivenessProbe := None; ct_ReadinessProbe := None |}.
Definition tor_container (policy : EffectiveServicePolicy) (images : RuntimeImages) : Container := {|
  ct_Name := torContainerName; ct_Image := img_Tor images; ct_ImagePullPolicy := "IfNotPresent";
  ct_Args := ["-f"; configMountPath +:+ "/torrc"]; ct_Env := [];
  ct_Ports := [{| cp_Name := "metrics"; cp_Port := torMetricsPort; cp_Protocol := "TCP" |}];
  ct_Resources := eff_Resources policy; ct_SecurityContext := Some hardenedContainerSec;
  ct_VolumeMounts := [mount configVolumeName configMountPath true;
                      mount hsDirVolumeName hsDirMountPath false;
                      mount dataVolumeName dataMountPath false];
  ct_StartupProbe := Some (metrics_probe 5 30); ct_LivenessProbe := Some (metrics_probe 10 3);
  ct_ReadinessProbe := Some (metrics_probe 10 3) |}.
Definition healthz_probe : Probe := http_probe "/healthz" routerProbePort 5 10 2 3.
Definition router_container (gw : Gateway) (images : RuntimeImages) : Container := {|
  ct_Name := routerContainer; ct_Image := img_Router images; ct_ImagePullPolicy := "IfNotPresent";
  ct_Args := ["--listen"; loopbackTargetHost +:+ ":" +:+ Itoa loopbackTargetPort;
              "--probe-addr"; ":" +:+ Itoa routerProbePort;
              "--gateway"; gw_name gw; "--namespace"; gw_ns gw];
  ct_Env := [];
  ct_Ports := [{| cp_Name := "probe"; cp_Port := routerProbePort; cp_Protocol := "TCP" |}];
  ct_Resources := {| rr_Requests := Some {[ "cpu" := "50m"; "memory" := "64Mi" ]};
                     rr_Limits := Some {[ "cpu" := "250m"; "memory" := "128Mi" ]} |};
  ct_SecurityContext := Some hardenedContainerSec; ct_VolumeMounts := [];
  ct_StartupProbe := None; ct_LivenessProbe := Some healthz_probe;
  ct_ReadinessProbe := Some healthz_probe |}.
Definition deployment_volumes (gw : Gateway) (auth : EffectiveClientAuth) : list Volume :=
  [{| v_Name := keysVolumeName; v_Source := SecretVolume (KeySecretName (gw_name gw)) 384 |};  (* 0o600 *)
   {| v_Name := configVolumeName; v_Source := ConfigMapVolume (TorrcConfigMapName (gw_name gw)) |};
   {| v_Name := hsDirVolumeName; v_Source := EmptyDirVolume |};
   {| v_Name := dataVolumeName; v_Source := EmptyDirVolume |}] ++
  (if auth_Enabled auth
   then [{| v_Name := clientAuthVolumeName; v_Source := SecretVolume (auth_SecretName auth) 256 |}]  (* 0o400 *)
   else []).
Definition BuildDeployment (gw : Gateway) (policy : EffectiveServicePolicy) (auth : EffectiveClientAuth)
    (images : RuntimeImages) : result error Deployment :=
  if bool_decide (img_Tor images = "") || bool_decide (img_Router images = "") ||
     bool_decide (img_TorInit images = "")
  then Err (ErrText ("missing image references: " +:+ show_images images))
  else
    let labels := ChildLabels (gw_name gw) in
    owned gw {|
      dep_meta := child_meta gw (DeploymentName (gw_name gw));
      dep_Spec := Some {|
        ds_Replicas := Some 1%Z; ds_Selector := labels; ds_Strategy := "Recreate";
        ds_Template := {|
          pt_Labels := labels; pt_Annotations := ∅;
          pt_Spec := {|
            pod_RestartPolicy := ""; pod_ServiceAccountName := RouterRBACName (gw_name gw);
            pod_ShareProcessNamespace := None; pod_SecurityContext := Some pod_security;
            pod_Volumes := deployment_volumes gw auth;
            pod_InitContainers := [tor_init_container auth images];
            pod_Containers := [tor_container policy images; router_container gw images];
            pod_TopologySpread := [] |} |} |};
      dep_Conditions := [] |}.

Definition BuildServiceAccount (gw : Gateway) : result error ServiceAccount :=
  owned gw {| sa_meta := child_meta gw (RouterRBACName (gw_name gw)) |}.

(** [for i := int32(0); i < n; i++]: none when [n] is negative. *)
Definition backend_names (gw : Gateway) (n : Z) : list string :=
  map (λ i, BackendKeySecretName gw (Z.of_nat i)) (seq 0 (Z.to_nat n)).
Definition httproutes_rule : PolicyRule := {|
  APIGroups := ["gateway.networking.k8s.io"]; Resources := ["httproutes"];
  Verbs := ["get"; "list"; "watch"]; ResourceNames := [] |}.
Definition secrets_rule (verbs names : list string) : PolicyRule := {|
  APIGroups := [""]; Resources := ["secrets"]; Verbs := verbs; ResourceNames := names |}.
Definition BuildRole (gw : Gateway) (obp : option OnionBalancePolicy) : result error Role :=
  owned gw {| ro_meta := child_meta gw (RouterRBACName (gw_name gw));
              ro_Rules := httproutes_rule ::
                match obp with
                | Some p => [secrets_rule ["get"] (backend_names gw (obp_Replicas (obp_Spec p)))]
                | None => []
                end |}.
Definition role_binding (m : ObjectMeta) (role account ns : string) : RoleBinding := {|
  rb_meta := m;
  rb_RoleRef := {| rref_APIGroup := "rbac.authorization.k8s.io"; rref_Kind := "Role"; rref_Name := role |};
  rb_Subjects := [{| sub_Kind := "ServiceAccount"; sub_Name := account; sub_Namespace := ns |}] |}.
Definition BuildRoleBinding (gw : Gateway) : result error RoleBinding :=
  let name := RouterRBACName (gw_name gw) in
  owned gw (role_binding (child_meta gw name) name name (gw_ns gw)).
Definition BuildService (gw : Gateway) : result error Service :=
  owned gw {| svc_meta := child_meta gw (ServiceName (gw_name gw)); svc_ClusterIP := "None";
              svc_Selector := ChildLabels (gw_name gw);
              svc_Ports := [{| sp_Name := "router"; sp_Port := loopbackTargetPort;
                               sp_TargetPort := IntPort loopbackTargetPort; sp_Protocol := "TCP" |}] |}.

(** ** vanity_resources.go *)
Definition BuildVanityServiceAccount (gw : Gateway) : result error ServiceAccount :=
  owned gw {| sa_meta := child_meta gw (VanityRBACName (gw_name gw)) |}.
Definition BuildVanityRole (gw : Gateway) : result error Role :=
  owned gw {| ro_meta := child_meta gw (VanityRBACName (gw_name gw));
              ro_Rules := [secrets_rule ["get"; "update"; "patch"] [VanityOutSecretName (gw_name gw)]] |}.
Definition BuildVanityRoleBinding (gw : Gateway) : result error RoleBinding :=
  let name := VanityRBACName (gw_name gw) in
  owned gw (role_binding (child_meta gw name) name name (gw_ns gw)).
Definition BuildVanityOutSecret (gw : Gateway) : result error Secret :=
  owned gw {| sec_meta := child_meta gw (VanityOutSecretName (gw_name gw)); sec_Type := "Opaque";
              sec_Data := ∅ |}.
End builders.

(** ** internal/tor/vanity.go *)
Record VanityJobConfig := {
  vc_JobName : string; vc_Namespace : string; vc_Prefix : string; vc_OutputSecretName : string;
  vc_ServiceAccountName : string; vc_Mkp224oImage : string; vc_FinalizeImage : string;
  vc_ActiveDeadline : Z;
  vc_Labels : gmap string string; vc_Annotations : gmap string string;
  vc_Mkp224oResources : ResourceRequirements;
}.
Definition base32_lower (c : ascii) : bool := in_range 97 122 c || in_range 50 55 c.
Definition vanityPrefixPattern : regex := Between 1 8 (Class base32_lower).
Definition vanityPrefixPattern_text : string := "^[a-z2-7]{1,8}$".
Definition mergeLabels (base extra : gmap string string) : gmap string string := extra ∪ base.

Section vanity_job.
(** [Quantity.IsZero] of a quantity in text. *)
Context (quantity_zero : string → bool).

(** [r == nil || r.Cpu().IsZero()]: a list without the resource has none of it. *)
Definition no_cpu (r : option (gmap string string)) : bool :=
  match r with Some m => from_option quantity_zero true (m !! "cpu") | None => true end.
Definition mkp_resources (r : ResourceRequirements) : ResourceRequirements := {|
  rr_Requests := if no_cpu (rr_Requests r) then Some {[ "cpu" := "500m"; "memory" := "128Mi" ]}
                 else rr_Requests r;
  rr_Limits := if no_cpu (rr_Limits r) then Some {[ "cpu" := "2"; "memory" := "256Mi" ]}
               else rr_Limits r |}.
(** [Duration.Seconds]: the whole seconds and the rest, each a float64. *)
Definition Seconds (d : Z) : spec_float :=
  SFadd 53 1024 (float64 (Z.quot d 1000000000))
    (SFdiv 53 1024 (float64 (Z.rem d 1000000000)) (float64 1000000000)).
(** [int64(deadline.Seconds())]; an hour when the deadline is not positive. *)
Definition hour : Z := 3600000000000.
Definition deadline_seconds (d : Z) : Z := trunc (Seconds (if (d <=? 0)%Z then hour else d)).
Definition workdir : string := "/workdir".
Definition VanityJob (cfg : VanityJobConfig) : result error Job :=
  guard! negb (bool_decide (vc_JobName cfg = "") || bool_decide (vc_Namespace cfg = ""))
    else ErrText "tor: VanityJobConfig requires JobName and Namespace";;
  guard! re_match vanityPrefixPattern (vc_Prefix cfg)
    else ErrText ("tor: invalid vanity prefix " +:+ Quote (vc_Prefix cfg) +:+ " (need " +:+
                  vanityPrefixPattern_text +:+ ")");;
  guard! negb (bool_decide (vc_OutputSecretName cfg = ""))
    else ErrText "tor: VanityJobConfig.OutputSecretName is required";;
  guard! negb (bool_decide (vc_ServiceAccountName cfg = ""))
    else ErrText "tor: VanityJobConfig.ServiceAccountName is required";;
  guard! negb (bool_decide (vc_Mkp224oImage cfg = "") || bool_decide (vc_FinalizeImage cfg = ""))
    else ErrText "tor: VanityJobConfig.Mkp224oImage and FinalizeImage are required";;
  let labels := mergeLabels {[ "app.kubernetes.io/managed-by" := "tor-gateway";
                               "app.kubernetes.io/component" := "vanity" ]} (vc_Labels cfg) in
  Ok {|
    job_meta := new_meta (vc_JobName cfg) (vc_Namespace cfg) labels;
    job_Spec := {|
      js_BackoffLimit := Some 0%Z;
      js_ActiveDeadlineSeconds := Some (deadline_seconds (vc_ActiveDeadline cfg));
      js_TTLSecondsAfterFinished := Some 3600%Z;
      js_Template := {|
        pt_Labels := labels; pt_Annotations := vc_Annotations cfg;
        pt_Spec := {|
          pod_RestartPolicy := "Never"; pod_ServiceAccountName := vc_ServiceAccountName cfg;
          pod_ShareProcessNamespace := None; pod_SecurityContext := Some pod_security;
          pod_Volumes := [{| v_Name := "workdir"; v_Source := EmptyDirVolume |}];
          pod_InitContainers := [{|
            ct_Name := "mkp224o"; ct_Image := vc_Mkp224oImage cfg; ct_ImagePullPolicy := "IfNotPresent";
            ct_Args := ["-d"; workdir; "-n"; "1"; "-q"; vc_Prefix cfg]; ct_Env := []; ct_Ports := [];
            ct_Resources := mkp_resources (vc_Mkp224oResources cfg);
            ct_SecurityContext := Some hardenedContainerSec;
            ct_VolumeMounts := [mount "workdir" workdir false];
            ct_StartupProbe := None; ct_LivenessProbe := None; ct_ReadinessProbe := None |}];
          pod_Containers := [{|
            ct_Name := "finalize"; ct_Image := vc_FinalizeImage cfg; ct_ImagePullPolicy := "IfNotPresent";
            ct_Args := ["--workdir"; workdir; "--namespace"; vc_Namespace cfg; "--secret-name";
                        vc_OutputSecretName cfg]; ct_Env := []; ct_Ports := [];
            ct_Resources := no_resources; ct_SecurityContext := Some hardenedContainerSec;
            ct_VolumeMounts := [mount "workdir" workdir true];
            ct_StartupProbe := None; ct_LivenessProbe := None; ct_ReadinessProbe := None |}];
          pod_TopologySpread := [] |} |} |};
    job_Conditions := [] |}.
End vanity_job.
