(* ===== verification/ResourcesHA.v ===== *)
(** * The objects of the onionbalance mode (internal/controller/gateway_resources_ha.go)

    Backends run Tor instances with their own keys; the frontend runs onionbalance with the
    master key and publishes one descriptor for all of them. *)

From Stdlib Require Import Ascii ZArith.
From S2P Require Import Prelude GoStrings GoNet GoOS Onion Keys Torrc ClientAuth KubeTypes Kube.
From S2P Require Import Names Resources.

(** ** time.Duration.String *)
Definition pad_digits (r prec : Z) : string :=
  match Itoa (10 ^ prec + r)%Z with String _ ds => ds | EmptyString => EmptyString end.
Fixpoint trim_zeros (s : string) : string :=
  match s with
  | EmptyString => EmptyString
  | String c s =>
      let t := trim_zeros s in
      if bool_decide (t = EmptyString) && bool_decide (c = ascii_of_nat 48) then EmptyString
      else String c t
  end.
(** The fraction below 10^prec, with its point, or nothing. *)
Definition fmtFrac (v prec : Z) : string :=
  let ds := trim_zeros (pad_digits (v mod 10 ^ prec) prec) in
  if bool_decide (ds = "") then "" else "." +:+ ds.
Definition Duration_String (d : Z) : string :=
  let u := Z.abs d in
  let frac (prec : Z) := Itoa (u / 10 ^ prec) +:+ fmtFrac u prec in
  let sign := if (d <? 0)%Z then "-" else "" in
  if (u =? 0)%Z then "0s"
  else if (u <? 1000)%Z then sign +:+ Itoa u +:+ "ns"
  else if (u <? 1000000)%Z then
    sign +:+ frac 3%Z +:+ String (ascii_of_nat 194) (String (ascii_of_nat 181) "s")
  else if (u <? 1000000000)%Z then sign +:+ frac 6%Z +:+ "ms"
  else
    let secs := (u / 10 ^ 9)%Z in
    let s := Itoa (secs mod 60) +:+ fmtFrac u 9 +:+ "s" in
    let mins := (secs / 60)%Z in
    let ms := if (mins =? 0)%Z then s else Itoa (mins mod 60) +:+ "m" +:+ s in
    let hours := (mins / 60)%Z in
    sign +:+ (if (hours =? 0)%Z then ms else Itoa hours +:+ "h" +:+ ms).

(** ** Shared pieces *)
Definition haHardenedSecurityContext : SecurityContext := {|
  sc_AllowPrivilegeEscalation := Some false; sc_ReadOnlyRootFilesystem := Some true;
  sc_RunAsNonRoot := Some true; sc_DropCapabilities := ["ALL"] |}.
Definition derefResources (r : option ResourceRequirements) : ResourceRequirements :=
  match r with
  | None => {| rr_Requests := Some {[ "cpu" := "50m"; "memory" := "64Mi" ]}; rr_Limits := None |}
  | Some r => r
  end.
Definition torReadinessProbeHA : Probe := http_probe "/metrics" torMetricsPort 0 10 0 0.
Definition torLivenessProbeHA : Probe := torReadinessProbeHA.
Definition torStartupProbeHA : Probe := http_probe "/metrics" torMetricsPort 0 10 0 30.
Definition routerHealthzProbeHA : Probe := http_probe "/healthz" routerProbePort 0 10 0 0.
Definition ha_meta (gw : Gateway) (name role : string) : ObjectMeta :=
  new_meta name (gw_ns gw) (HALabels gw role).
(** A container with the fields every Mode B container sets. *)
Definition ha_container (name image : string) (args : list string) (env : list EnvVar)
    (ports : list ContainerPort) (res : ResourceRequirements) (mounts : list VolumeMount)
    (startup liveness readiness : option Probe) : Container := {|
  ct_Name := name; ct_Image := image; ct_ImagePullPolicy := ""; ct_Args := args; ct_Env := env;
  ct_Ports := ports; ct_Resources := res; ct_SecurityContext := Some haHardenedSecurityContext;
  ct_VolumeMounts := mounts; ct_StartupProbe := startup; ct_LivenessProbe := liveness;
  ct_ReadinessProbe := readiness |}.
Definition empty_dir (name : string) : Volume := {| v_Name := name; v_Source := EmptyDirVolume |}.

(** ** Backends *)
Definition backendInitVolumeMounts : list VolumeMount := [mount "hs" hsDirMountPath false].
Definition backendTorVolumeMounts : list VolumeMount :=
  [mount "hs" hsDirMountPath false; mount dataVolumeName dataMountPath false;
   mount "torrc" configMountPath true].
Definition backendPodVolumes (gw : Gateway) : list Volume :=
  [empty_dir "hs"; empty_dir dataVolumeName;
   {| v_Name := "torrc"; v_Source := ConfigMapVolume (BackendTorrcConfigMapName gw) |}].
Definition backend_init_container (gw : Gateway) (master : OnionAddress) (images : RuntimeImages)
  : Container :=
  ha_container initContainerName (img_TorInit images)
    ["--dst=" +:+ hsServiceDir; "--src="; "--ob-master-address=" +:+ OnionAddress_String master;
     "--api-fetch-secret-prefix=" +:+ gw_name gw +:+ "-backend-"]
    [{| e_Name := "POD_NAME"; e_FieldPath := "metadata.name" |};
     {| e_Name := "POD_NAMESPACE"; e_FieldPath := "metadata.namespace" |}]
    [] no_resources backendInitVolumeMounts None None None.
Definition backend_tor_container (pol : OnionBalancePolicy) (images : RuntimeImages) : Container :=
  ha_container torContainerName (img_Tor images) ["-f"; "/etc/tor/torrc"] []
    [{| cp_Name := "metrics"; cp_Port := torMetricsPort; cp_Protocol := "" |}]
    (derefResources (obp_BackendResources (obp_Spec pol))) backendTorVolumeMounts
    (Some torStartupProbeHA) (Some torLivenessProbeHA) (Some torReadinessProbeHA).
Definition backend_router_container (gw : Gateway) (images : RuntimeImages) : Container :=
  ha_container routerContainer (img_Router images)
    ["--gateway=" +:+ gw_name gw; "--namespace=" +:+ gw_ns gw] [] [] no_resources []
    None (Some routerHealthzProbeHA) (Some routerHealthzProbeHA).

Section builders.
Context `{Controlled}.

(** [read] is what the random source gives. *)
Definition fresh_data `{Ed25519} (read : result string bytes) : result error (gmap string bytes) :=
  let* kp := wrap_err (ErrWrap "generate backend key" ∘ ErrKey) (GenerateKeyPair read) in
  Ok (key_files kp).
Definition BuildBackendKeySecret `{Ed25519} (gw : Gateway) (idx : Z) (existing : option Secret)
    (read : result string bytes) : result error Secret :=
  let* data :=
    (match existing with
     | Some s =>
         if (0 <? length (default [] (sec_Data s !! FileSecretKeyName)))%nat then Ok (sec_Data s)
         else fresh_data read
     | None => fresh_data read
     end) in
  owned gw {| sec_meta := new_meta (BackendKeySecretName gw idx) (gw_ns gw) (ownerLabels gw haRoleBackend);
              sec_Type := "Opaque"; sec_Data := data |}.
Definition BuildBackendHeadlessService (gw : Gateway) : result error Service :=
  owned gw {| svc_meta := ha_meta gw (BackendHeadlessServiceName gw) haRoleBackend;
              svc_ClusterIP := "None"; svc_Selector := HALabels gw haRoleBackend;
              svc_Ports := [{| sp_Name := "tor"; sp_Port := loopbackTargetPort;
                               sp_TargetPort := IntPort loopbackTargetPort; sp_Protocol := "" |}] |}.
Definition BuildBackendStatefulSet (gw : Gateway) (pol : OnionBalancePolicy) (master : OnionAddress)
    (images : RuntimeImages) : result error StatefulSet :=
  if bool_decide (img_Tor images = "") || bool_decide (img_TorInit images = "")
  then Err (ErrText "BuildBackendStatefulSet: required image flag not set; check --tor-image, --tor-init-image")
  else
    let labels := HALabels gw haRoleBackend in
    owned gw {|
      sts_meta := ha_meta gw (BackendStatefulSetName gw) haRoleBackend;
      sts_Spec := Some {|
        ss_Replicas := Some (obp_Replicas (obp_Spec pol)); ss_Selector := labels;
        ss_ServiceName := BackendHeadlessServiceName gw;
        ss_Template := {|
          pt_Labels := labels; pt_Annotations := ∅;
          pt_Spec := {|
            pod_RestartPolicy := ""; pod_ServiceAccountName := RouterRBACName (gw_name gw);
            pod_ShareProcessNamespace := None; pod_SecurityContext := Some pod_security;
            pod_Volumes := backendPodVolumes gw;
            pod_InitContainers := [backend_init_container gw master images];
            pod_Containers := [backend_tor_container pol images; backend_router_container gw images];
            pod_TopologySpread := [{|
              tsc_MaxSkew := 1; tsc_TopologyKey := "kubernetes.io/hostname";
              tsc_WhenUnsatisfiable := "ScheduleAnyway";
              tsc_MatchLabels := HALabels gw haRoleBackend |}] |} |};
        ss_PodManagementPolicy := "Parallel" |};
      sts_StatusReplicas := 0 |}.
Definition BuildBackendTorrcConfigMap (gw : Gateway) (pol : OnionBalancePolicy)
    (eff : EffectiveServicePolicy) (auth : EffectiveClientAuth) (testingNetworkInclude : string)
  : result error ConfigMap :=
  let* rendered := wrap_err (ErrWrap "render backend torrc" ∘ ErrTorrc)
                     (Render [] (torrc_config true eff auth testingNetworkInclude)) in
  owned gw {| cm_meta := ha_meta gw (BackendTorrcConfigMapName gw) haRoleBackend;
              cm_Data := {[ "torrc" := rendered ]} |}.

(** ** Frontend *)
Definition BuildFrontendServiceAccount (gw : Gateway) : result error ServiceAccount :=
  owned gw {| sa_meta := ha_meta gw (FrontendName gw) haRoleFrontend |}.
Definition master_in_namespace (gw : Gateway) (pol : OnionBalancePolicy) : bool :=
  let masterNS := mk_Namespace (obp_MasterKeySecretRef (obp_Spec pol)) in
  bool_decide (masterNS = "") || bool_decide (masterNS = gw_ns gw).
Definition BuildFrontendRole (gw : Gateway) (pol : OnionBalancePolicy) : result error Role :=
  let backendNames := backend_names gw (obp_Replicas (obp_Spec pol)) ++
    (if master_in_namespace gw pol then [mk_Name (obp_MasterKeySecretRef (obp_Spec pol))] else []) in
  owned gw {| ro_meta := ha_meta gw (FrontendName gw) haRoleFrontend;
              ro_Rules := [secrets_rule ["get"] backendNames; secrets_rule ["list"; "watch"] [];
                           {| APIGroups := [""]; Resources := ["events"]; Verbs := ["create"; "patch"];
                              ResourceNames := [] |}] |}.
Definition BuildFrontendRoleBinding (gw : Gateway) : result error RoleBinding :=
  owned gw (role_binding (ha_meta gw (FrontendName gw) haRoleFrontend) (FrontendName gw)
              (FrontendName gw) (gw_ns gw)).

Definition renderFrontendTorrc (testingNetworkInclude : string) : string :=
  "# generated by tor-gateway operator — do not edit by hand" +:+ nl +:+
  (if bool_decide (testingNetworkInclude = "") then ""
   else if HasSuffix testingNetworkInclude nl then testingNetworkInclude
   else testingNetworkInclude +:+ nl) +:+
  String.concat "" (map line
    ["SocksPort 0"; "ControlPort 9051"; "CookieAuthentication 1";
     "CookieAuthFile /var/lib/tor/data/control_auth_cookie"; "DataDirectory /var/lib/tor/data";
     "MetricsPort 0.0.0.0:9035"; "MetricsPortPolicy accept 0.0.0.0/0"; "Log notice stdout"]).
Definition BuildFrontendTorrcConfigMap (gw : Gateway) (testingNetworkInclude : string)
  : result error ConfigMap :=
  owned gw {| cm_meta := ha_meta gw (FrontendTorrcConfigMapName gw) haRoleFrontend;
              cm_Data := {[ "torrc" := renderFrontendTorrc testingNetworkInclude ]} |}.

Definition gatewayNSKey : string := "torgateway.io/gateway-ns".
Definition cross_ns_meta (gw : Gateway) (ns : string) : ObjectMeta :=
  new_meta (CrossNSMasterRoleName gw) ns
    {[ managedByLabelKey := "tor-gateway"; gatewayLabelKey := gw_name gw;
       ownerUIDKey := UID (gw_meta gw); gatewayNSKey := gw_ns gw ]}.
Definition BuildCrossNSMasterRole (gw : Gateway) (pol : OnionBalancePolicy) : result error Role :=
  let ref := obp_MasterKeySecretRef (obp_Spec pol) in
  if bool_decide (mk_Namespace ref = "")
  then Err (ErrText "BuildCrossNSMasterRole: MasterKeySecretRef.Namespace empty")
  else Ok {| ro_meta := cross_ns_meta gw (mk_Namespace ref);
             ro_Rules := [secrets_rule ["get"] [mk_Name ref]] |}.
Definition BuildCrossNSMasterRoleBinding (gw : Gateway) (pol : OnionBalancePolicy)
  : result error RoleBinding :=
  let ref := obp_MasterKeySecretRef (obp_Spec pol) in
  if bool_decide (mk_Namespace ref = "")
  then Err (ErrText "BuildCrossNSMasterRoleBinding: MasterKeySecretRef.Namespace empty")
  else Ok (role_binding (cross_ns_meta gw (mk_Namespace ref)) (CrossNSMasterRoleName gw)
             (FrontendName gw) (gw_ns gw)).
End builders.

(** ** The frontend Deployment *)
Definition masterFetch (gw : Gateway) (pol : OnionBalancePolicy) (images : RuntimeImages) : Container :=
  let ref := obp_MasterKeySecretRef (obp_Spec pol) in
  let masterNS := if bool_decide (mk_Namespace ref = "") then gw_ns gw else mk_Namespace ref in
  {| ct_Name := "master-fetch"; ct_Image := img_TorInit images; ct_ImagePullPolicy := "IfNotPresent";
     ct_Args := ["--dst=/etc/onionbalance/keys"; "--src=";
                 "--api-fetch-secret=" +:+ masterNS +:+ "/" +:+ mk_Name ref];
     ct_Env := []; ct_Ports := []; ct_Resources := no_resources;
     ct_SecurityContext := Some haHardenedSecurityContext;
     ct_VolumeMounts := [mount "ob-keys" "/etc/onionbalance/keys" false];
     ct_StartupProbe := None; ct_LivenessProbe := None; ct_ReadinessProbe := None |}.
Definition frontend_tor (pol : OnionBalancePolicy) (images : RuntimeImages) : Container :=
  ha_container "tor" (img_Tor images) ["-f"; "/etc/tor/torrc"] [] []
    (derefResources (obp_FrontendResources (obp_Spec pol)))
    [mount "tor-data" "/var/lib/tor" false; mount "torrc" "/etc/tor" true]
    (Some torStartupProbeHA) (Some torLivenessProbeHA) (Some torReadinessProbeHA).
Definition exec_probe (command : list string) (initial : Z) : Probe := {|
  p_Handler := Exec command; p_InitialDelaySeconds := initial; p_PeriodSeconds := 30;
  p_TimeoutSeconds := 0; p_FailureThreshold := 3 |}.
Definition frontend_onionbalance (images : RuntimeImages) (testingMode : bool) : Container :=
  ha_container "onionbalance" (img_Onionbalance images)
    (["-c"; "/etc/onionbalance/config/config.yaml"] ++ (if testingMode then ["--is-testnet"] else []))
    [] [] no_resources
    [mount "ob-config" "/etc/onionbalance/config" false; mount "ob-keys" "/etc/onionbalance/keys" true;
     mount "ob-run" "/run/onionbalance" false; mount "tor-data" "/var/lib/tor" true]
    None (Some (exec_probe ["sh"; "-c"; "test -s /run/onionbalance/onionbalance.pid"] 15)) None.
Definition frontend_obrefresh (gw : Gateway) (pol : OnionBalancePolicy) (master : OnionAddress)
    (images : RuntimeImages) : Container :=
  let interval := "--interval=" +:+ Duration_String (obp_RefreshInterval (obp_Spec pol)) in
  ha_container obrefreshContainer (img_Obrefresh images)
    ["--gateway=" +:+ gw_name gw; "--namespace=" +:+ gw_ns gw;
     "--gateway-uid=" +:+ UID (gw_meta gw); "--master-address=" +:+ OnionAddress_String master;
     "--master-key-path=/etc/onionbalance/keys/hs_ed25519_secret_key";
     "--config=/etc/onionbalance/config/config.yaml";
     "--pidfile=/run/onionbalance/onionbalance.pid"; interval]
    [] [] no_resources
    [mount "ob-config" "/etc/onionbalance/config" false; mount "ob-run" "/run/onionbalance" true;
     mount "ob-refresh-run" "/run/obrefresh" false]
    None (Some (exec_probe ["/usr/local/bin/app"; "--healthcheck"; interval] 60)) None.
Definition frontend_volumes (gw : Gateway) : list Volume :=
  [empty_dir "tor-data"; empty_dir "ob-config"; empty_dir "ob-run"; empty_dir "ob-keys";
   empty_dir "ob-refresh-run";
   {| v_Name := "torrc"; v_Source := ConfigMapVolume (FrontendTorrcConfigMapName gw) |}].
Definition BuildFrontendDeployment `{Controlled} (gw : Gateway) (pol : OnionBalancePolicy)
    (master : OnionAddress) (images : RuntimeImages) (testingMode : bool) : result error Deployment :=
  if bool_decide (img_Tor images = "") || bool_decide (img_TorInit images = "") ||
     bool_decide (img_Onionbalance images = "") || bool_decide (img_Obrefresh images = "")
  then Err (ErrText "BuildFrontendDeployment: required image flag not set; check --onionbalance-image, --obrefresh-image, --tor-init-image, --tor-image")
  else
    let labels := HALabels gw haRoleFrontend in
    owned gw {|
      dep_meta := ha_meta gw (FrontendName gw) haRoleFrontend;
      dep_Spec := Some {|
        ds_Replicas := Some 1%Z; ds_Selector := labels; ds_Strategy := "";
        ds_Template := {|
          pt_Labels := labels; pt_Annotations := ∅;
          pt_Spec := {|
            pod_RestartPolicy := ""; pod_ServiceAccountName := FrontendName gw;
            pod_ShareProcessNamespace := Some true; pod_SecurityContext := Some pod_security;
            pod_Volumes := frontend_volumes gw;
            pod_InitContainers := [masterFetch gw pol images];
            pod_Containers := [frontend_tor pol images; frontend_onionbalance images testingMode;
                               frontend_obrefresh gw pol master images];
            pod_TopologySpread := [] |} |} |};
      dep_Conditions := [] |}.

Example durations : map Duration_String
  [0; 600000000000; 1500000000; 90061000000000; 250000000; -1; 3600000000000]%Z =
  ["0s"; "10m0s"; "1.5s"; "25h1m1s"; "250ms"; "-1ns"; "1h0m0s"].
Proof. vm_compute. reflexivity. Qed.
