(* ===== verification/Workloads.v ===== *)
(** * What the objects of a Gateway promise

    Theorems about the builders of [Resources] and [ResourcesHA], with the parts they meet:
    the torrc Tor reads, the roles the pods use, the Secrets obrefresh trusts. *)

From Stdlib Require Import Ascii ZArith.
From S2P Require Import Prelude GoStrings GoNet GoOS Onion Keys Torrc Regex ClientAuth.
From S2P Require Import KubeTypes Kube Names Policies NetPol Resources ResourcesHA Onionbalance.

Lemma owned_spec `{Controlled} {T} `{Object T} gw (x y : T) :
  owned gw x = Ok y → ∃ m, y = with_meta m x ∧
    Name m = Name (meta x) ∧ Namespace m = Namespace (meta x) ∧ Labels m = Labels (meta x) ∧
    Exists (λ o, or_UID o = UID (gw_meta gw) ∧ or_Controller o = Some true) (OwnerReferences m).
Proof. apply SetControllerReference_spec. Qed.

(** ** Pods *)
Definition hardened (sc : option SecurityContext) : bool :=
  match sc with
  | Some sc => bool_decide (sc_AllowPrivilegeEscalation sc = Some false) &&
               bool_decide (sc_ReadOnlyRootFilesystem sc = Some true) &&
               bool_decide (sc_RunAsNonRoot sc = Some true) &&
               bool_decide (sc_DropCapabilities sc = ["ALL"])
  | None => false
  end.
Definition nonroot_pod (p : PodSpec) : bool :=
  match pod_SecurityContext p with
  | Some c => bool_decide (psc_RunAsNonRoot c = Some true) && bool_decide (psc_RunAsUser c = Some 65532%Z) &&
              match psc_SeccompProfile c with
              | Some s => bool_decide (seccomp_Type s = "RuntimeDefault") | None => false end
  | None => false
  end.
Definition containers (p : PodSpec) : list Container := pod_InitContainers p ++ pod_Containers p.
(** Mounts name declared volumes, a container mounts a path once, and names are not shared. *)
Definition mounts_ok (p : PodSpec) (c : Container) : bool :=
  forallb (λ m, bool_decide (vm_Name m ∈ map v_Name (pod_Volumes p))) (ct_VolumeMounts c) &&
  bool_decide (NoDup (map vm_MountPath (ct_VolumeMounts c))).
Definition pod_ok (p : PodSpec) : bool :=
  nonroot_pod p && forallb (λ c, hardened (ct_SecurityContext c) && mounts_ok p c) (containers p) &&
  bool_decide (NoDup (map v_Name (pod_Volumes p))) && bool_decide (NoDup (map ct_Name (containers p))).
(** The Secrets a pod mounts. *)
Definition mounted_secrets (p : PodSpec) : list string :=
  omap (λ v, match v_Source v with SecretVolume n _ => Some n | _ => None end) (pod_Volumes p).
(** The containers that see a volume. *)
Definition mounted_by (p : PodSpec) (v : string) : list string :=
  map ct_Name (filter (λ c, v ∈ map vm_Name (ct_VolumeMounts c)) (containers p)).

Lemma child_in_ha_labels gw role : ChildLabels (gw_name gw) ⊆ HALabels gw role.
Proof.
  unfold ChildLabels, HALabels. apply map_subseteq_spec. intros k v Hk.
  apply lookup_insert_Some in Hk as [[<- <-]|[_ [<- <-]%lookup_singleton_Some]].
  - by rewrite lookup_insert_eq.
  - rewrite lookup_insert_ne by done. rewrite lookup_insert_ne by done.
    rewrite lookup_insert_ne by done. by rewrite lookup_insert_eq.
Qed.

Section pods.
Context `{Controlled}.

(** C14.  Every pod of a Gateway is locked down and complete: in the Deployment, the frontend
    Deployment, the backend StatefulSet and the vanity Job each container runs as non-root
    without privilege escalation, capabilities or a writable root file system, and mounts only
    volumes its pod declares, none twice; workloads select their own pods, and the
    NetworkPolicy's selector matches the pods of both modes.  In the single-pod mode the key
    Secret is mounted in tor-init alone.  The pods of the onionbalance mode and of the vanity Job
    mount no Secret at all: contrary to the comment of BuildBackendStatefulSet, tor-init fetches
    a backend's key from the API server, and obrefresh the master key. *)
Theorem pods_locked_down gw policy auth images pol master testing :
  (∀ d, BuildDeployment gw policy auth images = Ok d → ∃ s, dep_Spec d = Some s ∧
     pod_ok (pt_Spec (ds_Template s)) = true ∧ ds_Selector s = pt_Labels (ds_Template s) ∧
     ChildLabels (gw_name gw) ⊆ pt_Labels (ds_Template s) ∧
     mounted_secrets (pt_Spec (ds_Template s)) =
       KeySecretName (gw_name gw) :: (if auth_Enabled auth then [auth_SecretName auth] else []) ∧
     mounted_by (pt_Spec (ds_Template s)) keysVolumeName = [initContainerName]) ∧
  (∀ d, BuildFrontendDeployment gw pol master images testing = Ok d → ∃ s, dep_Spec d = Some s ∧
     pod_ok (pt_Spec (ds_Template s)) = true ∧ ds_Selector s = pt_Labels (ds_Template s) ∧
     ChildLabels (gw_name gw) ⊆ pt_Labels (ds_Template s) ∧
     mounted_secrets (pt_Spec (ds_Template s)) = []) ∧
  (∀ d, BuildBackendStatefulSet gw pol master images = Ok d → ∃ s, sts_Spec d = Some s ∧
     pod_ok (pt_Spec (ss_Template s)) = true ∧ ss_Selector s = pt_Labels (ss_Template s) ∧
     ChildLabels (gw_name gw) ⊆ pt_Labels (ss_Template s) ∧
     mounted_secrets (pt_Spec (ss_Template s)) = [] ∧
     ss_Replicas s = Some (obp_Replicas (obp_Spec pol))) ∧
  (∀ quantity_zero cfg j, VanityJob quantity_zero cfg = Ok j →
     pod_ok (pt_Spec (js_Template (job_Spec j))) = true ∧
     mounted_secrets (pt_Spec (js_Template (job_Spec j))) = []).
Proof.
  split; [|split; [|split]].
  - intros d. unfold BuildDeployment. destruct (_ || _); [done|].
    intros (m & -> & _)%owned_spec. eexists. split; [reflexivity|]. cbn [ds_Template pt_Spec].
    destruct auth as [[|] name]; (split; [reflexivity|]); (split; [reflexivity|]);
      (split; [reflexivity|]); by split.
  - intros d. unfold BuildFrontendDeployment. destruct (_ || _); [done|].
    intros (m & -> & _)%owned_spec. eexists. split; [reflexivity|]. cbn [ds_Template pt_Spec].
    split; [by destruct testing|]. split; [done|]. split; [apply child_in_ha_labels|done].
  - intros d. unfold BuildBackendStatefulSet. destruct (_ || _); [done|].
    intros (m & -> & _)%owned_spec. eexists. split; [reflexivity|]. cbn [ss_Template pt_Spec].
    split; [done|]. split; [done|]. split; [apply child_in_ha_labels|done].
  - intros qz cfg j Hj. unfold VanityJob in Hj. invert_ok. subst j. done.
Qed.
End pods.

(** ** Roles *)
(** The documented meaning of RBAC rules: group, resource and verb must be listed, and the name
    too unless no names are. *)
Definition rule_allows (group resource verb name : string) (r : PolicyRule) : bool :=
  bool_decide (group ∈ APIGroups r) && bool_decide (resource ∈ Resources r) &&
  bool_decide (verb ∈ Verbs r) &&
  (bool_decide (ResourceNames r = []) || bool_decide (name ∈ ResourceNames r)).
Definition role_allows (role : Role) (group resource verb name : string) : bool :=
  existsb (rule_allows group resource verb name) (ro_Rules role).
Definition role_allows_secret (role : Role) (verb name : string) : bool :=
  role_allows role "" "secrets" verb name.

Lemma secrets_rule_allows verbs names verb name :
  rule_allows "" "secrets" verb name (secrets_rule verbs names) = true ↔
  verb ∈ verbs ∧ (names = [] ∨ name ∈ names).
Proof.
  unfold rule_allows. rewrite !andb_true_iff, orb_true_iff, !bool_decide_eq_true. cbn.
  split; [by intros [[_ ?] ?]|]. intros [? ?]. do 2 (split; [|done]). split; by left.
Qed.
Lemma elem_of_backend_names gw n name :
  name ∈ backend_names gw n ↔ ∃ i, (0 ≤ i < n)%Z ∧ name = BackendKeySecretName gw i.
Proof.
  unfold backend_names. rewrite list_elem_of_fmap. split.
  - intros (i & -> & Hi%elem_of_seq). exists (Z.of_nat i). split; [lia | done].
  - intros (i & Hi & ->). exists (Z.to_nat i). split; [by rewrite Z2Nat.id by lia|].
    apply elem_of_seq. lia.
Qed.
Lemma backend_names_nil gw n : backend_names gw n = [] ↔ (n ≤ 0)%Z.
Proof.
  unfold backend_names. split.
  - destruct (Z.to_nat n) eqn:Hn; [lia | done].
  - intros Hn. by replace (Z.to_nat n) with 0 by lia.
Qed.

Section roles.
Context `{Controlled}.

(** The Secrets of an onionbalance Gateway's frontend. *)
Definition frontend_secret (gw : Gateway) (pol : OnionBalancePolicy) (name : string) : Prop :=
  (∃ i, (0 ≤ i < obp_Replicas (obp_Spec pol))%Z ∧ name = BackendKeySecretName gw i) ∨
  master_in_namespace gw pol = true ∧ name = mk_Name (obp_MasterKeySecretRef (obp_Spec pol)).

(** C23.  Which Secrets each role gives access to, verb by verb.  With at least one replica, the
    router account of a Gateway may get the key Secrets of its backends and no other Secret, and
    without a policy none; the frontend's may get these and the master Secret when it is in the
    namespace, and it may list and watch every Secret of the namespace, as RBAC has no narrower
    grant for these verbs; the role made in another namespace gives get of the master Secret
    alone; the vanity account may get, update and patch its output Secret alone, but not create
    it, contrary to the comment of VanityJobConfig.  None may create or delete Secrets.  (The API
    server requires replicas to be positive: with none, the empty list of names would allow every
    Secret.) *)
Theorem roles_least_privilege gw pol name verb
    (Hreplicas : (0 < obp_Replicas (obp_Spec pol))%Z) :
  (∀ role, BuildRole gw None = Ok role → role_allows_secret role verb name = false) ∧
  (∀ role, BuildRole gw (Some pol) = Ok role → role_allows_secret role verb name = true ↔
     verb = "get" ∧ ∃ i, (0 ≤ i < obp_Replicas (obp_Spec pol))%Z ∧ name = BackendKeySecretName gw i) ∧
  (∀ role, BuildFrontendRole gw pol = Ok role → role_allows_secret role verb name = true ↔
     verb = "get" ∧ frontend_secret gw pol name ∨ verb = "list" ∨ verb = "watch") ∧
  (∀ role, BuildCrossNSMasterRole gw pol = Ok role →
     Namespace (ro_meta role) = mk_Namespace (obp_MasterKeySecretRef (obp_Spec pol)) ∧
     (role_allows_secret role verb name = true ↔
        verb = "get" ∧ name = mk_Name (obp_MasterKeySecretRef (obp_Spec pol)))) ∧
  (∀ role, BuildVanityRole gw = Ok role → role_allows_secret role verb name = true ↔
     verb ∈ ["get"; "update"; "patch"] ∧ name = VanityOutSecretName (gw_name gw)).
Proof.
  assert (backend_names gw (obp_Replicas (obp_Spec pol)) ≠ []) as Hne
    by (rewrite backend_names_nil; lia).
  unfold role_allows_secret, role_allows. split; [|split; [|split; [|split]]].
  - intros role (m & -> & _)%owned_spec. done.
  - intros role (m & -> & _)%owned_spec.
    cbn [ro_Rules with_meta Role_Object existsb]. change (rule_allows _ _ _ _ httproutes_rule) with false.
    rewrite orb_false_r, orb_false_l, secrets_rule_allows, list_elem_of_singleton, elem_of_backend_names.
    naive_solver.
  - intros role (m & -> & _)%owned_spec. cbn [ro_Rules with_meta Role_Object existsb].
    change (rule_allows _ _ _ _ {| APIGroups := [""]; Resources := ["events"]; Verbs := ["create"; "patch"];
      ResourceNames := [] |}) with false.
    rewrite !orb_false_r, orb_true_iff, !secrets_rule_allows, !elem_of_cons, !elem_of_nil, elem_of_app,
      elem_of_backend_names. unfold frontend_secret.
    assert (∀ k, backend_names gw (obp_Replicas (obp_Spec pol)) ++ k ≠ []) as Happ.
    { intros k [? _]%app_eq_nil. done. }
    destruct (master_in_namespace gw pol).
    + rewrite list_elem_of_singleton. specialize (Happ [mk_Name (obp_MasterKeySecretRef (obp_Spec pol))]).
      naive_solver.
    + specialize (Happ []). rewrite elem_of_nil. naive_solver.
  - intros role. unfold BuildCrossNSMasterRole. destruct (bool_decide _); [done|]. intros [= <-].
    split; [done|]. cbn [ro_Rules existsb].
    rewrite orb_false_r, secrets_rule_allows, !list_elem_of_singleton. naive_solver.
  - intros role (m & -> & _)%owned_spec. cbn [ro_Rules with_meta Role_Object existsb].
    rewrite orb_false_r, secrets_rule_allows, list_elem_of_singleton. naive_solver.
Qed.
End roles.

(** ** The torrc of the pods *)
Section torrc.
Context `{Controlled}.

(** The levels Tor knows; none means the default. *)
Definition valid_level (l : string) : bool :=
  bool_decide (l = "") || bool_decide (l ∈ ["debug"; "info"; "notice"; "warn"; "err"]).

Lemma torrc_config_valid ob policy auth inc :
  valid_level (eff_LogLevel policy) = true → Validate [] (torrc_config ob policy auth inc) = Ok ().
Proof.
  unfold valid_level. rewrite orb_true_iff, bool_decide_eq_true. intros Hl. apply Validate_Ok.
  cbn [torrc_config HiddenServiceDir DataDirectory HiddenServicePort VirtualPort
    TargetPort TargetHost LogLevel ClientAuthDir MetricsPort MetricsPortPolicy].
  split_and!; try done. destruct (auth_Enabled auth); [right; split; reflexivity | by left].
Qed.
Lemma torrc_config_invalid ob policy auth inc :
  valid_level (eff_LogLevel policy) = false →
  Validate [] (torrc_config ob policy auth inc) = Err (ErrLogLevel (eff_LogLevel policy)).
Proof.
  unfold valid_level, Validate, validLogLevel. intros Hl.
  cbn [torrc_config HiddenServiceDir DataDirectory HiddenServicePort VirtualPort TargetPort
    TargetHost LogLevel ClientAuthDir]. rewrite Hl. reflexivity.
Qed.
Lemma torrc_config_reads ob policy auth text :
  Torrc.Render [] (torrc_config ob policy auth "") = Ok text →
  read_torrc text = directives (torrc_config ob policy auth "").
Proof. apply Render_reads; [by repeat split | done | done]. Qed.
Lemma render_valid ob policy auth :
  valid_level (eff_LogLevel policy) = true →
  ∃ text, Torrc.Render [] (torrc_config ob policy auth "") = Ok text ∧
    read_torrc text = directives (torrc_config ob policy auth "").
Proof.
  intros Hl. eexists. split; [|apply torrc_config_reads];
    unfold Torrc.Render; rewrite torrc_config_valid by done; reflexivity.
Qed.

(** C35.  Whatever a TorServicePolicy says, the torrc of a Gateway's pods is exactly the
    operator's.  With a log level of Tor's or none, both modes write a text from which Tor reads
    the fixed directories, the one port forwarded to the router on loopback, the metrics port,
    proof-of-work only when it is wanted and never on an onionbalance instance, and nothing
    else; any other log level is refused. *)
Theorem torrc_from_policy gw pol policy auth :
  let level := eff_LogLevel policy in
  let head := [Directive "DataDirectory" "/var/lib/tor/data/data";
     Directive "Log" ((if bool_decide (level = "") then "notice" else level) +:+ " stdout");
     Directive "SocksPort" "0"; Directive "ClientUseIPv4" "1"; Directive "ClientUseIPv6" "1";
     Directive "HiddenServiceDir" "/var/lib/tor/hs/hs"; Directive "HiddenServiceVersion" "3";
     Directive "HiddenServicePort" "80 127.0.0.1:9080"] in
  let metrics := [Directive "MetricsPort" "0.0.0.0:9035";
                  Directive "MetricsPortPolicy" "accept 0.0.0.0/0"] in
  let pow := if eff_PoWDefensesEnabled policy
             then [Directive "HiddenServiceEnableIntroDoSDefense" "1";
                   Directive "HiddenServicePoWDefensesEnabled" "1"] else [] in
  if valid_level level then
    (∃ text, read_torrc text = head ++ pow ++ metrics ∧
       BuildTorrcConfigMap gw policy auth "" =
         owned gw {| cm_meta := child_meta gw (TorrcConfigMapName (gw_name gw));
                     cm_Data := {[ "torrc" := text ]} |}) ∧
    (∃ text, read_torrc text =
         head ++ [Directive "HiddenServiceOnionbalanceInstance" "1"] ++ metrics ∧
       BuildBackendTorrcConfigMap gw pol policy auth "" =
         owned gw {| cm_meta := ha_meta gw (BackendTorrcConfigMapName gw) haRoleBackend;
                     cm_Data := {[ "torrc" := text ]} |})
  else
    BuildTorrcConfigMap gw policy auth "" = Err (ErrWrap "render torrc" (ErrTorrc (ErrLogLevel level))) ∧
    BuildBackendTorrcConfigMap gw pol policy auth "" =
      Err (ErrWrap "render backend torrc" (ErrTorrc (ErrLogLevel level))).
Proof.
  cbv zeta. destruct (valid_level (eff_LogLevel policy)) eqn:Hl.
  - split.
    + destruct (render_valid false policy auth Hl) as (text & Hr & Hd). exists text. split.
      * rewrite Hd. unfold directives. cbn. by destruct (eff_PoWDefensesEnabled policy).
      * unfold BuildTorrcConfigMap. by rewrite Hr.
    + destruct (render_valid true policy auth Hl) as (text & Hr & Hd). exists text. split.
      * rewrite Hd. reflexivity.
      * unfold BuildBackendTorrcConfigMap. by rewrite Hr.
  - unfold BuildTorrcConfigMap, BuildBackendTorrcConfigMap, Torrc.Render.
    by rewrite !torrc_config_invalid.
Qed.
End torrc.

(** ** Backend keys *)
#[local] Arguments String.append !_ _ / : assert.

Lemma onion_char_not_blank c : is_onion_char c = true → is_blank c = false.
Proof.
  unfold is_blank. intros Hc. apply bool_decide_eq_false. intros Hb.
  repeat (apply elem_of_cons in Hb as [-> | Hb]; [discriminate Hc|]). by apply elem_of_nil in Hb.
Qed.
Lemma stringNoSpace_line s :
  str_forallb is_onion_char s = true → stringNoSpace (bytes_of_string (s +:+ nl)) = s.
Proof.
  unfold stringNoSpace. induction s as [|c s IH]; [done|]. simpl. intros [Hc Hs]%andb_true_iff.
  change (bytes_of_string (String c (s +:+ nl))) with (byte_of_ascii c :: bytes_of_string (s +:+ nl)).
  rewrite filter_cons_True by (rewrite ascii_of_byte_of_ascii; by apply onion_char_not_blank).
  change (string_of_bytes (?b :: ?l)) with (String (ascii_of_byte b) (string_of_bytes l)).
  by rewrite ascii_of_byte_of_ascii, IH.
Qed.

Section backend_keys.
Context `{Controlled, Ed25519, UnicodeCase}.

Lemma fresh_data_Ok read data :
  fresh_data read = Ok data →
  ∃ seed kp, read = Ok seed ∧ GenerateKeyPair (Ok seed) = Ok kp ∧ data = key_files kp.
Proof.
  unfold fresh_data. intros (kp & Hkp & [= <-])%rbind_Ok. destruct read as [seed|e]; [|done].
  exists seed, kp. split; [done|]. split; [|done].
  revert Hkp. destruct (GenerateKeyPair (Ok seed)); cbn; congruence.
Qed.
(** obrefresh trusts a Secret with the labels and the owner and the data of a pair. *)
Lemma key_files_trusted uid kp sec :
  keypair_wf kp → sec_Data sec = key_files kp → Labels (sec_meta sec) !! LabelOwnerUID = Some uid →
  Exists (λ o, or_UID o = uid ∧ or_Controller o = Some true) (OwnerReferences (sec_meta sec)) →
  backend_of uid (SecretObj sec) = Some {| pubKey := publicKey kp |}.
Proof.
  intros Hwf Hd Hl (o & Ho & Hu & Hc)%Exists_exists. apply backend_of_Some.
  exists sec, o, (Hostname kp). rewrite Hl, Hd. do 5 (split; [done|]). split; [by simplify_map_eq|].
  unfold Hostname. rewrite stringNoSpace_line by apply onion_string_chars.
  rewrite KeyPair_OnionAddress_wf by done. split; [by destruct (OnionAddress_String _)|].
  apply ParseAddress_String. apply Hwf.
Qed.
Lemma other_owner uid uid' sec :
  Labels (sec_meta sec) !! LabelOwnerUID = Some uid → uid' ≠ uid →
  backend_of uid' (SecretObj sec) = None.
Proof.
  intros Hl Hne. unfold backend_of. rewrite Hl. cbn [default].
  by rewrite (bool_decide_false (uid = uid')) by congruence.
Qed.

(** Backend keys are made once and are the ones onionbalance trusts.  An existing Secret
    that holds a secret key keeps its data; otherwise the Secret gets a fresh pair, whose files
    parse back to it.  In both cases the Secret is the Gateway's own, under the backend's name;
    and the fresh one is accepted by obrefresh as a backend of this Gateway with exactly the
    address of its public key, while a Secret with another owner UID never is. *)
Theorem backend_key_secret gw idx existing read sec
    (Hbuild : BuildBackendKeySecret gw idx existing read = Ok sec) :
  key sec = {| nn_Namespace := gw_ns gw; nn_Name := BackendKeySecretName gw idx |} ∧
  Labels (sec_meta sec) = ownerLabels gw haRoleBackend ∧
  ((∃ old, existing = Some old ∧ default [] (sec_Data old !! FileSecretKeyName) ≠ [] ∧
      sec_Data sec = sec_Data old) ∨
   (∀ old, existing = Some old → default [] (sec_Data old !! FileSecretKeyName) = []) ∧
   ∃ seed kp, read = Ok seed ∧ GenerateKeyPair (Ok seed) = Ok kp ∧ sec_Data sec = key_files kp ∧
     ParseFiles (SecretKeyFile kp) (PublicKeyFile kp) = Ok kp ∧
     backend_of (UID (gw_meta gw)) (SecretObj sec) = Some {| pubKey := publicKey kp |}) ∧
  (∀ uid, uid ≠ UID (gw_meta gw) → backend_of uid (SecretObj sec) = None).
Proof.
  unfold BuildBackendKeySecret in Hbuild.
  apply rbind_Ok in Hbuild as (data & Hdata & (m & -> & Hn & Hns & Hlab & Hown)%owned_spec).
  cbn in Hn, Hns, Hlab. split; [unfold key; cbn; by rewrite Hn, Hns|]. split; [done|].
  assert (Labels m !! LabelOwnerUID = Some (UID (gw_meta gw))) as Huid
    by (rewrite Hlab; apply lookup_insert_eq).
  split; [|intros uid Hne; by eapply other_owner].
  assert (fresh_data read = Ok data → ∃ seed kp, read = Ok seed ∧ GenerateKeyPair (Ok seed) = Ok kp ∧
      data = key_files kp ∧ ParseFiles (SecretKeyFile kp) (PublicKeyFile kp) = Ok kp ∧
      backend_of (UID (gw_meta gw)) (SecretObj {| sec_meta := m; sec_Type := "Opaque"; sec_Data := data |})
        = Some {| pubKey := publicKey kp |}) as Hfresh.
  { intros (seed & kp & -> & Hkp & ->)%fresh_data_Ok. exists seed, kp.
    destruct (GenerateKeyPair_wf _ _ Hkp) as [Hwf _]. do 3 (split; [done|]).
    split; [by apply ParseFiles_Ok | by apply key_files_trusted]. }
  destruct existing as [old|]; [destruct (0 <? length _) eqn:Hlen|].
  - left. exists old. injection Hdata as <-. bools. split; [done|]. split; [|done].
    intros He. rewrite He in Hlen. simpl in Hlen. lia.
  - right. split; [|by apply Hfresh]. intros old' [= <-]. apply Nat.ltb_ge in Hlen.
    apply length_zero_iff_nil. lia.
  - right. split; [done|]. by apply Hfresh.
Qed.
End backend_keys.

(** ** Vanity jobs *)
Lemma matches_UpTo_class p n s :
  matches (UpTo n (Class p)) s ↔ String.length s ≤ n ∧ str_forallb p s = true.
Proof.
  revert s. induction n as [|n IH]; intros s; cbn [UpTo].
  - rewrite matches_eps. destruct s; simpl; [done|]. split; [done|lia].
  - unfold Opt. rewrite matches_alt, matches_eps, matches_seq. split.
    + intros [->|(u & v & -> & (c & Hc & ->)%matches_class & [? ?]%IH)]; simpl; [split; [lia|done]|].
      rewrite Hc. split; [lia|done].
    + destruct s as [|c s]; simpl; [by left|]. intros [? [Hc ?]%andb_true_iff]. right.
      exists (String c ""), s. split; [done|]. split; [apply matches_class; eauto|]. apply IH. split; [lia|done].
Qed.
Lemma vanity_prefix_iff s :
  re_match vanityPrefixPattern s = true ↔
  1 ≤ String.length s ≤ 8 ∧ str_forallb base32_lower s = true.
Proof.
  rewrite re_match_matches. unfold vanityPrefixPattern, Between. cbn [Times].
  rewrite matches_seq. setoid_rewrite matches_seq. setoid_rewrite matches_eps. change (8 - 1) with 7.
  setoid_rewrite matches_UpTo_class. setoid_rewrite matches_class. split.
  - intros (u & v & -> & (u1 & u2 & -> & (c & Hc & ->) & ->) & Hlen & Hv). simpl. rewrite Hc.
    split; [lia|done].
  - destruct s as [|c s]; simpl; [lia|]. intros [Hlen [Hc Hs]%andb_true_iff].
    exists (String c ""), s. split; [done|]. split; [|split; [lia|done]].
    exists (String c ""), "". split; [done|]. split; [by exists c | done].
Qed.

(** A deadline is cut down to whole seconds; one that is long enough, 194 days and more, and a
    nanosecond short of them is rounded up. *)
Lemma deadlines :
  map deadline_seconds [0; 1; 3600000000000; 3600999999999; 16777216000000000 - 1; 16777217000000000 - 1]%Z =
  [3600; 0; 3600; 3600; 16777215; 16777217]%Z.
Proof. vm_compute. reflexivity. Qed.

(** A vanity Job is made exactly for complete configurations whose prefix is one to eight
    letters of Tor's base32 alphabet.  The prefix is then the last argument of mkp224o and
    cannot be taken for an option; the Job is not retried, ends after the deadline, an hour when
    none is given, and its labels are the caller's over the fixed ones. *)
Theorem vanity_job_spec quantity_zero cfg :
  (is_ok (VanityJob quantity_zero cfg) = true ↔
     vc_JobName cfg ≠ "" ∧ vc_Namespace cfg ≠ "" ∧
     (1 ≤ String.length (vc_Prefix cfg) ≤ 8 ∧ str_forallb base32_lower (vc_Prefix cfg) = true) ∧
     vc_OutputSecretName cfg ≠ "" ∧ vc_ServiceAccountName cfg ≠ "" ∧
     vc_Mkp224oImage cfg ≠ "" ∧ vc_FinalizeImage cfg ≠ "") ∧
  (∀ j, VanityJob quantity_zero cfg = Ok j →
     key j = {| nn_Namespace := vc_Namespace cfg; nn_Name := vc_JobName cfg |} ∧
     js_BackoffLimit (job_Spec j) = Some 0%Z ∧
     js_ActiveDeadlineSeconds (job_Spec j) = Some (
       if decide (0 < vc_ActiveDeadline cfg)%Z then trunc (Seconds (vc_ActiveDeadline cfg)) else 3600%Z) ∧
     (∃ args, map ct_Args (pod_InitContainers (pt_Spec (js_Template (job_Spec j)))) =
        [args ++ [vc_Prefix cfg]] ∧ HasPrefix (vc_Prefix cfg) "-" = false) ∧
     (∀ k v, vc_Labels cfg !! k = Some v → Labels (job_meta j) !! k = Some v)).
Proof.
  split.
  - rewrite <- vanity_prefix_iff. unfold VanityJob.
    destruct (bool_decide (vc_JobName cfg = "")) eqn:H1, (bool_decide (vc_Namespace cfg = "")) eqn:H2,
      (re_match vanityPrefixPattern (vc_Prefix cfg)) eqn:H3,
      (bool_decide (vc_OutputSecretName cfg = "")) eqn:H4,
      (bool_decide (vc_ServiceAccountName cfg = "")) eqn:H5,
      (bool_decide (vc_Mkp224oImage cfg = "")) eqn:H6, (bool_decide (vc_FinalizeImage cfg = "")) eqn:H7;
      bools; cbn; (split; [try done | intros (? & ? & ? & ? & ? & ? & ?); done || congruence]); done.
  - intros j Hj. unfold VanityJob in Hj. invert_ok. subst j. split; [done|]. split; [done|].
    split; [|split].
    + cbn. unfold deadline_seconds. f_equal.
      destruct (Z.leb_spec (vc_ActiveDeadline cfg) 0), (decide (0 < vc_ActiveDeadline cfg)%Z); lia || done.
    + exists ["-d"; workdir; "-n"; "1"; "-q"]. split; [done|].
      match goal with H : re_match vanityPrefixPattern _ = true |- _ => apply vanity_prefix_iff in H as [? Hp] end.
      destruct (HasPrefix (vc_Prefix cfg) "-") eqn:Hh; [|done].
      apply HasPrefix_true in Hh as [r Hr]. rewrite Hr in Hp. discriminate Hp.
    + intros k v Hk. cbn. unfold mergeLabels. by apply lookup_union_Some_l.
Qed.

(** ** Witnesses *)
Definition example_images : RuntimeImages := {|
  img_Tor := "tor:1"; img_Router := "router:1"; img_TorInit := "tor-init:1"; img_Mkp224o := "mkp224o:1";
  img_VanityFinalize := "finalize:1"; img_Operator := ""; img_Onionbalance := "ob:1";
  img_Obrefresh := "obrefresh:1" |}.
Definition example_auth : EffectiveClientAuth := {| auth_Enabled := true; auth_SecretName := "clients" |}.

Lemma pods_locked_down_witness : ∃ d s,
  BuildDeployment example_gateway DefaultPolicy example_auth example_images = Ok d ∧ dep_Spec d = Some s ∧
  mounted_by (pt_Spec (ds_Template s)) keysVolumeName = ["tor-init"].
Proof.
  assert (∃ d, BuildDeployment example_gateway DefaultPolicy example_auth example_images = Ok d)
    as [d Hd] by (eexists; reflexivity).
  destruct (proj1 (pods_locked_down example_gateway DefaultPolicy example_auth example_images example_obp
    {| pubKey := zero_key |} false) d Hd) as (s & Hs & _ & _ & _ & _ & Hm).
  exists d, s. split; [exact Hd|]. split; [exact Hs | exact Hm].
Defined.
Lemma roles_least_privilege_witness : ∃ role,
  BuildFrontendRole example_gateway example_obp = Ok role ∧
  role_allows_secret role "get" "onion-backend-1-keys" = true ∧
  role_allows_secret role "get" "master" = true.
Proof.
  assert (0 < obp_Replicas (obp_Spec example_obp))%Z as Hr by reflexivity.
  assert (∃ role, BuildFrontendRole example_gateway example_obp = Ok role) as [role Hrole]
    by (eexists; reflexivity).
  exists role. split; [exact Hrole|]. split.
  - destruct (roles_least_privilege example_gateway example_obp "onion-backend-1-keys" "get" Hr)
      as (_ & _ & Hf & _).
    apply (Hf role Hrole). left. split; [reflexivity|]. left. exists 1%Z. split; [by split | reflexivity].
  - destruct (roles_least_privilege example_gateway example_obp "master" "get" Hr) as (_ & _ & Hf & _).
    apply (Hf role Hrole). left. split; [reflexivity|]. right. split; reflexivity.
Defined.
Lemma backend_key_secret_witness : ∃ sec,
  BuildBackendKeySecret example_gateway 0 None (Ok zero_key) = Ok sec ∧
  Labels (sec_meta sec) = ownerLabels example_gateway haRoleBackend.
Proof.
  eexists. split; [reflexivity|].
  eapply (backend_key_secret example_gateway 0 None (Ok zero_key)). reflexivity.
Defined.
