(* ===== verification/Client.v ===== *)
(** * The Gateway controller's client and what its writes can change

    [Client] bundles the clients of the kinds the controller works on.  [keeps P m] says that a
    step preserves a property of the cluster; [keeps_writes] that all writes to the objects of
    a kind with certain names do.  Properties of whole reconciles are proved from these. *)

From Stdlib Require Import ZArith.
From S2P Require Import Prelude Monad GoStrings KubeTypes Kube Names Resources.

Class Client (S : Type) := {
  client_Gateway :: Store S Gateway;
  client_GatewayClass :: Store S GatewayClass;
  client_HTTPRoute :: Store S HTTPRoute;
  client_ReferenceGrant :: Store S ReferenceGrant;
  client_Secret :: Store S Secret;
  client_ConfigMap :: Store S ConfigMap;
  client_ServiceAccount :: Store S ServiceAccount;
  client_Role :: Store S Role;
  client_RoleBinding :: Store S RoleBinding;
  client_Service :: Store S Service;
  client_Deployment :: Store S Deployment;
  client_StatefulSet :: Store S StatefulSet;
  client_Job :: Store S Job;
  client_NetworkPolicy :: Store S NetworkPolicy;
  client_TorServicePolicy :: Store S TorServicePolicy;
  client_TorClientAuthPolicy :: Store S TorClientAuthPolicy;
  client_OnionBalancePolicy :: Store S OnionBalancePolicy;
}.
#[global] Instance cluster_client : Client Cluster := {}.

(** The reconciler's settings; [Recorder] tells whether events are recorded. *)
Record GatewayReconciler := {
  Images : RuntimeImages;
  Recorder : bool;
  VanityDeadline : Z;
  TorPodNetworkPolicyEnabled : bool;
  ClusterPodCIDRs : list string;
  TestingNetworkInclude : string;
  TestingNetworkNamespace : string;
}.
Definition event {S} `{Events S} (r : GatewayReconciler) (gw : Gateway) (type reason message : string)
  : M S error () :=
  if Recorder r
  then emit (key gw) {| ev_type := type; ev_reason := reason; ev_message := message |}
  else ret ().
(** ** CreateOrUpdate of each kind

    From an object with the name alone, or the one found: the labels, the owner references and
    the kind's own fields are set to the wanted ones. *)
Section ensure.
Context {S : Type} `{!Client S}.

Definition blank {T} `{Object T} (want : T) : ObjectMeta :=
  new_meta (Name (meta want)) (Namespace (meta want)) ∅.
Definition owned_like {T} `{Object T} (want current : T) : T :=
  set_owners (OwnerReferences (meta want)) (set_labels (Labels (meta want)) current).

Definition ensureHAConfigMap (want : ConfigMap) : M S error () :=
  api (kapply {| cm_meta := blank want; cm_Data := ∅ |} (λ current,
    owned_like want {| cm_meta := cm_meta current; cm_Data := cm_Data want |})).
Definition ensureHAServiceAccount (want : ServiceAccount) : M S error () :=
  api (kapply {| sa_meta := blank want |} (owned_like want)).
Definition ensureHARole (want : Role) : M S error () :=
  api (kapply {| ro_meta := blank want; ro_Rules := [] |} (λ current,
    owned_like want {| ro_meta := ro_meta current; ro_Rules := ro_Rules want |})).
Definition ensureHARoleBinding (want : RoleBinding) : M S error () :=
  api (kapply {| rb_meta := blank want; rb_RoleRef := {| rref_APIGroup := ""; rref_Kind := ""; rref_Name := "" |};
                 rb_Subjects := [] |} (λ current,
    owned_like want {| rb_meta := rb_meta current; rb_RoleRef := rb_RoleRef want;
                       rb_Subjects := rb_Subjects want |})).
(** A cluster IP that was assigned is kept. *)
Definition ensureHAService (want : Service) : M S error () :=
  api (kapply {| svc_meta := blank want; svc_ClusterIP := ""; svc_Selector := ∅; svc_Ports := [] |}
    (λ current,
      owned_like want {|
        svc_meta := svc_meta current;
        svc_ClusterIP := if bool_decide (svc_ClusterIP current = "") then svc_ClusterIP want
                         else svc_ClusterIP current;
        svc_Selector := svc_Selector want; svc_Ports := svc_Ports want |})).
Definition ensureHADeployment (want : Deployment) : M S error () :=
  api (kapply {| dep_meta := blank want; dep_Spec := None; dep_Conditions := [] |} (λ current,
    owned_like want {| dep_meta := dep_meta current; dep_Spec := dep_Spec want;
                       dep_Conditions := dep_Conditions current |})).
Definition ensureHAStatefulSet (want : StatefulSet) : M S error () :=
  api (kapply {| sts_meta := blank want; sts_Spec := None; sts_StatusReplicas := 0 |} (λ current,
    owned_like want {| sts_meta := sts_meta current; sts_Spec := sts_Spec want;
                       sts_StatusReplicas := sts_StatusReplicas current |})).
Definition apply_NetworkPolicy (want : NetworkPolicy) : M S error () :=
  api (kapply {| netpol_meta := blank want; netpol_Spec := None |} (λ current,
    owned_like want {| netpol_meta := netpol_meta current; netpol_Spec := netpol_Spec want |})).
(** Key material is written on creation only. *)
Definition ensureBackendKeySecret (want : Secret) : M S error () :=
  api (kapply {| sec_meta := blank want; sec_Type := ""; sec_Data := ∅ |} (λ current,
    owned_like want {| sec_meta := sec_meta current; sec_Type := sec_Type current;
      sec_Data := if bool_decide (ResourceVersion (sec_meta current) = "") then sec_Data want
                  else sec_Data current |})).
End ensure.

(** * Steps that keep a property *)
Section keeps.
Context {S : Type} (P : S → Prop).

Definition keeps {E A} (m : M S E A) : Prop := ∀ s, P s → P (m s).1.

Lemma keeps_ret {E A} (a : A) : keeps (E := E) (ret a).
Proof. by intros s. Qed.
Lemma keeps_throw {E A} (e : E) : keeps (A := A) (throw e).
Proof. by intros s. Qed.
Lemma keeps_lift {E A} (r : result E A) : keeps (lift r).
Proof. by intros s. Qed.
Lemma keeps_gets {E A} (f : S → result E A) : keeps (gets f).
Proof. by intros s. Qed.
Lemma keeps_read {A} (f : S → result api_error A) : keeps (read f).
Proof. by intros s. Qed.
Lemma keeps_find {T} `{Store S T} k : keeps (find (T := T) k).
Proof. intros s Hs. by rewrite find_state. Qed.
Lemma keeps_bind {E A B} (m : M S E A) (f : A → M S E B) :
  keeps m → (∀ a, keeps (f a)) → keeps (bind m f).
Proof.
  intros Hm Hf s Hs. unfold bind. specialize (Hm s Hs). destruct (m s) as [s' [a|e]]; [|done].
  by apply Hf.
Qed.
Lemma keeps_try {E A B} (m : M S E A) (f : result E A → M S E B) :
  keeps m → (∀ r, keeps (f r)) → keeps (try m f).
Proof.
  intros Hm Hf s Hs. unfold try. specialize (Hm s Hs). destruct (m s) as [s' r]. by apply Hf.
Qed.
Lemma keeps_wrap {E F A} (w : E → F) (m : M S E A) : keeps m → keeps (wrap w m).
Proof. intros Hm s Hs. unfold wrap. specialize (Hm s Hs). by destruct (m s). Qed.
Lemma keeps_api {A} (m : M S api_error A) : keeps m → keeps (api m).
Proof. apply keeps_wrap. Qed.
Lemma keeps_ignore_not_found (m : M S api_error ()) : keeps m → keeps (ignore_not_found m).
Proof.
  intros Hm s Hs. unfold ignore_not_found. specialize (Hm s Hs). destruct (m s) as [s' [|[]]]; done.
Qed.
Lemma keeps_best_effort {E F A} (m : M S E A) : keeps m → keeps (E := F) (best_effort m).
Proof. intros Hm s Hs. by apply Hm. Qed.
Lemma keeps_for_each {E A} (f : A → M S E ()) l : (∀ x, x ∈ l → keeps (f x)) → keeps (for_each f l).
Proof. intros Hf s. apply for_each_invariant. intros x s' Hx. by apply Hf. Qed.
Lemma keeps_retry `{Retry S} (m : M S error ()) : keeps m → keeps (retry_on_conflict m).
Proof. intros Hm s. by apply retry_invariant. Qed.
Lemma keeps_event `{Events S} r gw type reason message :
  (∀ k e s, P s → P (record_event k e s)) → keeps (event r gw type reason message).
Proof. intros He s Hs. unfold event. destruct (Recorder r); [by apply He | done]. Qed.

(** Writes to the objects of a kind with some of the names. *)
Record keeps_writes (T : Type) `{Store S T} (ok : NamespacedName → Prop) : Prop := {
  keeps_kcreate x : ok (key x) → keeps (kcreate (T := T) x);
  keeps_kupdate x : ok (key x) → keeps (kupdate (T := T) x);
  keeps_kupdate_status x : ok (key x) → keeps (kupdate_status (T := T) x);
  keeps_kpatch x : ok (key x) → keeps (kpatch (T := T) x);
  keeps_kdelete k : ok k → keeps (kdelete (T := T) k);
  keeps_kapply x f : ok (key x) → keeps (kapply (T := T) x f);
}.
End keeps.

(** All writes to the objects of a kind. *)
Definition keeps_any {S} (P : S → Prop) (T : Type) `{Store S T} : Prop := keeps_writes P T (λ _, True).
Section any.
Context {S : Type} (P : S → Prop) {T : Type} `{Store S T} (Hany : keeps_any P T).
Lemma any_kcreate x : keeps P (kcreate (T := T) x).
Proof. by apply (keeps_kcreate _ _ _ Hany). Qed.
Lemma any_kupdate x : keeps P (kupdate (T := T) x).
Proof. by apply (keeps_kupdate _ _ _ Hany). Qed.
Lemma any_kupdate_status x : keeps P (kupdate_status (T := T) x).
Proof. by apply (keeps_kupdate_status _ _ _ Hany). Qed.
Lemma any_kpatch x : keeps P (kpatch (T := T) x).
Proof. by apply (keeps_kpatch _ _ _ Hany). Qed.
Lemma any_kdelete k : keeps P (kdelete (T := T) k).
Proof. by apply (keeps_kdelete _ _ _ Hany). Qed.
Lemma any_kapply x f : keeps P (kapply (T := T) x f).
Proof. by apply (keeps_kapply _ _ _ Hany). Qed.
End any.

Section combine.
Context {S T : Type} `{Store S T} (ok : NamespacedName → Prop).
Lemma keeps_writes_and (P Q : S → Prop) :
  keeps_writes P T ok → keeps_writes Q T ok → keeps_writes (λ s, P s ∧ Q s) T ok.
Proof.
  intros HP HQ. split; intros; intros s [Hp Hq]; split;
    first [by apply (keeps_kcreate _ _ _ HP) | by apply (keeps_kcreate _ _ _ HQ)
          | by apply (keeps_kupdate _ _ _ HP) | by apply (keeps_kupdate _ _ _ HQ)
          | by apply (keeps_kupdate_status _ _ _ HP) | by apply (keeps_kupdate_status _ _ _ HQ)
          | by apply (keeps_kpatch _ _ _ HP) | by apply (keeps_kpatch _ _ _ HQ)
          | by apply (keeps_kdelete _ _ _ HP) | by apply (keeps_kdelete _ _ _ HQ)
          | by apply (keeps_kapply _ _ _ HP) | by apply (keeps_kapply _ _ _ HQ)].
Qed.
Lemma keeps_writes_all {A} (P : A → S → Prop) :
  (∀ a, keeps_writes (P a) T ok) → keeps_writes (λ s, ∀ a, P a s) T ok.
Proof.
  intros HP. split; intros; intros s Hs a; specialize (HP a); specialize (Hs a);
    first [by apply (keeps_kcreate _ _ _ HP) | by apply (keeps_kupdate _ _ _ HP)
          | by apply (keeps_kupdate_status _ _ _ HP) | by apply (keeps_kpatch _ _ _ HP)
          | by apply (keeps_kdelete _ _ _ HP) | by apply (keeps_kapply _ _ _ HP)].
Qed.
Lemma keeps_writes_mono (P : S → Prop) (ok' : NamespacedName → Prop) :
  (∀ k, ok' k → ok k) → keeps_writes P T ok → keeps_writes P T ok'.
Proof.
  intros Hok HP. split; intros; [apply (keeps_kcreate _ _ _ HP) | apply (keeps_kupdate _ _ _ HP)
    | apply (keeps_kupdate_status _ _ _ HP) | apply (keeps_kpatch _ _ _ HP)
    | apply (keeps_kdelete _ _ _ HP) | apply (keeps_kapply _ _ _ HP)]; by apply Hok.
Qed.
End combine.

(** Go through a handler, branch by branch, down to its writes. *)
Create HintDb keeps.
#[export] Hint Resolve keeps_ret keeps_throw keeps_lift keeps_gets keeps_read keeps_find : keeps.
#[export] Hint Resolve any_kcreate any_kupdate any_kupdate_status any_kpatch any_kdelete any_kapply : keeps.
Ltac keeps_step :=
  match goal with
  | |- keeps _ (match ?x with _ => _ end) => destruct x
  | |- keeps _ (let '(_, _) := ?x in _) => destruct x
  | |- keeps _ (bind _ _) => apply keeps_bind; [|intros ?]
  | |- keeps _ (try _ _) => apply keeps_try; [|intros ?]
  | |- keeps _ (wrap _ _) => apply keeps_wrap
  | |- keeps _ (api _) => apply keeps_api
  | |- keeps _ (ignore_not_found _) => apply keeps_ignore_not_found
  | |- keeps _ (best_effort _) => apply keeps_best_effort
  | |- keeps _ (for_each _ _) => apply keeps_for_each; intros ? ?
  | |- keeps _ (retry_on_conflict _) => apply keeps_retry
  end.
Ltac keeps := repeat first [progress cbv zeta | keeps_step | solve [eauto with keeps]].

(** In memory: the writes to other objects keep what holds of an object. *)
Lemma mem_keeps {T} `{Kind T} (Q : option any → Prop) kind k (ok : NamespacedName → Prop) :
  (kind_name (T := T) = kind → ∀ k', ok k' → k' ≠ k) →
  keeps_writes (λ c, Q (objects c !! (kind, k))) T ok.
Proof.
  intros Hne.
  assert (∀ k' x c, ok k' → Q (objects c !! (kind, k)) →
    Q (objects (put (kind_name (T := T), k') x c) !! (kind, k))) as Hput.
  { intros k' x c Hok Hc. unfold put. cbn. rewrite lookup_insert_ne; [done|].
    intros [= Hk ->]. by eapply Hne. }
  split.
  - intros x Hok c Hc. cbn. unfold mem_create. destruct (mem_get c (key x)); [done|]. by apply Hput.
  - intros x Hok c Hc. cbn. unfold mem_write. destruct (mem_get c (key x)); [by apply Hput|done].
  - intros x Hok c Hc. cbn. unfold mem_write. destruct (mem_get c (key x)); [by apply Hput|done].
  - intros x Hok c Hc. cbn. unfold mem_write. destruct (mem_get c (key x)); [by apply Hput|done].
  - intros k' Hok c Hc. cbn. unfold mem_delete. destruct (mem_get c k'); [|done].
    unfold drop_object. cbn. rewrite lookup_delete_ne; [done|]. intros [= Hk ->]. by eapply Hne.
  - intros x f Hok c Hc. cbn. unfold mem_apply.
    destruct (mem_get c (key x)) as [cur|[]]; try done.
    + destruct (bool_decide _); [by apply Hput | done].
    + destruct (bool_decide (key (f x) = key x)) eqn:Hk; [|done]. bools. unfold mem_create.
      destruct (mem_get c (key (f x))); [done|]. apply Hput; [by rewrite Hk | done].
Qed.

(** In memory: objects are stored under their own names. *)
Definition named {T} `{Kind T} (c : Cluster) : Prop :=
  ∀ k a x, objects c !! (kind_name (T := T), k) = Some a → prj a = Some x → key x = k.
Class LawfulKind (T : Type) `{Kind T} : Prop := {
  prj_inj (x : T) : prj (inj x) = Some x;
  status_meta (x y : T) : meta (with_status_of x y) = meta x;
  key_with_meta (x : T) m : meta (with_meta m x) = m;
}.
#[global] Instance Secret_lawful : LawfulKind Secret.
Proof. split; done. Qed.
#[global] Instance Gateway_lawful : LawfulKind Gateway.
Proof. split; done. Qed.
Lemma mem_get_put {T} `{Kind T, !LawfulKind T} k (x : T) c :
  mem_get (put (kind_name (T := T), k) (inj x) c) k = Ok x.
Proof. unfold mem_get, put. cbn. rewrite lookup_insert_eq. cbn. by rewrite prj_inj. Qed.
Lemma got_key {T} `{Kind T} c k (x : T) : named (T := T) c → mem_get c k = Ok x → key x = k.
Proof.
  intros Hc. unfold mem_get. destruct (objects c !! _) as [a|] eqn:Ha; [|done]. cbn.
  destruct (prj a) as [y|] eqn:Hy; [|done]. intros [= ->]. by eapply Hc.
Qed.
Lemma named_put {T} `{Kind T, !LawfulKind T} k (x : T) c :
  named (T := T) c → key x = k → named (T := T) (put (kind_name (T := T), k) (inj x) c).
Proof.
  intros Hc Hx k' a y. cbn. destruct (decide (k' = k)) as [->|Hne].
  - rewrite lookup_insert_eq. intros [= <-]. rewrite prj_inj. by intros [= <-].
  - rewrite lookup_insert_ne by congruence. apply Hc.
Qed.
Lemma mem_keeps_named T `{Kind T, !LawfulKind T} : keeps_any (named (T := T)) T.
Proof.
  assert (∀ merge (x : T), (∀ old, key (merge x old) = key x ∨ key (merge x old) = key old) →
    keeps (named (T := T)) (mem_write merge x)) as Hwrite.
  { intros merge x Hm c Hc. unfold mem_write. destruct (mem_get c (key x)) as [old|] eqn:Hold; [|done].
    apply named_put; [done|]. destruct (Hm old) as [?|Hm2]; [done|]. rewrite Hm2. by apply (got_key c). }
  assert (∀ x : T, key (stamp x) = key x) as Hstamp.
  { intros x. unfold stamp, key. by rewrite !key_with_meta. }
  split.
  - intros x _ c Hc. cbn. unfold mem_create. destruct (mem_get c (key x)); [done|]. by apply named_put.
  - intros x _. apply Hwrite. intros old. left. unfold key. by rewrite status_meta.
  - intros x _. apply Hwrite. intros old. right. unfold key. by rewrite status_meta.
  - intros x _. apply Hwrite. intros old. left. unfold key. by rewrite status_meta.
  - intros k _ c Hc. cbn. unfold mem_delete. destruct (mem_get c k); [|done].
    intros k' o y. cbn. rewrite lookup_delete_Some. intros [_ Ho]. by apply Hc.
  - intros x f _ c Hc. cbn. unfold mem_apply. destruct (mem_get c (key x)) as [cur|[]] eqn:Hcur; try done.
    + destruct (bool_decide _) eqn:Hf; [|done]. bools. apply named_put; [done|]. rewrite Hf. by apply (got_key c).
    + destruct (bool_decide _) eqn:Hf; [|done]. bools. unfold mem_create.
      destruct (mem_get c (key (f x))); [done|]. by apply named_put.
Qed.
Lemma mem_keeps_named_other T `{Kind T} T' `{Kind T'} :
  kind_name (T := T') ≠ kind_name (T := T) → keeps_any (named (T := T)) T'.
Proof.
  intros Hne. unfold named.
  apply (keeps_writes_all _ (λ k c, ∀ a x, objects c !! (kind_name (T := T), k) = Some a →
           prj a = Some x → key x = k)).
  intros k. apply (mem_keeps (λ o, ∀ a x, o = Some a → prj a = Some x → key x = k)). done.
Qed.

(** ** In memory, with others

    Before each write of the operator the next of some changes by others is made. *)
Module Crowd.
Record Crowded := { cr_cluster : Cluster; cr_others : list (Cluster → Cluster) }.
Definition crowded {E A} (m : M Cluster E A) : M Crowded E A := λ s,
  let c := match cr_others s with [] => cr_cluster s | f :: _ => f (cr_cluster s) end in
  let '(c', r) := m c in ({| cr_cluster := c'; cr_others := tail (cr_others s) |}, r).
#[export] Instance crowded_store {T} `{Kind T} : Store Crowded T := {|
  kget s := kget (cr_cluster s); klist s := klist (cr_cluster s);
  kcreate x := crowded (kcreate x); kupdate x := crowded (kupdate x);
  kupdate_status x := crowded (kupdate_status x); kpatch x := crowded (kpatch x);
  kdelete k := crowded (kdelete (T := T) k); kapply x f := crowded (kapply x f) |}.
#[export] Instance crowded_client : Client Crowded := {}.
#[export] Instance crowded_events : Events Crowded := {|
  record_event := λ k e s, {| cr_cluster := record_event k e (cr_cluster s); cr_others := cr_others s |} |}.
#[export] Program Instance crowded_retry : Retry Crowded := {| retry_on_conflict := λ m, m |}.
Next Obligation. done. Qed.
Next Obligation. auto. Qed.

(** What the others keep, the operator's writes keep among theirs. *)
Definition crowd_of (P : Cluster → Prop) (s : Crowded) : Prop :=
  P (cr_cluster s) ∧ Forall (λ f, ∀ c, P c → P (f c)) (cr_others s).
Lemma keeps_crowded {E A} (P : Cluster → Prop) (m : M Cluster E A) :
  keeps P m → keeps (crowd_of P) (crowded m).
Proof.
  intros Hm s [Hs Hf]. unfold crowded.
  set (c := match cr_others s with [] => _ | _ => _ end).
  assert (P c) as Hc by (unfold c; destruct Hf as [|f l Hf _]; [done|by apply Hf]).
  specialize (Hm c Hc). destruct (m c) as [c' r]. split; [exact Hm|]. cbn. by destruct Hf.
Qed.
Lemma crowded_writes (P : Cluster → Prop) T `{Kind T} ok :
  keeps_writes P T ok → keeps_writes (crowd_of P) T ok.
Proof. intros []. split; intros; apply keeps_crowded; eauto. Qed.
End Crowd.
