(* ===== verification/Harvest.v ===== *)
(** * Keys of a Gateway (internal/controller/vanity.go, and ensureKeySecret of
      gateway_controller.go)

    A Gateway's key is made once: at random, or by a Job that searches for a vanity prefix.
    The handlers change the Gateway they are given, so they return it. *)

From Stdlib Require Import Ascii ZArith.
From S2P Require Import Prelude Monad GoStrings Onion Keys KubeTypes Kube Names Status Policies.
From S2P Require Import HTTPRouteCtl Resources Client.

(** ** vanity.go *)
Definition ReasonVanityHarvestInProgress : string := "VanityHarvestInProgress".
Definition ReasonVanityHarvestFailed : string := "VanityHarvestFailed".
Definition ReasonAwaitingVanityPolicy : string := "AwaitingVanityPolicy".

(** What comes of asking for a key: the key, or one of the sentinel errors the reconciler
    turns into conditions. *)
Inductive key_outcome :=
| KeyReady (secret : Secret) (kp : KeyPair)
| errHarvestPending
| errHarvestFailed
| errAwaitingVanityPolicy.

Definition vanityOutPopulated (s : Secret) : bool :=
  (length (default [] (sec_Data s !! FileSecretKeyName)) =? SecretKeyFileSize) &&
  (length (default [] (sec_Data s !! FilePublicKeyName)) =? PublicKeyFileSize).
Definition jobFailed (job : Job) : bool :=
  existsb (λ c, bool_decide (c.1 = "Failed") && bool_decide (c.2 = ConditionTrue)) (job_Conditions job).

Section vanity.
Context {S : Type} `{!Client S, !Events S, !Controlled}.
Context (r : GatewayReconciler) (quantity_zero : string → bool) (now : Z).

Definition vanity_job_config (gw : Gateway) (prefix : string) : VanityJobConfig := {|
  vc_JobName := VanityRBACName (gw_name gw); vc_Namespace := gw_ns gw; vc_Prefix := prefix;
  vc_OutputSecretName := VanityOutSecretName (gw_name gw);
  vc_ServiceAccountName := VanityRBACName (gw_name gw);
  vc_Mkp224oImage := img_Mkp224o (Images r); vc_FinalizeImage := img_VanityFinalize (Images r);
  vc_ActiveDeadline := VanityDeadline r;
  vc_Labels := {[ gatewayLabelKey := gw_name gw; vanityPrefixLabel := prefix ]};
  vc_Annotations := ∅; vc_Mkp224oResources := no_resources |}.
Definition createVanityJob (gw : Gateway) (prefix : string) : M S error () :=
  let! job := lift (wrap_err (ErrWrap "build vanity job")
                (VanityJob quantity_zero (vanity_job_config gw prefix))) in
  let! job := lift (SetControllerReference (gw_meta gw) job) in
  api (kcreate job).

Definition ensureVanityRBAC (gw : Gateway) : M S error () :=
  let! sa := lift (BuildVanityServiceAccount gw) in
  do! ensureHAServiceAccount sa in
  let! role := lift (BuildVanityRole gw) in
  do! ensureHARole role in
  let! rb := lift (BuildVanityRoleBinding gw) in
  ensureHARoleBinding rb.
Definition out_key (gw : Gateway) : NamespacedName :=
  {| nn_Namespace := gw_ns gw; nn_Name := VanityOutSecretName (gw_name gw) |}.
Definition ensureVanityOutSecret (gw : Gateway) : M S error () :=
  let! cur := find (T := Secret) (out_key gw) in
  match cur with
  | Some _ => ret ()
  | None =>
      let! desired := lift (BuildVanityOutSecret gw) in
      api (kcreate desired)
  end.
Definition deleteVanityJob (job : Job) : M S error () := api (ignore_not_found (kdelete (T := Job) (key job))).

Definition failed_prefix (gw : Gateway) : option string :=
  Annotations (gw_meta gw) !! vanityFailedAnnotation.
Definition markVanityFailed (gw : Gateway) (prefix : string) : M S error Gateway :=
  if bool_decide (default "" (failed_prefix gw) = prefix) then ret gw
  else api (kpatch (set_annotations (<[vanityFailedAnnotation := prefix]> (Annotations (gw_meta gw))) gw)).
Definition without_failed (gw : Gateway) : Gateway :=
  set_annotations (delete vanityFailedAnnotation (Annotations (gw_meta gw))) gw.
Definition clearVanityFailed (gw : Gateway) : M S error Gateway :=
  match failed_prefix gw with
  | None => ret gw
  | Some _ => api (kpatch (without_failed gw))
  end.

(** The clean-up after the key exists is best effort; the annotation is gone from the Gateway
    in memory whether or not the patch succeeds. *)
Definition promoteVanityKey (gw : Gateway) (out : Secret) (job : Job)
  : M S error (Gateway * key_outcome) :=
  let! kp := lift (wrap_err (ErrWrap "parse harvested key" ∘ ErrKey)
               (ParseFiles (default [] (sec_Data out !! FileSecretKeyName))
                           (default [] (sec_Data out !! FilePublicKeyName)))) in
  let! secret := lift (BuildKeySecret gw kp) in
  do! api (kcreate secret) in
  do! best_effort (kdelete (T := Secret) (key out)) in
  do! best_effort (deleteVanityJob job) in
  try (clearVanityFailed gw) (λ res,
    let gw := match res with Ok gw => gw | Err _ => without_failed gw end in
    ret (gw, KeyReady secret kp)).

Definition job_key (gw : Gateway) : NamespacedName :=
  {| nn_Namespace := gw_ns gw; nn_Name := VanityRBACName (gw_name gw) |}.
Definition runVanityHarvest (gw : Gateway) (prefix : string) : M S error (Gateway * key_outcome) :=
  if bool_decide (default "" (failed_prefix gw) = prefix) then ret (gw, errHarvestFailed)
  else
    do! ensureVanityRBAC gw in
    do! ensureVanityOutSecret gw in
    let! job := find (T := Job) (job_key gw) in
    match job with
    | None =>
        do! createVanityJob gw prefix in
        do! event r gw "Normal" "VanityHarvestStarted"
              ("harvesting vanity .onion with prefix " +:+ Quote prefix) in
        ret (gw, errHarvestPending)
    | Some job =>
        if negb (bool_decide (default "" (Labels (job_meta job) !! vanityPrefixLabel) = prefix)) then
          do! deleteVanityJob job in
          let! gw := clearVanityFailed gw in
          ret (gw, errHarvestPending)
        else
          let! out := read (λ s, kget (T := Secret) s (out_key gw)) in
          if vanityOutPopulated out then promoteVanityKey gw out job
          else if jobFailed job then
            let! gw := markVanityFailed gw prefix in
            do! event r gw "Warning" "VanityHarvestFailed"
                  ("vanity harvest for prefix " +:+ Quote prefix +:+
                   " exceeded its deadline; choose a shorter prefix") in
            ret (gw, errHarvestFailed)
          else ret (gw, errHarvestPending)
    end.

(** Accepted, but not programmed for a reason. *)
Definition gateway_condition (gen : Z) (type status reason message : string) : Condition :=
  condition now gen type status reason message.
Definition accepted_condition (gw : Gateway) : Condition :=
  gateway_condition (Generation (gw_meta gw)) "Accepted" ConditionTrue "Accepted"
    "Gateway accepted by tor-gateway".
Definition with_gs_Conditions (l : list Condition) (st : GatewayStatus) : GatewayStatus :=
  {| gs_Addresses := gs_Addresses st; gs_Conditions := l; gs_Listeners := gs_Listeners st |}.
Definition setProgrammingCondition (gw : Gateway) (reason message : string) : M S error () :=
  let '(conds, changed) := setConditions (gs_Conditions (gw_Status gw))
    [accepted_condition gw;
     gateway_condition (Generation (gw_meta gw)) "Programmed" ConditionFalse reason message] in
  if negb changed then ret ()
  else do! api (kupdate_status (with_gw_Status (with_gs_Conditions conds (gw_Status gw)) gw)) in ret ().
End vanity.

(** ** The policies in effect (gateway_controller.go) *)
(** The first by name, among the policies that target the Gateway; of several with one name
    the first listed. *)
Definition first_by_name {T} `{Object T} (targets : T → bool) (l : list T) : option T :=
  foldl (λ matched p,
    if targets p then
      match matched with
      | None => Some p
      | Some m => if negb (bool_decide (String.le (Name (meta m)) (Name (meta p)))) then Some p else matched
      end
    else matched) None l.

Section policies.
Context {S : Type} `{!Client S}.

Definition effectivePolicyFrom
    (reader : S → option string → gmap string string → result api_error (list TorServicePolicy))
    (gw : Gateway) (s : S) : result error EffectiveServicePolicy :=
  let* items := wrap_err ErrApi (reader s (Some (gw_ns gw)) ∅) in
  Ok (FromTorServicePolicy
        (first_by_name (λ p, policyTargets (tsp_TargetRefs (tsp_Spec p)) (gw_name gw)) items)).
Definition findEffectivePolicy (gw : Gateway) (s : S) : result error EffectiveServicePolicy :=
  effectivePolicyFrom klist gw s.
Definition findEffectiveClientAuth (gw : Gateway) (s : S) : result error EffectiveClientAuth :=
  let* items := wrap_err ErrApi (klist (T := TorClientAuthPolicy) s (Some (gw_ns gw)) ∅) in
  let off := {| auth_Enabled := false; auth_SecretName := "" |} in
  match first_by_name (λ p, policyTargets (tcap_TargetRefs (tcap_Spec p)) (gw_name gw)) items with
  | None => Ok off
  | Some p =>
      if bool_decide (tcap_Mode (tcap_Spec p) = ClientAuthModeAudit) then Ok off
      else Ok {| auth_Enabled := true; auth_SecretName := csr_Name (tcap_ClientsSecretRef (tcap_Spec p)) |}
  end.
Definition acceptedForGW (p : OnionBalancePolicy) (gwName : string) : bool :=
  existsb (λ anc, bool_decide (pr_Name (as_AncestorRef anc) = gwName) &&
    existsb (λ c, bool_decide (c_Type c = "Accepted") && bool_decide (c_Status c = ConditionTrue))
      (as_Conditions anc)) (obp_Ancestors (obp_Status p)).
Definition findEffectiveOnionBalance (gw : Gateway) (s : S)
  : result error (option OnionBalancePolicy * bool) :=
  let* items := wrap_err (ErrWrap "list OBPs" ∘ ErrApi)
                  (klist (T := OnionBalancePolicy) s (Some (gw_ns gw)) ∅) in
  match first_by_name (λ p, policyTargets (obp_TargetRefs (obp_Spec p)) (gw_name gw)) items with
  | None => Ok (None, false)
  | Some p => Ok (Some p, acceptedForGW p (gw_name gw))
  end.
End policies.

(** ** ensureKeySecret *)
Section key_secret.
Context {S : Type} `{!Client S, !Events S, !Controlled, !Ed25519}.
Context (r : GatewayReconciler) (quantity_zero : string → bool).
(** The direct reader, when there is one, and what the random source gives. *)
Context (APIReader : option (S → option string → gmap string string →
                             result api_error (list TorServicePolicy))).
Context (random : result string bytes).

Definition keys_key (gw : Gateway) : NamespacedName :=
  {| nn_Namespace := gw_ns gw; nn_Name := KeySecretName (gw_name gw) |}.
Definition create_random_key (gw : Gateway) : M S error (Gateway * key_outcome) :=
  let! kp := lift (wrap_err (ErrWrap "generate keypair" ∘ ErrKey) (GenerateKeyPair random)) in
  let! secret := lift (BuildKeySecret gw kp) in
  do! api (kcreate secret) in
  ret (gw, KeyReady secret kp).
Definition create_key (gw : Gateway) (policy : EffectiveServicePolicy)
  : M S error (Gateway * key_outcome) :=
  if negb (bool_decide (eff_VanityPrefix policy = "")) then
    runVanityHarvest r quantity_zero gw (eff_VanityPrefix policy)
  else
    let! fresh := gets (effectivePolicyFrom (default klist APIReader) gw) in
    if negb (bool_decide (eff_VanityPrefix fresh = "")) then
      runVanityHarvest r quantity_zero gw (eff_VanityPrefix fresh)
    else if default false (ParseBool (default "" (Annotations (gw_meta gw) !! awaitVanityAnnotation))) then
      ret (gw, errAwaitingVanityPolicy)
    else create_random_key gw.
Definition ensureKeySecret (gw : Gateway) (policy : EffectiveServicePolicy)
  : M S error (Gateway * key_outcome) :=
  let! existing := find (T := Secret) (keys_key gw) in
  match existing with
  | None => create_key gw policy
  | Some existing =>
      let! kp := lift (wrap_err (ErrWrap "parse existing key Secret" ∘ ErrKey)
                   (ParseFiles (default [] (sec_Data existing !! FileSecretKeyName))
                               (default [] (sec_Data existing !! FilePublicKeyName)))) in
      do! (if negb (bool_decide (eff_VanityPrefix policy = "")) &&
              negb (HasPrefix (OnionAddress_String (KeyPair_OnionAddress kp)) (eff_VanityPrefix policy))
           then event r gw "Normal" "VanityPrefixIgnored"
                  ("vanityPrefix " +:+ Quote (eff_VanityPrefix policy) +:+
                   " ignored: a key already exists for this Gateway")
           else ret ()) in
      ret (gw, KeyReady existing kp)
  end.
End key_secret.
