(* ===== verification/GatewayCtl.v ===== *)
(** * The Gateway controller (internal/controller/gateway_controller.go)

    [Reconcile] gives a Gateway one of two shapes: a single Tor pod (mode A), or onionbalance
    over several (mode B) when an accepted OnionBalancePolicy targets it. *)

From Stdlib Require Import Ascii ZArith.
From S2P Require Import Prelude Monad GoStrings Onion Keys KubeTypes Router Kube Names RefGrant.
From S2P Require Import Status Policies HTTPRouteCtl NetPol Resources ResourcesHA Client.
From S2P Require Import Harvest.

(** ** Routes *)
Definition routeTargetsGateway (route : HTTPRoute) (gw : Gateway) : bool :=
  existsb (λ p, parentRefMatches p (gw_name gw) (gw_ns gw) (Namespace (rt_meta route)))
    (rt_ParentRefs route).
Definition routesForGateway {S} `{!Store S HTTPRoute} (gw : Gateway) (s : S)
  : result error (list HTTPRoute) :=
  let* items := wrap_err ErrApi (klist s None ∅) in
  Ok (filter (λ route, routeTargetsGateway route gw = true) items).

(** ** Statuses *)
Definition onion_address (value : string) : GatewayStatusAddress :=
  {| a_Type := Some "Hostname"; a_Value := value |}.
Definition equalGatewayAddress (x y : GatewayStatusAddress) : bool :=
  bool_decide (a_Value x = a_Value y) && objEqual (a_Type x) (a_Type y).
Definition equalGatewayAddresses (a b : list GatewayStatusAddress) : bool :=
  all_equal equalGatewayAddress a b.
Definition equalListener (a b : ListenerStatus) : bool :=
  bool_decide (ls_Name a = ls_Name b) && bool_decide (ls_AttachedRoutes a = ls_AttachedRoutes b) &&
  all_equal conditionEqual (ls_Conditions a) (ls_Conditions b).
Definition equalListenerStatus (a b : list ListenerStatus) : bool := all_equal equalListener a b.
Definition listener_status (now : Z) (gw : Gateway) (l : Listener) : ListenerStatus :=
  let gen := Generation (gw_meta gw) in
  {| ls_Name := l_Name l;
     ls_SupportedKinds := [(Some "gateway.networking.k8s.io", "HTTPRoute")];
     (* of several entries with the name the last *)
     ls_AttachedRoutes := foldl (λ n e, if bool_decide (ls_Name e = l_Name l) then ls_AttachedRoutes e else n)
                            0%Z (gs_Listeners (gw_Status gw));
     ls_Conditions := [condition now gen "Accepted" ConditionTrue "Accepted" "Listener accepted";
                       condition now gen "Programmed" ConditionTrue "Programmed" "Listener programmed"] |}.
(** The status mode A wants, and whether it differs. *)
Definition mode_a_status (now : Z) (gw : Gateway) (onion : string) : GatewayStatus * bool :=
  let st := gw_Status gw in
  let wantAddresses := [onion_address onion] in
  let same_addr := equalGatewayAddresses (gs_Addresses st) wantAddresses in
  let '(conds, changed) := setConditions (gs_Conditions st)
    [accepted_condition now gw;
     condition now (Generation (gw_meta gw)) "Programmed" ConditionTrue "Programmed"
       "Tor pod provisioned; .onion published"] in
  let listeners := map (listener_status now gw) (gw_Listeners gw) in
  let same_listeners := equalListenerStatus (gs_Listeners st) listeners in
  ({| gs_Addresses := if same_addr then gs_Addresses st else wantAddresses;
      gs_Conditions := conds;
      gs_Listeners := if same_listeners then gs_Listeners st else listeners |},
   negb same_addr || changed || negb same_listeners).

Definition annLastReplicas : string := "torgateway.io/last-known-replicas".
Definition annPowEmitted : string := "torgateway.io/pow-override-emitted".
Definition annTrue : string := "true".
Definition ReasonMasterSecretNotFound : string := "MasterSecretNotFound".
Definition ReasonFrontendNotReady : string := "FrontendNotReady".
Definition ReasonBackendsNotReady : string := "BackendsNotReady".

Definition previousOnion (gw : Gateway) : string :=
  match gs_Addresses (gw_Status gw) with [] => "" | a :: _ => a_Value a end.
(** The master address in place of the first onion address, the others dropped; at the end when
    there was none. *)
Fixpoint replace_onions (master : GatewayStatusAddress) (foundOnion : bool)
    (l : list GatewayStatusAddress) : list GatewayStatusAddress :=
  match l with
  | [] => if foundOnion then [] else [master]
  | a :: l =>
      if HasSuffix (a_Value a) ".onion" then
        (if foundOnion then [] else [master]) ++ replace_onions master true l
      else a :: replace_onions master foundOnion l
  end.
Definition mode_b_status (now : Z) (fresh : Gateway) (master : string) (programmed reason message : string)
  : GatewayStatus :=
  let st := gw_Status fresh in
  {| gs_Addresses := replace_onions (onion_address master) false (gs_Addresses st);
     gs_Conditions := (setConditions (gs_Conditions st)
       [accepted_condition now fresh;
        condition now (Generation (gw_meta fresh)) "Programmed" programmed reason message]).1;
     gs_Listeners := gs_Listeners st |}.

Section controller.
Context {S : Type} `{!Client S, !Events S, !Retry S, !Controlled, !Ed25519}.
Context (r : GatewayReconciler) (quantity_zero : string → bool).
Context (APIReader : option (S → option string → gmap string string →
                             result api_error (list TorServicePolicy))).
(** What the random source gives for the Secret of a name, [err.Error()], the order in which
    [range] visits the backends of a NetworkPolicy, and the clock. *)
Context (random : string → result string bytes) (error_text : error → string)
  (range : gmap (string * string) ResolvedBackend → list ResolvedBackend) (now : Z).

Definition gatewayClassManagedByUs (name : string) (s : S) : result error bool :=
  if bool_decide (name = "") then Ok false
  else match kget (T := GatewayClass) s {| nn_Namespace := ""; nn_Name := name |} with
       | Err NotFound => Ok false
       | Err e => Err (ErrApi e)
       | Ok gc => Ok (bool_decide (gc_ControllerName gc = ControllerName))
       end.

(** ** Mode A *)
Definition ensureTorrcConfigMap (gw : Gateway) (policy : EffectiveServicePolicy)
    (auth : EffectiveClientAuth) : M S error () :=
  let! desired := lift (BuildTorrcConfigMap gw policy auth (TestingNetworkInclude r)) in
  ensureHAConfigMap desired.
Definition ensureDeployment (gw : Gateway) (policy : EffectiveServicePolicy)
    (auth : EffectiveClientAuth) : M S error () :=
  let! desired := lift (BuildDeployment gw policy auth (Images r)) in
  ensureHADeployment desired.
Definition ensureServiceAccount (gw : Gateway) : M S error () :=
  let! desired := lift (BuildServiceAccount gw) in ensureHAServiceAccount desired.
Definition ensureRole (gw : Gateway) (obp : option OnionBalancePolicy) : M S error () :=
  let! desired := lift (BuildRole gw obp) in ensureHARole desired.
Definition ensureRoleBinding (gw : Gateway) : M S error () :=
  let! desired := lift (BuildRoleBinding gw) in ensureHARoleBinding desired.
Definition ensureRouterRBAC (gw : Gateway) (obp : option OnionBalancePolicy) : M S error () :=
  do! wrap (ErrWrap "router ServiceAccount") (ensureServiceAccount gw) in
  do! wrap (ErrWrap "router Role") (ensureRole gw obp) in
  wrap (ErrWrap "router RoleBinding") (ensureRoleBinding gw).
Definition ensureService (gw : Gateway) : M S error () :=
  let! desired := lift (BuildService gw) in ensureHAService desired.
Definition netpol_key (gw : Gateway) : NamespacedName :=
  {| nn_Namespace := gw_ns gw; nn_Name := NetworkPolicyName (gw_name gw) |}.
Definition ensureNetworkPolicy (gw : Gateway) (routes : list HTTPRoute) : M S error () :=
  if negb (TorPodNetworkPolicyEnabled r) then
    api (ignore_not_found (kdelete (T := NetworkPolicy) (netpol_key gw)))
  else
    let! backends := gets (λ s, resolveBackends range s routes) in
    let! desired := lift (BuildNetworkPolicy gw backends (ClusterPodCIDRs r) (TestingNetworkNamespace r)) in
    apply_NetworkPolicy desired.
Definition updateStatus (gw : Gateway) (kp : KeyPair) : M S error () :=
  let '(st, changed) := mode_a_status now gw (OnionAddress_String (KeyPair_OnionAddress kp)) in
  if negb changed then ret ()
  else do! api (kupdate_status (with_gw_Status st gw)) in ret ().

(** After the key: the objects of mode A, in order, then the status. *)
Definition mode_a_objects (gw : Gateway) (policy : EffectiveServicePolicy) (auth : EffectiveClientAuth)
    (kp : KeyPair) : M S error () :=
  do! wrap (ErrWrap "ensure torrc configmap") (ensureTorrcConfigMap gw policy auth) in
  do! ensureRouterRBAC gw None in
  do! wrap (ErrWrap "ensure deployment") (ensureDeployment gw policy auth) in
  do! wrap (ErrWrap "ensure service") (ensureService gw) in
  let! routes := gets (routesForGateway gw) in
  do! ensureNetworkPolicy gw routes in
  wrap (ErrWrap "update status") (updateStatus gw kp).
Definition reconcileModeA (gw : Gateway) : M S error () :=
  let! policy := gets (findEffectivePolicy gw) in
  let! auth := gets (findEffectiveClientAuth gw) in
  let! (gw, outcome) := wrap (ErrWrap "ensure key secret")
    (ensureKeySecret r quantity_zero APIReader (random (KeySecretName (gw_name gw))) gw policy) in
  match outcome with
  | errHarvestPending =>
      setProgrammingCondition now gw ReasonVanityHarvestInProgress "vanity .onion harvest in progress"
  | errHarvestFailed =>
      setProgrammingCondition now gw ReasonVanityHarvestFailed
        "vanity harvest exceeded its deadline; choose a shorter vanityPrefix"
  | errAwaitingVanityPolicy =>
      setProgrammingCondition now gw ReasonAwaitingVanityPolicy
        "awaiting a TorServicePolicy with a vanityPrefix (torgateway.io/await-vanity=true)"
  | KeyReady _ kp => mode_a_objects gw policy auth kp
  end.

(** ** Mode B *)
Definition child (gw : Gateway) (name : string) : NamespacedName :=
  {| nn_Namespace := gw_ns gw; nn_Name := name |}.
Definition delete_child (T : Type) `{Store S T} (k : NamespacedName) : M S error () :=
  api (ignore_not_found (kdelete (T := T) k)).
Definition owner_labels (gw : Gateway) : gmap string string :=
  {[ managedByLabelKey := "tor-gateway"; ownerUIDKey := UID (gw_meta gw) ]}.
(** Delete the objects with the Gateway's labels, but for those of a namespace. *)
Definition delete_labelled (T : Type) `{Store S T} (gw : Gateway) (but : option string) (kind : string)
  : M S error () :=
  let! l := gets (λ s, wrap_err (ErrWrap ("list " +:+ kind +:+ "s") ∘ ErrApi)
              (klist (T := T) s None (owner_labels gw))) in
  for_each (λ x, wrap (ErrWrap ("delete " +:+ kind)) (delete_child T (key x)))
    (filter (λ x, Some (Namespace (meta x)) ≠ but) l).

Definition ensureCrossNSMasterRBAC (gw : Gateway) (pol : OnionBalancePolicy) : M S error () :=
  let ref := obp_MasterKeySecretRef (obp_Spec pol) in
  let! ok := gets (λ s, wrap_err (ErrWrap "ReferenceGrant check") (MasterKeyReferenceGrantAllows s pol)) in
  if negb ok then
    throw (ErrText ("ReferenceGrant missing for cross-NS master Secret " +:+ mk_Namespace ref +:+ "/" +:+
                    mk_Name ref))
  else
    let! role := lift (BuildCrossNSMasterRole gw pol) in
    do! wrap (ErrWrap "cross-NS Role") (ensureHARole role) in
    let! rb := lift (BuildCrossNSMasterRoleBinding gw pol) in
    do! wrap (ErrWrap "cross-NS RoleBinding") (ensureHARoleBinding rb) in
    do! delete_labelled Role gw (Some (mk_Namespace ref)) "stale cross-NS role" in
    delete_labelled RoleBinding gw (Some (mk_Namespace ref)) "stale cross-NS rolebinding".

Definition ensureBackendKeySecretForIndex (gw : Gateway) (idx : Z) : M S error () :=
  let! existing := wrap (ErrWrap "get") (find (T := Secret) (child gw (BackendKeySecretName gw idx))) in
  let! want := lift (BuildBackendKeySecret gw idx existing (random (BackendKeySecretName gw idx))) in
  ensureBackendKeySecret want.
Definition ensureModeBNetworkResources (gw : Gateway) (pol : OnionBalancePolicy) : M S error () :=
  let! svc := lift (BuildBackendHeadlessService gw) in
  do! wrap (ErrWrap "backend headless Service") (ensureHAService svc) in
  let! sa := lift (BuildFrontendServiceAccount gw) in
  do! wrap (ErrWrap "frontend ServiceAccount") (ensureHAServiceAccount sa) in
  let! role := lift (BuildFrontendRole gw pol) in
  do! wrap (ErrWrap "frontend Role") (ensureHARole role) in
  let! rb := lift (BuildFrontendRoleBinding gw) in
  wrap (ErrWrap "frontend RoleBinding") (ensureHARoleBinding rb).

Definition modeBHealth (gw : Gateway) (s : S) : bool * string * string :=
  match kget (T := Deployment) s (child gw (FrontendName gw)) with
  | Err NotFound => (false, ReasonFrontendNotReady, "frontend Deployment not found yet")
  | Err e => (false, ReasonFrontendNotReady, "failed to get frontend Deployment: " +:+ error_text (ErrApi e))
  | Ok fe =>
      if negb (existsb (λ c, bool_decide (c.1 = "Available") && bool_decide (c.2 = ConditionTrue))
                 (dep_Conditions fe))
      then (false, ReasonFrontendNotReady, "frontend Deployment not yet Available")
      else match countReadyBackends s gw with
           | Err e => (false, ReasonBackendsNotReady, "failed to list backend Secrets: " +:+ error_text e)
           | Ok ready =>
               if (ready <? 1)%Z
               then (false, ReasonBackendsNotReady, "0 backend instance(s) ready; need at least 1")
               else (true, "Programmed", "Mode B provisioned; frontend Available and " +:+ Itoa ready +:+
                      " backend(s) ready (reconcile-observable; Tor descriptor liveness not verified here)")
           end
  end.

Definition annotation (gw : Gateway) (k : string) : string := default "" (Annotations (gw_meta gw) !! k).
Definition annotate (k v : string) (gw : Gateway) : Gateway :=
  set_annotations (<[k := v]> (Annotations (gw_meta gw))) gw.
(** [n, _ := strconv.Atoi(...)]: zero on a syntax error, the nearest int on a range error. *)
Definition parse_int (s : string) : option Z :=
  match s with
  | String "-" t => Z.opp <$> parse_digits t
  | String "+" t => parse_digits t
  | _ => parse_digits s
  end.
Definition prev_replicas (gw : Gateway) : Z :=
  Z.max int64_min (Z.min int64_max (default 0%Z (parse_int (annotation gw annLastReplicas)))).
(** The annotations, written on a fresh copy; the Gateway of the rest of the reconcile is that
    copy as the server returns it. *)
Definition write_annotations (gw : Gateway) (replicas : Z) : M S error () :=
  retry_on_conflict
    (let! fresh := read (λ s, kget (T := Gateway) s (key gw)) in
     let! forced := gets (λ s, Ok (powForcedOff s fresh)) in
     let fresh := annotate annLastReplicas (Itoa replicas) fresh in
     let fresh := if forced : bool then annotate annPowEmitted annTrue fresh else fresh in
     do! api (kupdate fresh) in ret ()).
Definition updateStatusModeB (gw : Gateway) (master : OnionAddress) (pol : OnionBalancePolicy)
  : M S error () :=
  let replicas := obp_Replicas (obp_Spec pol) in
  let prev := previousOnion gw in
  do! (if negb (bool_decide (prev = "")) && negb (bool_decide (prev = OnionAddress_String master))
       then event r gw "Normal" "MasterDescriptorChanged"
              ("switched to onionbalance HA — published .onion is now " +:+ OnionAddress_String master)
       else ret ()) in
  let rolling := negb (bool_decide (prev_replicas gw = replicas)) in
  do! (if rolling
       then event r gw "Normal" "BackendsRolling"
              ("backend replicas changing " +:+ Itoa (prev_replicas gw) +:+ "→" +:+ Itoa replicas +:+
               "; up to ~15 min until clients see the new pool")
       else ret ()) in
  let! forced := gets (λ s, Ok (powForcedOff s gw)) in
  let pow := forced && negb (bool_decide (annotation gw annPowEmitted = annTrue)) in
  do! (if pow
       then event r gw "Normal" "PoWForcedOffInHA"
              "HiddenServicePoWDefensesEnabled in TorServicePolicy is overridden to false on backends (onionbalance#13)"
       else ret ()) in
  do! (if rolling || pow then write_annotations gw replicas else ret ()) in
  let! (healthy, reason, msg) := gets (λ s, Ok (modeBHealth gw s)) in
  retry_on_conflict
    (let! fresh := read (λ s, kget (T := Gateway) s (key gw)) in
     do! api (kupdate_status (with_gw_Status
           (mode_b_status now fresh (OnionAddress_String master)
              (if healthy : bool then ConditionTrue else ConditionFalse) reason msg) fresh)) in
     ret ()).

(** ** Backend Secrets that are no longer wanted *)
Definition gcOrphanBackendSecrets (gw : Gateway) (replicas : Z) : M S error () :=
  let! existing := gets (λ s, wrap_err (ErrWrap "list backend Secrets for GC" ∘ ErrApi)
                      (klist (T := Secret) s (Some (gw_ns gw)) (backend_selector gw))) in
  for_each (λ s, wrap (ErrWrap ("delete orphan backend Secret " +:+ Name (sec_meta s)))
                   (delete_child Secret (key s)))
    (filter (λ s, let idx := backendSecretIndex (Name (sec_meta s)) (gw_name gw) in
                  negb ((idx <? 0)%Z || (idx <? replicas)%Z) = true) existing).
Definition gcBackendSecretsIfSettled (gw : Gateway) (ss : StatefulSet) (replicas : Z) : M S error () :=
  let! current := find (T := StatefulSet) (key ss) in
  match current with
  | None => ret ()
  | Some current =>
      match sts_Spec current ≫= ss_Replicas with
      | None => ret ()
      | Some wanted =>
          if negb (bool_decide (sts_StatusReplicas current = wanted)) then ret ()
          else gcOrphanBackendSecrets gw replicas
      end
  end.

(** After the master key: the objects of mode B, in order, then the status. *)
Definition mode_b_objects (gw : Gateway) (pol : OnionBalancePolicy) (master : OnionAddress)
  : M S error () :=
  let replicas := obp_Replicas (obp_Spec pol) in
  do! for_each (λ i, wrap (ErrWrap ("backend Secret " +:+ Itoa i)) (ensureBackendKeySecretForIndex gw i))
        (map Z.of_nat (seq 0 (Z.to_nat replicas))) in
  do! ensureModeBNetworkResources gw pol in
  let! frontendTorrc := lift (BuildFrontendTorrcConfigMap gw (TestingNetworkInclude r)) in
  do! wrap (ErrWrap "frontend torrc ConfigMap") (ensureHAConfigMap frontendTorrc) in
  let! backendPolicy := wrap (ErrWrap "find effective policy for backend torrc") (gets (findEffectivePolicy gw)) in
  let! backendAuth := wrap (ErrWrap "find effective client auth for backend torrc")
                        (gets (findEffectiveClientAuth gw)) in
  let! backendTorrc := lift (BuildBackendTorrcConfigMap gw pol backendPolicy backendAuth
                               (TestingNetworkInclude r)) in
  do! wrap (ErrWrap "backend torrc ConfigMap") (ensureHAConfigMap backendTorrc) in
  do! ensureRouterRBAC gw (Some pol) in
  let! ss := lift (BuildBackendStatefulSet gw pol master (Images r)) in
  do! wrap (ErrWrap "backend StatefulSet") (ensureHAStatefulSet ss) in
  do! gcBackendSecretsIfSettled gw ss replicas in
  let! d := lift (BuildFrontendDeployment gw pol master (Images r)
                    (negb (bool_decide (TestingNetworkInclude r = "")))) in
  do! wrap (ErrWrap "frontend Deployment") (ensureHADeployment d) in
  let! routes := wrap (ErrWrap "list HTTPRoutes for NetworkPolicy") (gets (routesForGateway gw)) in
  do! wrap (ErrWrap "NetworkPolicy") (ensureNetworkPolicy gw routes) in
  updateStatusModeB gw master pol.
Definition ensureModeB (gw : Gateway) (pol : OnionBalancePolicy) : M S error () :=
  let ref := obp_MasterKeySecretRef (obp_Spec pol) in
  let ns := master_ns pol in
  do! (if negb (bool_decide (mk_Namespace ref = "")) && negb (bool_decide (mk_Namespace ref = gw_ns gw))
       then ensureCrossNSMasterRBAC gw pol else ret ()) in
  let! sec := wrap (ErrWrap "get master Secret")
                (find (T := Secret) {| nn_Namespace := ns; nn_Name := mk_Name ref |}) in
  match sec with
  | None =>
      let where_ := ns +:+ "/" +:+ mk_Name ref in
      do! event r gw "Warning" ReasonMasterSecretNotFound
            ("master key Secret " +:+ where_ +:+ " not found; HA cannot be programmed until it exists") in
      setProgrammingCondition now gw ReasonMasterSecretNotFound ("master key Secret " +:+ where_ +:+ " not found")
  | Some sec =>
      let! master := lift (wrap_err (ErrWrap "derive master .onion" ∘ ErrMaster)
                       (MasterOnionFromSecret (sec_Data sec))) in
      mode_b_objects gw pol master
  end.

(** ** Cleaning up *)
Definition cleanup_a (T : Type) `{Store S T} (gw : Gateway) (type name : string) : M S error () :=
  wrap (ErrWrap ("cleanupModeAResources: *v1." +:+ type)) (delete_child T (child gw name)).
Definition cleanupModeAResources (gw : Gateway) : M S error () :=
  let name := gw_name gw in
  do! cleanup_a Deployment gw "Deployment" (DeploymentName name) in
  do! cleanup_a Service gw "Service" (ServiceName name) in
  do! cleanup_a Secret gw "Secret" (KeySecretName name) in
  do! cleanup_a ConfigMap gw "ConfigMap" (TorrcConfigMapName name) in
  do! cleanup_a NetworkPolicy gw "NetworkPolicy" (NetworkPolicyName name) in
  do! cleanup_a ServiceAccount gw "ServiceAccount" (VanityRBACName name) in
  do! cleanup_a Role gw "Role" (VanityRBACName name) in
  do! cleanup_a RoleBinding gw "RoleBinding" (VanityRBACName name) in
  do! cleanup_a Secret gw "Secret" (VanityOutSecretName name) in
  cleanup_a Job gw "Job" (VanityRBACName name).

(** The Gateway after, without mode B's annotations. *)
Definition clear_annotations (gw : Gateway) : M S error Gateway :=
  let anns := Annotations (gw_meta gw) in
  if bool_decide (is_Some (anns !! annLastReplicas)) || bool_decide (is_Some (anns !! annPowEmitted)) then
    wrap (ErrWrap "cleanupModeBResources: clear annotations" ∘ ErrApi)
      (kupdate (set_annotations (delete annPowEmitted (delete annLastReplicas anns)) gw))
  else ret gw.
Definition cleanupModeBResources (gw : Gateway) : M S error Gateway :=
  do! delete_child Deployment (child gw (FrontendName gw)) in
  do! delete_child StatefulSet (child gw (BackendStatefulSetName gw)) in
  do! delete_child Service (child gw (BackendHeadlessServiceName gw)) in
  do! delete_child ConfigMap (child gw (OnionbalanceConfigMapName gw)) in
  do! delete_child ConfigMap (child gw (FrontendTorrcConfigMapName gw)) in
  do! delete_child ConfigMap (child gw (BackendTorrcConfigMapName gw)) in
  do! delete_child ServiceAccount (child gw (FrontendName gw)) in
  do! delete_child Role (child gw (FrontendName gw)) in
  do! delete_child RoleBinding (child gw (FrontendName gw)) in
  do! delete_labelled Role gw None "cross-NS role" in
  do! delete_labelled RoleBinding gw None "cross-NS rolebinding" in
  let! secrets := read (λ s, klist (T := Secret) s (Some (gw_ns gw)) (backend_selector gw)) in
  do! for_each (λ s, delete_child Secret (key s)) secrets in
  clear_annotations gw.

(** ** Reconcile *)
Definition has_finalizer (gw : Gateway) : bool := bool_decide (FinalizerName ∈ Finalizers (gw_meta gw)).
Definition remove_finalizer (gw : Gateway) : Gateway :=
  set_finalizers (filter (λ f, f ≠ FinalizerName) (Finalizers (gw_meta gw))) gw.
Definition finalize (gw : Gateway) : M S error () :=
  if has_finalizer gw then
    do! cleanupModeBResources gw in
    retry_on_conflict
      (let! fresh := read (λ s, kget (T := Gateway) s (key gw)) in
       if negb (has_finalizer fresh) then ret ()
       else do! api (kupdate (remove_finalizer fresh)) in ret ())
  else ret ().
Definition add_finalizer (gw : Gateway) : M S error Gateway :=
  if has_finalizer gw then ret gw
  else api (kupdate (set_finalizers (Finalizers (gw_meta gw) ++ [FinalizerName]) gw)).
Definition provision (gw : Gateway) : M S error () :=
  let! (obp, accepted) := gets (findEffectiveOnionBalance gw) in
  match obp with
  | Some obp =>
      if negb accepted then
        setProgrammingCondition now gw "PolicyNotAccepted"
          ("OnionBalancePolicy " +:+ Name (obp_meta obp) +:+
           " is not Accepted; refusing to fall back to Mode A while HA is intended")
      else
        do! cleanupModeAResources gw in
        wrap (ErrWrap "ensure mode B") (ensureModeB gw obp)
  | None =>
      let! gw := cleanupModeBResources gw in
      reconcileModeA gw
  end.
Definition Gateway_Reconcile (req : NamespacedName) : M S error () :=
  let! found := find (T := Gateway) req in
  match found with
  | None => ret ()
  | Some gw =>
      let! managed := gets (gatewayClassManagedByUs (gw_GatewayClassName gw)) in
      if negb managed then ret ()
      else match DeletionTimestamp (gw_meta gw) with
           | Some _ => finalize gw
           | None =>
               let! gw := add_finalizer gw in
               provision gw
           end
  end.
End controller.

(** ** What to reconcile after a change *)
Definition parent_key (route : HTTPRoute) (p : ParentReference) : NamespacedName :=
  {| nn_Namespace := default (Namespace (rt_meta route)) (pr_Namespace p); nn_Name := pr_Name p |}.
Definition gatewaysForHTTPRoute (route : HTTPRoute) : list NamespacedName :=
  map (parent_key route) (filter (λ p, parentRefGroupKindIsGateway p = true) (rt_ParentRefs route)).
Definition requestsForTargets (ns : string) (refs : list LocalPolicyTargetReference)
  : list NamespacedName :=
  map (λ ref, {| nn_Namespace := ns; nn_Name := tr_Name ref |})
    (filter (λ ref, tr_Group ref = GatewayAPIGroup ∧ tr_Kind ref = GatewayKind) refs).
Definition gatewaysForServicePolicy (p : TorServicePolicy) : list NamespacedName :=
  requestsForTargets (Namespace (tsp_meta p)) (tsp_TargetRefs (tsp_Spec p)).
Definition gatewaysForClientAuthPolicy (p : TorClientAuthPolicy) : list NamespacedName :=
  requestsForTargets (Namespace (tcap_meta p)) (tcap_TargetRefs (tcap_Spec p)).
Definition gatewaysForOnionBalancePolicy (p : OnionBalancePolicy) : list NamespacedName :=
  requestsForTargets (Namespace (obp_meta p)) (obp_TargetRefs (obp_Spec p)).
