(* ===== verification/GatewayProps.v ===== *)
(** * What the Gateway controller guarantees

    The theorems are about every client; the witnesses run [Reconcile] on the in-memory
    cluster. *)

From Stdlib Require Import Ascii ZArith.
From S2P Require Import Prelude Monad GoStrings Onion Keys KubeTypes Router Kube Names RefGrant.
From S2P Require Import Status Policies HTTPRouteCtl NetPol Resources ResourcesHA Workloads.
From S2P Require Import Client Harvest GatewayCtl.

Section confined.
Context {S : Type} `{!Client S, !Events S, !Retry S, !Controlled, !Ed25519}.
Context (r : GatewayReconciler) (quantity_zero : string → bool).
Context (APIReader : option (S → option string → gmap string string →
                             result api_error (list TorServicePolicy))).
Context (random : string → result string bytes) (error_text : error → string)
  (range : gmap (string * string) ResolvedBackend → list ResolvedBackend) (now : Z).
Context (P : S → Prop).

(** Recording an event keeps the property. *)
Definition keeps_events : Prop := ∀ k e s, P s → P (record_event k e s).

Lemma keeps_setProgrammingCondition gw reason message :
  keeps_writes P Gateway (λ k, k = key gw) →
  keeps P (setProgrammingCondition now gw reason message).
Proof.
  intros Hgw. unfold setProgrammingCondition. keeps. by apply (keeps_kupdate_status _ _ _ Hgw).
Qed.
Lemma keeps_add_finalizer gw :
  keeps_writes P Gateway (λ k, k = key gw) → keeps P (add_finalizer gw).
Proof. intros Hgw. unfold add_finalizer. keeps. by apply (keeps_kupdate _ _ _ Hgw). Qed.

End confined.

(** ** The key of a Gateway *)
Section keeping.
Context {S : Type} `{!Client S, !Events S, !Retry S, !Controlled, !Ed25519}.
Context (r : GatewayReconciler) (quantity_zero : string → bool).
Context (APIReader : option (S → option string → gmap string string →
                             result api_error (list TorServicePolicy))).
Context (random : string → result string bytes) (error_text : error → string)
  (range : gmap (string * string) ResolvedBackend → list ResolvedBackend) (now : Z).
Context (P : S → Prop).

Definition key_of (gw : NamespacedName) : NamespacedName :=
  {| nn_Namespace := nn_Namespace gw; nn_Name := KeySecretName (nn_Name gw) |}.

(** Every write keeps [P], but those to a Secret, and events do. *)
Record keeps_but_secret (k : NamespacedName) : Prop := {
  kb_Gateway : keeps_any P Gateway;
  kb_ConfigMap : keeps_any P ConfigMap;
  kb_ServiceAccount : keeps_any P ServiceAccount;
  kb_Role : keeps_any P Role;
  kb_RoleBinding : keeps_any P RoleBinding;
  kb_Service : keeps_any P Service;
  kb_Deployment : keeps_any P Deployment;
  kb_StatefulSet : keeps_any P StatefulSet;
  kb_NetworkPolicy : keeps_any P NetworkPolicy;
  kb_Secret : keeps_writes P Secret (λ k', k' ≠ k);
  kb_event : ∀ k e s, P s → P (record_event k e s);
}.
Context (k : NamespacedName) (Hkb : keeps_but_secret k).
#[local] Hint Resolve kb_Gateway kb_ConfigMap kb_ServiceAccount kb_Role kb_RoleBinding kb_Service
  kb_Deployment kb_StatefulSet kb_NetworkPolicy kb_event : keeps.
#[local] Hint Resolve keeps_event : keeps.

Lemma keeps_delete_labelled T `{Store S T} gw but kind :
  keeps_any P T → keeps P (delete_labelled T gw but kind).
Proof. intros Hany. unfold delete_labelled, delete_child. keeps. Qed.

Lemma keeps_mode_a_objects gw policy auth kp :
  keeps P (mode_a_objects r range now gw policy auth kp).
Proof.
  unfold mode_a_objects, ensureTorrcConfigMap, ensureRouterRBAC, ensureServiceAccount, ensureRole,
    ensureRoleBinding, ensureDeployment, ensureService, ensureNetworkPolicy, updateStatus,
    ensureHAConfigMap, ensureHAServiceAccount, ensureHARole, ensureHARoleBinding, ensureHADeployment,
    ensureHAService, apply_NetworkPolicy. keeps.
Qed.

Context (Hkey : ∀ s, P s → ∃ sec, kget (T := Secret) s k = Ok sec).
Context (Hlab : ∀ s gw l, P s → klist (T := Secret) s (Some (gw_ns gw)) (backend_selector gw) = Ok l →
                  ∀ x, x ∈ l → key x ≠ k).
Context (Hup : ∀ s s' (gw gw' : Gateway), kupdate gw s = (s', Ok gw') → key gw' = key gw).

Lemma keeps_ensureKeySecret gw policy :
  key_of (key gw) = k →
  keeps P (ensureKeySecret r quantity_zero APIReader (random (KeySecretName (gw_name gw))) gw policy).
Proof.
  intros Hk s Hs. destruct (Hkey s Hs) as [sec Hsec]. unfold ensureKeySecret, bind at 1, find.
  change (keys_key gw) with (key_of (key gw)). rewrite Hk, Hsec. revert s Hs Hsec.
  enough (keeps P (let! kp := lift (wrap_err (ErrWrap "parse existing key Secret" ∘ ErrKey)
                   (ParseFiles (default [] (sec_Data sec !! FileSecretKeyName))
                               (default [] (sec_Data sec !! FilePublicKeyName)))) in
      do! (if negb (bool_decide (eff_VanityPrefix policy = "")) &&
              negb (HasPrefix (OnionAddress_String (KeyPair_OnionAddress kp)) (eff_VanityPrefix policy))
           then event r gw "Normal" "VanityPrefixIgnored"
                  ("vanityPrefix " +:+ Quote (eff_VanityPrefix policy) +:+
                   " ignored: a key already exists for this Gateway")
           else ret ()) in
      ret (gw, KeyReady sec kp))) as Hrest by (intros s Hs _; by apply Hrest).
  keeps.
Qed.
Lemma keeps_reconcileModeA gw :
  key_of (key gw) = k →
  keeps P (reconcileModeA r quantity_zero APIReader random range now gw).
Proof.
  intros Hk. unfold reconcileModeA, setProgrammingCondition.
  pose proof keeps_mode_a_objects. pose proof (λ p, keeps_ensureKeySecret gw p Hk). keeps.
Qed.

Lemma cleanupModeB_gateway gw s s' gw' :
  cleanupModeBResources gw s = (s', Ok gw') → key gw' = key gw.
Proof.
  unfold cleanupModeBResources. intros Hrun. invert_run.
  match goal with H : clear_annotations _ _ = _ |- _ => unfold clear_annotations in H;
    destruct (_ || _); [apply wrap_Ok in H; by rewrite (Hup _ _ _ _ H) | by injection H as _ ->] end.
Qed.
Lemma keeps_cleanupModeB gw : keeps P (cleanupModeBResources gw).
Proof.
  unfold cleanupModeBResources, delete_child, clear_annotations.
  assert (keeps P (let! secrets := read (λ s, klist (T := Secret) s (Some (gw_ns gw)) (backend_selector gw)) in
    do! for_each (λ s, api (ignore_not_found (kdelete (T := Secret) (key s)))) secrets in
    clear_annotations gw)) as Hlast.
  { intros s Hs. unfold bind at 1, read, gets, wrap_err. destruct (klist _ _ _) as [l|e] eqn:Hl; [|done].
    cbn. specialize (Hlab s gw l Hs Hl). revert s Hs Hl.
    enough (keeps P (do! for_each (λ s, api (ignore_not_found (kdelete (T := Secret) (key s)))) l in
      clear_annotations gw)) as Hrest by (intros s Hs _; by apply Hrest).
    unfold clear_annotations. keeps. apply (keeps_kdelete _ _ _ (kb_Secret _ Hkb)). by apply Hlab. }
  pose proof keeps_delete_labelled. do 11 (apply keeps_bind; [keeps|intros _]). exact Hlast.
Qed.

Lemma keeps_provision gw :
  key_of (key gw) = k →
  (∀ s obp, P s → findEffectiveOnionBalance gw s ≠ Ok (Some obp, true)) →
  keeps P (provision r quantity_zero APIReader random error_text range now gw).
Proof.
  intros Hk Hobp s Hs. unfold provision, bind at 1, gets at 1.
  destruct (findEffectiveOnionBalance gw s) as [[[obp|] acc]|e] eqn:Hf; [destruct acc; cbn [negb]| |done].
  - exfalso. by eapply Hobp.
  - revert s Hs Hf. enough (∀ reason message, keeps P (setProgrammingCondition now gw reason message))
      as Hp by (intros s Hs _; by apply Hp).
    intros reason message. unfold setProgrammingCondition. keeps.
  - unfold bind at 1. pose proof (keeps_cleanupModeB gw s Hs) as H1.
    destruct (cleanupModeBResources gw s) as [s1 [gw1|e]] eqn:Hgw1; [|done].
    apply keeps_reconcileModeA; [|done]. by rewrite (cleanupModeB_gateway _ _ _ _ Hgw1).
Qed.

(** What writes to anything but the key's Secret keep, the whole Reconcile keeps. *)
Lemma keeps_Gateway_Reconcile req
    (Hk : key_of req = k)
    (Hobp : ∀ s gw obp, P s → key gw = req → findEffectiveOnionBalance gw s ≠ Ok (Some obp, true)) :
  ∀ s, P s → (∀ gw : Gateway, kget s req = Ok gw → key gw = req) →
  P (Gateway_Reconcile r quantity_zero APIReader random error_text range now req s).1.
Proof.
  intros s Hs Hreq. unfold Gateway_Reconcile, bind at 1, find.
  destruct (kget s req) as [gw|[]] eqn:Hget; try done. specialize (Hreq gw eq_refl).
  revert s Hs Hget. enough (keeps P (let! managed := gets (gatewayClassManagedByUs (gw_GatewayClassName gw)) in
      if negb managed then ret ()
      else match DeletionTimestamp (gw_meta gw) with
           | Some _ => finalize gw
           | None =>
               let! gw := add_finalizer gw in
               provision r quantity_zero APIReader random error_text range now gw
           end)) as Hrest by (intros s Hs _; by apply Hrest).
  apply keeps_bind; [keeps|intros [|]; [|by intros s]]. cbn [negb].
  destruct (DeletionTimestamp (gw_meta gw)).
  { unfold finalize. pose proof (keeps_cleanupModeB gw). keeps. }
  intros s Hs. unfold bind at 1.
  assert (keeps P (add_finalizer gw)) as Hadd by (unfold add_finalizer; keeps). specialize (Hadd s Hs).
  destruct (add_finalizer gw s) as [s1 [gw1|e]] eqn:Hgw1; [|done]. cbn in Hadd.
  assert (key gw1 = req) as Hk1.
  { unfold add_finalizer in Hgw1. destruct (has_finalizer gw); [by injection Hgw1 as _ <-|].
    apply wrap_Ok in Hgw1. rewrite (Hup _ _ _ _ Hgw1). exact Hreq. }
  apply keeps_provision; [by rewrite Hk1 | intros s' obp Hs'; by apply Hobp | done].
Qed.

(** C1.  A key is not replaced, with any client.  Let [P] be a property of the cluster under which
    the key Secret of the Gateway exists and does not have the labels of a backend key, and no
    OnionBalancePolicy is accepted for the Gateway; and let every write keep [P], but perhaps
    those to that Secret.  Then a whole Reconcile keeps [P], however it ends, the Gateway's
    deletion included: whatever is in the Secret, it is not written to, and the published address
    stays the same.  The client is a parameter, so this holds when others act between the
    operator's writes too, as in the witness.  (With an accepted policy the Gateway moves to the
    onionbalance mode, and the Secret is deleted.) *)
Theorem key_kept req
    (Hk : key_of req = k)
    (Hobp : ∀ s gw obp, P s → key gw = req → findEffectiveOnionBalance gw s ≠ Ok (Some obp, true)) :
  ∀ s, P s → (∀ gw : Gateway, kget s req = Ok gw → key gw = req) →
  P (Gateway_Reconcile r quantity_zero APIReader random error_text range now req s).1.
Proof. exact (keeps_Gateway_Reconcile req Hk Hobp). Qed.
End keeping.

(** A cluster whose OnionBalancePolicy has not been looked at yet: after the Gateway is
    reconciled, every other object is as it was. *)
Definition others_kept (k : NamespacedName) (c0 c : Cluster) : Prop :=
  ∀ k', k' ≠ ("Gateway", k) → objects c !! k' = objects c0 !! k'.
Lemma others_kept_writes k c0 : keeps_writes (others_kept k c0) Gateway (λ k', k' = k).
Proof.
  assert (∀ x c, others_kept k c0 c → others_kept k c0 (put ("Gateway", k) x c)) as Hput.
  { intros x c Hc k' Hk'. cbn. rewrite lookup_insert_ne; [by apply Hc | done]. }
  split; try (intros x Hk c Hc; cbn; unfold mem_create, mem_write;
    destruct (mem_get c (key x)); [try done; rewrite Hk; by apply Hput | try done; rewrite Hk; by apply Hput]).
  - intros k' -> c Hc. cbn. unfold mem_delete. destruct (mem_get c k); [|done].
    intros k' Hk'. cbn. rewrite lookup_delete_ne; [by apply Hc | done].
  - intros x f Hk c Hc. cbn. unfold mem_apply.
    destruct (mem_get c (key x)) as [cur|[]]; try done; destruct (bool_decide _) eqn:Hf; try done.
    + rewrite Hk. by apply Hput.
    + bools. unfold mem_create. destruct (mem_get c (key (f x))); [done|]. rewrite Hf, Hk. by apply Hput.
Qed.
Definition example_reconciler : GatewayReconciler := {|
  Images := example_images; Recorder := true; VanityDeadline := 0; TorPodNetworkPolicyEnabled := true;
  ClusterPodCIDRs := []; TestingNetworkInclude := ""; TestingNetworkNamespace := "" |}.

Definition map_range (m : gmap (string * string) ResolvedBackend) : list ResolvedBackend :=
  (map_to_list m).*2.

(** A Gateway with its key, and no OnionBalancePolicy. *)
Definition example_key : Secret := {|
  sec_meta := new_meta (KeySecretName "onion") "tor" {[ gatewayLabelKey := "onion" ]};
  sec_Type := "Opaque";
  sec_Data := {[ FileSecretKeyName := SecretKeyFile zero_pair; FilePublicKeyName := PublicKeyFile zero_pair ]} |}.
Definition keyed_cluster : Cluster :=
  cluster [obj example_class; obj example_gateway; obj example_key].
Definition key_in_place (c : Cluster) : Prop :=
  objects c !! ("Secret", key example_key) = Some (ASecret example_key) ∧
  (∀ k, objects c !! ("OnionBalancePolicy", k) = None) ∧ named (T := Secret) c.

Lemma key_in_place_other T `{Kind T} :
  kind_name (T := T) ≠ "Secret" → kind_name (T := T) ≠ "OnionBalancePolicy" → keeps_any key_in_place T.
Proof.
  intros Hs Ho. unfold key_in_place. apply keeps_writes_and; [|apply keeps_writes_and].
  - by apply (mem_keeps (λ o, o = Some (ASecret example_key))).
  - apply (keeps_writes_all _ (λ k c, objects c !! ("OnionBalancePolicy", k) = None)). intros k.
    by apply (mem_keeps (λ o, o = None)).
  - by apply mem_keeps_named_other.
Qed.
Lemma key_in_place_secret : keeps_writes key_in_place Secret (λ k, k ≠ key example_key).
Proof.
  apply keeps_writes_and; [|apply keeps_writes_and].
  - by apply (mem_keeps (λ o, o = Some (ASecret example_key))).
  - apply (keeps_writes_all _ (λ k c, objects c !! ("OnionBalancePolicy", k) = None)). intros k.
    by apply (mem_keeps (λ o, o = None)).
  - eapply keeps_writes_mono; [|by apply mem_keeps_named]. done.
Qed.
Lemma key_in_place_reads (c : Cluster) :
  key_in_place c →
  kget (T := Secret) c (key example_key) = Ok example_key ∧
  (∀ gw l, klist (T := Secret) c (Some (gw_ns gw)) (backend_selector gw) = Ok l →
     ∀ x, x ∈ l → key x ≠ key example_key) ∧
  (∀ gw obp, findEffectiveOnionBalance gw c ≠ Ok (Some obp, true)).
Proof.
  intros (Hkey & Hobp & Hn). split; [|split].
  - change (mem_get c (key example_key) = Ok example_key). unfold mem_get.
    change kind_name with "Secret". by rewrite Hkey.
  - intros gw l Hl x Hx Hk. change (mem_list c (Some (gw_ns gw)) (backend_selector gw) = Ok l) in Hl.
    eapply mem_list_spec in Hx as (k & a & Ha & Hp & _ & Hlab); [|exact Hl].
    pose proof (Hn k a x Ha Hp) as Hkx. rewrite <- Hkx, Hk in Ha. change (kind_name) with "Secret" in Ha.
    rewrite Hkey in Ha. injection Ha as <-. injection Hp as <-.
    unfold has_labels, backend_selector in Hlab. bools.
    rewrite map_Forall_lookup in Hlab. specialize (Hlab haRoleKey haRoleBackend).
    rewrite lookup_insert_ne, lookup_singleton_eq in Hlab by done. by specialize (Hlab eq_refl).
  - intros gw obp. unfold findEffectiveOnionBalance. cbn [klist client_OnionBalancePolicy cluster_client mem_store].
    rewrite (mem_list_frame (cluster []) c); [done|]. intros k. by rewrite Hobp.
Qed.

Import Crowd.
(** Others take the class away before the first write of the operator, and the Gateway itself
    before the third: the reconcile ends in an error, the key is in place. *)
Definition crowded_keyed : Crowded := {|
  cr_cluster := keyed_cluster;
  cr_others := [λ c, (mem_delete (T := GatewayClass) (key example_class) c).1; id;
                λ c, (mem_delete (T := Gateway) onion_key c).1] |}.
Lemma key_in_place_keyed : crowd_of key_in_place crowded_keyed.
Proof.
  split; [split; [reflexivity|split]|].
  - intros k. unfold crowded_keyed, keyed_cluster, cluster. cbn. rewrite !lookup_insert_ne by done. apply lookup_empty.
  - intros k a x. unfold crowded_keyed, keyed_cluster, cluster. cbn.
    rewrite !lookup_insert_Some. intros [[[=] _]|[_ [[[=] _]|[_ [[[= <-] <-]|[_ ?]]]]]]; [by intros [= <-]|done].
  - cbn [crowded_keyed cr_others]. rewrite !Forall_cons. split_and!; [intros c Hc..|by apply Forall_nil].
    + refine (keeps_kdelete key_in_place GatewayClass (λ _, True) _ (key example_class) I c Hc). by apply key_in_place_other.
    + exact Hc.
    + refine (keeps_kdelete key_in_place Gateway (λ _, True) _ onion_key I c Hc). by apply key_in_place_other.
Qed.
Lemma key_in_place_crowd (s : Crowded) :
  crowd_of key_in_place s →
  kget (T := Secret) s (key example_key) = Ok example_key ∧
  (∀ gw l, klist (T := Secret) s (Some (gw_ns gw)) (backend_selector gw) = Ok l →
     ∀ x, x ∈ l → key x ≠ key example_key) ∧
  (∀ gw obp, findEffectiveOnionBalance gw s ≠ Ok (Some obp, true)).
Proof. intros [Hs _]. exact (key_in_place_reads (cr_cluster s) Hs). Qed.
Lemma key_kept_witness :
  let s := Gateway_Reconcile example_reconciler (λ _, false) None (λ _, Ok zero_key) no_text
             map_range 7 onion_key crowded_keyed in
  kget (T := Secret) s.1 (key example_key) = Ok example_key ∧
  (kget (T := Gateway) s.1 onion_key, is_ok s.2, cr_others s.1) = (Err NotFound, false, []).
Proof.
  split; [|vm_compute; reflexivity].
  apply key_in_place_crowd.
  apply (key_kept example_reconciler (λ _, false) None (λ _, Ok zero_key) no_text map_range 7
           (crowd_of key_in_place) (key example_key)).
  - split; try (by apply crowded_writes, key_in_place_other); [apply crowded_writes, key_in_place_secret | done].
  - intros s Hs. exists example_key. by apply key_in_place_crowd.
  - intros s gw l Hs. by apply key_in_place_crowd.
  - intros s s' gw gw'. cbn. unfold crowded, mem_write.
    destruct (mem_get _ (key gw)); intros [= <- <-]; done.
  - done.
  - intros s gw obp Hs _. by apply key_in_place_crowd.
  - exact key_in_place_keyed.
  - intros gw. vm_compute. by intros [= <-].
Defined.

(** A pod template without contents, for the examples. *)
Definition empty_pod : PodTemplateSpec := {|
  pt_Labels := ∅; pt_Annotations := ∅;
  pt_Spec := {| pod_RestartPolicy := ""; pod_ServiceAccountName := ""; pod_ShareProcessNamespace := None;
                pod_SecurityContext := None; pod_Volumes := []; pod_InitContainers := [];
                pod_Containers := []; pod_TopologySpread := [] |} |}.
