(* ===== verification/GatewayStatus.v ===== *)
(** * What the Gateway controller reports

    The addresses, conditions and listeners that [reconcileModeA] and [updateStatusModeB] write. *)

From Stdlib Require Import Ascii ZArith.
From S2P Require Import Prelude Monad GoStrings Onion Keys KubeTypes Router Kube Names RefGrant.
From S2P Require Import Status Policies HTTPRouteCtl NetPol Resources ResourcesHA Workloads.
From S2P Require Import Client Harvest GatewayCtl.

(** ** Mode A *)
Definition listener_shape (l : ListenerStatus) : string * Z * list (string * string * string) :=
  (ls_Name l, ls_AttachedRoutes l, map condition_shape (ls_Conditions l)).
Lemma equalListenerStatus_shape a b :
  equalListenerStatus a b = true ↔ map listener_shape a = map listener_shape b.
Proof.
  apply all_equal_map. intros x y. unfold equalListener, listener_shape.
  rewrite !andb_true_iff, !bool_decide_eq_true,
    (all_equal_map _ condition_shape) by apply conditionEqual_shape.
  split; [intros [[-> ->] ->] | intros [= -> -> ->]]; done.
Qed.

(** The routes attached to a name: the last entry's. *)
Definition attached (name : string) (l : list ListenerStatus) : Z :=
  foldl (λ n e, if bool_decide (ls_Name e = name) then ls_AttachedRoutes e else n) 0%Z l.
Lemma attached_shape name l k :
  map listener_shape l = map listener_shape k → attached name l = attached name k.
Proof.
  unfold attached. generalize 0%Z. revert k.
  induction l as [|x l IH]; intros [|y k] n; try done. cbn.
  unfold listener_shape at 1 3. intros [= Hn Ha _ Hl]. rewrite Hn, Ha. by apply IH.
Qed.
Lemma attached_written now gw name ls :
  name ∈ map l_Name ls →
  attached name (map (listener_status now gw) ls) = attached name (gs_Listeners (gw_Status gw)).
Proof.
  unfold attached at 1. set (n0 := 0%Z) at 1.
  assert (∀ n, n = attached name (gs_Listeners (gw_Status gw)) ∨ name ∈ map l_Name ls →
    foldl (λ n e, if bool_decide (ls_Name e = name) then ls_AttachedRoutes e else n) n
      (map (listener_status now gw) ls) = attached name (gs_Listeners (gw_Status gw))) as Hfold.
  { induction ls as [|l ls IH]; intros n; cbn.
    - intros [->|?%not_elem_of_nil]; done.
    - case_bool_decide as Hl.
      + intros _. apply IH. left. unfold attached. by rewrite Hl.
      + intros [->|[->|Hin]%elem_of_cons]; [by apply IH; left|done|by apply IH; right]. }
  intros Hin. apply Hfold. by right.
Qed.

Lemma listener_status_shape now now' gw gw' l :
  gw_meta gw' = gw_meta gw →
  attached (l_Name l) (gs_Listeners (gw_Status gw')) = attached (l_Name l) (gs_Listeners (gw_Status gw)) →
  listener_shape (listener_status now' gw' l) = listener_shape (listener_status now gw l).
Proof.
  intros Hm Ha. unfold listener_shape, listener_status. cbn [ls_Name ls_AttachedRoutes ls_Conditions map].
  unfold attached in Ha. by rewrite Ha.
Qed.

(** The parts of the status. *)
Definition a_addresses (gw : Gateway) (onion : string) : list GatewayStatusAddress :=
  if equalGatewayAddresses (gs_Addresses (gw_Status gw)) [onion_address onion]
  then gs_Addresses (gw_Status gw) else [onion_address onion].
Definition a_wanted (now : Z) (gw : Gateway) : list Condition :=
  [accepted_condition now gw;
   condition now (Generation (gw_meta gw)) "Programmed" ConditionTrue "Programmed"
     "Tor pod provisioned; .onion published"].
Definition a_listeners (now : Z) (gw : Gateway) : list ListenerStatus :=
  let want := map (listener_status now gw) (gw_Listeners gw) in
  if equalListenerStatus (gs_Listeners (gw_Status gw)) want then gs_Listeners (gw_Status gw) else want.
Lemma mode_a_status_parts now gw onion :
  let conds := setConditions (gs_Conditions (gw_Status gw)) (a_wanted now gw) in
  mode_a_status now gw onion =
  ({| gs_Addresses := a_addresses gw onion; gs_Conditions := conds.1; gs_Listeners := a_listeners now gw |},
   negb (equalGatewayAddresses (gs_Addresses (gw_Status gw)) [onion_address onion]) || conds.2 ||
   negb (equalListenerStatus (gs_Listeners (gw_Status gw)) (map (listener_status now gw) (gw_Listeners gw)))).
Proof.
  unfold mode_a_status. fold (a_wanted now gw).
  destruct (setConditions (gs_Conditions (gw_Status gw)) (a_wanted now gw)) as [conds ch]. done.
Qed.

Lemma equalGatewayAddresses_eq a b : equalGatewayAddresses a b = true ↔ a = b.
Proof.
  unfold equalGatewayAddresses.
  rewrite (all_equal_map _ (λ x, (a_Value x, a_Type x))).
  - revert b. induction a as [|[]  a IH]; intros [|[] b]; try done. cbn. split.
    + intros [= -> -> ?%IH]. congruence.
    + by intros [= -> -> ->].
  - intros x y. unfold equalGatewayAddress. rewrite andb_true_iff, objEqual_eq, bool_decide_eq_true.
    split; [intros [-> ->] | intros [= -> ->]]; done.
Qed.
Lemma a_addresses_eq gw onion : a_addresses gw onion = [onion_address onion].
Proof.
  unfold a_addresses. destruct (equalGatewayAddresses _ _) eqn:Heq; [|done].
  by apply equalGatewayAddresses_eq.
Qed.
Lemma mode_a_status_address now gw onion : map a_Value (gs_Addresses (mode_a_status now gw onion).1) = [onion].
Proof. rewrite mode_a_status_parts. cbn [fst gs_Addresses]. by rewrite a_addresses_eq. Qed.
Lemma a_wanted_types now gw : NoDup (map c_Type (a_wanted now gw)).
Proof. change (NoDup ["Accepted"; "Programmed"]). apply (bool_decide_unpack _). vm_compute. done. Qed.
Lemma a_listeners_shape now gw :
  map listener_shape (a_listeners now gw) =
  map listener_shape (map (listener_status now gw) (gw_Listeners gw)).
Proof.
  unfold a_listeners. destruct (equalListenerStatus _ _) eqn:Heq; [|done].
  by apply equalListenerStatus_shape.
Qed.
Lemma a_listeners_again now now' gw st :
  gs_Listeners st = a_listeners now gw →
  equalListenerStatus (gs_Listeners st) (map (listener_status now' (with_gw_Status st gw)) (gw_Listeners gw)) = true.
Proof.
  intros Hst. apply equalListenerStatus_shape. rewrite Hst, a_listeners_shape, !map_map.
  apply map_ext_in. intros l Hl. symmetry. apply listener_status_shape; [done|]. cbn. rewrite Hst.
  rewrite (attached_shape _ _ _ (a_listeners_shape now gw)). apply attached_written.
  apply list_elem_of_In, in_map, Hl.
Qed.

Lemma mode_a_status_same now gw onion : (mode_a_status now gw onion).2 = false → (mode_a_status now gw onion).1 = gw_Status gw.
Proof.
  rewrite mode_a_status_parts. cbn [fst snd]. rewrite !orb_false_iff, !negb_false_iff, a_addresses_eq.
  intros [[Ha Hc] Hl]. apply equalGatewayAddresses_eq in Ha. rewrite <- Ha. unfold a_listeners. rewrite Hl.
  destruct (setConditions _ _) as [conds ch] eqn:Hconds. cbn in Hc |- *. subst ch.
  apply setConditions_unchanged in Hconds as ->. by destruct (gw_Status gw).
Qed.
Lemma mode_a_status_again now now' gw onion :
  mode_a_status now' (with_gw_Status (mode_a_status now gw onion).1 gw) onion = ((mode_a_status now gw onion).1, false).
Proof.
  rewrite (mode_a_status_parts now gw). cbn [fst]. rewrite a_addresses_eq.
  set (st := {| gs_Addresses := _; gs_Conditions := _; gs_Listeners := _ |}).
  pose proof (a_listeners_again now now' gw st eq_refl) as Hl.
  rewrite mode_a_status_parts, a_addresses_eq. unfold a_listeners.
  cbn [with_gw_Status gw_Status gw_Listeners]. cbn zeta. rewrite Hl.
  assert (setConditions (gs_Conditions st) (a_wanted now' (with_gw_Status st gw)) =
    (gs_Conditions st, false)) as ->
    by (apply setConditions_settle; [apply a_wanted_types | by repeat constructor]).
  by rewrite (proj2 (equalGatewayAddresses_eq (gs_Addresses st) _)) by done.
Qed.

(** The status of the single-pod mode says what it must and settles.  It publishes the
    address of the key and no other, reports Accepted and Programmed, lists exactly the
    Gateway's listeners, in order, programmed, and keeps the counts of attached routes, which
    the HTTPRoute controller owns.  A report of no change means the status is as it was, and
    computing the status again over the one just written, at any later time, changes nothing:
    the controller does not wake itself up for ever. *)
Theorem mode_a_status_settles now (gw : Gateway) onion :
  let '(st, changed) := mode_a_status now gw onion in
  map a_Value (gs_Addresses st) = [onion] ∧
  (∀ t, t ∈ ["Accepted"; "Programmed"] →
     ∃ c, condition_of t (gs_Conditions st) = Some c ∧ c_Status c = ConditionTrue ∧
          c_ObservedGeneration c = Generation (gw_meta gw)) ∧
  (∀ t, t ∉ ["Accepted"; "Programmed"] →
     condition_of t (gs_Conditions st) = condition_of t (gs_Conditions (gw_Status gw))) ∧
  map listener_shape (gs_Listeners st) =
    map (λ l, (l_Name l, attached (l_Name l) (gs_Listeners (gw_Status gw)),
               [("Accepted", ConditionTrue, "Accepted"); ("Programmed", ConditionTrue, "Programmed")]))
      (gw_Listeners gw) ∧
  (changed = false → st = gw_Status gw) ∧
  ∀ now', mode_a_status now' (with_gw_Status st gw) onion = (st, false).
Proof.
  pose proof (mode_a_status_same now gw onion) as Hsame.
  pose proof (λ now', mode_a_status_again now now' gw onion) as Hagain.
  pose proof (mode_a_status_parts now gw onion) as Hparts. cbn zeta in Hparts.
  destruct (mode_a_status now gw onion) as [st changed]. cbn [fst snd] in Hsame, Hagain.
  injection Hparts as Hst _.
  split; [|split; [|split; [|split; [|done]]]].
  - by rewrite Hst, a_addresses_eq.
  - pose proof (setConditions_set (gs_Conditions (gw_Status gw)) _ (a_wanted_types now gw)) as Hset.
    rewrite Hst. cbn [gs_Conditions]. intros t Ht.
    apply Forall_cons in Hset as [Ha Hset]. apply Forall_cons in Hset as [Hp _].
    apply elem_of_cons in Ht as [->|Ht]; [|apply list_elem_of_singleton in Ht as ->];
      [destruct Ha as (c & ? & Hc) | destruct Hp as (c & ? & Hc)]; exists c; by repeat split; try apply Hc.
  - intros t Ht. rewrite Hst. by apply setConditions_others.
  - rewrite Hst. cbn [gs_Listeners]. by rewrite a_listeners_shape, map_map.
Qed.

(** ** Mode B *)
Notation is_onion := (λ a, HasSuffix (a_Value a) ".onion" = true).
Lemma replace_onions_spec master found l :
  HasSuffix (a_Value master) ".onion" = true →
  filter is_onion (replace_onions master found l) = (if found then [] else [master]) ∧
  filter (λ a, ¬ is_onion a) (replace_onions master found l) = filter (λ a, ¬ is_onion a) l.
Proof.
  intros Hm. revert found. induction l as [|a l IH]; intros found; cbn [replace_onions].
  - destruct found; [done|]. rewrite filter_cons_True, filter_cons_False by auto. done.
  - destruct (HasSuffix (a_Value a) ".onion") eqn:Ha.
    + rewrite !filter_app, (proj1 (IH true)), (proj2 (IH true)).
      rewrite (filter_cons_False _ a) by (rewrite Ha; auto).
      destruct found; [done|]. rewrite filter_cons_True, filter_cons_False by auto. done.
    + rewrite !(filter_cons_False is_onion), !(filter_cons_True _ a) by congruence.
      by rewrite (proj1 (IH found)), (proj2 (IH found)).
Qed.
Lemma replace_onions_again master found l :
  HasSuffix (a_Value master) ".onion" = true →
  replace_onions master found (replace_onions master found l) = replace_onions master found l.
Proof.
  intros Hm.
  assert (∀ l, replace_onions master true (replace_onions master true l) = replace_onions master true l) as Htrue.
  { clear l. induction l as [|a l IH]; cbn; [done|].
    destruct (HasSuffix (a_Value a) ".onion") eqn:Ha; cbn; [done|]. by rewrite Ha, IH. }
  destruct found; [apply Htrue|]. induction l as [|a l IH]; cbn; [by rewrite Hm|].
  destruct (HasSuffix (a_Value a) ".onion") eqn:Ha; cbn.
  - by rewrite Hm, Htrue.
  - by rewrite Ha, IH.
Qed.

Lemma modeBHealth_true {S} `{!Client S} error_text (gw : Gateway) (s : S) :
  (modeBHealth error_text gw s).1.1 = true ↔
  ∃ fe n, kget s (child gw (FrontendName gw)) = Ok fe ∧
          ("Available", ConditionTrue) ∈ dep_Conditions fe ∧
          countReadyBackends s gw = Ok n ∧ (1 ≤ n)%Z.
Proof.
  unfold modeBHealth. destruct (kget s _) as [fe|[]] eqn:Hfe;
    try (split; [done | by intros (? & ? & [=] & _)]).
  destruct (existsb _ _) eqn:He; cbn [negb].
  - apply existsb_exists in He as ([t st] & Hin & Hc). bools. cbn in *. subst.
    apply list_elem_of_In in Hin.
    destruct (countReadyBackends s gw) as [n|e] eqn:Hn; [|by split; [|intros (? & ? & _ & _ & [=] & _)]].
    destruct (Z.ltb_spec n 1); cbn.
    + split; [done|]. intros (? & ? & _ & _ & [= <-] & ?). lia.
    + split; [|done]. intros _. by exists fe, n.
  - split; [done|]. intros (fe' & n & [= <-] & Hin & _). exfalso.
    assert (existsb (λ c, bool_decide (c.1 = "Available") && bool_decide (c.2 = ConditionTrue))
              (dep_Conditions fe) = true) as Ht; [|congruence].
    apply existsb_exists. eexists. rewrite list_elem_of_In in Hin. split; [exact Hin|].
    by rewrite !bool_decide_true.
Qed.

Lemma OnionAddress_suffix master : onion_wf master → HasSuffix (OnionAddress_String master) ".onion" = true.
Proof. intros Hm. unfold OnionAddress_String. rewrite Hm, Nat.eqb_refl. apply HasSuffix_true. eauto. Qed.
(** Writing the same verdict again changes nothing. *)
Lemma mode_b_status_again now now' (fresh : Gateway) (master : OnionAddress) programmed reason message :
  onion_wf master →
  let st := mode_b_status now fresh (OnionAddress_String master) programmed reason message in
  mode_b_status now' (with_gw_Status st fresh) (OnionAddress_String master) programmed reason message = st.
Proof.
  intros Hm st.
  pose proof (OnionAddress_suffix master Hm) as Hsuf.
  set (wanted := λ now, [accepted_condition now fresh;
    condition now (Generation (gw_meta fresh)) "Programmed" programmed reason message]).
  assert ((setConditions (setConditions (gs_Conditions (gw_Status fresh)) (wanted now)).1 (wanted now')).1 =
    (setConditions (gs_Conditions (gw_Status fresh)) (wanted now)).1) as Hagain.
  { rewrite (setConditions_settle _ (wanted now) (wanted now'));
      [done|apply (a_wanted_types now fresh)|by repeat constructor]. }
  unfold st, mode_b_status at 1. cbn [with_gw_Status gw_Status gs_Addresses gs_Listeners gs_Conditions mode_b_status].
  rewrite replace_onions_again by done. unfold mode_b_status. f_equal. exact Hagain.
Qed.


(** A frontend that is Available, over a backend that has published its hostname. *)
Definition ready_frontend : Deployment := {|
  dep_meta := new_meta (FrontendName example_gateway) "tor" ∅; dep_Spec := None;
  dep_Conditions := [("Available", ConditionTrue)] |}.
Definition ready_backend : Secret := {|
  sec_meta := new_meta (BackendKeySecretName example_gateway 0) "tor" (backend_selector example_gateway);
  sec_Type := "Opaque"; sec_Data := {[ FileHostnameName := [Byte.x61] ]} |}.
