(* ===== verification/GatewayGC.v ===== *)
(** * Scaling the backends down (gcBackendSecretsIfSettled of gateway_controller.go) *)

From Stdlib Require Import Ascii ZArith.
From S2P Require Import Prelude Monad GoStrings Keys KubeTypes Router Kube Names RefGrant.
From S2P Require Import Status Policies HTTPRouteCtl NetPol Resources ResourcesHA Client.
From S2P Require Import Harvest GatewayCtl GatewayProps.

(** The Secrets of a Gateway whose names carry an index that is not in use. *)
Definition orphan (gw : Gateway) (replicas : Z) (name : string) : Prop :=
  (0 ≤ backendSecretIndex name (gw_name gw))%Z ∧ (replicas ≤ backendSecretIndex name (gw_name gw))%Z.
(** The StatefulSet runs as many pods as it asks for. *)
Definition settled {S} `{!Client S} (s : S) (k : NamespacedName) : Prop :=
  ∃ (ss : StatefulSet) spec wanted, kget s k = Ok ss ∧ sts_Spec ss = Some spec ∧
    ss_Replicas spec = Some wanted ∧ sts_StatusReplicas ss = wanted.

Section gc.
Context {S : Type} `{!Client S}.

Lemma orphan_filter gw replicas (l : list Secret) x :
  x ∈ filter (λ s, let idx := backendSecretIndex (Name (sec_meta s)) (gw_name gw) in
                   negb ((idx <? 0)%Z || (idx <? replicas)%Z) = true) l ↔
  x ∈ l ∧ orphan gw replicas (nn_Name (key x)).
Proof.
  rewrite list_elem_of_filter, negb_true_iff, orb_false_iff, !Z.ltb_ge. unfold orphan. cbn. tauto.
Qed.

(** A loop of deletions deletes all it is given. *)
Lemma delete_all_gone (w : Secret → error → error) (l : list Secret) (s s' : S)
    (Hgone : ∀ (s s' : S) k r, kdelete (T := Secret) k s = (s', r) → r = Ok () ∨ r = Err NotFound →
       kget (T := Secret) s' k = Err NotFound)
    (Hstay : ∀ (s s' : S) k k' r, kdelete (T := Secret) k s = (s', r) →
       kget (T := Secret) s k' = Err NotFound → kget (T := Secret) s' k' = Err NotFound) :
  for_each (λ x, wrap (w x) (delete_child Secret (key x))) l s = (s', Ok ()) →
  (∀ x, x ∈ l → kget (T := Secret) s' (key x) = Err NotFound) ∧
  (∀ k', kget (T := Secret) s k' = Err NotFound → kget (T := Secret) s' k' = Err NotFound).
Proof.
  revert s. induction l as [|x l IH]; intros s; cbn [for_each].
  - intros [= <-]. split; [by intros x ?%not_elem_of_nil | done].
  - intros (s1 & [] & Hx & Hl)%bind_Ok. apply wrap_Ok in Hx. unfold delete_child in Hx.
    apply wrap_Ok in Hx. unfold ignore_not_found in Hx.
    destruct (kdelete (key x) s) as [s2 r] eqn:Hdel.
    assert (s2 = s1 ∧ (r = Ok () ∨ r = Err NotFound)) as [-> Hr]
      by (destruct r as [[]|[]]; naive_solver).
    destruct (IH s1 Hl) as [Hall Hkeep]. split; [|eauto].
    intros y [->|Hy]%elem_of_cons; [|by apply Hall]. apply Hkeep. by eapply Hgone.
Qed.

(** C16.  Scaling down deletes the right keys.  While the StatefulSet has not settled nothing is
    touched; once it has, the only objects written to are Secrets of the Gateway whose name
    carries an index that is no longer in use, so no live backend's key, whose address is
    published, can be lost; and when the sweep succeeds each Secret labelled as a backend's of
    an unused index is gone.  ([P] is any property the deletions of such Secrets keep.) *)
Theorem gc_exact (P : S → Prop) (gw : Gateway) (ss : StatefulSet) (replicas : Z) (s : S)
    (Hreplicas : (replicas ≤ int64_max)%Z)
    (Hgone : ∀ (s s' : S) k r, kdelete (T := Secret) k s = (s', r) → r = Ok () ∨ r = Err NotFound →
       kget (T := Secret) s' k = Err NotFound)
    (Hstay : ∀ (s s' : S) k k' r, kdelete (T := Secret) k s = (s', r) →
       kget (T := Secret) s k' = Err NotFound → kget (T := Secret) s' k' = Err NotFound) :
  let run := gcBackendSecretsIfSettled gw ss replicas s in
  (¬ settled s (key ss) → run.1 = s) ∧
  (keeps_writes P Secret (λ k, orphan gw replicas (nn_Name k)) → P s → P run.1) ∧
  (∀ i, (0 ≤ i < replicas)%Z → ¬ orphan gw replicas (BackendKeySecretName gw i)) ∧
  (∀ s' l, settled s (key ss) → run = (s', Ok ()) →
     klist (T := Secret) s (Some (gw_ns gw)) (backend_selector gw) = Ok l →
     ∀ x, x ∈ l → orphan gw replicas (nn_Name (key x)) → kget (T := Secret) s' (key x) = Err NotFound).
Proof.
  cbn zeta. split; [|split; [|split]].
  - intros Hn. unfold gcBackendSecretsIfSettled, bind at 1, find.
    destruct (kget s (key ss)) as [cur|[]] eqn:Hcur; try done.
    destruct (sts_Spec cur) as [spec|] eqn:Hspec; [|done]. cbn.
    destruct (ss_Replicas spec) as [wanted|] eqn:Hw; [|done].
    destruct (bool_decide _) eqn:Heq; [|done]. bools. destruct Hn. by exists cur, spec, wanted.
  - intros HP. revert s. enough (keeps P (gcBackendSecretsIfSettled gw ss replicas)) as Hk by exact Hk.
    unfold gcBackendSecretsIfSettled, gcOrphanBackendSecrets, delete_child. keeps.
    apply (keeps_kdelete _ _ _ HP). by eapply orphan_filter.
  - intros i Hi [_ Ho]. rewrite backendSecretIndex_name in Ho; lia.
  - intros s' l (cur & spec & wanted & Hcur & Hspec & Hw & Heq) Hrun Hl x Hx Ho.
    unfold gcBackendSecretsIfSettled, bind at 1, find in Hrun. rewrite Hcur, Hspec in Hrun. cbn in Hrun.
    rewrite Hw, bool_decide_true in Hrun by done. cbn [negb] in Hrun.
    unfold gcOrphanBackendSecrets, bind at 1, gets at 1 in Hrun. rewrite Hl in Hrun. cbn in Hrun.
    apply delete_all_gone in Hrun as [Hall _]; try done. apply Hall. by apply orphan_filter.
Qed.
End gc.

(** Three backend keys, two replicas: the third key is deleted, the others stay. *)
Definition backend_sec (i : Z) : Secret := {|
  sec_meta := new_meta (BackendKeySecretName example_gateway i) "tor" (backend_selector example_gateway);
  sec_Type := "Opaque"; sec_Data := ∅ |}.
Definition backend_spec : StatefulSetSpec := {|
  ss_Replicas := Some 2%Z; ss_Selector := ∅; ss_ServiceName := ""; ss_Template := empty_pod;
  ss_PodManagementPolicy := "" |}.
Definition backend_sts : StatefulSet := {|
  sts_meta := new_meta (BackendStatefulSetName example_gateway) "tor" ∅; sts_Spec := Some backend_spec;
  sts_StatusReplicas := 2 |}.
Definition three_backends : Cluster :=
  cluster [obj backend_sts; obj (backend_sec 0); obj (backend_sec 1); obj (backend_sec 2)].

Lemma mem_delete_gone (c c' : Cluster) k r :
  kdelete (T := Secret) k c = (c', r) → r = Ok () ∨ r = Err NotFound →
  kget (T := Secret) c' k = Err NotFound.
Proof.
  cbn. unfold mem_delete. destruct (mem_get c k) as [x|e] eqn:Hx; intros [= <- <-] Hr.
  - unfold mem_get. cbn. by rewrite lookup_delete_eq.
  - by destruct Hr as [|[= ->]].
Qed.
Lemma mem_delete_stay (c c' : Cluster) k k' r :
  kdelete (T := Secret) k c = (c', r) → kget (T := Secret) c k' = Err NotFound →
  kget (T := Secret) c' k' = Err NotFound.
Proof.
  cbn. unfold mem_delete. destruct (mem_get c k) as [x|e]; intros [= <- <-]; [|done].
  unfold mem_get. cbn. destruct (decide (k' = k)) as [->|Hne]; [by rewrite lookup_delete_eq|].
  by rewrite lookup_delete_ne by congruence.
Qed.
Lemma gc_exact_witness :
  let run := gcBackendSecretsIfSettled example_gateway backend_sts 2 three_backends in
  run.2 = Ok () ∧ kget (T := Secret) run.1 (key (backend_sec 2)) = Err NotFound ∧
  objects run.1 !! ("Secret", key (backend_sec 0)) = Some (ASecret (backend_sec 0)).
Proof.
  cbn zeta.
  destruct (gc_exact (λ c, objects c !! ("Secret", key (backend_sec 0)) = Some (ASecret (backend_sec 0)))
    example_gateway backend_sts 2 three_backends) as (_ & Hkeep & Hlive & Hall);
    [done | apply mem_delete_gone | apply mem_delete_stay |].
  assert (∃ l, mem_list (T := Secret) three_backends (Some "tor") (backend_selector example_gateway) = Ok l)
    as [l Hl] by (eexists; reflexivity).
  assert (backend_sec 2 ∈ l) as Hin.
  { apply (mem_list_spec _ _ _ _ _ Hl). exists (key (backend_sec 2)), (ASecret (backend_sec 2)).
    split; [vm_compute; reflexivity|]. split; [done|]. split; [by intros n [= <-] | vm_compute; reflexivity]. }
  assert ((gcBackendSecretsIfSettled example_gateway backend_sts 2 three_backends).2 = Ok ()) as Hok
    by (vm_compute; reflexivity).
  split; [exact Hok|]. split.
  - destruct (gcBackendSecretsIfSettled example_gateway backend_sts 2 three_backends) as [c' res].
    cbn in Hok. subst res. apply (Hall c' l); [|reflexivity|exact Hl|exact Hin|].
    + exists backend_sts, backend_spec, 2%Z. split; [vm_compute; reflexivity|].
      split; [reflexivity|]. split; reflexivity.
    + split; vm_compute; discriminate.
  - apply Hkeep; [|reflexivity]. apply (mem_keeps (λ o, o = Some (ASecret (backend_sec 0)))).
    intros _ k Ho ->. refine (Hlive 0%Z _ Ho). lia.
Defined.
