(* ===== verification/Converge.v ===== *)
(** * A Gateway converges (gateway_controller.go, the single-pod mode)

    On the in-memory cluster, one pass over the objects of mode A makes each of them what the
    builders want, whatever was there before, touches nothing else, and leaves a second pass
    nothing to do. *)

From Stdlib Require Import Ascii ZArith.
From S2P Require Import Prelude Monad GoStrings Onion Keys KubeTypes Router Kube Names Status Policies.
From S2P Require Import HTTPRouteCtl NetPol Resources Workloads Client Harvest GatewayCtl GatewayProps GatewayStatus.

#[global] Instance ConfigMap_lawful : LawfulKind ConfigMap.
Proof. split; done. Qed.
#[global] Instance ServiceAccount_lawful : LawfulKind ServiceAccount.
Proof. split; done. Qed.
#[global] Instance Role_lawful : LawfulKind Role.
Proof. split; done. Qed.
#[global] Instance RoleBinding_lawful : LawfulKind RoleBinding.
Proof. split; done. Qed.
#[global] Instance Service_lawful : LawfulKind Service.
Proof. split; done. Qed.
#[global] Instance Deployment_lawful : LawfulKind Deployment.
Proof. split; done. Qed.
#[global] Instance StatefulSet_lawful : LawfulKind StatefulSet.
Proof. split; done. Qed.
#[global] Instance NetworkPolicy_lawful : LawfulKind NetworkPolicy.
Proof. split; done. Qed.

Lemma SetControllerReference_key {T} `{Kind T, !LawfulKind T} (owner : ObjectMeta) (x y : T) :
  SetControllerReference owner x = Ok y → key y = key x.
Proof.
  intros (m & -> & Hn & Hns & _)%(SetControllerReference_spec owner x y).
  unfold key. by rewrite key_with_meta, Hn, Hns.
Qed.
Lemma BuildNetworkPolicy_key gw backends cidrs testing want :
  BuildNetworkPolicy gw backends cidrs testing = Ok want → key want = netpol_key gw.
Proof.
  unfold BuildNetworkPolicy. destruct (filter _ _); [|done].
  by intros ->%(SetControllerReference_key (gw_meta gw) _ want).
Qed.

Lemma mem_get_at {T} `{Kind T} c d k :
  objects d !! (kind_name (T := T), k) = objects c !! (kind_name (T := T), k) → mem_get (T := T) d k = mem_get c k.
Proof. intros Hd. unfold mem_get. by rewrite Hd. Qed.

(** ** Steps that converge

    A triple over the objects of the cluster.  From a cluster in which [P] holds, a successful
    run of [m] changes the objects of [W] only; on every cluster that then agrees on the objects
    of [R], [Q] holds and the run [m'] succeeds and changes nothing. *)
Definition agree (R : string * NamespacedName → Prop) (c d : Cluster) : Prop :=
  ∀ k, R k → objects d !! k = objects c !! k.
Definition converges (P Q : Cluster → Prop) (W R : string * NamespacedName → Prop) (m m' : M Cluster error ())
  : Prop :=
  ∀ c c', P c → m c = (c', Ok ()) →
  agree (λ k, ¬ W k) c c' ∧
  ∀ d, agree R c' d → Q d ∧ ∃ d', m' d = (d', Ok ()) ∧ objects d' = objects d.

Section converges.
Context (P : Cluster → Prop).
Lemma converges_wrap Q W R w m m' : converges P Q W R m m' → converges P Q W R (wrap w m) (wrap w m').
Proof.
  intros Hm c c' Hc Hrun%wrap_Ok. destruct (Hm _ _ Hc Hrun) as [Hf Ha]. split; [done|].
  intros d Hd. destruct (Ha d Hd) as [HQ (d' & Hr & He)]. split; [done|].
  exists d'. split; [|done]. unfold wrap. by rewrite Hr.
Qed.
Lemma converges_ext Q W R m m' n n' :
  converges P Q W R m m' → (∀ c, n c = m c) → (∀ c, n' c = m' c) → converges P Q W R n n'.
Proof.
  intros Hm Hn Hn' c c' Hc Hrun. rewrite Hn in Hrun. destruct (Hm _ _ Hc Hrun) as [Hf Ha].
  split; [done|]. intros d Hd. rewrite Hn'. auto.
Qed.
Lemma converges_weaken (Q Q' : Cluster → Prop) (W W' R R' : string * NamespacedName → Prop) m m' :
  converges P Q W R m m' → (∀ c, Q c → Q' c) → (∀ k, W k → W' k) → (∀ k, R k → R' k) →
  converges P Q' W' R' m m'.
Proof.
  intros Hm HQ HW HR c c' Hc Hrun. destruct (Hm _ _ Hc Hrun) as [Hf Ha].
  split; [intros k Hk; apply Hf; auto|]. intros d Hd.
  destruct (Ha d) as [Hq Hd']; [intros k Hk; apply Hd, HR, Hk|]. auto.
Qed.
Lemma converges_ret : converges P (λ _, True) (λ _, False) (λ _, False) (ret ()) (ret ()).
Proof. intros c c' _ [= <-]. split; [done|]. intros d _. split; [done|]. by exists d. Qed.
Lemma converges_pre (P' Q : Cluster → Prop) W R m m' :
  converges P' Q W R m m' → (∀ c, P c → P' c) → converges P Q W R m m'.
Proof. intros Hm HP c c' Hc. apply Hm, HP, Hc. Qed.
Lemma converges_seq P2 (Q1 Q2 : Cluster → Prop) W1 W2 R1 R2 m1 m1' m2 m2' :
  converges P Q1 W1 R1 m1 m1' → converges P2 Q2 W2 R2 m2 m2' →
  (∀ c c1, P c → m1 c = (c1, Ok ()) → P2 c1) → (∀ k, R1 k → ¬ W2 k) →
  converges P (λ c, Q1 c ∧ Q2 c) (λ k, W1 k ∨ W2 k) (λ k, R1 k ∨ R2 k) (do! m1 in m2) (do! m1' in m2').
Proof.
  intros H1 H2 HP Hdisj c c' Hc (c1 & [] & Hr1 & Hr2)%bind_Ok.
  destruct (H1 _ _ Hc Hr1) as [Hf1 Ha1]. destruct (H2 _ _ (HP _ _ Hc Hr1) Hr2) as [Hf2 Ha2]. split.
  - intros k Hk. rewrite Hf2, Hf1 by tauto. done.
  - intros d Hd. destruct (Ha1 d) as [HQ1 (d1 & Hd1 & He1)].
    { intros k Hk. rewrite Hd, Hf2 by auto. done. }
    destruct (Ha2 d) as [HQ2 _]; [intros k Hk; auto|].
    destruct (Ha2 d1) as [_ (d2 & Hd2 & He2)]; [intros k Hk; rewrite He1; auto|].
    split; [done|]. exists d2. split; [|congruence]. unfold bind. by rewrite Hd1.
Qed.
(** A computation on the way, and a read of what is not written. *)
Lemma converges_lift {A} (b : result error A) Q W R m m' :
  (∀ x, b = Ok x → converges P Q W R (m x) (m' x)) →
  converges P Q W R (let! x := lift b in m x) (let! x := lift b in m' x).
Proof.
  intros Hm c c' Hc (c1 & x & [= <- Hb] & Hrun)%bind_Ok. destruct (Hm x Hb c c' Hc Hrun) as [Hf Ha].
  split; [done|]. intros d Hd. unfold bind at 1, lift. rewrite Hb. auto.
Qed.
Lemma converges_gets {A} (f : Cluster → result error A) Q W Rf R m m' :
  (∀ c d, agree Rf c d → f d = f c) → (∀ x, converges P (Q x) W R (m x) (m' x)) → (∀ k, Rf k → ¬ W k) →
  converges P (λ c, ∃ x, f c = Ok x ∧ Q x c) W (λ k, Rf k ∨ R k)
    (let! x := gets f in m x) (let! x := gets f in m' x).
Proof.
  intros Hframe Hm Hdisj c c' Hc (c1 & x & [-> Hx]%gets_Ok & Hrun)%bind_Ok.
  destruct (Hm x c c' Hc Hrun) as [Hf Ha]. split; [done|]. intros d Hd.
  destruct (Ha d) as [HQ Hd']; [intros k Hk; auto|].
  assert (f d = Ok x) as Hxd by (rewrite <- Hx; apply Hframe; intros k Hk; rewrite Hd, Hf; auto).
  split; [by exists x|]. unfold bind at 1, gets. by rewrite Hxd.
Qed.
Lemma converges_gets_wrap {A} w (f : Cluster → result error A) Q W Rf R m m' :
  (∀ c d, agree Rf c d → f d = f c) → (∀ x, converges P (Q x) W R (m x) (m' x)) → (∀ k, Rf k → ¬ W k) →
  converges P (λ c, ∃ x, f c = Ok x ∧ Q x c) W (λ k, Rf k ∨ R k)
    (let! x := wrap w (gets f) in m x) (let! x := wrap w (gets f) in m' x).
Proof.
  intros Hframe Hm Hdisj. pose proof (converges_gets (λ s, wrap_err w (f s)) Q W Rf R m m') as C.
  eapply converges_weaken; [apply C|..]; try done.
  - intros c d Hd. by rewrite (Hframe c d).
  - intros c (x & Hx & HQ). exists x. split; [|done]. destruct (f c); [done|discriminate Hx].
Qed.
(** For a property of one object, which a step that writes others keeps. *)
Context (g : string * NamespacedName) (HP : ∀ c d, objects d !! g = objects c !! g → P c → P d).
Lemma converges_bind Q1 Q2 (W1 W2 R1 R2 : string * NamespacedName → Prop) m1 m1' m2 m2' :
  converges P Q1 W1 R1 m1 m1' → converges P Q2 W2 R2 m2 m2' → ¬ W1 g → (∀ k, R1 k → ¬ W2 k) →
  converges P (λ c, Q1 c ∧ Q2 c) (λ k, W1 k ∨ W2 k) (λ k, R1 k ∨ R2 k) (do! m1 in m2) (do! m1' in m2').
Proof.
  intros H1 H2 Hg. apply (converges_seq P); [done..|]. intros c c1 Hc Hr. destruct (H1 _ _ Hc Hr) as [Hf _].
  exact (HP _ _ (Hf _ Hg) Hc).
Qed.
End converges.
Arguments converges_bind {P g} HP {Q1 Q2 W1 W2 R1 R2 m1 m1' m2 m2'}.
Arguments converges_seq {P} P2 {Q1 Q2 W1 W2 R1 R2 m1 m1' m2 m2'}.
Arguments converges_pre {P} P' {Q W R m m'}.
Arguments converges_wrap {P Q W R} w {m m'}.
Arguments converges_ext {P Q W R m m' n n'}.

(** ** One object *)
(** [y] has what the operator sets of [want]: labels, owners, and the kind's own fields. *)
Definition matches {T} `{Object T} {P} (payload : T → P) (want y : T) : Prop :=
  Labels (meta y) = Labels (meta want) ∧ OwnerReferences (meta y) = OwnerReferences (meta want) ∧
  payload y = payload want.
(** What a builder built is in the cluster, under a name. *)
Definition in_place {T} `{Kind T} {P} (payload : T → P) (built : result error T) (k : NamespacedName)
    (c : Cluster) : Prop :=
  ∃ want y, built = Ok want ∧ key want = k ∧ kget c k = Ok y ∧ matches payload want y.
Definition the (T : Type) `{Kind T} (k : NamespacedName) : string * NamespacedName → Prop :=
  λ k', k' = (kind_name (T := T), k).
(** A write of a wanted object makes it so, and over an object that is so writes the same. *)
Definition ensures {T} `{Kind T} {P} (payload : T → P) (ensure : T → M Cluster error ()) : Prop :=
  ∀ want c c', ensure want c = (c', Ok ()) →
  agree (λ k, ¬ the T (key want) k) c c' ∧
  ∀ d, agree (the T (key want)) c' d →
    (∃ y, kget d (key want) = Ok y ∧ matches payload want y) ∧
    ∃ d', ensure want d = (d', Ok ()) ∧ objects d' = objects d.

Lemma apply_ensures {T} `{Kind T, !LawfulKind T} {P} (payload : T → P) (x : T → T) (f : T → T → T) :
  (∀ want, key (x want) = key want) → (∀ want cur, key (f want cur) = key cur) →
  (∀ want cur, matches payload want (f want cur)) → (∀ want cur, f want (f want cur) = f want cur) →
  (∀ want y, f want (stamp y) = stamp (f want y)) → (∀ y, payload (stamp y) = payload y) →
  ensures payload (λ want, api (mem_apply (x want) (f want))).
Proof.
  intros Hx Hkey Hm Hff Hstamp Hpay want c c' Hrun. unfold api in Hrun. apply wrap_Ok in Hrun.
  assert (∃ y, c' = put (kind_name (T := T), key want) (inj y) c ∧ matches payload want y ∧ f want y = y)
    as (y & -> & Hy & Hfix).
  { unfold mem_apply in Hrun. rewrite Hx in Hrun. destruct (mem_get c (key want)) as [cur|e] eqn:Hget.
    - rewrite bool_decide_eq_true_2 in Hrun by done. injection Hrun as <-. by exists (f want cur).
    - destruct e; try discriminate Hrun. rewrite bool_decide_eq_true_2 in Hrun by (by rewrite Hkey, Hx).
      unfold mem_create in Hrun. rewrite Hkey, Hx, Hget in Hrun. injection Hrun as <-.
      exists (stamp (f want (x want))). split; [done|]. split; [|by rewrite Hstamp, Hff].
      destruct (Hm want (x want)) as (H1 & H2 & H3). unfold matches. rewrite Hpay, H3.
      unfold stamp. rewrite !key_with_meta. done. }
  split; [intros k Hk; apply lookup_insert_ne; by intros <-|].
  intros d Hd. specialize (Hd _ eq_refl). cbn in Hd. rewrite lookup_insert_eq in Hd.
  assert (mem_get d (key want) = Ok y) as Hget by (unfold mem_get; rewrite Hd; cbn; by rewrite prj_inj).
  split; [by exists y|]. unfold api, wrap, mem_apply. rewrite Hx, Hget, Hfix, bool_decide_eq_true_2 by done.
  eexists. split; [done|]. cbn. by apply insert_id.
Qed.

Lemma ensureHAConfigMap_ensures : ensures cm_Data ensureHAConfigMap.
Proof. by apply (apply_ensures cm_Data (λ want, {| cm_meta := blank want; cm_Data := ∅ |})). Qed.
Lemma ensureHAServiceAccount_ensures : ensures (λ _, ()) ensureHAServiceAccount.
Proof. by apply (apply_ensures _ (λ want, {| sa_meta := blank want |})). Qed.
Lemma ensureHARole_ensures : ensures ro_Rules ensureHARole.
Proof. by apply (apply_ensures _ (λ want, {| ro_meta := blank want; ro_Rules := [] |})). Qed.
Lemma ensureHARoleBinding_ensures : ensures (λ x, (rb_RoleRef x, rb_Subjects x)) ensureHARoleBinding.
Proof.
  by apply (apply_ensures _ (λ want, {| rb_meta := blank want;
    rb_RoleRef := {| rref_APIGroup := ""; rref_Kind := ""; rref_Name := "" |}; rb_Subjects := [] |})).
Qed.
Lemma ensureHAService_ensures : ensures (λ x, (svc_Selector x, svc_Ports x)) ensureHAService.
Proof.
  apply (apply_ensures _ (λ want, {| svc_meta := blank want; svc_ClusterIP := ""; svc_Selector := ∅; svc_Ports := [] |}));
    try done.
  intros want [m ip sel ports]. unfold owned_like, set_owners, set_labels. cbn. f_equal.
  destruct (bool_decide (ip = "")) eqn:Hip; [|by rewrite Hip]. by destruct (bool_decide (svc_ClusterIP want = "")).
Qed.
Lemma ensureHAStatefulSet_ensures : ensures sts_Spec ensureHAStatefulSet.
Proof.
  by apply (apply_ensures _ (λ want, {| sts_meta := blank want; sts_Spec := None; sts_StatusReplicas := 0 |})).
Qed.
Lemma ensureHADeployment_ensures : ensures dep_Spec ensureHADeployment.
Proof.
  by apply (apply_ensures _ (λ want, {| dep_meta := blank want; dep_Spec := None; dep_Conditions := [] |})).
Qed.
Lemma apply_NetworkPolicy_ensures : ensures netpol_Spec apply_NetworkPolicy.
Proof. by apply (apply_ensures _ (λ want, {| netpol_meta := blank want; netpol_Spec := None |})). Qed.

Lemma ensures_converges {T} `{Kind T} {P} (payload : T → P) ensure want k Pre :
  ensures payload ensure → key want = k →
  converges Pre (λ c, ∃ y, kget c k = Ok y ∧ matches payload want y) (the T k) (the T k) (ensure want) (ensure want).
Proof. intros Hens <- c c' _ Hrun. by apply Hens. Qed.

(** A child built, then ensured. *)
Definition ensure_built {T} (ensure : T → M Cluster error ()) (built : result error T) : M Cluster error () :=
  let! want := lift built in ensure want.
Lemma built_converges {T} `{Kind T} {P} (payload : T → P) ensure (b : result error T) k Pre :
  ensures payload ensure → (∀ want, b = Ok want → key want = k) →
  converges Pre (in_place payload b k) (the T k) (the T k) (ensure_built ensure b) (ensure_built ensure b).
Proof.
  intros Hens Hk. apply converges_lift. intros want Hb c c' Hc Hrun.
  destruct (ensures_converges payload ensure want k Pre Hens (Hk want Hb) c c' Hc Hrun) as [Hf Ha].
  split; [done|]. intros d Hd. destruct (Ha d Hd) as [(y & Hy & Hm) Hagain]. split; [|done].
  exists want, y. auto.
Qed.
Lemma built_wrapped {T} `{Kind T} {Pl} (payload : T → Pl) w ensure (b : result error T) k Pre :
  ensures payload ensure → (∀ want, b = Ok want → key want = k) →
  let m := let! want := lift b in wrap w (ensure want) in
  converges Pre (in_place payload b k) (the T k) (the T k) m m.
Proof.
  intros Hens Hk m. apply converges_lift. intros want Hb c c' Hc Hrun.
  destruct (converges_wrap w (ensures_converges payload ensure want k Pre Hens (Hk want Hb)) c c' Hc Hrun) as [Hf Ha].
  split; [done|]. intros d Hd. destruct (Ha d Hd) as [(y & Hy & Hm) Hagain]. split; [|done].
  exists want, y. auto.
Qed.
(** And what follows. *)
Lemma built_then {T} `{Kind T} {Pl} (payload : T → Pl) (P : Cluster → Prop) w ensure (b : result error T) k Q W R m m' :
  ensures payload ensure → (∀ want, b = Ok want → key want = k) → (∀ want, keeps P (ensure want)) →
  (∀ want, b = Ok want → converges P Q W R (m want) (m' want)) → ¬ W (kind_name (T := T), k) →
  converges P (λ c, in_place payload b k c ∧ Q c) (λ k', the T k k' ∨ W k') (λ k', the T k k' ∨ R k')
    (let! want := lift b in do! wrap w (ensure want) in m want)
    (let! want := lift b in do! wrap w (ensure want) in m' want).
Proof.
  intros Hens Hk HP Hm HW. apply converges_lift. intros want Hb.
  pose proof (converges_wrap w (ensures_converges payload ensure want k P Hens (Hk want Hb))) as C.
  intros c c' Hc Hrun.
  destruct (converges_seq P C (Hm want Hb)) with (c := c) (c' := c') as [Hf Ha]; [| |done..|].
  - intros d d1 Hd Hr%wrap_Ok. pose proof (HP want d Hd) as H1. by rewrite Hr in H1.
  - by intros k' ->.
  - split; [done|]. intros d Hd. destruct (Ha d Hd) as [[(y & Hy & Hmt) HQ] Hagain]. split; [|done].
    split; [|done]. exists want, y. auto.
Qed.
Arguments built_converges {T _ _ P payload ensure b k Pre}.
(** An object deleted, or absent already. *)
Lemma absent_converges {T} `{Kind T} k Pre :
  let m := api (ignore_not_found (kdelete (T := T) k)) in
  converges Pre (λ c, kget (T := T) c k = Err NotFound) (the T k) (the T k) m m.
Proof.
  intros m c c' _ Hrun.
  assert (∀ d, mem_get (T := T) d k = Err NotFound → m d = (d, Ok ())) as Hnone.
  { intros d Hd. unfold m, api, wrap, ignore_not_found. cbn. unfold mem_delete. by rewrite Hd. }
  assert (mem_get (T := T) c' k = Err NotFound ∧ agree (λ k', ¬ the T k k') c c') as [Hgone Hframe].
  { revert Hrun. unfold m, api, wrap, ignore_not_found. cbn. unfold mem_delete.
    destruct (mem_get (T := T) c k) as [x|e] eqn:Hget.
    - intros [= <-]. unfold mem_get. cbn. rewrite lookup_delete_eq. split; [done|].
      intros k' Hk. apply lookup_delete_ne. by intros <-.
    - destruct e; intros [= <-]. done. }
  split; [done|]. intros d Hd.
  assert (mem_get (T := T) d k = Err NotFound) as Hgone' by (rewrite <- Hgone; by apply mem_get_at, Hd).
  split; [done|]. exists d. auto.
Qed.

(** ** What the NetworkPolicy is computed from *)
Lemma rfold_ext {E A B} (f g : B → A → result E B) l b : (∀ b x, f b x = g b x) → rfold f b l = rfold g b l.
Proof.
  intros Hfg. revert b. induction l as [|x l IH]; intros b; cbn; [done|].
  rewrite Hfg. destruct (g b x); cbn; [apply IH|done].
Qed.
(** The kinds read, whose objects are as they were. *)
Definition of_kind (T : Type) `{Kind T} (k : string * NamespacedName) : Prop := k.1 = kind_name (T := T).
Definition resolved_from (k : string * NamespacedName) : Prop :=
  of_kind HTTPRoute k ∨ of_kind Service k ∨ of_kind ReferenceGrant k.
Lemma routesForGateway_frame (c d : Cluster) gw :
  agree resolved_from c d → routesForGateway gw d = routesForGateway gw c.
Proof.
  intros Hd. unfold routesForGateway.
  change (klist (T := HTTPRoute) d None ∅) with (mem_list (T := HTTPRoute) d None ∅).
  rewrite (mem_list_frame c d); [done|]. intros k. apply Hd. by left.
Qed.
Lemma resolveBackends_frame range (c d : Cluster) routes :
  agree resolved_from c d →
  resolveBackends range d routes = resolveBackends range c routes.
Proof.
  intros Hd. unfold resolveBackends.
  rewrite (rfold_ext (resolve_route d) (resolve_route c)); [done|]. intros st route. unfold resolve_route.
  apply rfold_ext. intros st' ref. unfold resolve_ref, resolve_granted, grantsIn, resolve_service.
  change (λ b, klist (T := ReferenceGrant) d b ∅) with (λ b, mem_list (T := ReferenceGrant) d b ∅).
  assert (∀ ns, klist (T := ReferenceGrant) d ns ∅ = klist c ns ∅) as Hgrants
    by (intros ns; apply mem_list_frame; intros k; apply Hd; right; by right).
  assert (∀ k, kget (T := Service) d k = kget c k) as Hsvc
    by (intros k; apply mem_get_frame; intros k'; apply Hd; right; by left).
  case_bool_decide; cbn [rbind]; [by rewrite Hsvc|].
  rewrite Hgrants. destruct (grantCache st' !! _); cbn [rbind wrap_err]; [by rewrite Hsvc|].
  destruct (klist c _ ∅); cbn [rbind wrap_err]; [by rewrite Hsvc|done].
Qed.

Section network_policy.
Context (r : GatewayReconciler) (range : gmap (string * string) ResolvedBackend → list ResolvedBackend).
(** The policy of a Gateway: of its routes, or none when the feature is off. *)
Definition policy_in_place (gw : Gateway) (c : Cluster) : Prop :=
  if TorPodNetworkPolicyEnabled r then
    ∃ routes backends, routesForGateway gw c = Ok routes ∧ resolveBackends range c routes = Ok backends ∧
      in_place netpol_Spec (BuildNetworkPolicy gw backends (ClusterPodCIDRs r) (TestingNetworkNamespace r))
        (netpol_key gw) c
  else kget (T := NetworkPolicy) c (netpol_key gw) = Err NotFound.
Definition network_policy (gw : Gateway) : M Cluster error () :=
  let! routes := gets (routesForGateway gw) in ensureNetworkPolicy r range gw routes.

Lemma network_policy_converges (gw : Gateway) Pre :
  converges Pre (policy_in_place gw)
    (the NetworkPolicy (netpol_key gw)) (λ k, the NetworkPolicy (netpol_key gw) k ∨ resolved_from k)
    (network_policy gw) (network_policy gw).
Proof.
  intros c c' Hc. unfold network_policy, policy_in_place, ensureNetworkPolicy.
  intros (c1 & routes & [-> Hroutes]%gets_Ok & Hrun)%bind_Ok.
  assert (∀ k, resolved_from k → ¬ the NetworkPolicy (netpol_key gw) k) as Hother
    by (intros k Hk ->; by destruct Hk as [[=]|[[=]|[=]]]).
  assert (agree (λ k, ¬ the NetworkPolicy (netpol_key gw) k) c c' → ∀ d,
    agree (λ k, the NetworkPolicy (netpol_key gw) k ∨ resolved_from k) c' d → agree resolved_from c d) as Hreads
    by (intros Hf d Hd k Hk; rewrite Hd, Hf; auto).
  destruct (TorPodNetworkPolicyEnabled r); cbn [negb] in *.
  - apply bind_Ok in Hrun as (c2 & backends & [-> Hback]%gets_Ok & Hrun).
    destruct (built_converges (Pre := Pre) apply_NetworkPolicy_ensures (BuildNetworkPolicy_key gw _ _ _) _ _ Hc Hrun)
      as [Hframe Hagain].
    split; [done|]. intros d Hd. destruct (Hagain d) as [HQ Hd']; [intros k Hk; auto|].
    specialize (Hreads Hframe d Hd). pose proof (routesForGateway_frame c d gw Hreads) as Hr.
    pose proof (resolveBackends_frame range c d routes Hreads) as Hb. rewrite Hroutes in Hr. rewrite Hback in Hb.
    split; [by exists routes, backends|]. unfold bind at 1, gets at 1. rewrite Hr.
    unfold bind at 1, gets at 1. by rewrite Hb.
  - apply (absent_converges _ Pre) in Hrun as [Hframe Hagain]; [|done].
    split; [done|]. intros d Hd. destruct (Hagain d) as [HQ Hd']; [intros k Hk; auto|]. split; [done|].
    unfold bind, gets. by rewrite (routesForGateway_frame c d), Hroutes by auto.
Qed.
End network_policy.

(** ** The status *)
Lemma updateStatus_converges now now' (gw : Gateway) kp :
  let st := (mode_a_status now gw (OnionAddress_String (KeyPair_OnionAddress kp))).1 in
  converges (λ c, kget c (key gw) = Ok gw) (λ c, kget c (key gw) = Ok (with_gw_Status st gw))
    (the Gateway (key gw)) (the Gateway (key gw))
    (updateStatus now gw kp) (updateStatus now' (with_gw_Status st gw) kp).
Proof.
  intros st c c' Hgw Hrun.
  assert (kget c' (key gw) = Ok (with_gw_Status st gw) ∧ agree (λ k, ¬ the Gateway (key gw) k) c c')
    as [Hst Hframe].
  { revert Hrun. unfold updateStatus.
    pose proof (mode_a_status_same now gw (OnionAddress_String (KeyPair_OnionAddress kp))) as Hsame.
    destruct (mode_a_status now gw _) as [st' changed] eqn:Hms. cbn in st, Hsame. subst st.
    destruct changed; cbn [negb].
    - unfold bind, api, wrap. cbn. unfold mem_write.
      change (mem_get c (key gw) = Ok gw) in Hgw. change (key (with_gw_Status st' gw)) with (key gw).
      rewrite Hgw. intros [= <-]. split; [|intros k Hk; apply lookup_insert_ne; by intros <-].
      unfold mem_get. cbn. by rewrite lookup_insert_eq.
    - intros [= <-]. rewrite Hsame by done. split; [|done]. by destruct gw. }
  split; [done|]. intros d Hd. split.
  - change (mem_get c' (key gw) = Ok (with_gw_Status st gw)) in Hst. rewrite <- Hst.
    exact (mem_get_at (T := Gateway) c' d _ (Hd _ eq_refl)).
  - exists d. split; [|done]. unfold updateStatus, st. by rewrite mode_a_status_again.
Qed.

(** ** The pass *)
Section mode_a.
Context (r : GatewayReconciler) (range : gmap (string * string) ResolvedBackend → list ResolvedBackend).

Lemma BuildTorrcConfigMap_key gw policy auth testing want :
  BuildTorrcConfigMap gw policy auth testing = Ok want → key want = child gw (TorrcConfigMapName (gw_name gw)).
Proof. unfold BuildTorrcConfigMap. by intros (? & _ & ->%(SetControllerReference_key (gw_meta gw) _ want))%rbind_Ok. Qed.
Lemma BuildDeployment_key gw policy auth images want :
  BuildDeployment gw policy auth images = Ok want → key want = child gw (DeploymentName (gw_name gw)).
Proof.
  unfold BuildDeployment. destruct (_ || _); [done|].
  by intros ->%(SetControllerReference_key (gw_meta gw) _ want). Qed.

Lemma BuildService_key gw want : BuildService gw = Ok want → key want = child gw (ServiceName (gw_name gw)).
Proof. exact (SetControllerReference_key (gw_meta gw) _ want). Qed.
Lemma BuildServiceAccount_key gw want :
  BuildServiceAccount gw = Ok want → key want = child gw (RouterRBACName (gw_name gw)).
Proof. exact (SetControllerReference_key (gw_meta gw) _ want). Qed.
Lemma BuildRole_key gw obp want :
  BuildRole gw obp = Ok want → key want = child gw (RouterRBACName (gw_name gw)).
Proof. exact (SetControllerReference_key (gw_meta gw) _ want). Qed.
Lemma BuildRoleBinding_key gw want :
  BuildRoleBinding gw = Ok want → key want = child gw (RouterRBACName (gw_name gw)).
Proof. exact (SetControllerReference_key (gw_meta gw) _ want). Qed.

(** The account of the router. *)
Definition router_rbac_in_place (gw : Gateway) (obp : option OnionBalancePolicy) (c : Cluster) : Prop :=
  let k := child gw (RouterRBACName (gw_name gw)) in
  in_place (λ _, ()) (BuildServiceAccount gw) k c ∧ in_place ro_Rules (BuildRole gw obp) k c ∧
  in_place (λ x, (rb_RoleRef x, rb_Subjects x)) (BuildRoleBinding gw) k c.
(** The objects of mode A, as the builders want them. *)
Definition mode_a_in_place (gw : Gateway) (policy : EffectiveServicePolicy) (auth : EffectiveClientAuth)
    (c : Cluster) : Prop :=
  in_place cm_Data (BuildTorrcConfigMap gw policy auth (TestingNetworkInclude r))
    (child gw (TorrcConfigMapName (gw_name gw))) c ∧
  router_rbac_in_place gw None c ∧
  in_place dep_Spec (BuildDeployment gw policy auth (Images r)) (child gw (DeploymentName (gw_name gw))) c ∧
  in_place (λ x, (svc_Selector x, svc_Ports x)) (BuildService gw) (child gw (ServiceName (gw_name gw))) c ∧
  policy_in_place r range gw c.
(** The objects a pass may write: the children, and the Gateway for its status. *)
Definition mode_a_writes (gw : Gateway) : list (string * NamespacedName) :=
  [("ConfigMap", child gw (TorrcConfigMapName (gw_name gw)));
   ("ServiceAccount", child gw (RouterRBACName (gw_name gw)));
   ("Role", child gw (RouterRBACName (gw_name gw)));
   ("RoleBinding", child gw (RouterRBACName (gw_name gw)));
   ("Deployment", child gw (DeploymentName (gw_name gw)));
   ("Service", child gw (ServiceName (gw_name gw)));
   ("NetworkPolicy", netpol_key gw); ("Gateway", key gw)].

Lemma mode_a_objects_steps now (gw : Gateway) policy auth kp (c : Cluster) :
  mode_a_objects r range now gw policy auth kp c =
  (do! wrap (ErrWrap "ensure torrc configmap") (ensureTorrcConfigMap r gw policy auth) in
   do! ensureRouterRBAC gw None in
   do! wrap (ErrWrap "ensure deployment") (ensureDeployment r gw policy auth) in
   do! wrap (ErrWrap "ensure service") (ensureService gw) in
   do! network_policy r range gw in
   wrap (ErrWrap "update status") (updateStatus now gw kp)) c.
Proof.
  unfold mode_a_objects. do 4 (apply bind_ext; intros [] ?). symmetry. apply bind_assoc.
Qed.
(** No step writes what an earlier one read. *)
Ltac other_object :=
  cbv beta delta [the resolved_from of_kind];
  repeat match goal with
  | |- ¬ _ => intros ?
  | |- _ → _ => intros ?
  | |- ∀ k, _ => intros ?
  | H : _ ∨ _ |- _ => destruct H as [H|H]
  | H : ?k = (_, _) |- _ => subst k
  | H : _ = _ |- _ => discriminate H
  end.
Lemma router_rbac_converges (gw : Gateway) obp P :
  let k := child gw (RouterRBACName (gw_name gw)) in
  let W := λ k', the ServiceAccount k k' ∨ the Role k k' ∨ the RoleBinding k k' in
  converges P (router_rbac_in_place gw obp) W W (ensureRouterRBAC gw obp) (ensureRouterRBAC gw obp).
Proof.
  intros k W. apply (converges_pre (λ _, True)); [|done].
  pose proof (converges_seq (P := λ _, True) (λ _, True)
    (converges_wrap (ErrWrap "router Role") (built_converges ensureHARole_ensures (BuildRole_key gw obp)))
    (converges_wrap (ErrWrap "router RoleBinding") (built_converges ensureHARoleBinding_ensures (BuildRoleBinding_key gw)))
    (λ _ _ _ _, I) ltac:(other_object)) as C.
  exact (converges_seq (λ _, True) (converges_wrap (ErrWrap "router ServiceAccount")
    (built_converges ensureHAServiceAccount_ensures (BuildServiceAccount_key gw))) C
    (λ _ _ _ _, I) ltac:(other_object)).
Qed.
Lemma mode_a_pass now now' (gw : Gateway) policy auth kp :
  let st := (mode_a_status now gw (OnionAddress_String (KeyPair_OnionAddress kp))).1 in
  converges (λ c, kget c (key gw) = Ok gw)
    (λ c, mode_a_in_place gw policy auth c ∧ kget c (key gw) = Ok (with_gw_Status st gw))
    (λ k, k ∈ mode_a_writes gw) (λ _, True)
    (mode_a_objects r range now gw policy auth kp)
    (mode_a_objects r range now' (with_gw_Status st gw) policy auth kp).
Proof.
  intros st.
  assert (∀ c d, objects d !! ("Gateway", key gw) = objects c !! ("Gateway", key gw) →
    kget c (key gw) = Ok gw → kget d (key gw) = Ok gw) as HP.
  { intros c d Hd Hget. rewrite <- Hget. exact (mem_get_at (T := Gateway) c d _ Hd). }
  pose proof (converges_wrap (ErrWrap "update status") (updateStatus_converges now now' gw kp)) as C.
  pose proof (converges_bind HP (network_policy_converges r range gw _) C
    ltac:(other_object) ltac:(other_object)) as Cnp.
  pose proof (converges_bind HP (converges_wrap (ErrWrap "ensure service")
    (built_converges ensureHAService_ensures (BuildService_key gw))) Cnp
    ltac:(other_object) ltac:(other_object)) as Csvc.
  pose proof (converges_bind HP (converges_wrap (ErrWrap "ensure deployment")
    (built_converges ensureHADeployment_ensures (BuildDeployment_key gw policy auth (Images r)))) Csvc
    ltac:(other_object) ltac:(other_object)) as Cdep.
  pose proof (converges_bind HP (router_rbac_converges gw None _) Cdep
    ltac:(other_object) ltac:(other_object)) as Crbac.
  pose proof (converges_bind HP (converges_wrap (ErrWrap "ensure torrc configmap")
    (built_converges ensureHAConfigMap_ensures (BuildTorrcConfigMap_key gw policy auth (TestingNetworkInclude r)))) Crbac
    ltac:(other_object) ltac:(other_object)) as Call.
  eapply converges_weaken; [exact (converges_ext Call (mode_a_objects_steps now gw policy auth kp)
    (mode_a_objects_steps now' (with_gw_Status st gw) policy auth kp))| | |done].
  - intros c (Hcm & Hrbac & Hdep & Hsvc & Hnp & Hst). by split.
  - unfold mode_a_writes. intros k HW. set_solver.
Qed.

(** A pass over the single-pod mode converges.  When it succeeds, whatever was in the
    cluster before, the torrc ConfigMap, the router's account with its Role and binding, the
    Deployment and the Service are what the builders want, the NetworkPolicy is the one of the
    routes attached now, or is absent when the feature is off, and the Gateway has the status
    of [mode_a_status] and is otherwise untouched.  No other object of the cluster is changed.
    A second pass, at any later time and over any cluster with the same objects, succeeds and
    changes nothing: the controller has reached its fixed point. *)
Theorem mode_a_converges now (gw : Gateway) policy auth kp (c c' : Cluster)
    (Hgw : kget c (key gw) = Ok gw)
    (Hrun : mode_a_objects r range now gw policy auth kp c = (c', Ok ())) :
  let settled := with_gw_Status (mode_a_status now gw (OnionAddress_String (KeyPair_OnionAddress kp))).1 gw in
  mode_a_in_place gw policy auth c' ∧ kget c' (key gw) = Ok settled ∧
  (∀ k, k ∉ mode_a_writes gw → objects c' !! k = objects c !! k) ∧
  ∀ now' d, objects d = objects c' → ∃ d',
    mode_a_objects r range now' settled policy auth kp d = (d', Ok ()) ∧ objects d' = objects d.
Proof.
  intros settled.
  assert (∀ now' d, objects d = objects c' →
    agree (λ k, k ∉ mode_a_writes gw) c c' ∧
    (mode_a_in_place gw policy auth d ∧ kget d (key gw) = Ok settled) ∧
    ∃ d', mode_a_objects r range now' settled policy auth kp d = (d', Ok ()) ∧ objects d' = objects d) as H.
  { intros now' d Hd. destruct (mode_a_pass now now' gw policy auth kp c c' Hgw Hrun) as [Hf Ha].
    split; [exact Hf|]. apply Ha. intros k _. by rewrite Hd. }
  destruct (H now c' eq_refl) as (Hf & [Hin Hst] & _). split; [done|]. split; [done|]. split; [exact Hf|].
  intros now' d Hd. apply (H now' d Hd).
Qed.
End mode_a.

(** On a cluster with the Gateway and a Service of its name that someone edited. *)
Definition edited_service : Service := {|
  svc_meta := new_meta (ServiceName (gw_name example_gateway)) (gw_ns example_gateway) ∅; svc_ClusterIP := "10.0.0.9";
  svc_Selector := {[ "app" := "other" ]}; svc_Ports := [] |}.
Lemma mode_a_converges_witness :
  let c := cluster [obj example_gateway; obj edited_service] in
  ∃ c' svc, mode_a_objects example_reconciler map_range 7 example_gateway DefaultPolicy example_auth zero_pair c =
      (c', Ok ()) ∧
    kget (T := Service) c' (key edited_service) = Ok svc ∧
    svc_Selector svc = ChildLabels (gw_name example_gateway).
Proof.
  cbn zeta. set (c := cluster _).
  assert ((mode_a_objects example_reconciler map_range 7 example_gateway DefaultPolicy example_auth zero_pair c).2 =
    Ok ()) as Hok by (vm_compute; reflexivity).
  destruct (mode_a_objects _ _ _ _ _ _ _ c) as [c' res] eqn:Hrun. cbn in Hok. subst res.
  destruct (mode_a_converges example_reconciler map_range 7 example_gateway DefaultPolicy example_auth zero_pair c c'
    eq_refl Hrun) as ((_ & _ & _ & Hsvc & _) & _).
  destruct Hsvc as (want & y & Hw & _ & Hy & _ & _ & Hpay). exists c', y. split; [done|]. split; [exact Hy|].
  injection Hw as <-. by injection Hpay.
Defined.
