(* ===== verification/Deletes.v ===== *)
(** * Deletions in the in-memory cluster

    What the clean-ups of the Gateway controller do to a cluster: which objects they can remove,
    that they remove nothing else, and what is gone when they succeed. *)

From Stdlib Require Import Ascii ZArith.
From S2P Require Import Prelude Monad GoStrings KubeTypes Kube Names Policies Resources Client GatewayCtl Converge.

(** From [c] to [c'] some of the objects of [D] are gone, and nothing else happened. *)
Definition shrinks (D : string * NamespacedName → Prop) (c c' : Cluster) : Prop :=
  ∀ k, objects c' !! k = objects c !! k ∨ D k ∧ objects c' !! k = None.
Lemma shrinks_refl D c : shrinks D c c.
Proof. by left. Qed.
Lemma shrinks_trans D c1 c2 c3 : shrinks D c1 c2 → shrinks D c2 c3 → shrinks D c1 c3.
Proof.
  intros H1 H2 k. destruct (H2 k) as [->|[]]; [apply H1|by right].
Qed.
Lemma shrinks_mono (D D' : string * NamespacedName → Prop) c c' :
  (∀ k, D k → D' k) → shrinks D c c' → shrinks D' c c'.
Proof. intros HD H k. destruct (H k) as [|[]]; auto. Qed.
Lemma shrinks_agree D c c' : shrinks D c c' → agree (λ k, ¬ D k) c c'.
Proof. intros H k Hk. by destruct (H k) as [|[]]. Qed.
Lemma shrinks_absent D c c' k : shrinks D c c' → objects c !! k = None → objects c' !! k = None.
Proof. intros H Hk. destruct (H k) as [->|[]]; done. Qed.

Lemma filter_all {A} (P : A → Prop) `{!∀ x, Decision (P x)} (l : list A) : (∀ x, P x) → filter P l = l.
Proof. intros HP. induction l as [|x l IH]; [done|]. by rewrite filter_cons_True, IH. Qed.

Section deletes.
Context {T : Type} `{Kind T}.
Notation kind_at k := (kind_name (T := T), k).
Lemma mem_get_stored c k a (x : T) : objects c !! kind_at k = Some a → prj a = Some x → mem_get c k = Ok x.
Proof. intros Hk Ha. unfold mem_get. rewrite Hk. cbn. by rewrite Ha. Qed.
Lemma named_shrinks D c c' : shrinks D c c' → named (T := T) c → named (T := T) c'.
Proof. intros Hs Hc k a x Hk. destruct (Hs (kind_at k)) as [Heq|[_ Hn]]; [rewrite Heq in Hk; eauto|congruence]. Qed.
Lemma mem_get_shrinks D c c' k :
  shrinks D c c' → mem_get (T := T) c k = Err NotFound → mem_get (T := T) c' k = Err NotFound.
Proof.
  unfold mem_get. intros Hs Hc. destruct (Hs (kind_at k)) as [Heq|[_ Hn]].
  - by rewrite Heq.
  - by rewrite Hn.
Qed.

Lemma delete_child_Ok k (c c' : Cluster) :
  delete_child T k c = (c', Ok ()) →
  shrinks (λ k', k' = kind_at k) c c' ∧ mem_get (T := T) c' k = Err NotFound.
Proof.
  unfold delete_child, api, wrap, ignore_not_found. cbn. unfold mem_delete.
  destruct (mem_get (T := T) c k) as [x|e] eqn:Hget.
  - intros [= <-]. split.
    + intros k'. cbn. destruct (decide (k' = kind_at k)) as [->|Hne].
      * right. split; [done|]. apply lookup_delete_eq.
      * left. by apply lookup_delete_ne.
    + unfold mem_get. cbn. by rewrite lookup_delete_eq.
  - destruct e; intros [= <-]. split; [apply shrinks_refl|done].
Qed.
Lemma delete_child_noop k (c : Cluster) : mem_get (T := T) c k = Err NotFound → delete_child T k c = (c, Ok ()).
Proof. intros Hc. unfold delete_child, api, wrap, ignore_not_found. cbn. unfold mem_delete. by rewrite Hc. Qed.

Lemma delete_each_Ok (f : T → M Cluster error ()) (l : list T) (c c' : Cluster) :
  (∀ x c c', f x c = (c', Ok ()) → delete_child T (key x) c = (c', Ok ())) →
  for_each f l c = (c', Ok ()) →
  shrinks (λ k, ∃ x, x ∈ l ∧ k = kind_at (key x)) c c' ∧
  ∀ x, x ∈ l → mem_get (T := T) c' (key x) = Err NotFound.
Proof.
  intros Hf. revert c. induction l as [|x l IH]; intros c; cbn [for_each].
  - intros [= <-]. split; [apply shrinks_refl|]. by intros x ?%not_elem_of_nil.
  - intros (c1 & [] & [Hs Hx]%Hf%delete_child_Ok & [Hs' Hl]%IH)%bind_Ok. split.
    + eapply shrinks_trans; [eapply shrinks_mono, Hs | eapply shrinks_mono, Hs'].
      * intros k ->. exists x. set_solver.
      * intros k (y & Hy & ->). exists y. set_solver.
    + intros y [->|Hy]%elem_of_cons; [|by apply Hl]. by eapply mem_get_shrinks.
Qed.
(** No object of a listing with a property. *)
Definition none_listed (ns : option string) (sel : gmap string string) (P : T → Prop) (c : Cluster) : Prop :=
  ∀ k a (x : T), objects c !! kind_at k = Some a → prj a = Some x →
  (∀ n, ns = Some n → Namespace (meta x) = n) → has_labels sel x = true → ¬ P x.
Lemma none_listed_list ns sel P `{!∀ x, Decision (P x)} c l :
  none_listed ns sel P c → mem_list (T := T) c ns sel = Ok l → filter P l = [].
Proof.
  intros Hn Hl. apply elem_of_nil_inv. intros x [HP Hx]%list_elem_of_filter.
  apply (mem_list_spec _ _ _ _ _ Hl) in Hx as (k & a & Hk & Ha & Hns & Hlab). by eapply Hn.
Qed.
Lemma none_listed_shrinks D ns sel P c c' : shrinks D c c' → none_listed ns sel P c → none_listed ns sel P c'.
Proof. intros Hs Hn k a x Hk. destruct (Hs (kind_at k)) as [Heq|[_ Hno]]; [rewrite Heq in Hk; eauto|congruence]. Qed.
(** It is about the objects there are. *)
Lemma none_listed_at ns sel P c d :
  (∀ k a (x : T), objects d !! kind_at k = Some a → prj a = Some x →
     objects c !! kind_at k = Some a ∨ has_labels sel x = false ∨ ¬ P x) →
  none_listed ns sel P c → none_listed ns sel P d.
Proof. intros Hd Hc k a x Hk Ha Hns Hl. destruct (Hd k a x Hk Ha) as [|[|]]; [eauto|congruence|done]. Qed.

Lemma none_listed_get ns sel (P : T → Prop) c k (x : T) :
  none_listed ns sel P c → mem_get c k = Ok x → (∀ n, ns = Some n → Namespace (meta x) = n) →
  has_labels sel x = true → ¬ P x.
Proof.
  unfold mem_get. intros Hn. destruct (objects c !! kind_at k) as [a|] eqn:Hk; [|done]. cbn.
  destruct (prj a) as [y|] eqn:Ha; [|done]. intros [= ->]. by eapply Hn.
Qed.

(** A loop that deletes the objects of a listing with a property. *)
Definition listed (sel : gmap string string) (P : T → Prop) (c : Cluster) (k : string * NamespacedName) : Prop :=
  ∃ k' a (x : T), k = kind_at k' ∧ objects c !! k = Some a ∧ prj a = Some x ∧ has_labels sel x = true ∧ P x.
Lemma delete_listed P `{!∀ x, Decision (P x)} (f : T → M Cluster error ()) (c c' : Cluster) ns sel l :
  (∀ x c c', f x c = (c', Ok ()) → delete_child T (key x) c = (c', Ok ())) →
  named (T := T) c → mem_list (T := T) c ns sel = Ok l → for_each f (filter P l) c = (c', Ok ()) →
  shrinks (λ k, listed sel P c k ∧ ∀ n, ns = Some n → nn_Namespace k.2 = n) c c' ∧ none_listed ns sel P c'.
Proof.
  intros Hf Hwf Hl [Hs Hgone]%(delete_each_Ok f); [|done]. split.
  - eapply shrinks_mono, Hs. intros k (x & [HP Hx]%list_elem_of_filter & ->).
    apply (mem_list_spec _ _ _ _ _ Hl) in Hx as (k & a & Hk & Ha & Hns & Hlab).
    split; [|exact Hns]. rewrite (Hwf k a x) by done. by exists k, a, x.
  - intros k a x Hk Ha Hns Hlab HP.
    assert (objects c !! kind_at k = Some a) as Hc
      by (destruct (Hs (kind_at k)) as [<-|[_ Hn]]; [done|congruence]).
    assert (x ∈ filter P l) as Hx
      by (apply list_elem_of_filter; split; [done|]; apply (mem_list_spec _ _ _ _ _ Hl); by exists k, a).
    specialize (Hgone x Hx). rewrite (Hwf k a x) in Hgone by done.
    unfold mem_get in Hgone. rewrite Hk in Hgone. cbn in Hgone. by rewrite Ha in Hgone.
Qed.

Lemma listed_kind sel P c k : listed sel P c k → k.1 = kind_name (T := T).
Proof. by intros (k' & a & x & -> & _). Qed.
Lemma listed_at sel P c d k : objects d !! k = objects c !! k → listed sel P d k → listed sel P c k.
Proof. intros Heq (k' & a & x & -> & Hk & H'). rewrite Heq in Hk. by exists k', a, x. Qed.
Lemma listed_shrinks D sel P c c' k : shrinks D c c' → listed sel P c' k → listed sel P c k.
Proof.
  intros Hs Hl. destruct (Hs k) as [Heq|[_ Hn]]; [by eapply listed_at|].
  destruct Hl as (k' & a & x & -> & Hk & _). congruence.
Qed.

(** [delete_labelled]: the objects with the Gateway's labels, but for those of a namespace. *)
Definition elsewhere (but : option string) (x : T) : Prop := Some (Namespace (meta x)) ≠ but.
Lemma delete_labelled_Ok gw but kind (c c' : Cluster) :
  named (T := T) c → delete_labelled T gw but kind c = (c', Ok ()) →
  shrinks (listed (owner_labels gw) (elsewhere but) c) c c' ∧
  none_listed None (owner_labels gw) (elsewhere but) c'.
Proof.
  intros Hwf (c1 & l & [-> Hl]%gets_Ok & Hrun)%bind_Ok.
  destruct (delete_listed (elsewhere but) _ c c' None (owner_labels gw) l
    (λ x d d', wrap_Ok (ErrWrap ("delete " +:+ kind)) (delete_child T (key x)) d d' ()) Hwf)
    as [Hs Hn]; [|exact Hrun|split; [|exact Hn]; eapply shrinks_mono, Hs; by intros k []].
  change (klist (T := T) c None (owner_labels gw)) with (mem_list (T := T) c None (owner_labels gw)) in Hl.
  destruct (mem_list c None (owner_labels gw)); [by injection Hl as ->|done].
Qed.
Lemma delete_labelled_noop gw but kind (c : Cluster) :
  none_listed None (owner_labels gw) (elsewhere but) c → delete_labelled T gw but kind c = (c, Ok ()).
Proof.
  intros Hn. destruct (mem_list (T := T) c None (owner_labels gw)) as [l|] eqn:Hl; [|discriminate Hl].
  pose proof (none_listed_list _ _ (elsewhere but) _ _ Hn Hl) as Hnil. unfold delete_labelled, bind at 1, gets.
  change (klist (T := T) c None (owner_labels gw)) with (mem_list (T := T) c None (owner_labels gw)).
  rewrite Hl. cbn [wrap_err]. unfold elsewhere in Hnil. by rewrite Hnil.
Qed.
End deletes.

(** ** Steps that delete

    A step whose successful runs delete objects of [D] only, from clusters of [Pre], and after
    which [Q] holds; [Pre], [D] and [Q] survive deletions. *)
Section clears.
Context (Pre : Cluster → Prop) (D : Cluster → string * NamespacedName → Prop).
Context (HPre : ∀ D' c c', shrinks D' c c' → Pre c → Pre c')
  (HD : ∀ D' c c' k, shrinks D' c c' → D c' k → D c k).

Definition clears (Q : Cluster → Prop) (m : M Cluster error ()) : Prop :=
  (∀ D c c', shrinks D c c' → Q c → Q c') ∧
  ∀ c c', Pre c → m c = (c', Ok ()) → shrinks (D c) c c' ∧ Q c'.
Lemma clears_bind Q1 Q2 m1 m2 : clears Q1 m1 → clears Q2 m2 → clears (λ c, Q1 c ∧ Q2 c) (do! m1 in m2).
Proof.
  intros [St1 H1] [St2 H2]. split; [intros D' c c' Hs []; split; eauto|].
  intros c c' Hc (c1 & [] & Hr1 & Hr2)%bind_Ok. destruct (H1 _ _ Hc Hr1) as [Hs1 HQ1].
  destruct (H2 c1 c') as [Hs2 HQ2]; [by eapply HPre|done|].
  split; [|split; [by eapply St1|done]]. eapply shrinks_trans; [done|]. eapply shrinks_mono, Hs2.
  intros k. by eapply HD.
Qed.
Lemma clears_wrap Q w m : clears Q m → clears Q (wrap w m).
Proof. intros [St H]. split; [done|]. intros c c' Hc Hr%wrap_Ok. eauto. Qed.
Lemma clears_weaken (Q Q' : Cluster → Prop) m : clears Q m → (∀ c, Q c ↔ Q' c) → clears Q' m.
Proof.
  intros [St H] Hiff. split.
  - intros D' c c' Hs Hq. apply Hiff. eapply St; [exact Hs|]. by apply Hiff.
  - intros c c' Hc Hr. destruct (H c c' Hc Hr) as [Hs Hq]. split; [exact Hs|]. by apply Hiff.
Qed.
Lemma clears_child {T} `{Kind T} k :
  (∀ c, D c (kind_name (T := T), k)) →
  clears (λ c, mem_get (T := T) c k = Err NotFound) (delete_child T k).
Proof.
  intros Hl. split; [intros D' c c'; apply mem_get_shrinks|].
  intros c c' _ [Hs Ha]%delete_child_Ok. split; [|done]. eapply shrinks_mono, Hs. by intros k' ->.
Qed.
Lemma clears_labelled {T} `{Kind T} gw but kind :
  (∀ c, Pre c → named (T := T) c) →
  (∀ c k, listed (T := T) (owner_labels gw) (elsewhere but) c k → D c k) →
  clears (none_listed (T := T) None (owner_labels gw) (elsewhere but)) (delete_labelled T gw but kind).
Proof.
  intros Hwf Hl. split; [intros D' c c'; apply none_listed_shrinks|].
  intros c c' Hc [Hs Ha]%delete_labelled_Ok; [|auto]. split; [|done]. eapply shrinks_mono, Hs. auto.
Qed.
End clears.
Arguments clears_bind {Pre D} HPre HD {Q1 Q2 m1 m2}.
Arguments clears_child {Pre D T _ _ k}.
Arguments clears_labelled {Pre D T _ _} gw but kind.
