(* ===== verification/HarvestProps.v ===== *)
(** * Where the key of a Gateway comes from (vanity.go, ensureKeySecret) *)

From Stdlib Require Import Ascii ZArith.
From S2P Require Import Prelude Monad GoStrings Onion Keys KubeTypes Kube Names Status Policies.
From S2P Require Import HTTPRouteCtl Resources Workloads Client Harvest GatewayCtl GatewayProps.

(** The key pair in the files of a Secret. *)
Definition files_of (sec : Secret) : result key_error KeyPair :=
  ParseFiles (default [] (sec_Data sec !! FileSecretKeyName)) (default [] (sec_Data sec !! FilePublicKeyName)).
Definition awaits_vanity (gw : Gateway) : bool :=
  default false (ParseBool (default "" (Annotations (gw_meta gw) !! awaitVanityAnnotation))).

Section provenance.
Context {S : Type} `{!Client S, !Events S, !Controlled, !Ed25519}.
Context (r : GatewayReconciler) (quantity_zero : string → bool).
Context (APIReader : option (S → option string → gmap string string →
                             result api_error (list TorServicePolicy))).

(** A vanity prefix is asked for: by the policy the cache knows, or by the one read directly. *)
Definition asked (gw : Gateway) (policy : EffectiveServicePolicy) (s : S) (prefix : string) : Prop :=
  prefix ≠ "" ∧
  (eff_VanityPrefix policy = prefix ∨
   eff_VanityPrefix policy = "" ∧
   ∃ fresh, effectivePolicyFrom (default klist APIReader) gw s = Ok fresh ∧ eff_VanityPrefix fresh = prefix).

(** A key comes out of the harvest by promotion only. *)
Lemma harvest_key (gw gw' : Gateway) prefix (s s' : S) sec kp :
  runVanityHarvest r quantity_zero gw prefix s = (s', Ok (gw', KeyReady sec kp)) →
  default "" (failed_prefix gw) ≠ prefix ∧
  ∃ s1 job out, kget (T := Job) s1 (job_key gw) = Ok job ∧
    default "" (Labels (job_meta job) !! vanityPrefixLabel) = prefix ∧
    kget (T := Secret) s1 (out_key gw) = Ok out ∧ vanityOutPopulated out = true ∧
    files_of out = Ok kp ∧ BuildKeySecret gw kp = Ok sec.
Proof.
  unfold runVanityHarvest. destruct (bool_decide _) eqn:Hf; [by intros [=]|]. bools.
  intros (s1 & [] & _ & Hrun)%bind_Ok. apply bind_Ok in Hrun as (s2 & [] & _ & Hrun).
  apply bind_Ok in Hrun as (s3 & job & [-> Hjob]%find_Ok & Hrun). split; [done|].
  destruct job as [job|]; [|by invert_run].
  destruct (bool_decide _) eqn:Hl; cbn [negb] in Hrun; [|by invert_run]. bools.
  apply bind_Ok in Hrun as (s4 & out & Hout & Hrun). unfold read, gets in Hout. injection Hout as <- Hout.
  destruct (kget s2 (out_key gw)) as [o|] eqn:Hget; [injection Hout as ->|done].
  destruct (vanityOutPopulated out) eqn:Hpop; [|by destruct (jobFailed job); invert_run].
  exists s2, job, out. do 4 (split; [done|]).
  unfold promoteVanityKey in Hrun. apply bind_Ok in Hrun as (s5 & kp' & Hkp & Hrun).
  apply bind_Ok in Hrun as (s6 & sec' & Hsec & Hrun).
  apply bind_Ok in Hrun as (s7 & [] & _ & Hrun). apply bind_Ok in Hrun as (s8 & [] & _ & Hrun).
  apply bind_Ok in Hrun as (s9 & [] & _ & Hrun). unfold try in Hrun.
  destruct (clearVanityFailed gw s9) as [s10 res]. injection Hrun as _ _ -> ->.
  unfold lift in Hkp, Hsec. injection Hkp as _ Hkp. injection Hsec as _ Hsec. split; [|done].
  unfold files_of. destruct (ParseFiles _ _); [by injection Hkp as -> | done].
Qed.
Lemma existing_key (gw gw' : Gateway) policy existing (s s' : S) sec kp :
  (let! kp := lift (wrap_err (ErrWrap "parse existing key Secret" ∘ ErrKey) (files_of existing)) in
   do! (if negb (bool_decide (eff_VanityPrefix policy = "")) &&
           negb (HasPrefix (OnionAddress_String (KeyPair_OnionAddress kp)) (eff_VanityPrefix policy))
        then event r gw "Normal" "VanityPrefixIgnored"
               ("vanityPrefix " +:+ Quote (eff_VanityPrefix policy) +:+
                " ignored: a key already exists for this Gateway")
        else ret ()) in
   ret (gw, KeyReady existing kp)) s = (s', Ok (gw', KeyReady sec kp)) →
  sec = existing ∧ files_of sec = Ok kp ∧ ∃ evs, s' = foldr (record_event (key gw)) s evs.
Proof.
  intros (s1 & kp' & Hkp & Hrun)%bind_Ok. apply bind_Ok in Hrun as (s2 & [] & Hev & Hrun).
  injection Hkp as <- Hkp. injection Hrun as <- _ <- <-. split; [done|]. split.
  - destruct (files_of existing); [by injection Hkp as -> | done].
  - destruct (_ && _); [unfold event in Hev; destruct (Recorder r)|].
    + injection Hev as <-. by eexists [_].
    + injection Hev as <-. by exists [].
    + injection Hev as <-. by exists [].
Qed.
Lemma created_key random (gw gw' : Gateway) policy (s s' : S) sec kp :
  create_key r quantity_zero APIReader random gw policy s = (s', Ok (gw', KeyReady sec kp)) →
  BuildKeySecret gw kp = Ok sec ∧
  ((∃ prefix, asked gw policy s prefix ∧ default "" (failed_prefix gw) ≠ prefix ∧
      ∃ s1 job out, kget (T := Job) s1 (job_key gw) = Ok job ∧
        default "" (Labels (job_meta job) !! vanityPrefixLabel) = prefix ∧
        kget (T := Secret) s1 (out_key gw) = Ok out ∧ vanityOutPopulated out = true ∧
        files_of out = Ok kp) ∨
   (∀ prefix, ¬ asked gw policy s prefix) ∧ awaits_vanity gw = false ∧
   GenerateKeyPair random = Ok kp).
Proof.
  unfold create_key. destruct (bool_decide (eff_VanityPrefix policy = "")) eqn:Hp; bools; cbn [negb].
  - intros (s1 & fresh & Hfresh & Hrun)%bind_Ok. unfold gets in Hfresh. injection Hfresh as <- Hfresh.
    destruct (bool_decide (eff_VanityPrefix fresh = "")) eqn:Hq; bools; cbn [negb] in Hrun.
    + fold (awaits_vanity gw) in Hrun. destruct (awaits_vanity gw); [by invert_run|].
      unfold create_random_key in Hrun. apply bind_Ok in Hrun as (s2 & kp' & Hkp & Hrun).
      apply bind_Ok in Hrun as (s3 & sec' & Hsec & Hrun). apply bind_Ok in Hrun as (s4 & [] & _ & Hrun).
      unfold lift in Hkp, Hsec. injection Hkp as _ Hkp. injection Hsec as _ Hsec.
      injection Hrun as _ _ -> ->. split; [done|]. right.
      split; [|split; [done|by destruct (GenerateKeyPair random); [injection Hkp as ->|]]].
      intros prefix (Hne & [?|(_ & fresh' & Hf' & ?)]); congruence.
    + apply harvest_key in Hrun as (Hne & s1 & job & out & ? & ? & ? & ? & ? & Hsec). split; [done|]. left.
      exists (eff_VanityPrefix fresh). split; [split; [done|]; right; by eauto|]. split; [done|].
      by exists s1, job, out.
  - intros Hrun. apply harvest_key in Hrun as (Hne & s1 & job & out & ? & ? & ? & ? & ? & Hsec).
    split; [done|]. left. exists (eff_VanityPrefix policy). split; [split; [done|]; by left|].
    split; [done|]. by exists s1, job, out.
Qed.
Lemma create_key_not_random (gw : Gateway) policy (s : S) random random' :
  (∃ prefix, asked gw policy s prefix) ∨ awaits_vanity gw = true →
  create_key r quantity_zero APIReader random gw policy s =
  create_key r quantity_zero APIReader random' gw policy s.
Proof.
  intros Hasked. unfold create_key.
  destruct (bool_decide (eff_VanityPrefix policy = "")) eqn:Hp; [|done]. bools. cbn [negb].
  unfold bind, gets. destruct (effectivePolicyFrom _ gw s) as [fresh|e] eqn:Hfresh; [|done].
  destruct (bool_decide (eff_VanityPrefix fresh = "")) eqn:Hq; [|done]. bools. cbn [negb].
  fold (awaits_vanity gw). destruct (awaits_vanity gw); [done|].
  destruct Hasked as [(prefix & Hne & [?|(_ & fresh' & Hf' & ?)])|[=]]; congruence.
Qed.

(** C9.  Where a key comes from.  When [ensureKeySecret] has a key for the Gateway, it is the one
    the Gateway already had, and nothing was written.  Or the Gateway has no key Secret and a
    vanity prefix that has not been given up is asked for: then the key is what the output Secret
    holds, read while a Job labelled with that prefix is there (that this very Job found it is not
    said: [stale_key_promoted] is a key of an earlier one).  Or the Gateway has no key Secret, no
    prefix is asked for, the policies having been read again without the cache, and it does not
    ask to wait for one: then the key is made at random, also when a key it had was lost
    ([lost_key_regenerated]).  While a prefix is asked for or awaited, nothing depends on what the
    random source gives. *)
Theorem key_provenance (gw : Gateway) policy (s : S) :
  (∀ random s' gw' sec kp,
     ensureKeySecret r quantity_zero APIReader random gw policy s = (s', Ok (gw', KeyReady sec kp)) →
     kget s (keys_key gw) = Ok sec ∧ files_of sec = Ok kp ∧
       (∃ evs, s' = foldr (record_event (key gw)) s evs) ∨
     kget (T := Secret) s (keys_key gw) = Err NotFound ∧ BuildKeySecret gw kp = Ok sec ∧
     ((∃ prefix, asked gw policy s prefix ∧ default "" (failed_prefix gw) ≠ prefix ∧
         ∃ s1 job out, kget (T := Job) s1 (job_key gw) = Ok job ∧
           default "" (Labels (job_meta job) !! vanityPrefixLabel) = prefix ∧
           kget (T := Secret) s1 (out_key gw) = Ok out ∧ vanityOutPopulated out = true ∧
           files_of out = Ok kp) ∨
      (∀ prefix, ¬ asked gw policy s prefix) ∧ awaits_vanity gw = false ∧
      GenerateKeyPair random = Ok kp)) ∧
  ((∃ prefix, asked gw policy s prefix) ∨ awaits_vanity gw = true → ∀ random random',
     ensureKeySecret r quantity_zero APIReader random gw policy s =
     ensureKeySecret r quantity_zero APIReader random' gw policy s).
Proof.
  split.
  - intros random s' gw' sec kp. unfold ensureKeySecret.
    intros (s1 & existing & [-> Hget]%find_Ok & Hrun)%bind_Ok. destruct existing as [existing|].
    + left. apply existing_key in Hrun. intuition congruence.
    + right. split; [done|]. by apply created_key in Hrun.
  - intros Hasked random random'.
    assert (create_key r quantity_zero APIReader random gw policy s =
            create_key r quantity_zero APIReader random' gw policy s) as Hcreate
      by by apply create_key_not_random.
    unfold ensureKeySecret, bind at 1. unfold bind at 3.
    destruct (find (keys_key gw) s) as [s1 [[sec|]|e]] eqn:Hf; try done.
    assert (s1 = s) as -> by (pose proof (find_state (T := Secret) (keys_key gw) s) as Hs; by rewrite Hf in Hs).
    exact Hcreate.
Qed.
End provenance.

Definition ensure_example (policy : EffectiveServicePolicy) (c : Cluster) :=
  ensureKeySecret example_reconciler (λ _, false) None (Ok zero_key) example_gateway policy c.
(** Whose key the Secret made holds. *)
Definition outcome_key (res : result error (Gateway * key_outcome)) : option KeyPair :=
  match res with Ok (_, KeyReady _ kp) => Some kp | _ => None end.

(** A Gateway without policies or a key gets one at random. *)
Lemma key_provenance_witness :
  let run := ensure_example DefaultPolicy (cluster [obj example_gateway]) in
  outcome_key run.2 = Some zero_pair ∧ GenerateKeyPair (Ok zero_key) = Ok zero_pair.
Proof.
  cbn zeta. assert (outcome_key (ensure_example DefaultPolicy (cluster [obj example_gateway])).2 = Some zero_pair)
    as Hrun by (vm_compute; reflexivity).
  split; [exact Hrun|].
  destruct (ensure_example DefaultPolicy (cluster [obj example_gateway])) as [c' [[gw' [sec kp| | |]]|e]] eqn:He;
    try discriminate Hrun.
  injection Hrun as ->.
  destruct (proj1 (key_provenance example_reconciler (λ _, false) None example_gateway DefaultPolicy
    (cluster [obj example_gateway])) _ _ _ _ _ He)
    as [(Hget & _)|(_ & _ & [(prefix & (Hne & [Hp|(_ & fresh & Hf & Hp)]) & _)|(_ & _ & Hgen)])].
  - vm_compute in Hget. discriminate Hget.
  - destruct Hne. symmetry. exact Hp.
  - destruct Hne. rewrite <- Hp. vm_compute in Hf. injection Hf as <-. reflexivity.
  - exact Hgen.
Defined.

(** The prefix of a policy is changed after a search for another one has left its key: the Job
    is deleted and started again for the new prefix, but what it left is not, so the next
    reconcile takes the old key for the new search's. *)
Definition vanity_policy (prefix : string) : EffectiveServicePolicy := {|
  eff_LogLevel := "notice"; eff_PoWDefensesEnabled := true; eff_VanityPrefix := prefix;
  eff_Resources := no_resources |}.
Definition left_key : Secret := {|
  sec_meta := new_meta (VanityOutSecretName "onion") "tor" ∅; sec_Type := "Opaque";
  sec_Data := sec_Data example_key |}.
Definition old_job : Job := {|
  job_meta := new_meta (VanityRBACName "onion") "tor" {[ vanityPrefixLabel := "a" ]};
  job_Spec := {| js_BackoffLimit := None; js_ActiveDeadlineSeconds := None; js_TTLSecondsAfterFinished := None;
                 js_Template := empty_pod |};
  job_Conditions := [] |}.
Lemma stale_key_promoted :
  let policy := vanity_policy "zzz" in
  let c1 := (ensure_example policy (cluster [obj example_gateway; obj left_key; obj old_job])).1 in
  let c2 := (ensure_example policy c1).1 in
  outcome_key (ensure_example policy c2).2 = Some zero_pair ∧
  HasPrefix (OnionAddress_String (KeyPair_OnionAddress zero_pair)) "zzz" = false.
Proof. vm_compute. split; reflexivity. Qed.

(** A Gateway that has published an address, and whose key Secret is gone: the next reconcile makes
    a new key at random and publishes its address. *)
Definition published_gateway : Gateway :=
  with_gw_Status {| gs_Addresses := [{| a_Type := Some "Hostname"; a_Value := "lost.onion" |}];
                    gs_Conditions := []; gs_Listeners := [] |} example_gateway.
Definition published (c : Cluster) : list string :=
  match kget (T := Gateway) c onion_key with
  | Ok gw => map a_Value (gs_Addresses (gw_Status gw))
  | Err _ => []
  end.
Lemma lost_key_regenerated :
  let c := cluster [obj example_class; obj published_gateway] in
  let run := Gateway_Reconcile example_reconciler (λ _, false) None (λ _, Ok zero_key) no_text
               map_range 7 onion_key c in
  kget (T := Secret) c (key example_key) = Err NotFound ∧ published c = ["lost.onion"] ∧
  run.2 = Ok () ∧
  match kget (T := Secret) run.1 (key example_key) with
  | Ok sec => files_of sec = Ok zero_pair
  | Err _ => False
  end ∧
  published run.1 = [OnionAddress_String (KeyPair_OnionAddress zero_pair)].
Proof. vm_compute. split_and!; reflexivity. Qed.
