(* ===== verification/Steady.v ===== *)
(** * A reconcile reaches its fixed point (gateway_controller.go, the single-pod mode)

    The whole [Reconcile] on the in-memory cluster, for a Gateway that has its key: the left-overs
    of the onionbalance mode are gone, the objects of the single-pod mode are in place, nothing
    else is changed, and a second reconcile changes nothing. *)

From Stdlib Require Import Ascii ZArith.
From S2P Require Import Prelude Monad GoStrings Onion Keys KubeTypes Router Kube Names Status Policies.
From S2P Require Import HTTPRouteCtl NetPol Resources Workloads Client Harvest GatewayCtl GatewayProps GatewayStatus.
From S2P Require Import HarvestProps Converge Deletes.

(** ** The left-overs of the onionbalance mode *)
Section cleanup.
Context (gw : Gateway).
Definition absent (T : Type) `{Kind T} (name : string) (c : Cluster) : Prop :=
  mem_get (T := T) c (child gw name) = Err NotFound.
(** What the mode left under its own names, and under its labels. *)
Definition mode_b_names_absent (c : Cluster) : Prop :=
  absent Deployment (FrontendName gw) c ∧ absent StatefulSet (BackendStatefulSetName gw) c ∧
  absent Service (BackendHeadlessServiceName gw) c ∧ absent ConfigMap (OnionbalanceConfigMapName gw) c ∧
  absent ConfigMap (FrontendTorrcConfigMapName gw) c ∧ absent ConfigMap (BackendTorrcConfigMapName gw) c ∧
  absent ServiceAccount (FrontendName gw) c ∧ absent Role (FrontendName gw) c ∧
  absent RoleBinding (FrontendName gw) c.
Definition mode_b_labels_absent (c : Cluster) : Prop :=
  none_listed (T := Role) None (owner_labels gw) (elsewhere None) c ∧
  none_listed (T := RoleBinding) None (owner_labels gw) (elsewhere None) c ∧
  none_listed (T := Secret) (Some (gw_ns gw)) (backend_selector gw) (λ _, True) c.
Definition mode_b_absent (c : Cluster) : Prop := mode_b_names_absent c ∧ mode_b_labels_absent c.
Definition mode_b_annotations : bool :=
  bool_decide (is_Some (Annotations (gw_meta gw) !! annLastReplicas)) ||
  bool_decide (is_Some (Annotations (gw_meta gw) !! annPowEmitted)).

Lemma cleanup_noop (c : Cluster) :
  mode_b_absent c → mode_b_annotations = false → cleanupModeBResources gw c = (c, Ok gw).
Proof.
  intros [(H1 & H2 & H3 & H4 & H5 & H6 & H7 & H8 & H9) (L1 & L2 & L3)] Hann.
  unfold cleanupModeBResources.
  eapply bind_run; [exact (delete_child_noop _ _ H1)|]. eapply bind_run; [exact (delete_child_noop _ _ H2)|].
  eapply bind_run; [exact (delete_child_noop _ _ H3)|]. eapply bind_run; [exact (delete_child_noop _ _ H4)|].
  eapply bind_run; [exact (delete_child_noop _ _ H5)|]. eapply bind_run; [exact (delete_child_noop _ _ H6)|].
  eapply bind_run; [exact (delete_child_noop _ _ H7)|]. eapply bind_run; [exact (delete_child_noop _ _ H8)|].
  eapply bind_run; [exact (delete_child_noop _ _ H9)|].
  eapply bind_run; [exact (delete_labelled_noop gw None _ _ L1)|].
  eapply bind_run; [exact (delete_labelled_noop gw None _ _ L2)|].
  apply (bind_run _ _ c c []).
  - unfold read, gets.
    change (klist c (Some (gw_ns gw)) (backend_selector gw))
    with (mem_list (T := Secret) c (Some (gw_ns gw)) (backend_selector gw)).
    destruct (mem_list (T := Secret) c (Some (gw_ns gw)) (backend_selector gw)) as [l|] eqn:Hl; [|discriminate Hl].
    pose proof (none_listed_list _ _ (λ _, True) _ _ L3 Hl) as Hnil. rewrite filter_all in Hnil by done. by subst l.
  - cbn. unfold clear_annotations. fold mode_b_annotations. by rewrite Hann.
Qed.

(** The objects cleaning up may delete. *)
Definition mode_b_names : list (string * NamespacedName) :=
  [("Deployment", child gw (FrontendName gw)); ("StatefulSet", child gw (BackendStatefulSetName gw));
   ("Service", child gw (BackendHeadlessServiceName gw)); ("ConfigMap", child gw (OnionbalanceConfigMapName gw));
   ("ConfigMap", child gw (FrontendTorrcConfigMapName gw)); ("ConfigMap", child gw (BackendTorrcConfigMapName gw));
   ("ServiceAccount", child gw (FrontendName gw)); ("Role", child gw (FrontendName gw));
   ("RoleBinding", child gw (FrontendName gw))].
Definition mode_b_left (c : Cluster) (k : string * NamespacedName) : Prop :=
  k ∈ mode_b_names ∨
  listed (T := Role) (owner_labels gw) (elsewhere None) c k ∨
  listed (T := RoleBinding) (owner_labels gw) (elsewhere None) c k ∨
  listed (T := Secret) (backend_selector gw) (λ _, True) c k.
Definition clear_mode_b_annotations : Gateway :=
  if mode_b_annotations
  then set_annotations (delete annPowEmitted (delete annLastReplicas (Annotations (gw_meta gw)))) gw else gw.

Lemma mode_b_left_kind c k : mode_b_left c k →
  In k.1 ["Deployment"; "StatefulSet"; "Service"; "ConfigMap"; "ServiceAccount"; "Role"; "RoleBinding"; "Secret"].
Proof.
  intros [Hk|[Hk|[Hk|Hk]]]; [|apply listed_kind in Hk; rewrite Hk; cbn; tauto..].
  unfold mode_b_names in Hk. rewrite list_elem_of_In in Hk. cbn in Hk. cbn. intuition (subst; cbn; tauto).
Qed.
Lemma mode_b_left_shrinks D c c' k : shrinks D c c' → mode_b_left c' k → mode_b_left c k.
Proof.
  intros Hs [Hk|[Hk|[Hk|Hk]]]; [by left|right; left|do 2 right; left|do 3 right]; by eapply listed_shrinks.
Qed.
Definition cleanable (c : Cluster) : Prop :=
  named (T := Role) c ∧ named (T := RoleBinding) c ∧ named (T := Secret) c.
Lemma cleanable_shrinks D c c' : shrinks D c c' → cleanable c → cleanable c'.
Proof. intros Hs (H1 & H2 & H3). repeat split; by eapply named_shrinks. Qed.

(** What the clean-up deletes, step by step. *)
Notation clears_b := (clears cleanable mode_b_left).
Definition delete_backend_secrets : M Cluster error () :=
  let! secrets := read (λ s, klist (T := Secret) s (Some (gw_ns gw)) (backend_selector gw)) in
  for_each (λ s, delete_child Secret (key s)) secrets.
Lemma clears_secrets :
  clears_b (none_listed (T := Secret) (Some (gw_ns gw)) (backend_selector gw) (λ _, True)) delete_backend_secrets.
Proof.
  split; [intros D c c'; apply none_listed_shrinks|].
  intros c c' (_ & _ & Hwf) (c1 & l & [-> Hl]%gets_Ok & Hrun)%bind_Ok.
  change (klist c (Some (gw_ns gw)) (backend_selector gw))
    with (mem_list (T := Secret) c (Some (gw_ns gw)) (backend_selector gw)) in Hl.
  destruct (mem_list c (Some (gw_ns gw)) (backend_selector gw)) as [l'|] eqn:Hl'; [injection Hl as ->|done].
  rewrite <- (filter_all (λ _, True) l) in Hrun by done.
  apply (delete_listed (λ _, True) _ _ _ _ _ _ (λ x d d' Hd, Hd) Hwf Hl') in Hrun as [Hs Hn]. split; [|done].
  eapply shrinks_mono, Hs. intros k [Hk _]. do 3 right. exact Hk.
Qed.

Definition mode_b_deletes : M Cluster error () :=
  do! delete_child Deployment (child gw (FrontendName gw)) in
  do! delete_child StatefulSet (child gw (BackendStatefulSetName gw)) in
  do! delete_child Service (child gw (BackendHeadlessServiceName gw)) in
  do! delete_child ConfigMap (child gw (OnionbalanceConfigMapName gw)) in
  do! delete_child ConfigMap (child gw (FrontendTorrcConfigMapName gw)) in
  do! delete_child ConfigMap (child gw (BackendTorrcConfigMapName gw)) in
  do! delete_child ServiceAccount (child gw (FrontendName gw)) in
  do! delete_child Role (child gw (FrontendName gw)) in
  do! delete_child RoleBinding (child gw (FrontendName gw)) in
  do! delete_labelled Role gw None "cross-NS role" in
  do! delete_labelled RoleBinding gw None "cross-NS rolebinding" in
  delete_backend_secrets.
Lemma cleanup_parts c : cleanupModeBResources gw c = (do! mode_b_deletes in clear_annotations gw) c.
Proof.
  unfold cleanupModeBResources, mode_b_deletes, delete_backend_secrets.
  repeat (rewrite bind_assoc; apply bind_ext; intros ? ?). done.
Qed.
Ltac left_over := intros ?; left; apply list_elem_of_In; cbn; tauto.
Lemma clears_mode_b : clears_b mode_b_absent mode_b_deletes.
Proof.
  pose proof (λ Q1 Q2 m1 m2, clears_bind cleanable_shrinks mode_b_left_shrinks (Q1 := Q1) (Q2 := Q2) (m1 := m1) (m2 := m2))
    as bind.
  eapply clears_weaken.
  - eapply (bind _ _ _ _ (clears_child (D := mode_b_left) (T := Deployment) (k := child gw (FrontendName gw)) ltac:(left_over))).
    eapply (bind _ _ _ _ (clears_child (D := mode_b_left) (T := StatefulSet) (k := child gw (BackendStatefulSetName gw)) ltac:(left_over))).
    eapply (bind _ _ _ _ (clears_child (D := mode_b_left) (T := Service) (k := child gw (BackendHeadlessServiceName gw)) ltac:(left_over))).
    eapply (bind _ _ _ _ (clears_child (D := mode_b_left) (T := ConfigMap) (k := child gw (OnionbalanceConfigMapName gw)) ltac:(left_over))).
    eapply (bind _ _ _ _ (clears_child (D := mode_b_left) (T := ConfigMap) (k := child gw (FrontendTorrcConfigMapName gw)) ltac:(left_over))).
    eapply (bind _ _ _ _ (clears_child (D := mode_b_left) (T := ConfigMap) (k := child gw (BackendTorrcConfigMapName gw)) ltac:(left_over))).
    eapply (bind _ _ _ _ (clears_child (D := mode_b_left) (T := ServiceAccount) (k := child gw (FrontendName gw)) ltac:(left_over))).
    eapply (bind _ _ _ _ (clears_child (D := mode_b_left) (T := Role) (k := child gw (FrontendName gw)) ltac:(left_over))).
    eapply (bind _ _ _ _ (clears_child (D := mode_b_left) (T := RoleBinding) (k := child gw (FrontendName gw)) ltac:(left_over))).
    eapply (bind _ _ _ _ (clears_labelled (D := mode_b_left) (T := Role) gw None _ (λ c Hc, proj1 Hc) ltac:(intros c k Hk; right; left; exact Hk))).
    exact (bind _ _ _ _ (clears_labelled (D := mode_b_left) (T := RoleBinding) gw None _ (λ c Hc, proj1 (proj2 Hc))
      ltac:(intros c k Hk; do 2 right; left; exact Hk)) clears_secrets).
  - intros c. unfold mode_b_absent, mode_b_names_absent, mode_b_labels_absent, absent. tauto.
Qed.
(** Absence is about the objects absent. *)
Lemma absent_at {T} `{Kind T} name (c d : Cluster) :
  objects d !! (kind_name (T := T), child gw name) = objects c !! (kind_name (T := T), child gw name) →
  absent T name c → absent T name d.
Proof. unfold absent. by intros ->%mem_get_at. Qed.
Lemma mode_b_absent_gateway (c d : Cluster) :
  agree (λ k, k.1 ≠ "Gateway") c d → mode_b_absent c → mode_b_absent d.
Proof.
  intros Hd [(H1 & H2 & H3 & H4 & H5 & H6 & H7 & H8 & H9) (L1 & L2 & L3)]. split.
  - repeat split; (eapply absent_at; [by apply Hd|done]).
  - repeat split; (eapply none_listed_at; [|done]); intros k a x Hk _; left; rewrite <- Hk; symmetry; by apply Hd.
Qed.

Lemma gateway_update (new : Gateway) (c : Cluster) :
  kget c (key gw) = Ok gw → key new = key gw → gw_Status new = gw_Status gw →
  kupdate new c = (put ("Gateway", key gw) (AGateway new) c, Ok new).
Proof.
  intros Hgw Hk Hst. change (mem_get c (key gw) = Ok gw) in Hgw.
  assert (with_status_of new gw = new) as Hnew by (destruct new; cbn in *; by rewrite <- Hst).
  change (mem_write with_status_of new c = (put ("Gateway", key gw) (AGateway new) c, Ok new)).
  unfold mem_write. by rewrite Hk, Hgw, Hnew.
Qed.
Lemma clear_annotations_run (c : Cluster) :
  kget c (key gw) = Ok gw → ∃ c',
  clear_annotations gw c = (c', Ok clear_mode_b_annotations) ∧ kget c' (key gw) = Ok clear_mode_b_annotations ∧
  agree (λ k, k ≠ ("Gateway", key gw)) c c'.
Proof.
  intros Hgw. unfold clear_annotations, clear_mode_b_annotations. fold mode_b_annotations.
  destruct mode_b_annotations; [|by exists c].
  eexists. split; [unfold wrap; by rewrite gateway_update|]. split.
  - exact (mem_get_put (T := Gateway) (key gw) _ c).
  - intros k Hk. apply lookup_insert_ne. congruence.
Qed.

Lemma cleanup_Ok (c c' : Cluster) gw' :
  cleanable c → kget c (key gw) = Ok gw → cleanupModeBResources gw c = (c', Ok gw') →
  gw' = clear_mode_b_annotations ∧ kget c' (key gw) = Ok gw' ∧ mode_b_absent c' ∧
  agree (λ k, k ≠ ("Gateway", key gw) ∧ ¬ mode_b_left c k) c c'.
Proof.
  intros Hc Hgw Hrun. rewrite cleanup_parts in Hrun. apply bind_Ok in Hrun as (c1 & [] & Hrun & Hann).
  destruct (proj2 clears_mode_b _ _ Hc Hrun) as [Hs Habs].
  assert (objects c1 !! ("Gateway", key gw) = objects c !! ("Gateway", key gw)) as Hsame.
  { destruct (Hs ("Gateway", key gw)) as [|[Hl _]]; [done|].
    apply mode_b_left_kind in Hl. cbn in Hl. intuition discriminate. }
  assert (kget c1 (key gw) = Ok gw) as Hgw1 by (rewrite <- Hgw; exact (mem_get_at (T := Gateway) c c1 _ Hsame)).
  destruct (clear_annotations_run c1 Hgw1) as (c2 & Hrun' & Hgw2 & Hf). rewrite Hrun' in Hann.
  injection Hann as <- <-. split; [done|]. split; [done|]. split.
  - eapply mode_b_absent_gateway, Habs. intros k Hk. apply Hf. by intros ->.
  - intros k [Hk Hl]. rewrite Hf by done. by apply (shrinks_agree _ _ _ Hs).
Qed.
End cleanup.

(** ** A pass of the single-pod mode leaves nothing of the other behind *)
Lemma not_owner_labelled {T} `{Kind T} gw (x : T) :
  Labels (meta x) !! ownerUIDKey = None → has_labels (owner_labels gw) x = false.
Proof.
  intros Hl. unfold has_labels. rewrite bool_decide_eq_false. intros Hall.
  assert (owner_labels gw !! ownerUIDKey = Some (UID (gw_meta gw))) as Huid by done.
  apply (map_Forall_lookup_1 _ _ _ _ Hall) in Huid. congruence.
Qed.
(** An account object of the mode, found again. *)
Lemma in_place_labels {T} `{Kind T, !LawfulKind T} {P} (payload : T → P) gw k built a (x : T) (w : T) c :
  built = owned gw w → Labels (meta w) !! ownerUIDKey = None →
  in_place payload built k c → objects c !! (kind_name (T := T), k) = Some a → prj a = Some x →
  has_labels (owner_labels gw) x = false.
Proof.
  intros -> Hw (want & y & (m & -> & _ & _ & Hl & _)%owned_spec & _ & Hy & Hm & _) Hk Ha.
  change (mem_get (T := T) c k = Ok y) in Hy. unfold mem_get in Hy. rewrite Hk in Hy. cbn in Hy. rewrite Ha in Hy.
  injection Hy as <-. apply not_owner_labelled. by rewrite Hm, key_with_meta, Hl.
Qed.

Lemma mode_b_names_not_written gw k :
  k ∈ mode_b_names gw → k ∉ mode_a_writes gw.
Proof.
  destruct (child_names_distinct gw 0) as (_ & Hcm & Hacc & Hdep & Hsvc & _); [done|].
  apply NoDup_cons in Hcm as [Hcm _], Hacc as [Hacc _], Hdep as [Hdep _], Hsvc as [Hsvc _].
  apply not_elem_of_cons in Hcm as [Hc1 Hcm], Hacc as [_ Hacc], Hdep as [Hd _], Hsvc as [Hs _].
  apply not_elem_of_cons in Hcm as [Hc2 Hcm], Hacc as [Ha _]. apply not_elem_of_cons in Hcm as [Hc3 _].
  unfold mode_a_writes, mode_b_names. rewrite !list_elem_of_In. cbn [In]. intros Hk Hw.
  repeat (destruct Hk as [<-|Hk]; [repeat (destruct Hw as [Hw|Hw]; [by injection Hw|]); done|]). done.
Qed.
Lemma mode_a_keeps_absent r range gw policy auth (c c' : Cluster) :
  agree (λ k, k ∉ mode_a_writes gw) c c' → mode_a_in_place r range gw policy auth c' →
  mode_b_absent gw c → mode_b_absent gw c'.
Proof.
  intros Hf (_ & (_ & Hro & Hrb) & _) [(H1 & H2 & H3 & H4 & H5 & H6 & H7 & H8 & H9) (L1 & L2 & L3)].
  assert (∀ k, k ∈ mode_b_names gw → objects c' !! k = objects c !! k) as Hn
    by (intros k Hk; apply Hf; exact (mode_b_names_not_written gw k Hk)).
  split.
  - repeat split; (eapply absent_at; [apply Hn, list_elem_of_In; cbn; tauto|assumption]).
  - split; [|split].
    + eapply none_listed_at; [|exact L1]. intros k a x Hk Ha.
      destruct (decide (k = child gw (RouterRBACName (gw_name gw)))) as [->|Hne].
      * right; left. exact (in_place_labels ro_Rules gw _ _ a x {| ro_meta := child_meta gw _; ro_Rules := _ |} c'
          eq_refl eq_refl Hro Hk Ha).
      * left. rewrite <- Hk. symmetry. apply Hf. unfold mode_a_writes. rewrite list_elem_of_In. cbn. naive_solver.
    + eapply none_listed_at; [|exact L2]. intros k a x Hk Ha.
      destruct (decide (k = child gw (RouterRBACName (gw_name gw)))) as [->|Hne].
      * right; left. exact (in_place_labels _ gw _ _ a x (role_binding (child_meta gw _) _ _ _) c' eq_refl eq_refl Hrb Hk Ha).
      * left. rewrite <- Hk. symmetry. apply Hf. unfold mode_a_writes. rewrite list_elem_of_In. cbn. naive_solver.
    + eapply none_listed_at; [|exact L3]. intros k a x Hk _.
      left. rewrite <- Hk. symmetry. apply Hf. unfold mode_a_writes. rewrite list_elem_of_In. cbn. naive_solver.
Qed.

(** ** Reads *)
Section reads.
Context (c d : Cluster).
Lemma klist_at {T} `{Kind T} ns sel :
  agree (of_kind T) c d → mem_list (T := T) d ns sel = mem_list c ns sel.
Proof. intros Hd. apply mem_list_frame. intros k. by apply Hd. Qed.
Lemma findEffectivePolicy_at gw :
  agree (of_kind TorServicePolicy) c d → findEffectivePolicy gw d = findEffectivePolicy gw c.
Proof.
  intros Hd. unfold findEffectivePolicy, effectivePolicyFrom. f_equal. f_equal.
  exact (klist_at (T := TorServicePolicy) _ _ Hd).
Qed.
Lemma findEffectiveClientAuth_at gw :
  agree (of_kind TorClientAuthPolicy) c d → findEffectiveClientAuth gw d = findEffectiveClientAuth gw c.
Proof.
  intros Hd. unfold findEffectiveClientAuth. f_equal. f_equal.
  exact (klist_at (T := TorClientAuthPolicy) _ _ Hd).
Qed.
Lemma findEffectiveOnionBalance_at gw :
  agree (of_kind OnionBalancePolicy) c d → findEffectiveOnionBalance gw d = findEffectiveOnionBalance gw c.
Proof.
  intros Hd. unfold findEffectiveOnionBalance. f_equal. f_equal.
  exact (klist_at (T := OnionBalancePolicy) _ _ Hd).
Qed.
Lemma managed_at class :
  agree (of_kind GatewayClass) c d → gatewayClassManagedByUs class d = gatewayClassManagedByUs class c.
Proof.
  intros Hd. unfold gatewayClassManagedByUs.
  assert (kget (T := GatewayClass) d {| nn_Namespace := ""; nn_Name := class |} =
    kget c {| nn_Namespace := ""; nn_Name := class |}) as -> by (apply mem_get_at, Hd; reflexivity).
  done.
Qed.
Lemma cleanable_at : agree (λ k, k.1 ≠ "Gateway") c d → cleanable c → cleanable d.
Proof.
  intros Hd (H1 & H2 & H3). repeat split; intros k a x Hk; rewrite Hd in Hk by done;
    [eapply H1|eapply H2|eapply H3]; exact Hk.
Qed.
End reads.

(** The kinds read to decide what to do are not written. *)
Definition read_kind (k : string * NamespacedName) : Prop :=
  In k.1 ["GatewayClass"; "TorServicePolicy"; "TorClientAuthPolicy"; "OnionBalancePolicy"].
Ltac reads_only Hreads :=
  intros ? ?; apply Hreads; unfold read_kind;
  match goal with H : of_kind _ _ |- _ => rewrite H end; cbn; tauto.

Section pass.
Context {Ed : Ed25519} (r : GatewayReconciler) (quantity_zero : string → bool)
  (APIReader : option (Cluster → option string → gmap string string → result api_error (list TorServicePolicy)))
  (error_text : error → string) (range : gmap (string * string) ResolvedBackend → list ResolvedBackend).
Lemma existing_key_run random (gw : Gateway) policy (sec : Secret) kp (c : Cluster) :
  kget c (keys_key gw) = Ok sec → files_of sec = Ok kp → ∃ c',
  ensureKeySecret r quantity_zero APIReader random gw policy c = (c', Ok (gw, KeyReady sec kp)) ∧
  objects c' = objects c.
Proof.
  intros Hsec Hkp. unfold ensureKeySecret. unfold bind at 1, find. rewrite Hsec.
  unfold files_of in Hkp. unfold bind at 1, lift. rewrite Hkp. cbn [wrap_err].
  destruct (_ && _); [unfold event; destruct (Recorder r)|]; by eexists.
Qed.
Lemma findEffectiveClientAuth_total gw (c : Cluster) e : findEffectiveClientAuth gw c ≠ Err e.
Proof.
  unfold findEffectiveClientAuth.
  change (klist (T := TorClientAuthPolicy) c (Some (gw_ns gw)) ∅)
    with (mem_list (T := TorClientAuthPolicy) c (Some (gw_ns gw)) ∅).
  unfold mem_list. cbn [wrap_err rbind]. destruct (first_by_name _ _) as [p|]; [|done]. by destruct (bool_decide _).
Qed.
Lemma reconcileModeA_keyed random now (gw : Gateway) (sec : Secret) kp (c : Cluster) :
  kget c (keys_key gw) = Ok sec → files_of sec = Ok kp → ∃ policy auth c1,
  findEffectivePolicy gw c = Ok policy ∧ findEffectiveClientAuth gw c = Ok auth ∧ objects c1 = objects c ∧
  reconcileModeA r quantity_zero APIReader random range now gw c = mode_a_objects r range now gw policy auth kp c1.
Proof.
  intros Hsec Hkp.
  assert (∃ policy, findEffectivePolicy gw c = Ok policy) as [policy Hp] by by eexists.
  destruct (findEffectiveClientAuth gw c) as [auth|e] eqn:Ha; [|by destruct (findEffectiveClientAuth_total gw c e)].
  destruct (existing_key_run (random (KeySecretName (gw_name gw))) gw policy sec kp c Hsec Hkp) as (c1 & Hrun & Hc1).
  exists policy, auth, c1. split; [done|]. split; [done|]. split; [done|].
  unfold reconcileModeA. unfold bind at 1, gets at 1. rewrite Hp. unfold bind at 1, gets at 1. rewrite Ha.
  unfold bind at 1, wrap at 1. by rewrite Hrun.
Qed.

Lemma add_finalizer_run (gw : Gateway) (c : Cluster) :
  kget c (key gw) = Ok gw → ∃ c' fs,
  add_finalizer gw c = (c', Ok (set_finalizers fs gw)) ∧ kget c' (key gw) = Ok (set_finalizers fs gw) ∧
  FinalizerName ∈ fs ∧ agree (λ k, k ≠ ("Gateway", key gw)) c c'.
Proof.
  intros Hgw. unfold add_finalizer. destruct (has_finalizer gw) eqn:Hf.
  - exists c, (Finalizers (gw_meta gw)).
    assert (set_finalizers (Finalizers (gw_meta gw)) gw = gw) as -> by by destruct gw as [[]].
    unfold has_finalizer in Hf. bools. done.
  - eexists _, _. split; [unfold api, wrap; by rewrite (gateway_update gw)|].
    split; [exact (mem_get_put (T := Gateway) (key gw) _ c)|]. split; [set_solver|].
    intros k Hk. apply lookup_insert_ne. congruence.
Qed.
Lemma cleared_annotations (gw : Gateway) : ∃ a,
  clear_mode_b_annotations gw = set_annotations a gw ∧ mode_b_annotations (set_annotations a gw) = false.
Proof.
  unfold clear_mode_b_annotations. destruct (mode_b_annotations gw) eqn:Ha.
  - eexists. split; [done|]. unfold mode_b_annotations.
    change (Annotations (gw_meta (set_annotations ?a gw))) with a.
    rewrite orb_false_iff, !bool_decide_eq_false, <- !eq_None_not_Some. split.
    + rewrite lookup_delete_ne by done. apply lookup_delete_eq.
    + apply lookup_delete_eq.
  - exists (Annotations (gw_meta gw)).
    assert (set_annotations (Annotations (gw_meta gw)) gw = gw) as -> by by destruct gw as [[]]. done.
Qed.

(** A run of [Reconcile] on a managed Gateway that stays and no onionbalance policy targets. *)
Lemma Reconcile_mode_a random now (gw : Gateway) (c c1 : Cluster) gw1 :
  kget c (key gw) = Ok gw → gatewayClassManagedByUs (gw_GatewayClassName gw) c = Ok true →
  DeletionTimestamp (gw_meta gw) = None → add_finalizer gw c = (c1, Ok gw1) →
  findEffectiveOnionBalance gw1 c1 = Ok (None, false) →
  Gateway_Reconcile r quantity_zero APIReader random error_text range now (key gw) c =
  (let! gw2 := cleanupModeBResources gw1 in
   reconcileModeA r quantity_zero APIReader random range now gw2) c1.
Proof.
  intros Hgw Hclass Hdel Hfin Hobp. unfold Gateway_Reconcile.
  unfold bind at 1, find at 1. rewrite Hgw. unfold bind at 1, gets at 1. rewrite Hclass. cbn [negb].
  rewrite Hdel. unfold bind at 1. rewrite Hfin. unfold provision. unfold bind at 1, gets at 1. by rewrite Hobp.
Qed.
Lemma mode_b_left_at gw (c d : Cluster) k :
  agree (λ k, k.1 ≠ "Gateway") c d → mode_b_left gw d k → mode_b_left gw c k.
Proof.
  intros Hd Hl. assert (objects d !! k = objects c !! k) as Hk
    by (apply Hd; apply mode_b_left_kind in Hl; cbn in Hl; intuition congruence).
  destruct Hl as [Hl|[Hl|[Hl|Hl]]]; [by left|right; left|do 2 right; left|do 3 right]; by eapply listed_at.
Qed.

Lemma read_kind_kept gw c k : read_kind k → k ∉ mode_a_writes gw ∧ ¬ mode_b_left gw c k.
Proof.
  unfold read_kind, mode_a_writes. rewrite !list_elem_of_In. destruct k as [kd k]. cbn. intros Hk. split; intros Hw.
  - intuition (subst; discriminate).
  - apply mode_b_left_kind in Hw. cbn in Hw. intuition (subst; discriminate).
Qed.
(** Nor is a Secret that is not labelled as a backend's, by the clean-up. *)
Lemma unlabelled_kept gw k (sec : Secret) (c : Cluster) :
  kget c k = Ok sec → has_labels (backend_selector gw) sec = false → ¬ mode_b_left gw c ("Secret", k).
Proof.
  intros Hsec Hl [Hw|[Hw|[Hw|(k' & a & x & Hk' & Hx & Ha & Hlx & _)]]];
    [|by apply listed_kind in Hw..|].
  - unfold mode_b_names in Hw. rewrite list_elem_of_In in Hw. cbn in Hw. intuition discriminate.
  - change (mem_get (T := Secret) c k = Ok sec) in Hsec. unfold mem_get in Hsec.
    change (kind_name (T := Secret)) with "Secret" in Hsec. rewrite Hx in Hsec. cbn in Hsec.
    change (prj a = Some x) with (match a with ASecret x => Some x | _ => None end = Some x) in Ha.
    rewrite Ha in Hsec. injection Hsec as <-. congruence.
Qed.
Lemma key_secret_kept gw (sec : Secret) (c : Cluster) :
  kget c (keys_key gw) = Ok sec → has_labels (backend_selector gw) sec = false →
  ("Secret", keys_key gw) ∉ mode_a_writes gw ∧ ¬ mode_b_left gw c ("Secret", keys_key gw).
Proof.
  intros Hsec Hl. split; [|by eapply unlabelled_kept].
  unfold mode_a_writes. rewrite list_elem_of_In. cbn [In]. intuition discriminate.
Qed.

(** The second run: nothing is left to do. *)
Lemma Reconcile_again random now (gw : Gateway) policy auth (sec : Secret) kp (d : Cluster) :
  kget d (key gw) = Ok gw → gatewayClassManagedByUs (gw_GatewayClassName gw) d = Ok true →
  DeletionTimestamp (gw_meta gw) = None → findEffectiveOnionBalance gw d = Ok (None, false) →
  has_finalizer gw = true → mode_b_annotations gw = false → mode_b_absent gw d →
  kget d (keys_key gw) = Ok sec → files_of sec = Ok kp →
  findEffectivePolicy gw d = Ok policy → findEffectiveClientAuth gw d = Ok auth →
  (∀ d1, objects d1 = objects d → ∃ d', mode_a_objects r range now gw policy auth kp d1 = (d', Ok ()) ∧
    objects d' = objects d1) →
  ∃ d', Gateway_Reconcile r quantity_zero APIReader random error_text range now (key gw) d = (d', Ok ()) ∧
    objects d' = objects d.
Proof.
  intros Hgw Hclass Hdel Hobp Hfin Hann Habs Hsec Hkp Hp Ha Hobjs.
  assert (add_finalizer gw d = (d, Ok gw)) as Hadd by (unfold add_finalizer; by rewrite Hfin).
  rewrite (Reconcile_mode_a random now gw d d gw Hgw Hclass Hdel Hadd Hobp).
  destruct (reconcileModeA_keyed random now gw sec kp d Hsec Hkp) as (p & a & d1 & Hp' & Ha' & Hd1 & Hrun).
  destruct (Hobjs d1 Hd1) as (d' & Hr & He). exists d'. split; [|congruence].
  unfold bind. rewrite (cleanup_noop gw d Habs Hann), Hrun. rewrite Hp in Hp'. injection Hp' as <-.
  rewrite Ha in Ha'. injection Ha' as <-. exact Hr.
Qed.

(** The first run: what it leaves, and what a second pass over the objects finds. *)
Lemma reconcile_first (random : string → result string bytes) now (gw : Gateway) (sec : Secret) kp (c c' : Cluster)
    (Hkeyed : cleanable c) (Hgw : kget c (key gw) = Ok gw)
    (Hclass : gatewayClassManagedByUs (gw_GatewayClassName gw) c = Ok true)
    (Hdel : DeletionTimestamp (gw_meta gw) = None)
    (Hobp : findEffectiveOnionBalance gw c = Ok (None, false))
    (Hsec : kget c (keys_key gw) = Ok sec) (Hkp : files_of sec = Ok kp)
    (Hlabels : has_labels (backend_selector gw) sec = false)
    (Hrun : Gateway_Reconcile r quantity_zero APIReader random error_text range now (key gw) c = (c', Ok ())) :
  ∃ fs anns st policy auth,
  let gw' := with_gw_Status st (set_annotations anns (set_finalizers fs gw)) in
    (FinalizerName ∈ fs ∧ mode_b_annotations gw' = false ∧
     map a_Value (gs_Addresses st) = [OnionAddress_String (KeyPair_OnionAddress kp)]) ∧
    kget c' (key gw) = Ok gw' ∧
    (findEffectivePolicy gw c = Ok policy ∧ findEffectiveClientAuth gw c = Ok auth) ∧
    mode_a_in_place r range gw policy auth c' ∧ mode_b_absent gw c' ∧
    agree (λ k, k ∉ mode_a_writes gw ∧ ¬ mode_b_left gw c k) c c' ∧
    ∀ now' d, objects d = objects c' → ∃ d',
      mode_a_objects r range now' gw' policy auth kp d = (d', Ok ()) ∧ objects d' = objects d.
Proof.
  destruct (add_finalizer_run gw c Hgw) as (c1 & fs & Hfin & Hgw1 & Hfs & Hf1). set (gw1 := set_finalizers fs gw) in *.
  assert (agree (λ k, k.1 ≠ "Gateway") c c1) as Hoff1
    by (intros k Hk; apply Hf1; intros ->; apply Hk; reflexivity).
  assert (findEffectiveOnionBalance gw1 c1 = Ok (None, false)) as Hobp1.
  { rewrite <- Hobp. apply (findEffectiveOnionBalance_at c c1 gw). intros k Hk. apply Hoff1. rewrite Hk. discriminate. }
  rewrite (Reconcile_mode_a random now gw c c1 gw1 Hgw Hclass Hdel Hfin Hobp1) in Hrun.
  apply bind_Ok in Hrun as (c2 & gw2 & Hclean & Hrun).
  destruct (cleanup_Ok gw1 c1 c2 gw2 (cleanable_at c c1 Hoff1 Hkeyed) Hgw1 Hclean) as (Hgw2 & Hget2 & Habs2 & Hf2).
  destruct (cleared_annotations gw1) as (anns & Hgw2' & Hann). rewrite Hgw2' in Hgw2. subst gw2.
  set (gw2 := set_annotations anns gw1) in *.
  assert (agree (λ k, k ∉ mode_a_writes gw ∧ ¬ mode_b_left gw c k) c c2) as Hoff2.
  { intros k [Hk Hl]. assert (k ≠ ("Gateway", key gw)) as Hne by (intros ->; apply Hk; apply list_elem_of_In; cbn; tauto).
    rewrite (Hf2 k), (Hf1 k Hne); [reflexivity|]. split; [exact Hne|].
    intros Hl1. apply Hl. exact (mode_b_left_at gw c c1 k Hoff1 Hl1). }
  assert (kget c2 (keys_key gw) = Ok sec) as Hsec2
    by (rewrite <- Hsec; exact (mem_get_at (T := Secret) c c2 _ (Hoff2 _ (key_secret_kept gw sec c Hsec Hlabels)))).
  destruct (reconcileModeA_keyed random now gw2 sec kp c2 Hsec2 Hkp) as (policy & auth & c3 & Hp & Ha & Hc3 & Hrun').
  rewrite Hrun' in Hrun. clear Hrun' Hclean Hfin.
  assert (kget c3 (key gw2) = Ok gw2) as Hget3
    by (rewrite <- Hget2; apply (mem_get_at (T := Gateway) c2 c3); rewrite Hc3; reflexivity).
  pose proof (λ now', mode_a_pass r range now now' gw2 policy auth kp c3 c' Hget3 Hrun) as Hpass. clear Hrun.
  set (st := (mode_a_status now gw2 _).1) in Hpass. set (gw' := with_gw_Status st gw2).
  assert (agree (λ k, k ∉ mode_a_writes gw ∧ ¬ mode_b_left gw c k) c c') as Hoff.
  { intros k Hk. rewrite <- (Hoff2 k Hk), <- Hc3. apply (proj1 (Hpass now)). exact (proj1 Hk). }
  assert (agree read_kind c c2) as Hreads by (intros k Hk; apply Hoff2, read_kind_kept, Hk).
  destruct (proj2 (Hpass now) c') as [[Hin Hgw'] _]; [intros k _; reflexivity|].
  exists fs, anns, st, policy, auth. split; [|split; [|split; [|split; [|split; [|split]]]]].
  - split; [exact Hfs|]. split; [exact Hann|]. apply mode_a_status_address.
  - exact Hgw'.
  - split; [rewrite <- Hp; symmetry; apply (findEffectivePolicy_at c c2 gw)
           |rewrite <- Ha; symmetry; apply (findEffectiveClientAuth_at c c2 gw)];
      reads_only Hreads.
  - exact Hin.
  - apply (mode_a_keeps_absent r range gw policy auth c3 c' (proj1 (Hpass now)) Hin).
    eapply mode_b_absent_gateway; [|exact Habs2]. intros k _. by rewrite Hc3.
  - exact Hoff.
  - intros now' d Hd. apply (Hpass now'). intros k _. by rewrite Hd.
Qed.

(** C4.  A reconcile reaches its fixed point.  Take a managed Gateway with a readable key and no
    onionbalance policy, in any cluster: its children may be missing, stale or edited, and the
    onionbalance mode may have left its own behind.  If a reconcile succeeds, the key Secret is
    as it was and its address is the one published, every object of the single-pod mode is what
    the builders want for the policies in effect, the NetworkPolicy is the one of the routes
    attached, everything of the onionbalance mode is gone, and no other object of the cluster
    was changed.  A reconcile of the result, at any later time and with any randomness, succeeds
    and changes nothing. *)
Theorem reconcile_converges (random : string → result string bytes) now (gw : Gateway) (sec : Secret) kp (c c' : Cluster)
    (Hkeyed : cleanable c) (Hgw : kget c (key gw) = Ok gw)
    (Hclass : gatewayClassManagedByUs (gw_GatewayClassName gw) c = Ok true)
    (Hdel : DeletionTimestamp (gw_meta gw) = None)
    (Hobp : findEffectiveOnionBalance gw c = Ok (None, false))
    (Hsec : kget c (keys_key gw) = Ok sec) (Hkp : files_of sec = Ok kp)
    (Hlabels : has_labels (backend_selector gw) sec = false)
    (Hrun : Gateway_Reconcile r quantity_zero APIReader random error_text range now (key gw) c = (c', Ok ())) :
  ∃ gw' policy auth,
    kget c' (key gw) = Ok gw' ∧ has_finalizer gw' = true ∧
    map a_Value (gs_Addresses (gw_Status gw')) = [OnionAddress_String (KeyPair_OnionAddress kp)] ∧
    kget c' (keys_key gw) = Ok sec ∧
    findEffectivePolicy gw c = Ok policy ∧ findEffectiveClientAuth gw c = Ok auth ∧
    mode_a_in_place r range gw policy auth c' ∧ mode_b_absent gw c' ∧
    (∀ k, k ∉ mode_a_writes gw → ¬ mode_b_left gw c k → objects c' !! k = objects c !! k) ∧
    ∀ random' now' d, objects d = objects c' → ∃ d',
      Gateway_Reconcile r quantity_zero APIReader random' error_text range now' (key gw) d = (d', Ok ()) ∧
      objects d' = objects d.
Proof.
  destruct (reconcile_first random now gw sec kp c c' Hkeyed Hgw Hclass Hdel Hobp Hsec Hkp Hlabels Hrun)
    as (fs & anns & st & policy & auth & (Hfs & Hann & Haddr) & Hgw' & (Hp & Ha) & Hin & Habs & Hoff & Hagain).
  clear Hrun. set (gw' := with_gw_Status st _) in *.
  assert (has_finalizer gw' = true) as Hfin by (apply bool_decide_eq_true; exact Hfs).
  assert (kget c' (keys_key gw) = Ok sec) as Hsec'
    by (rewrite <- Hsec; exact (mem_get_at (T := Secret) c c' _ (Hoff _ (key_secret_kept gw sec c Hsec Hlabels)))).
  exists gw', policy, auth. split; [exact Hgw'|]. split; [exact Hfin|]. split; [exact Haddr|]. split; [exact Hsec'|].
  split; [exact Hp|]. split; [exact Ha|]. split; [exact Hin|]. split; [exact Habs|].
  split; [intros k Hk Hl; exact (Hoff k (conj Hk Hl))|]. intros random' now' d Hd.
  assert (agree read_kind c d) as Hreads by (intros k Hk; rewrite Hd; apply Hoff, read_kind_kept, Hk).
  assert (∀ T (HT : Object T) (HK : Kind T) k, mem_get (T := T) d k = mem_get c' k) as Hget
    by (intros T HT HK k; apply mem_get_at; by rewrite Hd).
  apply (Reconcile_again random' now' gw' policy auth sec kp d); try assumption.
  - rewrite <- Hgw'. apply Hget.
  - rewrite <- Hclass. apply (managed_at c d). reads_only Hreads.
  - rewrite <- Hobp. apply (findEffectiveOnionBalance_at c d gw).
    reads_only Hreads.
  - eapply mode_b_absent_gateway; [|exact Habs]. intros k _. by rewrite Hd.
  - rewrite <- Hsec'. apply Hget.
  - rewrite <- Hp. apply (findEffectivePolicy_at c d gw). reads_only Hreads.
  - rewrite <- Ha. apply (findEffectiveClientAuth_at c d gw). reads_only Hreads.
  - intros d1 Hd1. apply Hagain. congruence.
Qed.
End pass.

(** A Gateway with its key, whose Service was edited and whose onionbalance frontend is still there. *)
Definition messy_cluster : Cluster :=
  cluster [obj example_class; obj example_gateway; obj example_key; obj edited_service; obj ready_frontend].
Lemma messy_cleanable : cleanable messy_cluster.
Proof.
  repeat split; intros k a x; unfold messy_cluster, cluster; cbn; rewrite !lookup_insert_Some;
    intros Hk Ha; repeat (destruct Hk as [[[=] <-]|[_ Hk]]); try discriminate Hk; subst; by injection Ha as <-.
Qed.
Lemma reconcile_converges_witness : ∃ c' svc,
  let reconcile := Gateway_Reconcile example_reconciler (λ _, false) None (λ _, Ok zero_key) no_text map_range in
  reconcile 7%Z onion_key messy_cluster = (c', Ok ()) ∧
  kget (T := Deployment) messy_cluster (key ready_frontend) = Ok ready_frontend ∧
  kget (T := Deployment) c' (key ready_frontend) = Err NotFound ∧
  kget (T := Service) c' (key edited_service) = Ok svc ∧ svc_Selector svc = ChildLabels "onion" ∧
  ∃ d', reconcile 8%Z onion_key c' = (d', Ok ()) ∧ objects d' = objects c'.
Proof.
  cbn zeta.
  assert ((Gateway_Reconcile example_reconciler (λ _, false) None (λ _, Ok zero_key) no_text map_range 7 onion_key
    messy_cluster).2 = Ok ()) as Hok by (vm_compute; reflexivity).
  destruct (Gateway_Reconcile _ _ _ _ _ _ _ _ _) as [c' res] eqn:Hrun. cbn in Hok. subst res.
  destruct (reconcile_converges example_reconciler (λ _, false) None no_text map_range (λ _, Ok zero_key) 7
    example_gateway example_key zero_pair messy_cluster c' messy_cleanable eq_refl ltac:(vm_compute; reflexivity)
    eq_refl ltac:(vm_compute; reflexivity) eq_refl ltac:(vm_compute; reflexivity) ltac:(vm_compute; reflexivity) Hrun)
    as (gw' & policy & auth & _ & _ & _ & _ & _ & _ & (_ & _ & _ & Hsvc & _) & ((Hfe & _) & _) & _ & Hagain).
  destruct Hsvc as (want & svc & Hw & _ & Hy & _ & _ & Hpay). exists c', svc.
  split; [reflexivity|]. split; [reflexivity|]. split; [exact Hfe|]. split; [exact Hy|]. split.
  - injection Hw as <-. injection Hpay as Hsel _. exact Hsel.
  - exact (Hagain (λ _, Ok zero_key) 8%Z c' eq_refl).
Defined.
