(* ===== verification/Deletion.v ===== *)
(** * Deleting a Gateway (gateway_controller.go, the finalizer)

    [Reconcile] of a Gateway that is being deleted, on the in-memory cluster. *)

From Stdlib Require Import Ascii ZArith.
From S2P Require Import Prelude Monad GoStrings Onion Keys KubeTypes Router Kube Names Status Policies.
From S2P Require Import HTTPRouteCtl NetPol Resources ResourcesHA Workloads Client Harvest GatewayCtl GatewayProps GatewayStatus.
From S2P Require Import HarvestProps Converge Deletes Steady.

Section deletion.
Context {Ed : Ed25519} (r : GatewayReconciler) (quantity_zero : string → bool)
  (APIReader : option (Cluster → option string → gmap string string → result api_error (list TorServicePolicy)))
  (error_text : error → string) (range : gmap (string * string) ResolvedBackend → list ResolvedBackend).
Notation reconcile random now := (Gateway_Reconcile r quantity_zero APIReader random error_text range now).

Lemma remove_finalizer_run (gw : Gateway) (c : Cluster) :
  kget c (key gw) = Ok gw → has_finalizer gw = true → ∃ c',
  (let! fresh := read (λ s, kget (T := Gateway) s (key gw)) in
   if negb (has_finalizer fresh) then ret () else do! api (kupdate (remove_finalizer fresh)) in ret ()) c =
    (c', Ok ()) ∧
  kget c' (key gw) = Ok (remove_finalizer gw) ∧ agree (λ k, k ≠ ("Gateway", key gw)) c c'.
Proof.
  intros Hgw Hf. eexists. split; [|split].
  - unfold bind at 1, read, gets. rewrite Hgw. cbn [wrap_err]. rewrite Hf. cbn [negb].
    unfold bind, api, wrap. by rewrite (gateway_update gw).
  - exact (mem_get_put (T := Gateway) (key gw) _ c).
  - intros k Hk. apply lookup_insert_ne. congruence.
Qed.

(** What a managed Gateway under deletion goes through. *)
Lemma Reconcile_deleted random now (gw : Gateway) t (c : Cluster) :
  kget c (key gw) = Ok gw → gatewayClassManagedByUs (gw_GatewayClassName gw) c = Ok true →
  DeletionTimestamp (gw_meta gw) = Some t → reconcile random now (key gw) c = finalize gw c.
Proof.
  intros Hgw Hclass Hdel. unfold Gateway_Reconcile.
  unfold bind at 1, find at 1. rewrite Hgw. unfold bind at 1, gets at 1. rewrite Hclass. cbn [negb].
  by rewrite Hdel.
Qed.

(** C6.  Deletion completes.  A reconcile of a managed Gateway that is being deleted, when it
    succeeds, has removed the operator's finalizer and no other, has deleted everything of the
    onionbalance mode first, the Roles in other namespaces that no owner reference would
    collect among it, and has touched no other object; the API server can then remove the
    Gateway and its children.  A reconcile of the result writes nothing. *)
Theorem deletion_completes random now (gw : Gateway) t (c c' : Cluster)
    (Hkeyed : cleanable c) (Hgw : kget c (key gw) = Ok gw)
    (Hclass : gatewayClassManagedByUs (gw_GatewayClassName gw) c = Ok true)
    (Hdel : DeletionTimestamp (gw_meta gw) = Some t) (Hfin : has_finalizer gw = true)
    (Hrun : reconcile random now (key gw) c = (c', Ok ())) :
  ∃ gw', kget c' (key gw) = Ok gw' ∧
    Finalizers (gw_meta gw') = filter (λ f, f ≠ FinalizerName) (Finalizers (gw_meta gw)) ∧
    mode_b_absent gw c' ∧
    (∀ k, k ≠ ("Gateway", key gw) → ¬ mode_b_left gw c k → objects c' !! k = objects c !! k) ∧
    ∀ random' now', reconcile random' now' (key gw) c' = (c', Ok ()).
Proof.
  rewrite (Reconcile_deleted random now gw t c Hgw Hclass Hdel) in Hrun. unfold finalize in Hrun. rewrite Hfin in Hrun.
  apply bind_Ok in Hrun as (c1 & gw1 & Hclean & Hrun).
  destruct (cleanup_Ok gw c c1 gw1 Hkeyed Hgw Hclean) as (Hgw1 & Hget1 & Habs & Hf1).
  destruct (cleared_annotations gw) as (anns & Hanns & _). rewrite Hanns in Hgw1. subst gw1.
  assert (key (set_annotations anns gw) = key gw) as Hk by reflexivity.
  destruct (remove_finalizer_run (set_annotations anns gw) c1) as (c2 & Hrun2 & Hget2 & Hf2);
    [by rewrite Hk|exact Hfin|].
  rewrite Hk in Hrun2, Hget2, Hf2. set (gw' := remove_finalizer (set_annotations anns gw)) in *.
  change (retry_on_conflict ?m) with m in Hrun. rewrite Hrun2 in Hrun. injection Hrun as ->. clear Hrun2 Hclean.
  assert (agree (λ k, k ≠ ("Gateway", key gw) ∧ ¬ mode_b_left gw c k) c c') as Hf
    by (intros k Hkk; rewrite (Hf2 k (proj1 Hkk)); apply Hf1, Hkk).
  exists gw'. split; [exact Hget2|]. split; [reflexivity|]. split; [|split; [intros k H1 H2; apply Hf; auto|]].
  - eapply mode_b_absent_gateway; [|exact Habs]. intros k Hkk. apply Hf2. by intros ->.
  - intros random' now'.
    change (key gw) with (key gw').
    rewrite (Reconcile_deleted random' now' gw' t c' Hget2); [| |exact Hdel].
    + unfold finalize. assert (has_finalizer gw' = false) as ->; [|reflexivity].
      apply bool_decide_eq_false. by intros [[]%(λ H, H eq_refl) _]%list_elem_of_filter.
    + rewrite <- Hclass. apply (managed_at c c'). intros k Hkk. apply Hf. split.
      * intros ->. discriminate Hkk.
      * intros Hl%mode_b_left_kind. rewrite Hkk in Hl. cbn in Hl. intuition discriminate.
Qed.

(** A Gateway whose class is gone, or no longer the operator's, keeps the finalizer: nothing is
    done for it any more, and the API server cannot remove it. *)
Lemma unmanaged_never_finalized random now (gw : Gateway) (c : Cluster) :
  kget c (key gw) = Ok gw → gatewayClassManagedByUs (gw_GatewayClassName gw) c = Ok false →
  reconcile random now (key gw) c = (c, Ok ()).
Proof.
  intros Hgw Hclass. unfold Gateway_Reconcile.
  unfold bind at 1, find at 1. rewrite Hgw. unfold bind at 1, gets at 1. by rewrite Hclass.
Qed.
End deletion.

(** A Gateway being deleted, of the onionbalance mode, with a Role in another namespace. *)
Definition deleted_gateway : Gateway := {|
  gw_meta := {| Name := "onion"; Namespace := "tor"; UID := "uid-1"; ResourceVersion := "1"; Generation := 3;
                Labels := ∅; Annotations := {[ annLastReplicas := "2" ]}; OwnerReferences := [];
                Finalizers := ["other"; FinalizerName]; DeletionTimestamp := Some 5%Z |};
  gw_GatewayClassName := "tor"; gw_Listeners := []; gw_Status := gw_Status example_gateway |}.
Definition master_role : Role := {|
  ro_meta := cross_ns_meta deleted_gateway "vault"; ro_Rules := [secrets_rule ["get"] ["master"]] |}.
Definition deleting_cluster : Cluster := cluster [obj example_class; obj deleted_gateway; obj master_role].
Lemma deleting_cleanable : cleanable deleting_cluster.
Proof.
  repeat split; intros k a x; unfold deleting_cluster, cluster; cbn; rewrite !lookup_insert_Some;
    intros Hk Ha; repeat (destruct Hk as [[[=] <-]|[_ Hk]]); try discriminate Hk; subst; by injection Ha as <-.
Qed.
Lemma deletion_completes_witness : ∃ c' gw',
  let reconcile := Gateway_Reconcile example_reconciler (λ _, false) None (λ _, Ok zero_key) no_text map_range in
  reconcile 7%Z (key deleted_gateway) deleting_cluster = (c', Ok ()) ∧
  kget (T := Role) deleting_cluster (key master_role) = Ok master_role ∧
  kget (T := Role) c' (key master_role) ≠ Ok master_role ∧
  kget c' (key deleted_gateway) = Ok gw' ∧ Finalizers (gw_meta gw') = ["other"].
Proof.
  cbn zeta.
  assert ((Gateway_Reconcile example_reconciler (λ _, false) None (λ _, Ok zero_key) no_text map_range 7
    (key deleted_gateway) deleting_cluster).2 = Ok ()) as Hok by (vm_compute; reflexivity).
  destruct (Gateway_Reconcile _ _ _ _ _ _ _ _ _) as [c' res] eqn:Hrun. cbn in Hok. subst res.
  destruct (deletion_completes example_reconciler (λ _, false) None no_text map_range (λ _, Ok zero_key) 7
    deleted_gateway 5 deleting_cluster c' deleting_cleanable eq_refl eq_refl eq_refl eq_refl Hrun)
    as (gw' & Hgw & Hfin & (_ & Hroles & _) & _).
  exists c', gw'. split; [reflexivity|]. split; [reflexivity|]. split; [|split; [exact Hgw|exact Hfin]].
  intros Hro. refine (none_listed_get (T := Role) _ _ _ c' (key master_role) master_role Hroles Hro _ _ _);
    [discriminate|reflexivity|discriminate].
Defined.
