(* ===== verification/ConvergeHA.v ===== *)
(** * A Gateway converges (gateway_controller.go, the onionbalance mode)

    The steps of the onionbalance mode on the in-memory cluster: what a successful run of each
    leaves in place, which objects it can change, and that a second run changes nothing. *)

From Stdlib Require Import Ascii ZArith DecimalString.
From S2P Require Import Prelude Monad GoStrings Onion Keys KubeTypes Router Kube Names RefGrant Status Policies.
From S2P Require Import HTTPRouteCtl NetPol Resources ResourcesHA Workloads Client Harvest GatewayCtl GatewayProps.
From S2P Require Import GatewayStatus GatewayGC Converge Deletes Steady.

Lemma wrap_run {S E F A} (w : E → F) (m : M S E A) s s' a : m s = (s', Ok a) → wrap w m s = (s', Ok a).
Proof. intros Hm. unfold wrap. by rewrite Hm. Qed.
Lemma event_run r gw t reason message (c : Cluster) : ∃ c',
  event r gw t reason message c = (c', Ok ()) ∧ objects c' = objects c.
Proof. unfold event. destruct (Recorder r); by eexists. Qed.

(** ** The keys of the backends *)
Section backend.
Context {Ed : Ed25519} (gw : Gateway) (i : Z).
Notation name := (BackendKeySecretName gw i).
Definition backend_secret (data : gmap string bytes) : result error Secret :=
  owned gw {| sec_meta := new_meta name (gw_ns gw) (ownerLabels gw haRoleBackend);
              sec_Type := "Opaque"; sec_Data := data |}.
(** The Secret of a backend has the labels and the owner it is found by; its data is the
    backend's own. *)
Definition backend_in_place : Cluster → Prop :=
  in_place (λ _ : Secret, ()) (backend_secret ∅) (child gw name).
Definition keyed (s : Secret) : bool := (0 <? length (default [] (sec_Data s !! FileSecretKeyName)))%nat.

Lemma BuildBackendKeySecret_data existing read want :
  BuildBackendKeySecret gw i existing read = Ok want → ∃ data, backend_secret data = Ok want ∧
  (data = default ∅ (sec_Data <$> existing) ∨ (0 <? length (default [] (data !! FileSecretKeyName)))%nat = true).
Proof.
  unfold BuildBackendKeySecret. intros (data & Hdata & Hwant)%rbind_Ok. exists data. split; [exact Hwant|].
  assert (fresh_data read = Ok data → (0 <? length (default [] (data !! FileSecretKeyName)))%nat = true) as Hfresh.
  { unfold fresh_data. intros (kp & _ & [= <-])%rbind_Ok. reflexivity. }
  destruct existing as [s|]; [|auto]. destruct (0 <? _)%nat in Hdata; [|auto]. left. by injection Hdata as <-.
Qed.
(** An object of the wanted labels and owners is left as it is. *)
Notation write want := (λ current : Secret, owned_like want {| sec_meta := sec_meta current; sec_Type := sec_Type current;
  sec_Data := if bool_decide (ResourceVersion (sec_meta current) = "") then sec_Data want else sec_Data current |}).
Lemma backend_again (y w : Secret) read kp data :
  backend_secret data = Ok w → Labels (sec_meta y) = Labels (sec_meta w) →
  OwnerReferences (sec_meta y) = OwnerReferences (sec_meta w) →
  (ResourceVersion (sec_meta y) = "" → keyed y = true) → GenerateKeyPair read = Ok kp →
  ∃ want, BuildBackendKeySecret gw i (Some y) read = Ok want ∧ write want y = y ∧ key want = child gw name.
Proof.
  intros [= <-] Hl Ho Hrv Hkp. cbn in Hl, Ho. unfold BuildBackendKeySecret. fold (keyed y).
  destruct (keyed y).
  - eexists. split; [reflexivity|]. split; [|reflexivity].
    destruct y as [[] ty d]. cbn in *. subst. unfold owned_like, set_owners, set_labels. cbn. by destruct (bool_decide _).
  - unfold fresh_data. rewrite Hkp. eexists. split; [reflexivity|]. split; [|reflexivity].
    rewrite bool_decide_eq_false_2 by (intros Hr; discriminate (Hrv Hr)).
    destruct y as [[] ty d]. cbn in *. by subst.
Qed.

(** What a run writes. *)
Lemma backend_written existing read want data (c c' : Cluster) :
  match existing with Some x => kget c (child gw name) = Ok x
  | None => kget (T := Secret) c (child gw name) = Err NotFound end →
  BuildBackendKeySecret gw i existing read = Ok want → sec_Data want = data →
  (data = default ∅ (sec_Data <$> existing) ∨ (0 <? length (default [] (data !! FileSecretKeyName)))%nat = true) →
  key want = child gw name → ensureBackendKeySecret want c = (c', Ok ()) →
  ∃ y : Secret, c' = put ("Secret", child gw name) (ASecret y) c ∧
    Labels (sec_meta y) = Labels (sec_meta want) ∧ OwnerReferences (sec_meta y) = OwnerReferences (sec_meta want) ∧
    (ResourceVersion (sec_meta y) = "" → keyed y = true).
Proof.
  intros Hex Hwant Hdat Hdata Hkey Hrun.
  unfold ensureBackendKeySecret, api in Hrun. apply wrap_Ok in Hrun. cbn in Hrun. unfold mem_apply in Hrun.
    change (key {| sec_meta := blank want; sec_Type := ""; sec_Data := ∅ |}) with (key want) in Hrun.
    rewrite Hkey in Hrun. destruct existing as [cur|].
    - change (mem_get c (child gw name) = Ok cur) in Hex. rewrite Hex in Hrun.
      rewrite bool_decide_eq_true_2 in Hrun by reflexivity. injection Hrun as <-.
      eexists. split; [reflexivity|]. split; [reflexivity|]. split; [reflexivity|].
      cbn. intros Hr. unfold keyed. cbn. rewrite bool_decide_eq_true_2, Hdat by exact Hr.
      destruct Hdata as [->|Hk]; [|exact Hk]. cbn.
      revert Hwant. unfold BuildBackendKeySecret. fold (keyed cur). destruct (keyed cur) eqn:Hkeyed; [by intros _|].
      unfold fresh_data. intros (d & (kp' & _ & [= <-])%rbind_Ok & [= <-])%rbind_Ok. cbn in Hdat.
      rewrite <- Hdat. reflexivity.
    - change (mem_get (T := Secret) c (child gw name) = Err NotFound) in Hex. rewrite Hex in Hrun.
      rewrite bool_decide_eq_true_2 in Hrun by exact Hkey. unfold mem_create in Hrun.
      match type of Hrun with context [mem_get c (key ?x)] => change (key x) with (key want) in Hrun end.
      rewrite Hkey, Hex in Hrun. injection Hrun as <-.
      eexists. split; [reflexivity|]. split; [reflexivity|]. split; [reflexivity|]. discriminate.
Qed.
Lemma backend_secret_converges random random' kp Pre :
  GenerateKeyPair (random' name) = Ok kp →
  converges Pre backend_in_place (the Secret (child gw name)) (the Secret (child gw name))
    (ensureBackendKeySecretForIndex random gw i) (ensureBackendKeySecretForIndex random' gw i).
Proof.
  intros Hkp c c' _ (c1 & existing & [-> Hex]%wrap_Ok%find_Ok & Hrun)%bind_Ok.
  apply bind_Ok in Hrun as (c2 & want & [= <- Hwant] & Hrun).
  destruct (BuildBackendKeySecret_data _ _ _ Hwant) as (data & Hw & Hdata).
  assert (key want = child gw name) as Hkey by (injection Hw as <-; reflexivity).
  assert (sec_Data want = data) as Hdat by (injection Hw as <-; reflexivity).
  destruct (backend_written _ _ _ _ _ _ Hex Hwant Hdat Hdata Hkey Hrun) as (y & -> & Hl & Ho & Hrv).
  split; [intros k Hk; apply lookup_insert_ne; by intros <-|].
  intros d Hd. specialize (Hd _ eq_refl). cbn in Hd. rewrite lookup_insert_eq in Hd.
  assert (mem_get (T := Secret) d (child gw name) = Ok y) as Hget by (unfold mem_get; change (kind_name (T := Secret)) with "Secret"; rewrite Hd; reflexivity).
  split.
  - injection Hw as <-. eexists _, y. split; [reflexivity|]. split; [reflexivity|]. split; [exact Hget|].
    split; [exact Hl|]. split; [exact Ho|reflexivity].
  - destruct (backend_again y want (random' name) kp data Hw Hl Ho Hrv Hkp) as (want' & Hb & Hfix & Hkey').
    exists (put ("Secret", child gw name) (ASecret y) d). unfold ensureBackendKeySecretForIndex. split.
    + apply (bind_run _ _ d d (Some y)); [apply wrap_run, find_Ok; split; [reflexivity|exact Hget]|].
      unfold bind, lift. rewrite Hb. unfold ensureBackendKeySecret, api. apply wrap_run. cbn. unfold mem_apply.
      change (key {| sec_meta := blank want'; sec_Type := ""; sec_Data := ∅ |}) with (key want').
      rewrite Hkey', Hget, bool_decide_eq_true_2 by reflexivity.
      exact (f_equal (λ z, (put ("Secret", child gw name) (ASecret z) d, Ok ())) Hfix).
    + cbn. by apply insert_id.
Qed.
End backend.

Definition backend_key_in (gw : Gateway) (l : list Z) (k : string * NamespacedName) : Prop :=
  ∃ i, i ∈ l ∧ the Secret (child gw (BackendKeySecretName gw i)) k.
Lemma backend_secrets_converge {Ed : Ed25519} random random' gw (l : list Z) Pre :
  (∀ name, ∃ kp, GenerateKeyPair (random' name) = Ok kp) → NoDup (map (BackendKeySecretName gw) l) →
  converges Pre (λ c, Forall (λ i, backend_in_place gw i c) l) (backend_key_in gw l) (backend_key_in gw l)
    (for_each (λ i, wrap (ErrWrap ("backend Secret " +:+ Itoa i)) (ensureBackendKeySecretForIndex random gw i)) l)
    (for_each (λ i, wrap (ErrWrap ("backend Secret " +:+ Itoa i)) (ensureBackendKeySecretForIndex random' gw i)) l).
Proof.
  intros Hrandom. revert Pre. induction l as [|i l IH]; intros Pre Hnd; cbn [for_each].
  - intros c c' _ [= <-]. split; [done|]. intros d _. split; [constructor|]. by exists d.
  - cbn [map] in Hnd. apply NoDup_cons in Hnd as [Hi Hnd]. destruct (Hrandom (BackendKeySecretName gw i)) as [kp Hkp].
    eapply converges_weaken.
    + refine (converges_seq (λ _, True)
        (converges_wrap (ErrWrap ("backend Secret " +:+ Itoa i)) (backend_secret_converges gw i random random' kp Pre Hkp))
        (IH _ Hnd) (λ _ _ _ _, I) _).
      intros k -> (j & Hj & [= Heq]). apply Hi. rewrite Heq. by apply list_elem_of_fmap_2.
    + intros c [H1 H2]. by constructor.
    + intros k [->|(j & Hj & ->)]; eexists; (split; [|done]); set_solver.
    + intros k [->|(j & Hj & ->)]; eexists; (split; [|done]); set_solver.
Qed.

(** ** The Secrets of indices no longer in use *)
Definition orphan_key (gw : Gateway) (replicas : Z) (k : string * NamespacedName) : Prop :=
  k.1 = "Secret" ∧ nn_Namespace k.2 = gw_ns gw ∧ orphan gw replicas (nn_Name k.2).
Definition no_orphans (gw : Gateway) (replicas : Z) (c : Cluster) : Prop :=
  none_listed (T := Secret) (Some (gw_ns gw)) (backend_selector gw)
    (λ x, orphan gw replicas (nn_Name (key x))) c.

Section gc.
Context (gw : Gateway) (ss : StatefulSet) (replicas : Z).
Definition unused (s : Secret) : Prop :=
  let idx := backendSecretIndex (Name (sec_meta s)) (gw_name gw) in negb ((idx <? 0)%Z || (idx <? replicas)%Z) = true.
#[local] Instance unused_dec s : Decision (unused s).
Proof. apply _. Defined.
Lemma unused_orphan s : unused s ↔ orphan gw replicas (nn_Name (key s)).
Proof.
  unfold unused, orphan. cbn. rewrite negb_true_iff, orb_false_iff, !Z.ltb_ge. reflexivity.
Qed.
Lemma gc_cases (c : Cluster) :
  settled c (key ss) ∧ gcBackendSecretsIfSettled gw ss replicas c = gcOrphanBackendSecrets gw replicas c ∨
  ¬ settled c (key ss) ∧ gcBackendSecretsIfSettled gw ss replicas c = (c, Ok ()).
Proof.
  unfold gcBackendSecretsIfSettled. unfold bind at 1 2, find.
  destruct (kget (T := StatefulSet) c (key ss)) as [cur|e] eqn:Hcur.
  - destruct (sts_Spec cur ≫= ss_Replicas) as [wanted|] eqn:Hw.
    + apply bind_Some in Hw as (spec & Hspec & Hw). destruct (bool_decide _) eqn:Heq; bools; cbn [negb].
      * left. split; [|done]. by exists cur, spec, wanted.
      * right. split; [|done]. intros (cur' & spec' & w' & Hcur' & Hspec' & Hw' & Hst). congruence.
    + right. split; [|done]. intros (cur' & spec' & w' & Hcur' & Hspec' & Hw' & Hst).
      rewrite Hcur in Hcur'. injection Hcur' as <-. by rewrite Hspec' in Hw; cbn in Hw; rewrite Hw' in Hw.
  - right. assert (e = NotFound) as ->.
    { revert Hcur. change (kget (T := StatefulSet) c (key ss)) with (mem_get (T := StatefulSet) c (key ss)).
      unfold mem_get. destruct (_ ≫= _); congruence. }
    split; [|done]. intros (cur' & spec' & w' & Hcur' & _). congruence.
Qed.
Lemma settled_at (c d : Cluster) k : agree (the StatefulSet k) c d → settled d k ↔ settled c k.
Proof.
  intros Hd. unfold settled.
  assert (kget (T := StatefulSet) d k = kget c k) as Hget
    by exact (mem_get_at (T := StatefulSet) c d k (Hd _ eq_refl)).
  split; intros (cur & spec & w & Hcur & Hr); exists cur, spec, w; (split; [|done]); congruence.
Qed.
Lemma gcOrphan_list (c : Cluster) : ∃ l : list Secret,
  mem_list c (Some (gw_ns gw)) (backend_selector gw) = Ok l ∧
  gcOrphanBackendSecrets gw replicas c =
  for_each (λ s, wrap (ErrWrap ("delete orphan backend Secret " +:+ Name (sec_meta s))) (delete_child Secret (key s)))
    (filter unused l) c.
Proof.
  destruct (mem_list (T := Secret) c (Some (gw_ns gw)) (backend_selector gw)) as [l|] eqn:Hl; [|discriminate Hl].
  exists l. split; [done|]. unfold gcOrphanBackendSecrets, bind, gets.
  change (klist (T := Secret) c (Some (gw_ns gw)) (backend_selector gw))
    with (mem_list (T := Secret) c (Some (gw_ns gw)) (backend_selector gw)). by rewrite Hl.
Qed.
Lemma gc_noop (c : Cluster) :
  (settled c (key ss) → no_orphans gw replicas c) → gcBackendSecretsIfSettled gw ss replicas c = (c, Ok ()).
Proof.
  intros Hc. destruct (gc_cases c) as [[Hs ->]|[_ ->]]; [|done].
  destruct (gcOrphan_list c) as (l & Hl & ->).
  rewrite (none_listed_list (Some (gw_ns gw)) (backend_selector gw) unused c l); [done| |exact Hl].
  intros k a x Hk Ha Hns Hlab Hx. apply unused_orphan in Hx. exact (Hc Hs k a x Hk Ha Hns Hlab Hx).
Qed.
Lemma gc_converges : let m := gcBackendSecretsIfSettled gw ss replicas in
  converges (named (T := Secret)) (λ c, settled c (key ss) → no_orphans gw replicas c)
    (orphan_key gw replicas) (λ k, the StatefulSet (key ss) k ∨ of_kind Secret k) m m.
Proof.
  intros m c c' Hc Hrun. unfold m in *.
  assert (agree (λ k, ¬ orphan_key gw replicas k) c c' ∧ (settled c' (key ss) → no_orphans gw replicas c'))
    as [Hf Hno].
  { destruct (gc_cases c) as [[Hs Hgc]|[Hs Hgc]]; rewrite Hgc in Hrun;
      [|injection Hrun as <-; split; [intros k _; reflexivity|intros Hs'; destruct (Hs Hs')]].
    destruct (gcOrphan_list c) as (l & Hl & Heq). rewrite Heq in Hrun.
    apply (delete_listed unused _ c c' (Some (gw_ns gw)) (backend_selector gw) l) in Hrun as [Hsh Hn];
      [|by intros x d d' ?%wrap_Ok|done..]. split.
    - intros k Hk. destruct (Hsh k) as [|[[(k' & a & x & -> & Hx & Ha & _ & Hu) Hns] _]]; [done|].
      destruct Hk. split; [reflexivity|]. split; [by apply Hns|]. apply unused_orphan in Hu.
      by rewrite (Hc k' a x Hx Ha) in Hu.
    - intros _ k a x Hk Ha Hns Hlab Ho%unused_orphan. exact (Hn k a x Hk Ha Hns Hlab Ho). }
  split; [exact Hf|]. intros d Hd.
  assert (settled d (key ss) → no_orphans gw replicas d) as Hnod.
  { intros Hs%(settled_at c' d (key ss) (λ k Hk, Hd k (or_introl Hk)))%Hno. eapply none_listed_at; [|exact Hs].
    intros k a x Hk _. left. rewrite <- Hk. symmetry. apply Hd. by right. }
  split; [exact Hnod|]. exists d. by rewrite gc_noop.
Qed.
End gc.

(** ** The children *)
Definition indices (replicas : Z) : list Z := map Z.of_nat (seq 0 (Z.to_nat replicas)).
Lemma indices_range replicas i : i ∈ indices replicas ↔ (0 ≤ i < replicas)%Z.
Proof.
  unfold indices. rewrite list_elem_of_fmap. split.
  - intros (n & -> & Hn%elem_of_seq). lia.
  - intros Hi. exists (Z.to_nat i). split; [lia|]. apply elem_of_seq. lia.
Qed.
Lemma indices_names gw replicas :
  (replicas ≤ int64_max)%Z → NoDup (map (BackendKeySecretName gw) (indices replicas)).
Proof.
  intros Hmax. apply NoDup_fmap_2_strong.
  - intros i j Hi%indices_range Hj%indices_range. apply BackendKeySecretName_inj; lia.
  - apply NoDup_fmap_2; [|apply NoDup_seq]. intros i j. lia.
Qed.
Lemma backend_not_orphan gw replicas k :
  (replicas ≤ int64_max)%Z → backend_key_in gw (indices replicas) k → ¬ orphan_key gw replicas k.
Proof.
  intros Hmax (i & Hi%indices_range & ->) (_ & _ & [_ Ho]). cbn in Ho. rewrite backendSecretIndex_name in Ho; lia.
Qed.

Section keys.
Context (gw : Gateway).
Lemma owned_key {T} `{Kind T, !LawfulKind T} (x want : T) : owned gw x = Ok want → key want = key x.
Proof. exact (SetControllerReference_key (gw_meta gw) x want). Qed.
Lemma BuildBackendHeadlessService_key want :
  BuildBackendHeadlessService gw = Ok want → key want = child gw (BackendHeadlessServiceName gw).
Proof. exact (owned_key _ want). Qed.
Lemma BuildFrontendServiceAccount_key want :
  BuildFrontendServiceAccount gw = Ok want → key want = child gw (FrontendName gw).
Proof. exact (owned_key _ want). Qed.
Lemma BuildFrontendRole_key pol want : BuildFrontendRole gw pol = Ok want → key want = child gw (FrontendName gw).
Proof. exact (owned_key _ want). Qed.
Lemma BuildFrontendRoleBinding_key want :
  BuildFrontendRoleBinding gw = Ok want → key want = child gw (FrontendName gw).
Proof. exact (owned_key _ want). Qed.
Lemma BuildFrontendTorrcConfigMap_key testing want :
  BuildFrontendTorrcConfigMap gw testing = Ok want → key want = child gw (FrontendTorrcConfigMapName gw).
Proof. exact (owned_key _ want). Qed.
Lemma BuildBackendTorrcConfigMap_key pol policy auth testing want :
  BuildBackendTorrcConfigMap gw pol policy auth testing = Ok want → key want = child gw (BackendTorrcConfigMapName gw).
Proof. unfold BuildBackendTorrcConfigMap. by intros (? & _ & ->%owned_key)%rbind_Ok. Qed.
Lemma BuildBackendStatefulSet_key pol master images want :
  BuildBackendStatefulSet gw pol master images = Ok want → key want = child gw (BackendStatefulSetName gw).
Proof. unfold BuildBackendStatefulSet. destruct (_ || _); [done|]. exact (owned_key _ want). Qed.
Lemma BuildFrontendDeployment_key pol master images testing want :
  BuildFrontendDeployment gw pol master images testing = Ok want → key want = child gw (FrontendName gw).
Proof. unfold BuildFrontendDeployment. destruct (_ || _); [done|]. exact (owned_key _ want). Qed.
End keys.

(** Two children of different kinds or names are different objects. *)
Ltac other_child :=
  cbv beta delta [the of_kind orphan_key backend_key_in];
  repeat match goal with
  | |- ¬ _ => intros ?
  | |- _ → _ => intros ?
  | |- ∀ k, _ => intros ?
  | H : _ ∨ _ |- _ => destruct H as [H|H]
  | H : _ ∧ _ |- _ => destruct H as [H _]
  | H : ∃ _, _ |- _ => destruct H as (? & _ & H)
  | H : ?k = (_, _) |- _ => is_var k; subst k
  | H : (_, _).1 = _ |- _ => discriminate H
  | H : (_, _) = (_, _) |- _ =>
      first [discriminate H | injection H as H; apply str_app_inj_l in H; discriminate H]
  | H : _.1 = ?s, H' : _.1 = ?t |- _ => rewrite H in H'; discriminate H'
  end.

Section children.
Context {Ed : Ed25519} (r : GatewayReconciler) (gw : Gateway) (pol : OnionBalancePolicy).
Notation replicas := (obp_Replicas (obp_Spec pol)).
Notation frontend := (child gw (FrontendName gw)).
Notation router := (child gw (RouterRBACName (gw_name gw))).

(** What the frontend and the backends run under. *)
Definition mode_b_network_in_place (c : Cluster) : Prop :=
  in_place (λ x, (svc_Selector x, svc_Ports x)) (BuildBackendHeadlessService gw)
    (child gw (BackendHeadlessServiceName gw)) c ∧
  in_place (λ _, ()) (BuildFrontendServiceAccount gw) frontend c ∧
  in_place ro_Rules (BuildFrontendRole gw pol) frontend c ∧
  in_place (λ x, (rb_RoleRef x, rb_Subjects x)) (BuildFrontendRoleBinding gw) frontend c.
Definition network_keys (k : string * NamespacedName) : Prop :=
  the Service (child gw (BackendHeadlessServiceName gw)) k ∨ the ServiceAccount frontend k ∨
  the Role frontend k ∨ the RoleBinding frontend k.
Lemma network_converges :
  converges (λ _, True) mode_b_network_in_place network_keys network_keys
    (ensureModeBNetworkResources gw pol) (ensureModeBNetworkResources gw pol).
Proof.
  assert (∀ T (m : T → M Cluster error ()) x, keeps (λ _, True) (m x)) as HP by done.
  refine (built_then _ _ _ _ _ _ _ _ _ _ _ ensureHAService_ensures (BuildBackendHeadlessService_key gw) (HP _ _)
    (λ _ _, built_then _ _ _ _ _ _ _ _ _ _ _ ensureHAServiceAccount_ensures (BuildFrontendServiceAccount_key gw) (HP _ _)
    (λ _ _, built_then _ _ _ _ _ _ _ _ _ _ _ ensureHARole_ensures (BuildFrontendRole_key gw pol) (HP _ _)
    (λ _ _, built_wrapped _ _ _ _ _ _ ensureHARoleBinding_ensures (BuildFrontendRoleBinding_key gw)) _) _) _);
    other_child.
Qed.

(** The objects of the mode, as the builders want them for the policies in effect. *)
Definition mode_b_in_place (master : OnionAddress) (policy : EffectiveServicePolicy) (auth : EffectiveClientAuth)
    (c : Cluster) : Prop :=
  Forall (λ i, backend_in_place gw i c) (indices replicas) ∧ mode_b_network_in_place c ∧
  in_place cm_Data (BuildFrontendTorrcConfigMap gw (TestingNetworkInclude r))
    (child gw (FrontendTorrcConfigMapName gw)) c ∧
  in_place cm_Data (BuildBackendTorrcConfigMap gw pol policy auth (TestingNetworkInclude r))
    (child gw (BackendTorrcConfigMapName gw)) c ∧
  router_rbac_in_place gw (Some pol) c ∧
  in_place sts_Spec (BuildBackendStatefulSet gw pol master (Images r)) (child gw (BackendStatefulSetName gw)) c ∧
  (settled c (child gw (BackendStatefulSetName gw)) → no_orphans gw replicas c) ∧
  in_place dep_Spec (BuildFrontendDeployment gw pol master (Images r)
    (negb (bool_decide (TestingNetworkInclude r = "")))) frontend c.

(** [mode_b_objects] up to the NetworkPolicy. *)
Definition mode_b_workloads (master : OnionAddress) : M Cluster error () :=
  let! ss := lift (BuildBackendStatefulSet gw pol master (Images r)) in
  do! wrap (ErrWrap "backend StatefulSet") (ensureHAStatefulSet ss) in
  do! gcBackendSecretsIfSettled gw ss replicas in
  let! d := lift (BuildFrontendDeployment gw pol master (Images r)
                    (negb (bool_decide (TestingNetworkInclude r = "")))) in
  wrap (ErrWrap "frontend Deployment") (ensureHADeployment d).
Definition mode_b_torrc (master : OnionAddress) : M Cluster error () :=
  let! frontendTorrc := lift (BuildFrontendTorrcConfigMap gw (TestingNetworkInclude r)) in
  do! wrap (ErrWrap "frontend torrc ConfigMap") (ensureHAConfigMap frontendTorrc) in
  let! backendPolicy := wrap (ErrWrap "find effective policy for backend torrc") (gets (findEffectivePolicy gw)) in
  let! backendAuth := wrap (ErrWrap "find effective client auth for backend torrc")
                        (gets (findEffectiveClientAuth gw)) in
  let! backendTorrc := lift (BuildBackendTorrcConfigMap gw pol backendPolicy backendAuth
                               (TestingNetworkInclude r)) in
  do! wrap (ErrWrap "backend torrc ConfigMap") (ensureHAConfigMap backendTorrc) in
  do! ensureRouterRBAC gw (Some pol) in
  mode_b_workloads master.
Definition mode_b_children random (master : OnionAddress) : M Cluster error () :=
  do! for_each (λ i, wrap (ErrWrap ("backend Secret " +:+ Itoa i)) (ensureBackendKeySecretForIndex random gw i))
        (indices replicas) in
  do! ensureModeBNetworkResources gw pol in
  mode_b_torrc master.

#[local] Hint Extern 1 (keeps_any (named (T := Secret)) _) => apply mem_keeps_named_other; discriminate : keeps.
#[local] Hint Extern 1 (keeps_any (named (T := Secret)) Secret) => apply mem_keeps_named; exact _ : keeps.
Notation P := (named (T := Secret)).
Lemma keeps_run (m : M Cluster error ()) : keeps P m → ∀ c c', P c → m c = (c', Ok ()) → P c'.
Proof. intros Hm c c' Hc Hr. specialize (Hm c Hc). by rewrite Hr in Hm. Qed.

Definition workloads_keys (k : string * NamespacedName) : Prop :=
  the StatefulSet (child gw (BackendStatefulSetName gw)) k ∨ orphan_key gw replicas k ∨ the Deployment frontend k.
Lemma workloads_converge master :
  converges P (λ c,
    in_place sts_Spec (BuildBackendStatefulSet gw pol master (Images r)) (child gw (BackendStatefulSetName gw)) c ∧
    (settled c (child gw (BackendStatefulSetName gw)) → no_orphans gw replicas c) ∧
    in_place dep_Spec (BuildFrontendDeployment gw pol master (Images r)
      (negb (bool_decide (TestingNetworkInclude r = "")))) frontend c)
    workloads_keys (λ k, the StatefulSet (child gw (BackendStatefulSetName gw)) k ∨ of_kind Secret k ∨ the Deployment frontend k)
    (mode_b_workloads master) (mode_b_workloads master).
Proof.
  set (sts := child gw (BackendStatefulSetName gw)).
  eapply converges_weaken.
  - refine (built_then _ _ _ _ _ sts _ _ _ _ _ ensureHAStatefulSet_ensures
      (BuildBackendStatefulSet_key gw pol master (Images r)) _ (λ ss Hss, _) _).
    + intros want. unfold ensureHAStatefulSet. keeps.
    + pose proof (gc_converges gw ss replicas) as C. rewrite (BuildBackendStatefulSet_key gw pol master _ _ Hss) in C.
      refine (converges_seq (λ _, True) C (built_wrapped _ _ _ _ _ _ ensureHADeployment_ensures
        (BuildFrontendDeployment_key gw pol master (Images r) _)) (λ _ _ _ _, I) _).
      other_child.
    + other_child.
  - done.
  - done.
  - unfold the. tauto.
Qed.

Definition router_keys (k : string * NamespacedName) : Prop :=
  the ServiceAccount router k ∨ the Role router k ∨ the RoleBinding router k.
Definition torrc_keys (k : string * NamespacedName) : Prop :=
  the ConfigMap (child gw (FrontendTorrcConfigMapName gw)) k ∨
  the ConfigMap (child gw (BackendTorrcConfigMapName gw)) k ∨ router_keys k ∨ workloads_keys k.
(** What the steps read and do not write. *)
Definition policy_keys (k : string * NamespacedName) : Prop :=
  of_kind TorServicePolicy k ∨ of_kind TorClientAuthPolicy k.
Lemma torrc_converges master :
  converges P (λ c, in_place cm_Data (BuildFrontendTorrcConfigMap gw (TestingNetworkInclude r))
      (child gw (FrontendTorrcConfigMapName gw)) c ∧
    ∃ policy, findEffectivePolicy gw c = Ok policy ∧ ∃ auth, findEffectiveClientAuth gw c = Ok auth ∧
    in_place cm_Data (BuildBackendTorrcConfigMap gw pol policy auth (TestingNetworkInclude r))
      (child gw (BackendTorrcConfigMapName gw)) c ∧
    router_rbac_in_place gw (Some pol) c ∧
    in_place sts_Spec (BuildBackendStatefulSet gw pol master (Images r)) (child gw (BackendStatefulSetName gw)) c ∧
    (settled c (child gw (BackendStatefulSetName gw)) → no_orphans gw replicas c) ∧
    in_place dep_Spec (BuildFrontendDeployment gw pol master (Images r)
      (negb (bool_decide (TestingNetworkInclude r = "")))) frontend c)
    torrc_keys (λ k, torrc_keys k ∨ policy_keys k ∨ of_kind Secret k)
    (mode_b_torrc master) (mode_b_torrc master).
Proof.
  assert (∀ want, keeps P (ensureHAConfigMap want)) as Hcm by (intros want; unfold ensureHAConfigMap; keeps).
  assert (keeps P (ensureRouterRBAC gw (Some pol))) as Hrbac.
  { unfold ensureRouterRBAC, ensureServiceAccount, ensureRole, ensureRoleBinding, ensureHAServiceAccount,
      ensureHARole, ensureHARoleBinding. keeps. }
  eapply converges_weaken.
  - refine (built_then _ _ _ _ _ _ _ _ _ _ _ ensureHAConfigMap_ensures
      (BuildFrontendTorrcConfigMap_key gw (TestingNetworkInclude r)) Hcm (λ _ _, _) _).
    + refine (converges_gets_wrap _ _ _ _ _ (of_kind TorServicePolicy) _ _ _
        (λ c d Hd, findEffectivePolicy_at c d gw Hd) (λ policy, _) _).
      * refine (converges_gets_wrap _ _ _ _ _ (of_kind TorClientAuthPolicy) _ _ _
          (λ c d Hd, findEffectiveClientAuth_at c d gw Hd) (λ auth, _) _).
        -- refine (built_then _ _ _ _ _ _ _ _ _ _ _ ensureHAConfigMap_ensures
             (BuildBackendTorrcConfigMap_key gw pol policy auth (TestingNetworkInclude r)) Hcm (λ _ _,
              converges_seq _ (router_rbac_converges gw (Some pol) _) (workloads_converge master)
                (keeps_run _ Hrbac) _) _); unfold workloads_keys; other_child.
        -- unfold workloads_keys. other_child.
      * unfold workloads_keys. other_child.
    + unfold workloads_keys. other_child.
  - done.
  - unfold torrc_keys, router_keys, workloads_keys. intros k. tauto.
  - unfold torrc_keys, router_keys, workloads_keys, policy_keys. intros k. tauto.
Qed.

(** The whole pass over the children. *)
Definition children_keys (k : string * NamespacedName) : Prop :=
  backend_key_in gw (indices replicas) k ∨ network_keys k ∨ torrc_keys k.
Lemma children_converge random random' master :
  (replicas ≤ int64_max)%Z → (∀ name, ∃ kp, GenerateKeyPair (random' name) = Ok kp) →
  converges P (λ c, ∃ policy auth, findEffectivePolicy gw c = Ok policy ∧ findEffectiveClientAuth gw c = Ok auth ∧
      mode_b_in_place master policy auth c)
    children_keys (λ k, children_keys k ∨ policy_keys k ∨ of_kind Secret k)
    (mode_b_children random master) (mode_b_children random' master).
Proof.
  intros Hmax Hrandom.
  assert (∀ l, keeps P (for_each (λ i, wrap (ErrWrap ("backend Secret " +:+ Itoa i))
    (ensureBackendKeySecretForIndex random gw i)) l)) as Hb.
  { intros l. unfold ensureBackendKeySecretForIndex, ensureBackendKeySecret. keeps. }
  assert (keeps P (ensureModeBNetworkResources gw pol)) as Hn.
  { unfold ensureModeBNetworkResources, ensureHAService, ensureHAServiceAccount, ensureHARole, ensureHARoleBinding.
    keeps. }
  eapply converges_weaken.
  - refine (converges_seq _ (backend_secrets_converge random random' gw _ _ Hrandom (indices_names gw _ Hmax))
      (converges_seq _ (converges_pre _ network_converges (λ _ _, I)) (torrc_converges master) (keeps_run _ Hn) _)
      (keeps_run _ (Hb _)) _).
    + unfold network_keys, torrc_keys, router_keys, workloads_keys. other_child.
    + intros k Hk [Hw|[Hw|[Hw|[Hw|[Hw|[Hw|Hw]]]]]]; [..|exact (backend_not_orphan gw _ k Hmax Hk Hw)|];
        revert Hk Hw; unfold network_keys, router_keys; other_child.
  - intros c (H1 & H2 & H3 & policy & Hp & auth & Ha & H4). exists policy, auth.
    unfold mode_b_in_place. tauto.
  - unfold children_keys. intros k. tauto.
  - unfold children_keys. intros k. tauto.
Qed.
End children.

(** ** The NetworkPolicy, deleted with the single-pod mode's objects and made again *)
Section recreate.
Context (r : GatewayReconciler) (range : gmap (string * string) ResolvedBackend → list ResolvedBackend) (gw : Gateway).
Notation np := (netpol_key gw).
Definition policy_step : M Cluster error () :=
  let! routes := wrap (ErrWrap "list HTTPRoutes for NetworkPolicy") (gets (routesForGateway gw)) in
  wrap (ErrWrap "NetworkPolicy") (ensureNetworkPolicy r range gw routes).
Lemma policy_step_run (c c' : Cluster) :
  policy_step c = (c', Ok ()) ↔ network_policy r range gw c = (c', Ok ()).
Proof.
  unfold policy_step, network_policy. rewrite !bind_Ok. split.
  - intros (c1 & routes & Hr%wrap_Ok & Hrun%wrap_Ok). eauto.
  - intros (c1 & routes & Hr & Hrun). exists c1, routes. split; by apply wrap_run.
Qed.
Lemma apply_NetworkPolicy_new (want : NetworkPolicy) : ∃ y, ∀ d : Cluster,
  kget (T := NetworkPolicy) d (key want) = Err NotFound →
  apply_NetworkPolicy want d = (put ("NetworkPolicy", key want) (ANetworkPolicy y) d, Ok ()).
Proof.
  eexists. intros d Hd. unfold apply_NetworkPolicy, api. apply wrap_run. cbn. unfold mem_apply.
  change (key {| netpol_meta := blank want; netpol_Spec := None |}) with (key want).
  change (mem_get (T := NetworkPolicy) d (key want) = Err NotFound) in Hd. rewrite Hd.
  rewrite bool_decide_eq_true_2 by reflexivity. unfold mem_create.
  match goal with |- context [mem_get d (key ?x)] => change (key x) with (key want) end. rewrite Hd. reflexivity.
Qed.
(** The same policy from what it is computed from, wherever there is none. *)
Lemma network_policy_new (c c' : Cluster) :
  TorPodNetworkPolicyEnabled r = true → kget (T := NetworkPolicy) c np = Err NotFound →
  network_policy r range gw c = (c', Ok ()) → ∃ y,
  c' = put ("NetworkPolicy", np) (ANetworkPolicy y) c ∧
  ∀ d, agree resolved_from c d → kget (T := NetworkPolicy) d np = Err NotFound →
  network_policy r range gw d = (put ("NetworkPolicy", np) (ANetworkPolicy y) d, Ok ()).
Proof.
  intros Hon Hnone. unfold network_policy, ensureNetworkPolicy. rewrite Hon. cbn [negb].
  intros (c1 & routes & [-> Hroutes]%gets_Ok & Hrun)%bind_Ok.
  apply bind_Ok in Hrun as (c2 & backends & [-> Hback]%gets_Ok & Hrun).
  apply bind_Ok in Hrun as (c3 & want & [= <- Hwant] & Hrun).
  pose proof (BuildNetworkPolicy_key gw _ _ _ _ Hwant) as Hkey. rewrite <- Hkey in *.
  destruct (apply_NetworkPolicy_new want) as [y Hy]. exists y.
  rewrite (Hy c Hnone) in Hrun. split; [by injection Hrun as <-|]. intros d Hd Hnd.
  unfold bind at 1, gets at 1. rewrite (routesForGateway_frame c d gw Hd), Hroutes.
  unfold bind at 1, gets at 1. rewrite (resolveBackends_frame range c d routes Hd), Hback.
  unfold bind at 1, lift. rewrite Hwant. exact (Hy d Hnd).
Qed.

Lemma delete_child_again (c c' : Cluster) (y : NetworkPolicy) :
  objects c !! ("NetworkPolicy", np) = Some (ANetworkPolicy y) → delete_child NetworkPolicy np c = (c', Ok ()) →
  objects c' = delete ("NetworkPolicy", np) (objects c).
Proof.
  intros Hy. unfold delete_child, api, wrap, ignore_not_found. cbn. unfold mem_delete, mem_get.
  change (kind_name (T := NetworkPolicy)) with "NetworkPolicy". rewrite Hy. cbn. by intros [= <-].
Qed.
(** Deleted and made again: the same objects as before. *)
Lemma policy_recreated (c c' : Cluster) :
  policy_step c = (c', Ok ()) → kget (T := NetworkPolicy) c np = Err NotFound →
  agree (λ k, ¬ the NetworkPolicy np k) c c' ∧
  (∀ d, agree (λ k, the NetworkPolicy np k ∨ resolved_from k) c' d → policy_in_place r range gw d) ∧
  ∀ d d1, agree (λ k, the NetworkPolicy np k ∨ resolved_from k) c' d → delete_child NetworkPolicy np d = (d1, Ok ()) →
  ∀ d2, objects d2 = objects d1 → ∃ d', policy_step d2 = (d', Ok ()) ∧ objects d' = objects d.
Proof.
  intros Hrun%policy_step_run Hnone.
  destruct (network_policy_converges r range gw (λ _, True) c c' I Hrun) as [Hf Ha].
  split; [exact Hf|]. split; [intros d Hd; apply (Ha d Hd)|]. intros d d1 Hd Hdel d2 Hd2.
  destruct (Ha c') as [Hin _]; [by intros k _|].
  assert (agree resolved_from c d) as Hreads.
  { intros k Hk. rewrite Hd, Hf; [done| |by right]. intros ->. by destruct Hk as [[=]|[[=]|[=]]]. }
  destruct (delete_child_Ok np d d1 Hdel) as [Hsh Hgone].
  assert (mem_get (T := NetworkPolicy) d2 np = Err NotFound) as Hgone2
    by (rewrite <- Hgone; apply mem_get_at; by rewrite Hd2).
  assert (agree resolved_from d d2) as Hreads2.
  { intros k Hk. rewrite Hd2. apply (shrinks_agree _ _ _ Hsh). intros ->. by destruct Hk as [[=]|[[=]|[=]]]. }
  destruct (TorPodNetworkPolicyEnabled r) eqn:Hon.
  - destruct (network_policy_new c c' Hon Hnone Hrun) as (y & -> & Hy).
    assert (objects d !! ("NetworkPolicy", np) = Some (ANetworkPolicy y)) as Hyd
      by (rewrite Hd by (by left); apply lookup_insert_eq).
    eexists. split; [apply policy_step_run, Hy; [|exact Hgone2]|].
    + intros k Hk. by rewrite Hreads2, Hreads.
    + cbn. rewrite Hd2, (delete_child_again d d1 y Hyd Hdel). by apply insert_delete_id.
  - assert (mem_get (T := NetworkPolicy) d np = Err NotFound) as Hnd.
    { unfold policy_in_place in Hin. rewrite Hon in Hin. rewrite <- Hin. apply (mem_get_at c' d), Hd. by left. }
    assert (delete_child NetworkPolicy np d = (d, Ok ())) as Hn by exact (delete_child_noop np d Hnd).
    rewrite Hn in Hdel. injection Hdel as <-.
    destruct (Ha d2) as [_ (d' & Hr & He)]; [intros k Hk; rewrite Hd2; by apply Hd|].
    exists d'. split; [by apply policy_step_run|congruence].
Qed.
End recreate.

(** ** The account that reads the master key in another namespace *)
Section cross.
Context (gw : Gateway) (pol : OnionBalancePolicy).
Notation ns := (mk_Namespace (obp_MasterKeySecretRef (obp_Spec pol))).
Definition cross_key : NamespacedName := {| nn_Namespace := ns; nn_Name := CrossNSMasterRoleName gw |}.
Notation stale_of T := (listed (T := T) (owner_labels gw) (elsewhere (Some ns))).
(** The objects of an earlier master namespace. *)
Definition stale (c : Cluster) (k : string * NamespacedName) : Prop := stale_of Role c k ∨ stale_of RoleBinding c k.
Definition no_stale (c : Cluster) : Prop :=
  none_listed (T := Role) None (owner_labels gw) (elsewhere (Some ns)) c ∧
  none_listed (T := RoleBinding) None (owner_labels gw) (elsewhere (Some ns)) c.
Definition cross_in_place (c : Cluster) : Prop :=
  in_place ro_Rules (BuildCrossNSMasterRole gw pol) cross_key c ∧
  in_place (λ x, (rb_RoleRef x, rb_Subjects x)) (BuildCrossNSMasterRoleBinding gw pol) cross_key c.
Definition cross_keys (k : string * NamespacedName) : Prop := the Role cross_key k ∨ the RoleBinding cross_key k.

Lemma BuildCrossNSMasterRole_key want : BuildCrossNSMasterRole gw pol = Ok want → key want = cross_key.
Proof. unfold BuildCrossNSMasterRole. destruct (bool_decide _); [done|]. by intros [= <-]. Qed.
Lemma BuildCrossNSMasterRoleBinding_key want : BuildCrossNSMasterRoleBinding gw pol = Ok want → key want = cross_key.
Proof. unfold BuildCrossNSMasterRoleBinding. destruct (bool_decide _); [done|]. by intros [= <-]. Qed.

Definition cross_account : M Cluster error () :=
  let! role := lift (BuildCrossNSMasterRole gw pol) in
  do! wrap (ErrWrap "cross-NS Role") (ensureHARole role) in
  let! rb := lift (BuildCrossNSMasterRoleBinding gw pol) in
  wrap (ErrWrap "cross-NS RoleBinding") (ensureHARoleBinding rb).
Definition delete_stale : M Cluster error () :=
  do! delete_labelled Role gw (Some ns) "stale cross-NS role" in
  delete_labelled RoleBinding gw (Some ns) "stale cross-NS rolebinding".

#[local] Hint Extern 1 (keeps_any cleanable _) =>
  apply keeps_writes_and; [|apply keeps_writes_and];
  first [apply mem_keeps_named; exact _ | apply mem_keeps_named_other; discriminate] : keeps.
Lemma cross_account_converges :
  converges (λ _, True) cross_in_place cross_keys cross_keys cross_account cross_account.
Proof.
  assert (∀ T (m : T → M Cluster error ()) x, keeps (λ _, True) (m x)) as HP by done.
  refine (built_then _ _ _ _ _ _ _ _ _ _ _ ensureHARole_ensures BuildCrossNSMasterRole_key (HP _ _)
    (λ _ _, built_wrapped _ _ _ _ _ _ ensureHARoleBinding_ensures BuildCrossNSMasterRoleBinding_key) _).
  other_child.
Qed.
Lemma cross_account_cleanable (c c' : Cluster) : cleanable c → cross_account c = (c', Ok ()) → cleanable c'.
Proof.
  intros Hc Hr. assert (keeps cleanable cross_account) as Hk
    by (unfold cross_account, ensureHARole, ensureHARoleBinding; keeps).
  specialize (Hk c Hc). by rewrite Hr in Hk.
Qed.
Lemma stale_shrinks D c c' k : shrinks D c c' → stale c' k → stale c k.
Proof. intros Hs [Hk|Hk]; [left|right]; by eapply listed_shrinks. Qed.
Lemma clears_stale : clears cleanable stale no_stale delete_stale.
Proof.
  refine (clears_bind cleanable_shrinks stale_shrinks (clears_labelled gw (Some ns) _ (λ c Hc, proj1 Hc) _)
    (clears_labelled gw (Some ns) _ (λ c Hc, proj1 (proj2 Hc)) _)); intros c k Hk; [left|right]; exact Hk.
Qed.
(** The account itself is not stale. *)
Lemma stale_not_cross (c : Cluster) k : cleanable c → stale c k → ¬ cross_keys k.
Proof.
  intros (H1 & H2 & _) [(k' & a & x & -> & Hx & Ha & _ & He)|(k' & a & x & -> & Hx & Ha & _ & He)] [[= ->]|[= ->]];
    apply He; unfold elsewhere; f_equal.
  - exact (f_equal nn_Namespace (H1 _ _ _ Hx Ha)).
  - exact (f_equal nn_Namespace (H2 _ _ _ Hx Ha)).
Qed.
Lemma stale_before (c c1 : Cluster) k :
  cleanable c1 → agree (λ k, ¬ cross_keys k) c c1 → stale c1 k → stale c k.
Proof.
  intros Hc1 Hf Hk. assert (objects c1 !! k = objects c !! k) as Heq by (apply Hf, (stale_not_cross c1); done).
  destruct Hk as [Hk|Hk]; [left|right]; by eapply listed_at.
Qed.
Lemma in_place_at {T} `{Kind T} {Pl} (payload : T → Pl) b k (c d : Cluster) :
  objects d !! (kind_name (T := T), k) = objects c !! (kind_name (T := T), k) →
  in_place payload b k c → in_place payload b k d.
Proof.
  intros Heq (want & y & Hb & Hk & Hy & Hm). exists want, y. split; [done|]. split; [done|]. split; [|done].
  rewrite <- Hy. by apply (mem_get_at c d).
Qed.

Lemma ensureCrossNSMasterRBAC_parts (c : Cluster) :
  MasterKeyReferenceGrantAllows c pol = Ok true →
  ensureCrossNSMasterRBAC gw pol c = (do! cross_account in delete_stale) c.
Proof.
  intros Hok. unfold ensureCrossNSMasterRBAC. unfold bind at 1, gets at 1. rewrite Hok. cbn [wrap_err negb].
  unfold cross_account, delete_stale. repeat (rewrite bind_assoc; apply bind_ext; intros ? ?). done.
Qed.
Lemma MasterKeyReferenceGrantAllows_at (c d : Cluster) :
  agree (of_kind ReferenceGrant) c d → MasterKeyReferenceGrantAllows d pol = MasterKeyReferenceGrantAllows c pol.
Proof.
  intros Hd. unfold MasterKeyReferenceGrantAllows. f_equal. f_equal. exact (klist_at (T := ReferenceGrant) c d _ _ Hd).
Qed.

Lemma ensureCrossNSMasterRBAC_Ok (c c' : Cluster) :
  cleanable c → ensureCrossNSMasterRBAC gw pol c = (c', Ok ()) →
  cleanable c' ∧ cross_in_place c' ∧ no_stale c' ∧ agree (λ k, ¬ cross_keys k ∧ ¬ stale c k) c c' ∧
  MasterKeyReferenceGrantAllows c' pol = Ok true ∧
  ∀ d, agree (λ k, cross_keys k ∨ of_kind ReferenceGrant k) c' d → no_stale d → ∃ d',
    ensureCrossNSMasterRBAC gw pol d = (d', Ok ()) ∧ objects d' = objects d.
Proof.
  intros Hc Hrun.
  assert (MasterKeyReferenceGrantAllows c pol = Ok true) as Hok.
  { revert Hrun. unfold ensureCrossNSMasterRBAC. unfold bind at 1, gets at 1.
    destruct (MasterKeyReferenceGrantAllows c pol) as [[]|]; [done|discriminate..]. }
  rewrite (ensureCrossNSMasterRBAC_parts c Hok) in Hrun. apply bind_Ok in Hrun as (c1 & [] & Hacc & Hdel).
  destruct (cross_account_converges c c1 I Hacc) as [Hf1 Ha1].
  pose proof (cross_account_cleanable c c1 Hc Hacc) as Hc1.
  destruct (proj2 clears_stale c1 c' Hc1 Hdel) as [Hs Hno].
  assert (agree (λ k, ¬ cross_keys k ∧ ¬ stale c k) c c') as Hf.
  { intros k [Hk Hst]. rewrite <- (Hf1 k Hk). apply (shrinks_agree _ _ _ Hs). intros H1.
    apply Hst. exact (stale_before c c1 k Hc1 Hf1 H1). }
  assert (∀ d, agree cross_keys c' d → agree cross_keys c1 d) as Hback.
  { intros d Hd k Hk. rewrite Hd by done. apply (shrinks_agree _ _ _ Hs). intros H1.
    exact (stale_not_cross c1 k Hc1 H1 Hk). }
  assert (MasterKeyReferenceGrantAllows c' pol = Ok true) as Hok'.
  { rewrite <- Hok. apply MasterKeyReferenceGrantAllows_at. intros k Hk. apply Hf. split.
    - revert Hk. unfold cross_keys. other_child.
    - intros [Hl|Hl]; apply listed_kind in Hl; rewrite Hk in Hl; discriminate Hl. }
  split; [exact (cleanable_shrinks _ _ _ Hs Hc1)|].
  split; [apply (Ha1 c'), Hback; by intros k _|]. split; [exact Hno|]. split; [exact Hf|]. split; [exact Hok'|].
  intros d Hd [N1 N2]. assert (MasterKeyReferenceGrantAllows d pol = Ok true) as Hokd
    by (rewrite <- Hok'; apply MasterKeyReferenceGrantAllows_at; intros k Hk; apply Hd; by right).
  rewrite (ensureCrossNSMasterRBAC_parts d Hokd).
  destruct (Ha1 d) as [_ (d' & Hr & He)]; [apply Hback; intros k Hk; apply Hd; by left|].
  exists d'. split; [|exact He]. eapply bind_run; [exact Hr|]. unfold delete_stale.
  eapply bind_run; apply (delete_labelled_noop gw (Some ns)); eapply none_listed_at; try eassumption;
    intros k a x Hk _; left; by rewrite <- He.
Qed.
End cross.

(** ** The status *)
Lemma parse_int_Itoa z : (0 ≤ z)%Z → parse_int (Itoa z) = Some z.
Proof.
  intros Hz. destruct (Itoa_nonneg z Hz) as (d & Hd & -> & Hv).
  assert (parse_int (NilZero.string_of_uint d) = parse_digits (NilZero.string_of_uint d)) as -> by by destruct d.
  by rewrite parse_digits_uint, Hv.
Qed.

Section status.
Context (r : GatewayReconciler) (error_text : error → string) (master : OnionAddress) (pol : OnionBalancePolicy).
Context (Hmaster : onion_wf master) (Hreplicas : (0 ≤ obp_Replicas (obp_Spec pol) ≤ int64_max)%Z).
Notation replicas := (obp_Replicas (obp_Spec pol)).

(** The Gateway as the mode leaves it: the annotations, and the status of a verdict. *)
Definition verdict_of (now : Z) (gw : Gateway) (verdict : bool * string * string) : Gateway :=
  let '(healthy, reason, message) := verdict in
  with_gw_Status (mode_b_status now gw (OnionAddress_String master)
    (if healthy : bool then ConditionTrue else ConditionFalse) reason message) gw.
Definition announced (forced : bool) (gw : Gateway) : Prop :=
  prev_replicas gw = replicas ∧ (forced = true → annotation gw annPowEmitted = annTrue).

Lemma powForcedOff_at (c d : Cluster) gw :
  agree (of_kind TorServicePolicy) c d → powForcedOff d gw = powForcedOff c gw.
Proof.
  intros Hd. unfold powForcedOff.
  assert (klist (T := TorServicePolicy) d (Some (gw_ns gw)) ∅ = klist c (Some (gw_ns gw)) ∅) as ->
    by exact (klist_at (T := TorServicePolicy) c d _ _ Hd). done.
Qed.
Definition health_keys (gw : Gateway) (k : string * NamespacedName) : Prop :=
  of_kind Secret k ∨ the Deployment (child gw (FrontendName gw)) k.
Lemma modeBHealth_at (c d : Cluster) gw :
  agree (health_keys gw) c d → modeBHealth error_text gw d = modeBHealth error_text gw c.
Proof.
  intros Hd. unfold modeBHealth, countReadyBackends.
  assert (kget (T := Deployment) d (child gw (FrontendName gw)) = kget c (child gw (FrontendName gw))) as ->
    by (apply (mem_get_at (T := Deployment) c d); apply Hd; by right).
  assert (klist (T := Secret) d (Some (gw_ns gw)) (backend_selector gw) =
    klist c (Some (gw_ns gw)) (backend_selector gw)) as ->
    by (apply (klist_at (T := Secret) c d); intros k Hk; apply Hd; by left).
  done.
Qed.

Lemma maybe_event (b : bool) gw t reason message (c : Cluster) : ∃ c',
  (if b then event r gw t reason message else ret ()) c = (c', Ok ()) ∧ objects c' = objects c.
Proof. destruct b; [apply event_run|by exists c]. Qed.
Lemma annotate_last replicas gw :
  (0 ≤ replicas ≤ int64_max)%Z → prev_replicas (annotate annLastReplicas (Itoa replicas) gw) = replicas.
Proof.
  intros Hr. unfold prev_replicas, annotation, annotate.
  change (Annotations (gw_meta (set_annotations ?a gw))) with a. rewrite lookup_insert_eq.
  change (default "" (Some (Itoa replicas))) with (Itoa replicas). rewrite parse_int_Itoa by lia.
  change (default 0%Z (Some replicas)) with replicas. unfold int64_min, int64_max in *. lia.
Qed.
(** After the events: the annotations are written when something is announced. *)
Definition write_announced (gw : Gateway) (forced : bool) : M Cluster error () :=
  if negb (bool_decide (prev_replicas gw = replicas)) || (forced && negb (bool_decide (annotation gw annPowEmitted = annTrue)))
  then write_annotations gw replicas else ret ().
Lemma write_announced_run (gw : Gateway) (c : Cluster) :
  kget c (key gw) = Ok gw → ∃ c' anns,
  write_announced gw (powForcedOff c gw) c = (c', Ok ()) ∧
  kget c' (key gw) = Ok (set_annotations anns gw) ∧ agree (λ k, ¬ the Gateway (key gw) k) c c' ∧
  announced (powForcedOff c gw) (set_annotations anns gw).
Proof.
  intros Hgw. unfold write_announced. destruct (_ || _) eqn:Hw.
  - set (gw1 := annotate annLastReplicas (Itoa replicas) gw).
    set (gw2 := if powForcedOff c gw then annotate annPowEmitted annTrue gw1 else gw1).
    exists (put ("Gateway", key gw) (AGateway gw2) c), (Annotations (gw_meta gw2)).
    assert (set_annotations (Annotations (gw_meta gw2)) gw = gw2) as ->
      by (unfold gw2; destruct (powForcedOff c gw); by destruct gw as [[]]).
    split; [|split; [exact (mem_get_put (T := Gateway) (key gw) gw2 c)|split]].
    + unfold write_annotations. change (retry_on_conflict ?m) with m. unfold bind at 1, read, gets at 1. rewrite Hgw.
      cbn [wrap_err]. unfold bind at 1, gets at 1. unfold bind, api. fold gw1 gw2.
      rewrite (wrap_run _ _ _ (put ("Gateway", key gw) (AGateway gw2) c) gw2); [done|].
      apply (gateway_update gw gw2 c Hgw); unfold gw2; by destruct (powForcedOff c gw).
    + intros k Hk. apply lookup_insert_ne. by intros <-.
    + assert (prev_replicas gw1 = replicas) as H1 by by apply annotate_last. unfold announced, gw2.
      destruct (powForcedOff c gw); [|done]. split; [|intros _].
      * rewrite <- H1. unfold prev_replicas, annotation, annotate.
        change (Annotations (gw_meta (set_annotations ?a ?g))) with a. by rewrite lookup_insert_ne.
      * unfold annotation, annotate. change (Annotations (gw_meta (set_annotations ?a ?g))) with a.
        by rewrite lookup_insert_eq.
  - apply orb_false_iff in Hw as [Hr Hp]. exists c, (Annotations (gw_meta gw)).
    assert (set_annotations (Annotations (gw_meta gw)) gw = gw) as -> by by destruct gw as [[]].
    split; [done|]. split; [exact Hgw|]. split; [by intros k _|]. split; [by bools|].
    intros Hf. rewrite Hf in Hp. cbn [andb] in Hp. by bools.
Qed.

Lemma updateStatusModeB_parts now (gw : Gateway) (c : Cluster) : ∃ c1, objects c1 = objects c ∧
  updateStatusModeB r error_text now gw master pol c =
  (do! write_announced gw (powForcedOff c gw) in
   let! verdict := gets (λ s, Ok (modeBHealth error_text gw s)) in
   let! fresh := read (λ s, kget (T := Gateway) s (key gw)) in
   do! api (kupdate_status (verdict_of now fresh verdict)) in ret ()) c1.
Proof.
  unfold updateStatusModeB. set (replicas := obp_Replicas (obp_Spec pol)).
  destruct (maybe_event (negb (bool_decide (previousOnion gw = "")) &&
    negb (bool_decide (previousOnion gw = OnionAddress_String master))) gw "Normal" "MasterDescriptorChanged"
    ("switched to onionbalance HA — published .onion is now " +:+ OnionAddress_String master) c) as (c1 & H1 & E1).
  unfold bind at 1. rewrite H1.
  destruct (maybe_event (negb (bool_decide (prev_replicas gw = replicas))) gw "Normal" "BackendsRolling"
              ("backend replicas changing " +:+ Itoa (prev_replicas gw) +:+ "→" +:+ Itoa replicas +:+
               "; up to ~15 min until clients see the new pool") c1) as (c2 & H2 & E2).
  unfold bind at 1. rewrite H2. unfold bind at 1, gets at 1.
  rewrite (powForcedOff_at c c2 gw) by (intros k _; by rewrite E2, E1).
  match goal with |- context [if ?b then event ?r ?g ?t ?n ?m else ret ()] =>
    destruct (maybe_event b g t n m c2) as (c3 & H3 & E3) end.
  unfold bind at 1. rewrite H3. exists c3. split; [congruence|].
  unfold write_announced. apply bind_ext. intros [] s. apply bind_ext. intros [[healthy reason] message] s1. reflexivity.
Qed.
Lemma write_announced_again now g verdict forced (c : Cluster) :
  announced forced g → write_announced (verdict_of now g verdict) forced c = (c, Ok ()).
Proof.
  intros [Hr Hp]. unfold write_announced.
  assert (prev_replicas (verdict_of now g verdict) = prev_replicas g ∧
    annotation (verdict_of now g verdict) annPowEmitted = annotation g annPowEmitted) as [-> ->]
    by (by destruct verdict as [[]]).
  rewrite (bool_decide_eq_true_2 _ Hr). destruct forced; [|done]. by rewrite (bool_decide_eq_true_2 _ (Hp eq_refl)).
Qed.
Lemma verdict_again now now' g verdict : verdict_of now' (verdict_of now g verdict) verdict = verdict_of now g verdict.
Proof.
  destruct verdict as [[healthy reason] message]. unfold verdict_of.
  rewrite (mode_b_status_again now now' g master _ reason message Hmaster). by destruct g.
Qed.
Lemma verdict_write now (gw g : Gateway) verdict (c : Cluster) :
  kget c (key gw) = Ok g → key g = key gw →
  (let! fresh := read (λ s, kget (T := Gateway) s (key gw)) in
   do! api (kupdate_status (verdict_of now fresh verdict)) in ret ()) c =
  (put ("Gateway", key gw) (AGateway (verdict_of now g verdict)) c, Ok ()).
Proof.
  intros Hg Hk. unfold bind at 1, read, gets. rewrite Hg. cbn [wrap_err]. unfold bind, api.
  rewrite (wrap_run _ _ _ (put ("Gateway", key gw) (AGateway (verdict_of now g verdict)) c) (verdict_of now g verdict));
    [done|].
  change (kupdate_status (verdict_of now g verdict)) with
    (mem_write (λ x old : Gateway, with_status_of old x) (verdict_of now g verdict)).
  unfold mem_write. assert (key (verdict_of now g verdict) = key gw) as -> by (by destruct verdict as [[]]).
  change (mem_get c (key gw) = Ok g) in Hg. rewrite Hg. destruct verdict as [[h reason] message]. reflexivity.
Qed.

Definition status_keys (gw : Gateway) (k : string * NamespacedName) : Prop :=
  the Gateway (key gw) k ∨ of_kind TorServicePolicy k ∨ health_keys gw k.
(** A run of the step: what it writes, and that writing it again changes nothing. *)
Lemma status_converges now (gw : Gateway) (c c' : Cluster) :
  kget c (key gw) = Ok gw → updateStatusModeB r error_text now gw master pol c = (c', Ok ()) →
  ∃ anns, let gw' := verdict_of now (set_annotations anns gw) (modeBHealth error_text gw c') in
  kget c' (key gw) = Ok gw' ∧ agree (λ k, ¬ the Gateway (key gw) k) c c' ∧
  ∀ now' d, agree (status_keys gw) c' d → ∃ d',
    updateStatusModeB r error_text now' gw' master pol d = (d', Ok ()) ∧ objects d' = objects d.
Proof.
  intros Hgw Hrun. destruct (updateStatusModeB_parts now gw c) as (c1 & E1 & Hparts). rewrite Hparts in Hrun.
  assert (kget c1 (key gw) = Ok gw) as Hgw1
    by (rewrite <- Hgw; apply (mem_get_at (T := Gateway) c c1); by rewrite E1).
  rewrite <- (powForcedOff_at c c1 gw) in Hrun by (intros k _; by rewrite E1).
  destruct (write_announced_run gw c1 Hgw1) as (c2 & anns & Hann & Hgw2 & Hf2 & Hannounced).
  apply bind_Ok in Hrun as (c2' & [] & Hann' & Hrun). rewrite Hann in Hann'. injection Hann' as <-.
  unfold bind at 1, gets at 1 in Hrun. rewrite (verdict_write now gw _ _ c2 Hgw2 eq_refl) in Hrun.
  injection Hrun as <-. set (g := set_annotations anns gw) in *. set (verdict := modeBHealth error_text gw c2).
  set (c' := put _ _ c2).
  assert (agree (λ k, ¬ the Gateway (key gw) k) c c') as Hf.
  { intros k Hk. unfold c'. cbn. rewrite lookup_insert_ne by (intros <-; by apply Hk). by rewrite (Hf2 k Hk), E1. }
  assert (agree (health_keys gw) c2 c') as Hh
    by (intros k [Hk|Hk]; apply lookup_insert_ne; intros <-; [discriminate Hk|discriminate Hk]).
  exists anns. fold g. cbn zeta. rewrite (modeBHealth_at c2 c' gw Hh). fold verdict.
  set (gw' := verdict_of now g verdict). split; [exact (mem_get_put (T := Gateway) (key gw) gw' c2)|].
  split; [exact Hf|]. intros now' d Hd.
  destruct (updateStatusModeB_parts now' gw' d) as (d1 & Ed & Hpd).
  assert (key gw' = key gw) as Hk by (unfold gw'; by destruct verdict as [[]]).
  assert (kget d1 (key gw') = Ok gw') as Hgd.
  { rewrite Hk. transitivity (kget (T := Gateway) c' (key gw));
      [|exact (mem_get_put (T := Gateway) (key gw) gw' c2)].
    apply (mem_get_at (T := Gateway) c' d1). rewrite Ed. apply Hd. by left. }
  exists (put ("Gateway", key gw') (AGateway gw') d1). split.
  - rewrite Hpd. eapply bind_run; [|].
    + assert (powForcedOff d gw' = powForcedOff c1 gw) as ->.
      { transitivity (powForcedOff d gw); [unfold gw'; by destruct verdict as [[]]|].
        apply powForcedOff_at. intros k Hkk. rewrite Hd by (by right; left). rewrite Hf, E1; [done|].
        intros ->. discriminate Hkk. }
      exact (write_announced_again now g verdict _ d1 Hannounced).
    + unfold bind at 1, gets at 1.
      assert (modeBHealth error_text gw' d1 = verdict) as ->.
      { transitivity (modeBHealth error_text gw d1); [unfold gw'; by destruct verdict as [[]]|].
        apply modeBHealth_at. intros k Hkk. rewrite Ed, Hd by (by right; right). by apply Hh. }
      rewrite (verdict_write now' gw' gw' verdict d1 Hgd eq_refl). unfold gw' at 2. by rewrite verdict_again.
  - cbn. rewrite Ed. apply insert_id. rewrite Hk, Hd by (by left). apply lookup_insert_eq.
Qed.
End status.

(** ** The keys of the backends in use are not replaced *)
Section kept.
Context {Ed : Ed25519} (r : GatewayReconciler) (gw : Gateway) (pol : OnionBalancePolicy) (i : Z) (data : gmap string bytes).
Notation replicas := (obp_Replicas (obp_Spec pol)).
Notation k := (child gw (BackendKeySecretName gw i)).
Definition holds_data (o : option any) : Prop :=
  ∃ sec : Secret, o = Some (ASecret sec) ∧ ResourceVersion (sec_meta sec) ≠ "" ∧ sec_Data sec = data.
Definition backend_data (c : Cluster) : Prop := holds_data (objects c !! ("Secret", k)).
Context (Hi : (0 ≤ i < replicas)%Z) (Hmax : (replicas ≤ int64_max)%Z).

Lemma backend_data_writes : keeps_writes backend_data Secret (λ k', k' ≠ k).
Proof. by apply (mem_keeps holds_data). Qed.
#[local] Hint Extern 1 (keeps_any backend_data _) => apply (mem_keeps holds_data); discriminate : keeps.
Lemma ensureBackendKeySecret_data want : keeps backend_data (ensureBackendKeySecret want).
Proof.
  destruct (decide (key want = k)) as [Hk|Hk].
  - intros c Hc. pose proof Hc as (sec & Hsec & Hrv & Hdata).
    unfold ensureBackendKeySecret, api, wrap. cbn. unfold mem_apply.
    change (key {| sec_meta := blank want; sec_Type := ""; sec_Data := ∅ |}) with (key want). rewrite Hk.
    assert (mem_get (T := Secret) c k = Ok sec) as ->
      by (unfold mem_get; change (kind_name (T := Secret)) with "Secret"; by rewrite Hsec).
    destruct (bool_decide (key _ = key _)); [|exact Hc]. eexists. cbn. rewrite lookup_insert_eq.
    split; [reflexivity|]. split; [exact Hrv|]. cbn. by rewrite bool_decide_eq_false_2.
  - unfold ensureBackendKeySecret. apply keeps_api, (keeps_kapply _ _ _ backend_data_writes). exact Hk.
Qed.
Lemma gc_data ss : keeps backend_data (gcBackendSecretsIfSettled gw ss replicas).
Proof.
  unfold gcBackendSecretsIfSettled, gcOrphanBackendSecrets, delete_child. keeps.
  apply (keeps_kdelete _ _ _ backend_data_writes). intros Heq.
  match goal with H : _ ∈ filter _ _ |- _ => apply orphan_filter in H as [_ [_ Ho]] end.
  rewrite Heq in Ho. cbn in Ho. rewrite backendSecretIndex_name in Ho; lia.
Qed.
Lemma children_data random master : keeps backend_data (mode_b_children r gw pol random master).
Proof.
  pose proof ensureBackendKeySecret_data. pose proof gc_data.
  unfold mode_b_children, mode_b_torrc, mode_b_workloads, ensureBackendKeySecretForIndex, ensureModeBNetworkResources,
    ensureRouterRBAC, ensureServiceAccount, ensureRole, ensureRoleBinding, ensureHAConfigMap, ensureHAServiceAccount,
    ensureHARole, ensureHARoleBinding, ensureHAService, ensureHAStatefulSet, ensureHADeployment. keeps.
Qed.
End kept.
