(* ===== verification/SteadyHA.v ===== *)
(** * A reconcile reaches its fixed point (gateway_controller.go, the onionbalance mode)

    The whole [Reconcile] on the in-memory cluster, for a Gateway with an accepted onionbalance
    policy and its master key: the objects of the single-pod mode are gone, those of the
    onionbalance mode are in place, nothing else is changed, and a second reconcile changes
    nothing. *)

From Stdlib Require Import Ascii ZArith.
From S2P Require Import Prelude Monad GoStrings Onion Keys KubeTypes Router Kube Names RefGrant Status Policies.
From S2P Require Import HTTPRouteCtl NetPol Resources ResourcesHA Workloads Client Harvest GatewayCtl GatewayProps.
From S2P Require Import GatewayStatus GatewayGC HarvestProps Converge Deletes Steady ConvergeHA.

(** ** The objects of the single-pod mode *)
Section cleanup.
Context (gw : Gateway).
Notation name := (gw_name gw).
Definition mode_a_names : list (string * NamespacedName) :=
  [("Deployment", child gw (DeploymentName name)); ("Service", child gw (ServiceName name));
   ("Secret", child gw (KeySecretName name)); ("ConfigMap", child gw (TorrcConfigMapName name));
   ("ServiceAccount", child gw (VanityRBACName name)); ("Role", child gw (VanityRBACName name));
   ("RoleBinding", child gw (VanityRBACName name)); ("Secret", child gw (VanityOutSecretName name));
   ("Job", child gw (VanityRBACName name))].
Definition mode_a_absent (c : Cluster) : Prop :=
  absent gw Deployment (DeploymentName name) c ∧ absent gw Service (ServiceName name) c ∧
  absent gw Secret (KeySecretName name) c ∧ absent gw ConfigMap (TorrcConfigMapName name) c ∧
  absent gw ServiceAccount (VanityRBACName name) c ∧ absent gw Role (VanityRBACName name) c ∧
  absent gw RoleBinding (VanityRBACName name) c ∧ absent gw Secret (VanityOutSecretName name) c ∧
  absent gw Job (VanityRBACName name) c.
Definition cleaned (k : string * NamespacedName) : Prop := k ∈ mode_a_names ∨ the NetworkPolicy (netpol_key gw) k.

Ltac named_a := first [right; reflexivity | left; apply list_elem_of_In; cbn; tauto].
Lemma clears_cleanup_a {T} `{Kind T} type n :
  cleaned (kind_name (T := T), child gw n) →
  clears (λ _, True) (λ _, cleaned) (absent gw T n) (cleanup_a T gw type n).
Proof. intros Hn. apply clears_wrap. exact (clears_child (λ _, Hn)). Qed.
Lemma cleanup_a_Ok (c c' : Cluster) :
  cleanupModeAResources gw c = (c', Ok ()) →
  shrinks cleaned c c' ∧ mode_a_absent c' ∧ kget (T := NetworkPolicy) c' (netpol_key gw) = Err NotFound.
Proof.
  pose proof (λ Q1 Q2 m1 m2, clears_bind (Pre := λ _, True) (D := λ _, cleaned) (λ _ _ _ _ _, I) (λ _ _ _ _ _ Hk, Hk)
    (Q1 := Q1) (Q2 := Q2) (m1 := m1) (m2 := m2)) as bind.
  assert (clears (λ _, True) (λ _, cleaned)
    (λ c, mode_a_absent c ∧ absent gw NetworkPolicy (NetworkPolicyName name) c) (cleanupModeAResources gw)) as [_ H].
  { unfold cleanupModeAResources. eapply clears_weaken.
    - repeat first [eapply bind; [apply clears_cleanup_a; named_a|]|apply clears_cleanup_a; named_a].
    - intros c0. unfold mode_a_absent. tauto. }
  intros Hrun. destruct (H c c' I Hrun) as [Hs [Ha Hnp]]. split; [exact Hs|]. split; [exact Ha|]. exact Hnp.
Qed.

(** Again: only the NetworkPolicy is left to delete. *)
Lemma cleanup_a_again (c : Cluster) : mode_a_absent c → ∃ c',
  cleanupModeAResources gw c = (c', Ok ()) ∧ delete_child NetworkPolicy (netpol_key gw) c = (c', Ok ()) ∧
  agree (λ k, ¬ the NetworkPolicy (netpol_key gw) k) c c'.
Proof.
  intros (H1 & H2 & H3 & H4 & H5 & H6 & H7 & H8 & H9).
  assert (∃ c', delete_child NetworkPolicy (netpol_key gw) c = (c', Ok ())) as [c' Hdel].
  { unfold delete_child, api, wrap, ignore_not_found. cbn. unfold mem_delete.
    destruct (mem_get c (netpol_key gw)) as [x|e] eqn:Hget; [by eexists|].
    assert (e = NotFound) as -> by (revert Hget; unfold mem_get; destruct (_ ≫= _); congruence). by eexists. }
  exists c'. destruct (delete_child_Ok (netpol_key gw) c c' Hdel) as [Hs _].
  assert (agree (λ k, ¬ the NetworkPolicy (netpol_key gw) k) c c') as Hf by exact (shrinks_agree _ _ _ Hs).
  assert (∀ T (HT : Object T) (HK : Kind T) type n d, absent gw T n d → cleanup_a T gw type n d = (d, Ok ())) as Hno
    by (intros T HT HK type n d Hd; apply wrap_run; exact (delete_child_noop _ _ Hd)).
  split; [|split; [exact Hdel|exact Hf]]. unfold cleanupModeAResources.
  eapply bind_run; [exact (Hno _ _ _ _ _ _ H1)|]. eapply bind_run; [exact (Hno _ _ _ _ _ _ H2)|].
  eapply bind_run; [exact (Hno _ _ _ _ _ _ H3)|]. eapply bind_run; [exact (Hno _ _ _ _ _ _ H4)|].
  eapply bind_run; [apply wrap_run; exact Hdel|].
  assert (∀ T (HT : Object T) (HK : Kind T) n, kind_name (T := T) ≠ "NetworkPolicy" → absent gw T n c → absent gw T n c')
    as Hstay by (intros T HT HK n Hne; apply absent_at, Hf; intros [= ?]; by apply Hne).
  eapply bind_run; [apply Hno, Hstay; [discriminate|exact H5]|].
  eapply bind_run; [apply Hno, Hstay; [discriminate|exact H6]|].
  eapply bind_run; [apply Hno, Hstay; [discriminate|exact H7]|].
  eapply bind_run; [apply Hno, Hstay; [discriminate|exact H8]|]. apply Hno, Hstay; [discriminate|exact H9].
Qed.
Lemma mode_a_absent_at (c d : Cluster) :
  (∀ k, k ∈ mode_a_names → objects d !! k = objects c !! k) → mode_a_absent c → mode_a_absent d.
Proof.
  intros Hd (H1 & H2 & H3 & H4 & H5 & H6 & H7 & H8 & H9).
  repeat split; (eapply absent_at; [apply Hd, list_elem_of_In; cbn; tauto|assumption]).
Qed.
End cleanup.

(** ** Which objects a pass writes *)
Section writes.
Context (gw : Gateway) (pol : OnionBalancePolicy).
Notation ref := (obp_MasterKeySecretRef (obp_Spec pol)).
Definition master_key : NamespacedName := {| nn_Namespace := master_ns pol; nn_Name := mk_Name ref |}.
Definition cross_needed : bool :=
  negb (bool_decide (mk_Namespace ref = "")) && negb (bool_decide (mk_Namespace ref = gw_ns gw)).
Lemma cross_needed_ns : cross_needed = true → mk_Namespace ref ≠ gw_ns gw.
Proof. unfold cross_needed. rewrite andb_true_iff, !negb_true_iff. by intros [_ ?%bool_decide_eq_false]. Qed.

(** The objects a pass may write or delete, but for the NetworkPolicy: the single-pod mode's, the
    account in the master key's namespace and those of an earlier one, and the children. *)
Definition cross_written (c : Cluster) (k : string * NamespacedName) : Prop :=
  cross_needed = true ∧ (cross_keys gw pol k ∨ stale gw pol c k).
Definition mode_b_writes (c : Cluster) (k : string * NamespacedName) : Prop :=
  cleaned gw k ∨ cross_written c k ∨ children_keys gw pol k ∨ the Gateway (key gw) k.

Lemma orphan_name replicas s : orphan gw replicas (gw_name gw +:+ s) → HasPrefix s "-backend-" = true.
Proof.
  intros [Hi _]. destruct (HasPrefix s "-backend-") eqn:Hp; [done|]. exfalso.
  assert (HasPrefix (gw_name gw +:+ s) (gw_name gw +:+ "-backend-") = false) as Hn.
  { apply not_true_is_false. intros [t Ht]%HasPrefix_true. rewrite <- str_app_assoc in Ht. apply str_app_inj_l in Ht.
    assert (HasPrefix s "-backend-" = true) by (apply HasPrefix_true; by exists t). congruence. }
  unfold backendSecretIndex in Hi. rewrite Hn in Hi. cbn in Hi. lia.
Qed.
Lemma mode_a_not_orphan replicas k : k ∈ mode_a_names gw → ¬ orphan_key gw replicas k.
Proof.
  intros Hk (Hkd & _ & Ho). unfold mode_a_names in Hk. rewrite list_elem_of_In in Hk. cbn [In] in Hk.
  repeat (destruct Hk as [<-|Hk]; [try discriminate Hkd; apply orphan_name in Ho; discriminate Ho|]). done.
Qed.
Ltac children_cases H :=
  unfold children_keys, network_keys, torrc_keys, router_keys, workloads_keys in H;
  repeat match type of H with _ ∨ _ => destruct H as [H|H] end;
  try match type of H with backend_key_in _ _ _ => destruct H as (? & ?%indices_range & H) end; unfold the in H.
Lemma mode_a_not_children k : k ∈ mode_a_names gw → ¬ children_keys gw pol k.
Proof.
  intros Hk Hc.
  assert (¬ orphan_key gw (obp_Replicas (obp_Spec pol)) k) as Ho by by apply mode_a_not_orphan.
  unfold mode_a_names in Hk. rewrite list_elem_of_In in Hk. cbn [In] in Hk.
  children_cases Hc; try done; subst k;
  repeat (destruct Hk as [Hk|Hk]; [first [discriminate Hk | injection Hk as Hk; apply str_app_inj_l in Hk; discriminate Hk]|]);
  done.
Qed.
Lemma children_ns k : children_keys gw pol k → nn_Namespace k.2 = gw_ns gw.
Proof.
  intros Hc. children_cases Hc; try (by rewrite Hc).
  by destruct Hc as (_ & Hns & _).
Qed.
Lemma children_kind k : children_keys gw pol k →
  In k.1 ["Secret"; "Service"; "ServiceAccount"; "Role"; "RoleBinding"; "ConfigMap"; "StatefulSet"; "Deployment"].
Proof.
  intros Hc. children_cases Hc; try (rewrite Hc; cbn; tauto).
  destruct Hc as (Hkd & _). rewrite Hkd. cbn. tauto.
Qed.
Lemma cross_kind k : cross_keys gw pol k → In k.1 ["Role"; "RoleBinding"].
Proof. intros [->| ->]; cbn; tauto. Qed.
Lemma stale_kind c k : stale gw pol c k → In k.1 ["Role"; "RoleBinding"].
Proof. intros [Hk|Hk]; apply listed_kind in Hk; rewrite Hk; cbn; tauto. Qed.
Lemma cleaned_kind k : cleaned gw k →
  In k.1 ["Deployment"; "Service"; "Secret"; "ConfigMap"; "ServiceAccount"; "Role"; "RoleBinding"; "Job"; "NetworkPolicy"].
Proof.
  intros [Hk| ->]; [|cbn; tauto]. unfold mode_a_names in Hk. rewrite list_elem_of_In in Hk. cbn in Hk.
  intuition (subst; cbn; tauto).
Qed.
(** The Secret of the master key is not one of the mode's own. *)
Definition master_apart : Prop :=
  ("Secret", master_key) ∉ mode_a_names gw ∧
  (master_ns pol = gw_ns gw → (backendSecretIndex (mk_Name ref) (gw_name gw) < 0)%Z).
Lemma master_not_written c : (obp_Replicas (obp_Spec pol) ≤ int64_max)%Z → master_apart →
  ¬ mode_b_writes c ("Secret", master_key).
Proof.
  intros Hmax [Ha Hb] [[Hk|[=]]|[[_ [Hk|Hk]]|[Hk|[=]]]]; [done| | |].
  - apply cross_kind in Hk. cbn in Hk. intuition discriminate.
  - apply stale_kind in Hk. cbn in Hk. intuition discriminate.
  - assert (0 ≤ backendSecretIndex (mk_Name ref) (gw_name gw))%Z as Hi.
    { children_cases Hk; try discriminate Hk; [|by destruct Hk as (_ & _ & Ho & _)].
      injection Hk as _ ->. rewrite backendSecretIndex_name; lia. }
    pose proof (children_ns _ Hk) as Hns. specialize (Hb Hns). lia.
Qed.
End writes.

Section pass.
Context {Ed : Ed25519} (r : GatewayReconciler) (error_text : error → string)
  (range : gmap (string * string) ResolvedBackend → list ResolvedBackend) (pol : OnionBalancePolicy).
Notation ref := (obp_MasterKeySecretRef (obp_Spec pol)).
Notation ensure random now := (ensureModeB r random error_text range now).

Definition cross_step (gw : Gateway) : M Cluster error () :=
  if cross_needed gw pol then ensureCrossNSMasterRBAC gw pol else ret ().
Definition cross_done (gw : Gateway) (c : Cluster) : Prop :=
  cross_needed gw pol = true → cross_in_place gw pol c ∧ no_stale gw pol c.
Lemma cross_step_Ok (gw : Gateway) (c c' : Cluster) :
  cleanable c → cross_step gw c = (c', Ok ()) →
  cleanable c' ∧ cross_done gw c' ∧ agree (λ k, ¬ cross_written gw pol c k) c c' ∧
  ∀ d, agree (λ k, cross_needed gw pol = true ∧ (cross_keys gw pol k ∨ of_kind ReferenceGrant k)) c' d →
    cross_done gw d → ∃ d', cross_step gw d = (d', Ok ()) ∧ objects d' = objects d.
Proof.
  unfold cross_step, cross_done, cross_written. destruct (cross_needed gw pol).
  - intros Hc Hrun. destruct (ensureCrossNSMasterRBAC_Ok gw pol c c' Hc Hrun) as (H1 & H2 & H3 & H4 & _ & H6).
    split; [exact H1|]. split; [by intros _|]. split; [intros k Hk; apply H4; tauto|].
    intros d Hd Hdone. apply H6; [intros k Hk; by apply Hd|by apply Hdone].
  - intros Hc [= <-]. split; [exact Hc|]. split; [discriminate|]. split; [by intros k _|]. intros d _ _. by exists d.
Qed.
Lemma cross_written_kind gw c k : cross_written gw pol c k → In k.1 ["Role"; "RoleBinding"].
Proof. intros [_ [Hk|Hk]]; [by apply cross_kind in Hk|by apply stale_kind in Hk]. Qed.

Lemma mode_b_objects_parts random now (gw : Gateway) master (c : Cluster) :
  mode_b_objects r random error_text range now gw pol master c =
  (do! mode_b_children r gw pol random master in
   do! policy_step r range gw in updateStatusModeB r error_text now gw master pol) c.
Proof.
  unfold mode_b_objects, mode_b_children, mode_b_torrc, mode_b_workloads, policy_step.
  repeat (rewrite bind_assoc; apply bind_ext; intros ? ?). done.
Qed.
Lemma ensureModeB_parts random now (gw : Gateway) (sec : Secret) master (c : Cluster) :
  (∀ c1, cross_step gw c = (c1, Ok ()) → kget c1 (master_key pol) = Ok sec) →
  MasterOnionFromSecret (sec_Data sec) = Ok master →
  ensure random now gw pol c =
  (do! cross_step gw in do! mode_b_children r gw pol random master in
   do! policy_step r range gw in updateStatusModeB r error_text now gw master pol) c.
Proof.
  intros Hsec Hmaster. unfold ensureModeB. fold (cross_needed gw pol). fold (cross_step gw).
  apply bind_ext_run. intros c1 [] Hcross. unfold bind at 1. fold (master_key pol).
  rewrite (wrap_run _ _ c1 c1 (Some sec)); [|apply find_Ok; split; [reflexivity|by apply Hsec]].
  unfold bind at 1, lift. rewrite Hmaster. apply mode_b_objects_parts.
Qed.
(** The step before does not write Secrets. *)
Lemma cross_step_secret (gw : Gateway) (sec : Secret) (c c1 : Cluster) :
  cleanable c → kget c (master_key pol) = Ok sec → cross_step gw c = (c1, Ok ()) → kget c1 (master_key pol) = Ok sec.
Proof.
  intros Hc Hsec Hcross. destruct (cross_step_Ok gw c c1 Hc Hcross) as (_ & _ & Hf & _).
  rewrite <- Hsec. apply (mem_get_at (T := Secret) c c1), Hf. intros Hw%cross_written_kind.
  cbn in Hw. intuition discriminate.
Qed.

(** The accounts of the mode are not taken for those of another namespace. *)
Lemma no_stale_kept (gw : Gateway) master policy auth (c c' : Cluster) :
  agree (λ k, ¬ children_keys gw pol k ∧ In k.1 ["Role"; "RoleBinding"]) c c' →
  mode_b_in_place r gw pol master policy auth c' → no_stale gw pol c → no_stale gw pol c'.
Proof.
  intros Hf (_ & (_ & _ & Hfr & Hfb) & _ & _ & (_ & Hrr & Hrb) & _) [N1 N2].
  assert (∀ k : NamespacedName, k = child gw (FrontendName gw) ∨ k = child gw (RouterRBACName (gw_name gw)) ∨
    (k ≠ child gw (FrontendName gw) ∧ k ≠ child gw (RouterRBACName (gw_name gw)))) as Hcases.
  { intros k. destruct (decide (k = child gw (FrontendName gw))); [auto|].
    destruct (decide (k = child gw (RouterRBACName (gw_name gw)))); auto. }
  assert (∀ kd k, In kd ["Role"; "RoleBinding"] → k ≠ child gw (FrontendName gw) →
    k ≠ child gw (RouterRBACName (gw_name gw)) → objects c' !! (kd, k) = objects c !! (kd, k)) as Hother.
  { intros kd k Hkd Hk1 Hk2. apply Hf. split; [|exact Hkd]. intros Hk.
    unfold children_keys, network_keys, torrc_keys, router_keys, workloads_keys, the in Hk. cbn in Hkd.
    destruct Hkd as [<-|[<-|[]]];
      repeat match type of Hk with _ ∨ _ => destruct Hk as [Hk|Hk] end; try discriminate Hk;
      try (injection Hk as ->; congruence);
      [by destruct Hk as (i & _ & [=])|by destruct Hk as ([=] & _)|by destruct Hk as (i & _ & [=])|by destruct Hk as ([=] & _)]. }
  split.
  - eapply none_listed_at; [|exact N1]. intros k a x Hk Ha. destruct (Hcases k) as [->|[->|[Hk1 Hk2]]].
    + right; left. exact (in_place_labels ro_Rules gw _ _ a x {| ro_meta := ha_meta gw _ _; ro_Rules := _ |} c'
        eq_refl eq_refl Hfr Hk Ha).
    + right; left. exact (in_place_labels ro_Rules gw _ _ a x {| ro_meta := child_meta gw _; ro_Rules := _ |} c'
        eq_refl eq_refl Hrr Hk Ha).
    + left. rewrite <- Hk. symmetry. apply Hother; [cbn; tauto|exact Hk1|exact Hk2].
  - eapply none_listed_at; [|exact N2]. intros k a x Hk Ha. destruct (Hcases k) as [->|[->|[Hk1 Hk2]]].
    + right; left. exact (in_place_labels _ gw _ _ a x (role_binding (ha_meta gw _ _) _ _ _) c'
        eq_refl eq_refl Hfb Hk Ha).
    + right; left. exact (in_place_labels _ gw _ _ a x (role_binding (child_meta gw _) _ _ _) c'
        eq_refl eq_refl Hrb Hk Ha).
    + left. rewrite <- Hk. symmetry. apply Hother; [cbn; tauto|exact Hk1|exact Hk2].
Qed.
(** An account kept in place. *)
Lemma cross_in_place_at (gw : Gateway) (c d : Cluster) :
  agree (cross_keys gw pol) c d → cross_in_place gw pol c → cross_in_place gw pol d.
Proof.
  intros Hd [H1 H2]. split; eapply in_place_at; try eassumption; apply Hd; [left|right]; reflexivity.
Qed.
Lemma cross_done_at (gw : Gateway) (c d : Cluster) :
  agree (λ k, In k.1 ["Role"; "RoleBinding"]) c d → cross_done gw c → cross_done gw d.
Proof.
  intros Hd Hc Hn. destruct (Hc Hn) as [Hin [N1 N2]]. split; [|split].
  - apply (cross_in_place_at gw c d); [|exact Hin]. intros k Hk. by apply Hd, (cross_kind gw pol).
  - eapply none_listed_at; [|exact N1]. intros k a x Hk _. left. rewrite <- Hk. symmetry. apply Hd. cbn. tauto.
  - eapply none_listed_at; [|exact N2]. intros k a x Hk _. left. rewrite <- Hk. symmetry. apply Hd. cbn. tauto.
Qed.
Lemma cross_not_child (gw : Gateway) k :
  cross_needed gw pol = true → cross_keys gw pol k → ¬ children_keys gw pol k.
Proof.
  intros Hn%cross_needed_ns Hk Hc%children_ns. apply Hn. by destruct Hk as [->| ->].
Qed.

(** What a pass writes, apart from what it deletes of the other mode. *)
Definition pass_writes (gw : Gateway) (c : Cluster) (k : string * NamespacedName) : Prop :=
  cross_written gw pol c k ∨ children_keys gw pol k ∨ the NetworkPolicy (netpol_key gw) k ∨ the Gateway (key gw) k.
Ltac kinds :=
  repeat match goal with
  | H : children_keys _ _ _ |- _ => apply children_kind in H
  | H : cross_written _ _ _ _ |- _ => apply cross_written_kind in H
  | H : cross_keys _ _ _ |- _ => apply cross_kind in H
  | H : resolved_from _ |- _ => unfold resolved_from in H
  | H : policy_keys _ |- _ => unfold policy_keys in H
  | H : status_keys _ _ |- _ => unfold status_keys, health_keys in H
  | H : _ ∨ _ |- _ => destruct H as [H|H]
  | H : of_kind _ _ |- _ => unfold of_kind in H; cbn in H
  | H : the _ _ _ |- _ => unfold the in H
  | H : ?k = (_, _) |- _ => is_var k; subst k
  end;
  match goal with
  | H : (_, _) = (_, _) |- _ => discriminate H
  | H : In _ _ |- _ => revert H; cbn; intuition congruence
  | H : (_, _).1 = _ |- _ => discriminate H
  | H : ?k.1 = _, H' : ?k.1 = _ |- _ => rewrite H in H'; discriminate H'
  end.

(** The steps of a run, each with what it can have changed. *)
Lemma ensureModeB_steps random now (gw : Gateway) (sec : Secret) master (c c' : Cluster) :
  cleanable c → kget c (key gw) = Ok gw → kget c (master_key pol) = Ok sec →
  MasterOnionFromSecret (sec_Data sec) = Ok master → (obp_Replicas (obp_Spec pol) ≤ int64_max)%Z →
  kget (T := NetworkPolicy) c (netpol_key gw) = Err NotFound → ensure random now gw pol c = (c', Ok ()) →
  ∃ c3 c4 c5,
  (cross_step gw c = (c3, Ok ()) ∧ mode_b_children r gw pol random master c3 = (c4, Ok ()) ∧
   policy_step r range gw c4 = (c5, Ok ()) ∧ updateStatusModeB r error_text now gw master pol c5 = (c', Ok ())) ∧
  agree (λ k, ¬ cross_written gw pol c k) c c3 ∧ agree (λ k, ¬ children_keys gw pol k) c3 c4 ∧
  agree (λ k, ¬ the NetworkPolicy (netpol_key gw) k) c4 c5 ∧
  kget (T := NetworkPolicy) c4 (netpol_key gw) = Err NotFound ∧ kget c5 (key gw) = Ok gw.
Proof.
  intros Hc Hgw Hsec Hm Hr Hnp Hrun.
  rewrite (ensureModeB_parts random now gw sec master c (λ c1, cross_step_secret gw sec c c1 Hc Hsec) Hm) in Hrun.
  apply bind_Ok in Hrun as (c3 & [] & Hcross & Hrun). apply bind_Ok in Hrun as (c4 & [] & Hchildren & Hrun).
  apply bind_Ok in Hrun as (c5 & [] & Hpolicy & Hstatus).
  destruct (cross_step_Ok gw c c3 Hc Hcross) as (Hc3 & _ & Hf3 & _).
  destruct (children_converge r gw pol random (λ _, Ok []) master Hr ltac:(by eexists) c3 c4
    (proj2 (proj2 Hc3)) Hchildren) as [Hf4 _].
  assert (kget (T := NetworkPolicy) c4 (netpol_key gw) = Err NotFound) as Hnp4.
  { rewrite <- Hnp. apply (mem_get_at (T := NetworkPolicy) c c4).
    rewrite Hf4, Hf3; [reflexivity|intros Hk; kinds|intros Hk; kinds]. }
  destruct (policy_recreated r range gw c4 c5 Hpolicy Hnp4) as (Hf5 & _ & _).
  exists c3, c4, c5. split; [auto|]. split; [exact Hf3|]. split; [exact Hf4|]. split; [exact Hf5|].
  split; [exact Hnp4|]. rewrite <- Hgw. apply (mem_get_at (T := Gateway) c c5).
  rewrite Hf5, Hf4, Hf3; [reflexivity|intros Hk; kinds|intros Hk; kinds|discriminate].
Qed.
Lemma ensureModeB_first random now (gw : Gateway) (sec : Secret) master (c c' : Cluster) :
  cleanable c → kget c (key gw) = Ok gw → kget c (master_key pol) = Ok sec →
  MasterOnionFromSecret (sec_Data sec) = Ok master → onion_wf master →
  (0 ≤ obp_Replicas (obp_Spec pol) ≤ int64_max)%Z → kget (T := NetworkPolicy) c (netpol_key gw) = Err NotFound →
  ensure random now gw pol c = (c', Ok ()) →
  ∃ anns policy auth, let gw' := verdict_of master now (set_annotations anns gw) (modeBHealth error_text gw c') in
  kget c' (key gw) = Ok gw' ∧
  (findEffectivePolicy gw c' = Ok policy ∧ findEffectiveClientAuth gw c' = Ok auth) ∧
  mode_b_in_place r gw pol master policy auth c' ∧ cross_done gw c' ∧ policy_in_place r range gw c' ∧
  agree (λ k, ¬ pass_writes gw c k) c c' ∧
  (∀ i data, (0 ≤ i < obp_Replicas (obp_Spec pol))%Z → backend_data gw i data c → backend_data gw i data c') ∧
  ∀ (random' : string → result string bytes) now' d d1 d2, (∀ name, ∃ kp, GenerateKeyPair (random' name) = Ok kp) →
    objects d = objects c' → delete_child NetworkPolicy (netpol_key gw) d = (d1, Ok ()) → objects d2 = objects d1 →
    ∃ d3 d4 d5 d', cross_step gw d2 = (d3, Ok ()) ∧ objects d3 = objects d2 ∧
      mode_b_children r gw pol random' master d3 = (d4, Ok ()) ∧ policy_step r range gw d4 = (d5, Ok ()) ∧
      updateStatusModeB r error_text now' gw' master pol d5 = (d', Ok ()) ∧ objects d' = objects d.
Proof.
  intros Hc Hgw Hsec Hm Hwf Hr Hnp Hrun.
  destruct (ensureModeB_steps random now gw sec master c c' Hc Hgw Hsec Hm (proj2 Hr) Hnp Hrun)
    as (c3 & c4 & c5 & (Hcross & Hchildren & Hpolicy & Hstatus) & Hf3 & Hf4 & Hf5 & Hnp4 & Hgw5). clear Hrun.
  destruct (cross_step_Ok gw c c3 Hc Hcross) as (Hc3 & Hdone3 & _ & Ha3).
  pose proof (λ random' Hrand, proj2 (children_converge r gw pol random random' master (proj2 Hr) Hrand c3 c4
    (proj2 (proj2 Hc3)) Hchildren)) as Hch.
  destruct (policy_recreated r range gw c4 c5 Hpolicy Hnp4) as (_ & Hpin & Hagain5).
  destruct (status_converges r error_text master pol Hwf Hr now gw c5 c' Hgw5 Hstatus) as (anns & Hgw' & Hf6 & Hagain6).
  assert (∀ k, children_keys gw pol k ∨ policy_keys k ∨ of_kind Secret k → objects c' !! k = objects c4 !! k) as H46.
  { intros k Hk. rewrite Hf6, Hf5; [reflexivity|intros Hk'|intros Hk']; kinds. }
  destruct (Hch (λ _, Ok []) ltac:(by eexists) c') as [(policy & auth & Hp & Ha & Hin) _]; [intros k Hk; by apply H46|].
  assert (∀ k, ¬ children_keys gw pol k → k.1 ≠ "NetworkPolicy" → k.1 ≠ "Gateway" → objects c' !! k = objects c3 !! k)
    as H36 by (intros k Hk Hk1 Hk2; rewrite Hf6, Hf5, Hf4; [reflexivity|exact Hk|by intros ->|by intros ->]).
  assert (cross_done gw c') as Hdone'.
  { intros Hn. destruct (Hdone3 Hn) as [Hin3 Hns3]. split.
    - apply (cross_in_place_at gw c3 c'); [|exact Hin3]. intros k Hk.
      apply H36; [by apply cross_not_child|intros Hkd; kinds..].
    - apply (no_stale_kept gw master policy auth c3 c'); [|exact Hin|exact Hns3]. intros k [Hk Hkd].
      apply H36; [exact Hk|intros Hk'; rewrite Hk' in Hkd; cbn in Hkd; intuition discriminate..]. }
  exists anns, policy, auth. cbn zeta. split; [exact Hgw'|]. split; [by split|]. split; [exact Hin|].
  split; [exact Hdone'|]. split; [|split; [|split]].
  - apply Hpin. intros k Hk. apply Hf6. intros Hk'. kinds.
  - intros k Hk. unfold pass_writes in Hk. rewrite Hf6, Hf5, Hf4, Hf3 by tauto. reflexivity.
  - intros i data Hi Hdata. unfold backend_data in *. rewrite Hf6, Hf5 by discriminate.
    pose proof (children_data r gw pol i data Hi (proj2 Hr) random master c3) as Hk. rewrite Hchildren in Hk.
    apply Hk. unfold backend_data. rewrite Hf3; [exact Hdata|intros Hk'; kinds].
  - intros random' now' d d1 d2 Hrand Hd Hdel Hd2.
    assert (∀ k, k.1 ≠ "NetworkPolicy" → objects d2 !! k = objects c' !! k) as Hd2'.
    { intros k Hk. rewrite Hd2, <- Hd. destruct (delete_child_Ok (netpol_key gw) d d1 Hdel) as [Hs _].
      apply (shrinks_agree _ _ _ Hs). by intros ->. }
    destruct (Ha3 d2) as (d3 & Hr3 & E3).
    { intros k [Hn Hk]. rewrite Hd2' by (intros Hkd; kinds). apply H36; [|intros Hkd; kinds..].
      destruct Hk as [Hk|Hk]; [by apply cross_not_child|]. intros Hk'. kinds. }
    { apply (cross_done_at gw c' d2); [|exact Hdone']. intros k Hk. apply Hd2'.
      intros Hkd. rewrite Hkd in Hk. cbn in Hk. intuition discriminate. }
    destruct (Hch random' Hrand d3) as [_ (d4 & Hr4 & E4)].
    { intros k Hk. rewrite E3, Hd2' by (intros Hkd; kinds). by apply H46. }
    destruct (Hagain5 d d1) with (d2 := d4) as (d5 & Hr5 & E5); [|exact Hdel|congruence|].
    { intros k Hk. rewrite Hd. apply Hf6. intros Hk'. kinds. }
    destruct (Hagain6 now' d5) as (d' & Hr6 & E6); [intros k _; congruence|].
    exists d3, d4, d5, d'. split; [exact Hr3|]. split; [exact E3|]. split; [exact Hr4|]. split; [exact Hr5|].
    split; [exact Hr6|congruence].
Qed.

Context (quantity_zero : string → bool)
  (APIReader : option (Cluster → option string → gmap string string → result api_error (list TorServicePolicy))).
Notation reconcile random now := (Gateway_Reconcile r quantity_zero APIReader random error_text range now).

(** A run of [Reconcile] on a managed Gateway that stays and has an accepted onionbalance policy. *)
Lemma Reconcile_mode_b random now (gw : Gateway) (c c1 : Cluster) gw1 :
  kget c (key gw) = Ok gw → gatewayClassManagedByUs (gw_GatewayClassName gw) c = Ok true →
  DeletionTimestamp (gw_meta gw) = None → add_finalizer gw c = (c1, Ok gw1) →
  findEffectiveOnionBalance gw1 c1 = Ok (Some pol, true) →
  reconcile random now (key gw) c =
  (do! cleanupModeAResources gw1 in wrap (ErrWrap "ensure mode B") (ensure random now gw1 pol)) c1.
Proof.
  intros Hgw Hclass Hdel Hfin Hobp. unfold Gateway_Reconcile.
  unfold bind at 1, find at 1. rewrite Hgw. unfold bind at 1, gets at 1. rewrite Hclass. cbn [negb].
  rewrite Hdel. unfold bind at 1. rewrite Hfin. unfold provision. unfold bind at 1, gets at 1. by rewrite Hobp.
Qed.

(** The first run: what it leaves. *)
Lemma reconcile_ha_first random now (gw : Gateway) (sec : Secret) master (c c' : Cluster)
    (Hkeyed : cleanable c) (Hgw : kget c (key gw) = Ok gw)
    (Hclass : gatewayClassManagedByUs (gw_GatewayClassName gw) c = Ok true)
    (Hdel : DeletionTimestamp (gw_meta gw) = None)
    (Hobp : findEffectiveOnionBalance gw c = Ok (Some pol, true))
    (Hsec : kget c (master_key pol) = Ok sec) (Hmaster : MasterOnionFromSecret (sec_Data sec) = Ok master)
    (Hapart : master_apart gw pol) (Hreplicas : (0 ≤ obp_Replicas (obp_Spec pol) ≤ int64_max)%Z)
    (Hrun : reconcile random now (key gw) c = (c', Ok ())) :
  ∃ fs c2, let gw1 := set_finalizers fs gw in FinalizerName ∈ fs ∧
    agree (λ k, ¬ cleaned gw k ∧ k ≠ ("Gateway", key gw)) c c2 ∧ kget c2 (key gw1) = Ok gw1 ∧
    cleanable c2 ∧ kget c2 (master_key pol) = Ok sec ∧ mode_a_absent gw c2 ∧
    kget (T := NetworkPolicy) c2 (netpol_key gw) = Err NotFound ∧
    (∀ k, stale gw pol c2 k → stale gw pol c k) ∧ ensure random now gw1 pol c2 = (c', Ok ()).
Proof.
  destruct (add_finalizer_run gw c Hgw) as (c1 & fs & Hfin & Hgw1 & Hfs & Hf1). set (gw1 := set_finalizers fs gw) in *.
  assert (agree (λ k, k.1 ≠ "Gateway") c c1) as Hoff1
    by (intros k Hk; apply Hf1; intros ->; apply Hk; reflexivity).
  assert (findEffectiveOnionBalance gw1 c1 = Ok (Some pol, true)) as Hobp1.
  { rewrite <- Hobp. apply (findEffectiveOnionBalance_at c c1 gw). intros k Hk. apply Hoff1. rewrite Hk. discriminate. }
  rewrite (Reconcile_mode_b random now gw c c1 gw1 Hgw Hclass Hdel Hfin Hobp1) in Hrun.
  apply bind_Ok in Hrun as (c2 & [] & Hclean & Hrun%wrap_Ok).
  destruct (cleanup_a_Ok gw c1 c2 Hclean) as (Hs & Habs & Hnp). exists fs, c2. cbn zeta. fold gw1.
  assert (agree (λ k, ¬ cleaned gw k ∧ k ≠ ("Gateway", key gw)) c c2) as Hf.
  { intros k [Hk Hne]. rewrite (shrinks_agree _ _ _ Hs k Hk). by apply Hf1. }
  split; [exact Hfs|]. split; [exact Hf|]. split; [|split; [|split; [|split; [exact Habs|split; [exact Hnp|split]]]]].
  - rewrite <- Hgw1. apply (mem_get_at (T := Gateway) c1 c2), (shrinks_agree _ _ _ Hs).
    intros Hk%cleaned_kind. cbn in Hk. intuition discriminate.
  - exact (cleanable_shrinks _ _ _ Hs (cleanable_at c c1 Hoff1 Hkeyed)).
  - rewrite <- Hsec. apply (mem_get_at (T := Secret) c c2), Hf. split; [|discriminate].
    intros Hk. apply (master_not_written gw pol c (proj2 Hreplicas) Hapart). by left.
  - intros k Hk%(stale_shrinks gw pol _ _ _ k Hs).
    assert (objects c1 !! k = objects c !! k) as Heq
      by (apply Hoff1; intros Hkd; apply stale_kind in Hk; rewrite Hkd in Hk; cbn in Hk; intuition discriminate).
    destruct Hk as [Hk|Hk]; [left|right]; by eapply listed_at.
  - exact Hrun.
Qed.

(** The second run: nothing is left to do. *)
Lemma reconcile_ha_again random now (gw : Gateway) (sec : Secret) master (d d2 d3 d4 d5 d' : Cluster) :
  kget d (key gw) = Ok gw → gatewayClassManagedByUs (gw_GatewayClassName gw) d = Ok true →
  DeletionTimestamp (gw_meta gw) = None → findEffectiveOnionBalance gw d = Ok (Some pol, true) →
  has_finalizer gw = true → cleanupModeAResources gw d = (d2, Ok ()) → kget d2 (master_key pol) = Ok sec →
  MasterOnionFromSecret (sec_Data sec) = Ok master → cross_step gw d2 = (d3, Ok ()) → objects d3 = objects d2 →
  mode_b_children r gw pol random master d3 = (d4, Ok ()) → policy_step r range gw d4 = (d5, Ok ()) →
  updateStatusModeB r error_text now gw master pol d5 = (d', Ok ()) →
  reconcile random now (key gw) d = (d', Ok ()).
Proof.
  intros Hgw Hclass Hdel Hobp Hfin Hclean Hsec Hm Hcross Hd3 Hch Hpol Hst.
  assert (add_finalizer gw d = (d, Ok gw)) as Hadd by (unfold add_finalizer; by rewrite Hfin).
  rewrite (Reconcile_mode_b random now gw d d gw Hgw Hclass Hdel Hadd Hobp).
  eapply bind_run; [exact Hclean|]. apply wrap_run.
  rewrite (ensureModeB_parts random now gw sec master d2); [|intros c1 Hc1|exact Hm].
  - eapply bind_run; [exact Hcross|]. eapply bind_run; [exact Hch|]. eapply bind_run; [exact Hpol|exact Hst].
  - rewrite Hcross in Hc1. injection Hc1 as <-. rewrite <- Hsec. apply (mem_get_at (T := Secret) d2 d3). by rewrite Hd3.
Qed.
Lemma master_onion_wf data master : MasterOnionFromSecret data = Ok master → onion_wf master.
Proof.
  unfold MasterOnionFromSecret. intros (kp & Hv & [= <-])%rbind_Ok.
  assert (keypair_wf kp) as Hwf.
  { revert Hv. unfold ValidateMasterKeySecret. destruct (_ =? 0) in |- *; [done|]. destruct (_ =? 0) in |- *; [done|]. cbn.
    intros (kp' & Hp & Hv)%rbind_Ok. assert (kp' = kp) as ->
      by (destruct (clamped_base_mult _); [destruct (bool_decide _)|]; by simplify_eq/=).
    destruct (ParseFiles _ _) eqn:Hpf; [|done]. injection Hp as ->. by apply ParseFiles_Ok in Hpf as [? _]. }
  rewrite (KeyPair_OnionAddress_wf _ Hwf). exact (proj1 Hwf).
Qed.
(** A policy that names the Gateway's own key Secret loses it. *)
Lemma own_key_as_master_deleted (gw : Gateway) (c c' : Cluster) :
  master_key pol = keys_key gw → cleanupModeAResources gw c = (c', Ok ()) →
  kget (T := Secret) c' (master_key pol) = Err NotFound.
Proof. intros -> Hrun. destruct (cleanup_a_Ok gw c c' Hrun) as (_ & (_ & _ & Hsec & _) & _). exact Hsec. Qed.
Lemma mode_a_not_stale (gw : Gateway) (c : Cluster) k :
  mode_a_absent gw c → k ∈ mode_a_names gw → ¬ stale gw pol c k.
Proof.
  intros (_ & _ & _ & _ & _ & Hro & Hrb & _) Hk Hst. unfold mode_a_names in Hk. rewrite list_elem_of_In in Hk.
  destruct Hst as [(k' & a & x & -> & Hx & Ha & _)|(k' & a & x & -> & Hx & Ha & _)]; cbn in Hk;
    repeat (destruct Hk as [Hk|Hk]; [try discriminate Hk; injection Hk as <-|]); try done.
  - pose proof (mem_get_stored c _ a x Hx Ha) as Hg. unfold absent in Hro. congruence.
  - pose proof (mem_get_stored c _ a x Hx Ha) as Hg. unfold absent in Hrb. congruence.
Qed.
Lemma read_kind_not_written (gw : Gateway) (c : Cluster) k : read_kind k → ¬ mode_b_writes gw pol c k.
Proof.
  unfold read_kind. intros Hk [Hw|[Hw|[Hw|Hw]]].
  - apply cleaned_kind in Hw. revert Hk Hw. cbn. intuition congruence.
  - apply cross_written_kind in Hw. revert Hk Hw. cbn. intuition congruence.
  - apply children_kind in Hw. revert Hk Hw. cbn. intuition congruence.
  - rewrite Hw in Hk. cbn in Hk. intuition discriminate.
Qed.
(** Where the pass left the objects of the other mode. *)
Lemma mode_a_not_written (gw : Gateway) (c : Cluster) k :
  mode_a_absent gw c → k ∈ mode_a_names gw → ¬ pass_writes gw c k.
Proof.
  intros Habs Hk [[Hn [Hw|Hw]]|[Hw|[Hw|Hw]]].
  - apply (cross_needed_ns gw pol Hn). unfold mode_a_names in Hk. rewrite list_elem_of_In in Hk. cbn in Hk.
    destruct Hw as [-> | ->]; repeat (destruct Hk as [Hk|Hk]; [by injection Hk|]); done.
  - exact (mode_a_not_stale gw c k Habs Hk Hw).
  - exact (mode_a_not_children gw pol k Hk Hw).
  - rewrite Hw in Hk. unfold mode_a_names in Hk. rewrite list_elem_of_In in Hk. cbn in Hk. intuition discriminate.
  - rewrite Hw in Hk. unfold mode_a_names in Hk. rewrite list_elem_of_In in Hk. cbn in Hk. intuition discriminate.
Qed.

(** C5.  A reconcile of the onionbalance mode reaches its fixed point.  Take a managed Gateway with
    an accepted OnionBalancePolicy and a readable master key, in any cluster: the objects of either
    mode may be missing, stale or edited.  If a reconcile succeeds, the master address is the one
    onion address published, the Secret of every backend, the frontend, the backends, their accounts
    and configuration and the NetworkPolicy are what the builders want for the policies in effect,
    no Secret of an unused index is left once the StatefulSet has settled, and no backend key that
    was there has been replaced; the account that reads a master key in another namespace is there
    and nowhere else; the single-pod mode's own objects are gone, and no other object of the
    cluster was changed.  A reconcile of the result, at any later time and with any working source
    of randomness, succeeds and changes nothing. *)
Theorem reconcile_ha_converges random now (gw : Gateway) (sec : Secret) master (c c' : Cluster)
    (Hkeyed : cleanable c) (Hgw : kget c (key gw) = Ok gw)
    (Hclass : gatewayClassManagedByUs (gw_GatewayClassName gw) c = Ok true)
    (Hdel : DeletionTimestamp (gw_meta gw) = None)
    (Hobp : findEffectiveOnionBalance gw c = Ok (Some pol, true))
    (Hsec : kget c (master_key pol) = Ok sec) (Hmaster : MasterOnionFromSecret (sec_Data sec) = Ok master)
    (Hapart : master_apart gw pol) (Hreplicas : (0 ≤ obp_Replicas (obp_Spec pol) ≤ int64_max)%Z)
    (Hrun : reconcile random now (key gw) c = (c', Ok ())) :
  ∃ gw' policy auth,
    kget c' (key gw) = Ok gw' ∧ has_finalizer gw' = true ∧
    filter is_onion (gs_Addresses (gw_Status gw')) = [onion_address (OnionAddress_String master)] ∧
    kget c' (master_key pol) = Ok sec ∧
    findEffectivePolicy gw c = Ok policy ∧ findEffectiveClientAuth gw c = Ok auth ∧
    mode_b_in_place r gw pol master policy auth c' ∧ policy_in_place r range gw c' ∧ cross_done gw c' ∧
    (∀ i data, (0 ≤ i < obp_Replicas (obp_Spec pol))%Z → backend_data gw i data c → backend_data gw i data c') ∧
    mode_a_absent gw c' ∧ (∀ k, ¬ mode_b_writes gw pol c k → objects c' !! k = objects c !! k) ∧
    ∀ random' now' d, (∀ name, ∃ kp, GenerateKeyPair (random' name) = Ok kp) → objects d = objects c' →
      ∃ d', reconcile random' now' (key gw) d = (d', Ok ()) ∧ objects d' = objects d.
Proof.
  destruct (reconcile_ha_first random now gw sec master c c' Hkeyed Hgw Hclass Hdel Hobp Hsec Hmaster Hapart Hreplicas Hrun)
    as (fs & c2 & Hfs & Hf & Hgw2 & Hc2 & Hsec2 & Habs & Hnp & Hstale & Hrun2). clear Hrun.
  set (gw1 := set_finalizers fs gw) in *.
  pose proof (master_onion_wf _ _ Hmaster) as Hwf.
  destruct (ensureModeB_first random now gw1 sec master c2 c' Hc2 Hgw2 Hsec2 Hmaster Hwf Hreplicas Hnp Hrun2)
    as (anns & policy & auth & Hgw' & (Hp & Ha) & Hin & Hdone & Hpol & Hf2 & Hdata & Hagain). clear Hrun2.
  destruct (modeBHealth error_text gw1 c') as [[healthy reason] message] eqn:Hverdict.
  set (gw' := verdict_of _ _ _ _) in *. cbn zeta in Hagain, Hgw'.
  assert (∀ k, ¬ mode_b_writes gw pol c k → objects c' !! k = objects c !! k) as Hall.
  { intros k Hk. rewrite Hf2, Hf; [reflexivity| |].
    - split; [intros Hw; apply Hk; by left|intros Hw; apply Hk; by do 3 right].
    - intros [[Hn [Hw|Hw]]|[Hw|[Hw|Hw]]]; apply Hk.
      + right; left. split; [exact Hn|by left].
      + right; left. split; [exact Hn|right; exact (Hstale k Hw)].
      + by do 2 right; left.
      + by left; right.
      + by do 3 right. }
  assert (agree read_kind c c') as Hreads by (intros k Hk; apply Hall, read_kind_not_written, Hk).
  assert (mode_a_absent gw c') as Habs'.
  { apply (mode_a_absent_at gw c2 c'); [|exact Habs]. intros k Hk. apply Hf2. exact (mode_a_not_written gw c2 k Habs Hk). }
  assert (kget c' (master_key pol) = Ok sec) as Hsec'.
  { rewrite <- Hsec. apply (mem_get_at (T := Secret) c c'), Hall. exact (master_not_written gw pol c (proj2 Hreplicas) Hapart). }
  exists gw', policy, auth. split; [exact Hgw'|]. split; [apply bool_decide_eq_true; exact Hfs|]. split.
  { apply (replace_onions_spec (onion_address (OnionAddress_String master)) false), OnionAddress_suffix, Hwf. }
  split; [exact Hsec'|].
  split; [rewrite <- Hp; symmetry; apply (findEffectivePolicy_at c c' gw); reads_only Hreads|].
  split; [rewrite <- Ha; symmetry; apply (findEffectiveClientAuth_at c c' gw); reads_only Hreads|].
  split; [exact Hin|]. split; [exact Hpol|]. split; [exact Hdone|]. split.
  { intros i data Hi Hd. apply Hdata; [exact Hi|]. unfold backend_data in *. rewrite Hf; [exact Hd|].
    split; [|discriminate]. intros [Hk|[=]]. apply (mode_a_not_children gw pol _ Hk). left.
    exists i. split; [by apply indices_range|reflexivity]. }
  split; [exact Habs'|]. split; [exact Hall|]. intros random' now' d Hrand Hd.
  assert (∀ T (HT : Object T) (HK : Kind T) k, mem_get (T := T) d k = mem_get c' k) as Hget
    by (intros T HT HK k; apply mem_get_at; by rewrite Hd).
  destruct (cleanup_a_again gw d) as (d2 & Hclean & Hdelnp & Hfd).
  { apply (mode_a_absent_at gw c' d); [intros k _; by rewrite Hd|exact Habs']. }
  destruct (Hagain random' now' d d2 d2 Hrand Hd Hdelnp eq_refl) as (d3 & d4 & d5 & d' & Hr3 & E3 & Hr4 & Hr5 & Hr6 & E6).
  exists d'. split; [|exact E6].
  refine (reconcile_ha_again random' now' gw' sec master d d2 d3 d4 d5 d' _ _ Hdel _ _ Hclean _ Hmaster Hr3 E3 Hr4 Hr5 Hr6).
  - rewrite <- Hgw'. apply Hget.
  - rewrite <- Hclass. apply (managed_at c d). intros k Hk. rewrite Hd. revert k Hk. reads_only Hreads.
  - rewrite <- Hobp. apply (findEffectiveOnionBalance_at c d gw). intros k Hk. rewrite Hd. revert k Hk. reads_only Hreads.
  - apply bool_decide_eq_true. exact Hfs.
  - rewrite <- Hsec'. transitivity (kget (T := Secret) d (master_key pol)); [|apply Hget].
    apply (mem_get_at (T := Secret) d d2), Hfd. discriminate.
Qed.
End pass.

(** A Gateway moving to the onionbalance mode: its policy is accepted, its master key is in another
    namespace that grants it, its Service of the single-pod mode is still there, and so is an
    account in the namespace the master key was in before; the backend has its key already. *)
Definition ha_obp : OnionBalancePolicy := {|
  obp_meta := new_meta "ob" "tor" ∅;
  obp_Spec := {| obp_TargetRefs := [target "onion"]; obp_Replicas := 1; obp_RefreshInterval := 600000000000;
                 obp_MasterKeySecretRef := {| mk_Name := "master"; mk_Namespace := "vault" |};
                 obp_BackendResources := None; obp_FrontendResources := None |};
  obp_Status := {| obp_Ancestors := [{|
    as_AncestorRef := {| pr_Group := Some GatewayAPIGroup; pr_Kind := Some GatewayKind; pr_Namespace := Some "tor";
                         pr_Name := "onion"; pr_SectionName := None |};
    as_ControllerName := ControllerName;
    as_Conditions := [{| c_Type := "Accepted"; c_Status := ConditionTrue; c_Reason := "Accepted"; c_Message := "";
                         c_ObservedGeneration := 0; c_LastTransitionTime := 0 |}] |}]; obp_ReadyBackends := 0 |} |}.
Definition vault_master : Secret := {|
  sec_meta := new_meta "master" "vault" ∅; sec_Type := "Opaque"; sec_Data := key_files zero_pair |}.
Definition vault_grant : ReferenceGrant := {|
  rg_meta := new_meta "grant" "vault" ∅;
  rg_From := [{| f_Group := "policy.torgateway.io"; f_Kind := "OnionBalancePolicy"; f_Namespace := "tor" |}];
  rg_To := [{| t_Group := ""; t_Kind := "Secret"; t_Name := Some "master" |}] |}.
Definition stale_role : Role := {|
  ro_meta := cross_ns_meta example_gateway "attic"; ro_Rules := [secrets_rule ["get"] ["master"]] |}.
Definition own_backend : Secret := {|
  sec_meta := {| Name := BackendKeySecretName example_gateway 0; Namespace := "tor"; UID := "uid-9";
                 ResourceVersion := "4"; Generation := 0; Labels := ∅; Annotations := ∅; OwnerReferences := [];
                 Finalizers := []; DeletionTimestamp := None |};
  sec_Type := "Opaque"; sec_Data := key_files zero_pair |}.
Definition moving_cluster : Cluster :=
  cluster [obj example_class; obj example_gateway; obj ha_obp; obj vault_master; obj vault_grant; obj edited_service;
           obj stale_role; obj own_backend].
Lemma moving_cleanable : cleanable moving_cluster.
Proof.
  repeat split; intros k a x; unfold moving_cluster, cluster; cbn; rewrite !lookup_insert_Some;
    intros Hk Ha; repeat (destruct Hk as [[[=] <-]|[_ Hk]]); try discriminate Hk; subst; by injection Ha as <-.
Qed.
Lemma reconcile_ha_converges_witness : ∃ c' gw' sec,
  let reconcile := Gateway_Reconcile example_reconciler (λ _, false) None (λ _, Ok zero_key) no_text map_range in
  reconcile 7%Z onion_key moving_cluster = (c', Ok ()) ∧
  kget c' onion_key = Ok gw' ∧ filter is_onion (gs_Addresses (gw_Status gw')) =
    [onion_address (OnionAddress_String (KeyPair_OnionAddress zero_pair))] ∧
  kget (T := Service) moving_cluster (key edited_service) = Ok edited_service ∧
  kget (T := Service) c' (key edited_service) = Err NotFound ∧
  kget (T := Role) c' (key stale_role) ≠ Ok stale_role ∧
  objects c' !! ("Secret", key own_backend) = Some (ASecret sec) ∧ sec_Data sec = key_files zero_pair ∧
  ∃ d', reconcile 8%Z onion_key c' = (d', Ok ()) ∧ objects d' = objects c'.
Proof.
  cbn zeta.
  assert ((Gateway_Reconcile example_reconciler (λ _, false) None (λ _, Ok zero_key) no_text map_range 7 onion_key
    moving_cluster).2 = Ok ()) as Hok by (vm_compute; reflexivity).
  destruct (Gateway_Reconcile _ _ _ _ _ _ _ _ _) as [c' res] eqn:Hrun. cbn in Hok. subst res.
  destruct (reconcile_ha_converges example_reconciler no_text map_range ha_obp (λ _, false) None (λ _, Ok zero_key) 7
    example_gateway vault_master (KeyPair_OnionAddress zero_pair) moving_cluster c' moving_cleanable eq_refl
    ltac:(vm_compute; reflexivity) eq_refl ltac:(vm_compute; reflexivity) eq_refl ltac:(vm_compute; reflexivity)
    ltac:(split; [intros Hk; rewrite list_elem_of_In in Hk; cbn in Hk; intuition discriminate|discriminate])
    ltac:(cbn; unfold int64_max; lia) Hrun)
    as (gw' & policy & auth & Hgw & _ & Haddr & _ & _ & _ & _ & _ & Hcross & Hdata & (_ & Hsvc & _) & _ & Hagain).
  destruct (Hdata 0%Z (key_files zero_pair)) as (sec & Hsec & _ & Hd); 
    [cbn; lia|exists own_backend; split; [reflexivity|split; [discriminate|reflexivity]]|].
  destruct (Hcross eq_refl) as [_ [Hno _]].
  exists c', gw', sec. split; [reflexivity|]. split; [exact Hgw|]. split; [exact Haddr|]. split; [reflexivity|].
  split; [exact Hsvc|]. split.
  { intros Hro. refine (none_listed_get (T := Role) _ _ _ c' (key stale_role) stale_role Hno Hro _ _ _);
      [discriminate|reflexivity|discriminate]. }
  split; [exact Hsec|]. split; [exact Hd|]. exact (Hagain (λ _, Ok zero_key) 8%Z c' (λ _, ex_intro _ _ eq_refl) eq_refl).
Defined.
