(* ===== verification/Footprint.v ===== *)
(** * What a reconcile can touch (gateway_controller.go)

    The operator may write every Secret, Role and workload of the cluster.  This file bounds what
    one [Reconcile] does with that: whatever happens in it, and however it ends, it changes
    objects of its own Gateway only. *)

From Stdlib Require Import Ascii ZArith.
From S2P Require Import Prelude Monad GoStrings Onion Keys KubeTypes Router Kube Names RefGrant Status Policies.
From S2P Require Import HTTPRouteCtl NetPol Resources ResourcesHA Workloads Client Harvest GatewayCtl GatewayProps.
From S2P Require Import GatewayGC HarvestProps Converge Deletes Steady ConvergeHA SteadyHA.

(** ** Going through a handler with what was read *)
Section rules.
Context {S : Type} (P : S → Prop).
Lemma keeps_bind_post {E A B} (R : A → Prop) (m : M S E A) (f : A → M S E B) :
  keeps P m → (∀ s s' a, P s → m s = (s', Ok a) → R a) → (∀ a, R a → keeps P (f a)) → keeps P (bind m f).
Proof.
  intros Hm HR Hf s Hs. unfold bind. specialize (Hm s Hs). specialize (HR s).
  destruct (m s) as [s' [a|e]] eqn:Hr; [|exact Hm]. exact (Hf a (HR s' a Hs eq_refl) s' Hm).
Qed.
Lemma keeps_lift_bind {E A B} (b : result E A) (f : A → M S E B) :
  (∀ a, b = Ok a → keeps P (f a)) → keeps P (bind (lift b) f).
Proof.
  intros Hf. apply (keeps_bind_post (λ a, b = Ok a)); [apply keeps_lift| |exact Hf].
  intros s s' a _ [= _ Hb]. exact Hb.
Qed.
Lemma keeps_gets_bind {E A B} (r : S → result E A) (f : A → M S E B) :
  (∀ s a, P s → r s = Ok a → keeps P (f a)) → keeps P (bind (gets r) f).
Proof.
  intros Hf. apply (keeps_bind_post (λ a, ∃ s, P s ∧ r s = Ok a)); [apply keeps_gets| |].
  - intros s s' a Hs [-> Ha]%gets_Ok. eauto.
  - intros a (s & Hs & Ha). eauto.
Qed.
Lemma keeps_read_bind {A B} (r : S → result api_error A) (f : A → M S error B) :
  (∀ s a, P s → r s = Ok a → keeps P (f a)) → keeps P (bind (read r) f).
Proof.
  intros Hf. apply keeps_gets_bind. intros s a Hs Ha. destruct (r s) eqn:Hr; [|discriminate Ha].
  injection Ha as <-. eauto.
Qed.
Lemma keeps_find_bind {T} `{Store S T} {B} k (f : option T → M S error B) :
  keeps P (f None) → (∀ s x, P s → kget s k = Ok x → keeps P (f (Some x))) → keeps P (bind (find k) f).
Proof.
  intros Hn Hf. apply (keeps_bind_post (λ o, o = None ∨ ∃ s x, P s ∧ kget s k = Ok x ∧ o = Some x)).
  - apply keeps_find.
  - intros s s' o Hs [-> Ho]%find_Ok. destruct o as [x|]; [right; eauto|by left].
  - intros o [->|(s & x & Hs & Hx & ->)]; eauto.
Qed.
End rules.

#[global] Instance Job_lawful : LawfulKind Job.
Proof. split; done. Qed.

(** ** The footprint of a Gateway *)
(** A Gateway but for what the operator edits: its finalizers, annotations and status. *)
Definition unedited (gw : Gateway) : Gateway :=
  with_gw_Status {| gs_Addresses := []; gs_Conditions := []; gs_Listeners := [] |}
    (set_annotations ∅ (set_finalizers [] gw)).
Lemma unedited_key gw gw1 : unedited gw1 = unedited gw → key gw1 = key gw.
Proof. intros Heq. change (key (unedited gw1) = key (unedited gw)). by rewrite Heq. Qed.
Lemma unedited_status (gw x : Gateway) : unedited (with_status_of gw x) = unedited gw.
Proof. reflexivity. Qed.
Section footprint.
Context (gw : Gateway).
Notation name := (gw_name gw).
(** The objects named after the Gateway, in its namespace, and the Gateway. *)
Definition own_names : list (string * NamespacedName) :=
  mode_a_names gw ++ mode_b_names gw ++
  [("ServiceAccount", child gw (RouterRBACName name)); ("Role", child gw (RouterRBACName name));
   ("RoleBinding", child gw (RouterRBACName name)); ("NetworkPolicy", netpol_key gw); ("Gateway", key gw)].
Definition own (k : string * NamespacedName) : Prop :=
  k ∈ own_names ∨ ∃ i, k = ("Secret", child gw (BackendKeySecretName gw i)).
Lemma own_ns k : own k → nn_Namespace k.2 = gw_ns gw.
Proof.
  intros [Hk|[i ->]]; [|done]. unfold own_names, mode_a_names, mode_b_names in Hk.
  rewrite list_elem_of_In in Hk. cbn [app In] in Hk. repeat (destruct Hk as [<-|Hk]; [done|]). done.
Qed.
(** The account in another namespace, for a policy in effect whose master key is granted. *)
Definition granted_account (c : Cluster) (k : string * NamespacedName) : Prop :=
  ∃ pol, findEffectiveOnionBalance gw c = Ok (Some pol, true) ∧ MasterKeyReferenceGrantAllows c pol = Ok true ∧
    cross_keys gw pol k.
(** What carries the Gateway's labels. *)
Definition labelled (c : Cluster) (k : string * NamespacedName) : Prop :=
  listed (T := Role) (owner_labels gw) (elsewhere None) c k ∨
  listed (T := RoleBinding) (owner_labels gw) (elsewhere None) c k ∨
  listed (T := Secret) (backend_selector gw) (λ x, Namespace (sec_meta x) = gw_ns gw) c k.
Definition footprint (c : Cluster) (k : string * NamespacedName) : Prop :=
  own k ∨ granted_account c k ∨ labelled c k.
Definition tidy (c : Cluster) : Prop :=
  named (T := Role) c ∧ named (T := RoleBinding) c ∧ named (T := Secret) c ∧ named (T := Gateway) c ∧
  named (T := Job) c.

Context (c0 : Cluster).
(** Only the footprint was changed since [c0], and of the Gateway itself what the operator edits. *)
Definition confined (c : Cluster) : Prop :=
  tidy c ∧ ∀ k, footprint c0 k ∨ objects c !! k = objects c0 !! k.
Definition kept_gateway (c : Cluster) : Prop :=
  ∃ g, mem_get (T := Gateway) c (key gw) = Ok g ∧ unedited g = unedited gw.
Definition within (c : Cluster) : Prop := confined c ∧ kept_gateway c.
Lemma confined_writes T `{Kind T} :
  keeps_any tidy T → keeps_writes confined T (λ k, footprint c0 (kind_name (T := T), k)).
Proof.
  intros Ht. apply keeps_writes_and; [by eapply keeps_writes_mono, Ht|].
  apply (keeps_writes_all _ (λ k c, footprint c0 k ∨ objects c !! k = objects c0 !! k)). intros [kd k].
  assert (∀ k', footprint c0 (kind_name (T := T), k') →
    keeps_writes (λ c, footprint c0 (kd, k) ∨ objects c !! (kd, k) = objects c0 !! (kd, k)) T (λ k'', k'' = k')) as H'.
  { intros k' Hk'. destruct (decide ((kind_name (T := T), k') = (kd, k))) as [Heq|Hne].
    - rewrite Heq in Hk'. split; intros; intros c _; left; exact Hk'.
    - apply (mem_keeps (λ o, footprint c0 (kd, k) ∨ o = objects c0 !! (kd, k))). intros <- k'' -> ->. by apply Hne. }
  split.
  - intros x Hx. exact (keeps_kcreate _ _ _ (H' _ Hx) x eq_refl).
  - intros x Hx. exact (keeps_kupdate _ _ _ (H' _ Hx) x eq_refl).
  - intros x Hx. exact (keeps_kupdate_status _ _ _ (H' _ Hx) x eq_refl).
  - intros x Hx. exact (keeps_kpatch _ _ _ (H' _ Hx) x eq_refl).
  - intros x Hx. exact (keeps_kdelete _ _ _ (H' _ Hx) x eq_refl).
  - intros x f Hx. exact (keeps_kapply _ _ _ (H' _ Hx) x f eq_refl).
Qed.
Lemma within_writes T `{Kind T} :
  kind_name (T := T) ≠ "Gateway" → keeps_any tidy T →
  keeps_writes within T (λ k, footprint c0 (kind_name (T := T), k)).
Proof.
  intros Hkind Ht. apply keeps_writes_and; [by apply confined_writes|].
  apply (mem_keeps (λ o, ∃ g, match o ≫= prj with Some x => Ok x | None => Err NotFound end = Ok g ∧ unedited g = unedited gw)
           "Gateway" (key gw)). done.
Qed.
End footprint.
Ltac tidy_kind :=
  unfold tidy; repeat apply keeps_writes_and;
  first [apply mem_keeps_named; exact _ | apply mem_keeps_named_other; discriminate].

Section writes.
Context (gw : Gateway) (c0 : Cluster).
Notation P := (within gw c0).
Notation writes T := (keeps_writes P T (λ k, footprint gw c0 (kind_name (T := T), k))).
Lemma within_Gateway_write (merge : Gateway → Gateway → Gateway) x :
  keeps (confined gw c0) (mem_write merge x) → key x = key gw →
  (∀ old, unedited old = unedited gw → unedited (merge x old) = unedited gw) → keeps P (mem_write merge x).
Proof.
  intros Hconf Hk Hmerge c [Hc (g & Hg & Heq)]. split; [by apply Hconf|].
  unfold mem_write. rewrite Hk, Hg. exists (merge x g). split; [|by apply Hmerge].
  exact (mem_get_put (T := Gateway) (key gw) (merge x g) c).
Qed.
Lemma within_Secret : writes Secret. Proof. apply within_writes; [done|tidy_kind]. Qed.
Lemma within_ConfigMap : writes ConfigMap. Proof. apply within_writes; [done|tidy_kind]. Qed.
Lemma within_ServiceAccount : writes ServiceAccount. Proof. apply within_writes; [done|tidy_kind]. Qed.
Lemma within_Role : writes Role. Proof. apply within_writes; [done|tidy_kind]. Qed.
Lemma within_RoleBinding : writes RoleBinding. Proof. apply within_writes; [done|tidy_kind]. Qed.
Lemma within_Service : writes Service. Proof. apply within_writes; [done|tidy_kind]. Qed.
Lemma within_Deployment : writes Deployment. Proof. apply within_writes; [done|tidy_kind]. Qed.
Lemma within_StatefulSet : writes StatefulSet. Proof. apply within_writes; [done|tidy_kind]. Qed.
Lemma within_Job : writes Job. Proof. apply within_writes; [done|tidy_kind]. Qed.
Lemma within_NetworkPolicy : writes NetworkPolicy. Proof. apply within_writes; [done|tidy_kind]. Qed.
Lemma within_event k e c : P c → P (record_event k e c).
Proof. done. Qed.
(** Neither the policies nor the grants are the operator's to write. *)
Definition footprint_kind (k : string * NamespacedName) : Prop :=
  ¬ In k.1 ["GatewayClass"; "HTTPRoute"; "ReferenceGrant"; "TorServicePolicy"; "TorClientAuthPolicy";
            "OnionBalancePolicy"].
Lemma footprint_kinds k : footprint gw c0 k → footprint_kind k.
Proof.
  unfold footprint_kind. intros [[Hk|[i ->]]|[(pol & _ & _ & Hk)|Hk]].
  - unfold own_names, mode_a_names, mode_b_names in Hk. rewrite list_elem_of_In in Hk. cbn [app In] in Hk.
    repeat (destruct Hk as [<-|Hk]; [cbn; intuition discriminate|]). done.
  - cbn. intuition discriminate.
  - apply cross_kind in Hk. revert Hk. cbn. intuition congruence.
  - destruct Hk as [Hk|[Hk|Hk]]; apply listed_kind in Hk; rewrite Hk; cbn; intuition discriminate.
Qed.
Lemma within_reads (c : Cluster) : P c → agree (λ k, ¬ footprint_kind k) c0 c.
Proof. intros [[_ Hc] _] k Hk. destruct (Hc k) as [Hf%footprint_kinds|]; done. Qed.
End writes.

(** ** What each step may write *)
Ltac own_name :=
  solve [left; left; unfold own_names, mode_a_names, mode_b_names; apply list_elem_of_In; cbn [app In];
         repeat first [left; reflexivity | right]].
Ltac keeps_reads :=
  match goal with
  | |- keeps _ (bind (lift _) _) => apply keeps_lift_bind; intros ? ?
  | |- keeps _ (bind (gets _) _) => apply keeps_gets_bind; intros ? ? ? ?
  | |- keeps _ (bind (read _) _) => apply keeps_read_bind; intros ? ? ? ?
  | |- keeps _ (bind (find _) _) => apply keeps_find_bind; [|intros ? ? ? ?]
  | |- _ => keeps_step
  end.

Section steps.
Context {Ed : Ed25519} (r : GatewayReconciler) (range : gmap (string * string) ResolvedBackend → list ResolvedBackend).
Context (gw : Gateway) (c0 : Cluster).
Notation P := (within gw c0).
Notation allowed T k := (footprint gw c0 (kind_name (T := T), k)).

Lemma within_named {T} `{Kind T} (c : Cluster) k (x : T) : named (T := T) c → kget c k = Ok x → key x = k.
Proof.
  intros Hn Hx. change (mem_get (T := T) c k = Ok x) in Hx. unfold mem_get in Hx.
  destruct (objects c !! _) as [a|] eqn:Ha; [|discriminate Hx]. cbn in Hx.
  destruct (prj a) as [y|] eqn:Hy; [|discriminate Hx]. injection Hx as <-. exact (Hn _ _ _ Ha Hy).
Qed.
Lemma own_Gateway : allowed Gateway (key gw).
Proof. own_name. Qed.

Lemma keeps_ConfigMap want : allowed ConfigMap (key want) → keeps P (ensureHAConfigMap want).
Proof. intros Hk. apply keeps_api, (keeps_kapply _ _ _ (within_ConfigMap gw c0)), Hk. Qed.
Lemma keeps_ServiceAccount want : allowed ServiceAccount (key want) → keeps P (ensureHAServiceAccount want).
Proof. intros Hk. apply keeps_api, (keeps_kapply _ _ _ (within_ServiceAccount gw c0)), Hk. Qed.
Lemma keeps_Role want : allowed Role (key want) → keeps P (ensureHARole want).
Proof. intros Hk. apply keeps_api, (keeps_kapply _ _ _ (within_Role gw c0)), Hk. Qed.
Lemma keeps_RoleBinding want : allowed RoleBinding (key want) → keeps P (ensureHARoleBinding want).
Proof. intros Hk. apply keeps_api, (keeps_kapply _ _ _ (within_RoleBinding gw c0)), Hk. Qed.
Lemma keeps_Service want : allowed Service (key want) → keeps P (ensureHAService want).
Proof. intros Hk. apply keeps_api, (keeps_kapply _ _ _ (within_Service gw c0)), Hk. Qed.
Lemma keeps_Deployment want : allowed Deployment (key want) → keeps P (ensureHADeployment want).
Proof. intros Hk. apply keeps_api, (keeps_kapply _ _ _ (within_Deployment gw c0)), Hk. Qed.
Lemma keeps_StatefulSet want : allowed StatefulSet (key want) → keeps P (ensureHAStatefulSet want).
Proof. intros Hk. apply keeps_api, (keeps_kapply _ _ _ (within_StatefulSet gw c0)), Hk. Qed.
Lemma keeps_NetworkPolicy want : allowed NetworkPolicy (key want) → keeps P (apply_NetworkPolicy want).
Proof. intros Hk. apply keeps_api, (keeps_kapply _ _ _ (within_NetworkPolicy gw c0)), Hk. Qed.
Lemma keeps_backend_Secret want : allowed Secret (key want) → keeps P (ensureBackendKeySecret want).
Proof. intros Hk. apply keeps_api, (keeps_kapply _ _ _ (within_Secret gw c0)), Hk. Qed.
Lemma keeps_delete_child {T} `{Kind T} k :
  keeps_writes P T (λ k, allowed T k) → allowed T k → keeps P (delete_child T k).
Proof. intros Hw Hk. apply keeps_api, keeps_ignore_not_found, (keeps_kdelete _ _ _ Hw), Hk. Qed.
Lemma keeps_record g t reason message : keeps P (event r g t reason message).
Proof. by apply keeps_event. Qed.
(** A child just built. *)
Lemma allowed_owned {T} `{Kind T, !LawfulKind T} (x want : T) :
  owned gw x = Ok want → allowed T (key x) → allowed T (key want).
Proof. intros Hw Hk. rewrite (owned_key gw x want Hw). exact Hk. Qed.

Lemma keeps_router_rbac obp : keeps P (ensureRouterRBAC gw obp).
Proof.
  unfold ensureRouterRBAC, ensureServiceAccount, ensureRole, ensureRoleBinding. repeat keeps_reads.
  - apply keeps_ServiceAccount. eapply allowed_owned; [eassumption|own_name].
  - apply keeps_Role. eapply allowed_owned; [eassumption|own_name].
  - apply keeps_RoleBinding. eapply allowed_owned; [eassumption|own_name].
Qed.
Lemma keeps_network_policy routes : keeps P (ensureNetworkPolicy r range gw routes).
Proof.
  unfold ensureNetworkPolicy. repeat keeps_reads.
  - apply (keeps_kdelete _ _ _ (within_NetworkPolicy gw c0)). own_name.
  - apply keeps_NetworkPolicy. erewrite BuildNetworkPolicy_key by eassumption. own_name.
Qed.
Lemma confined_Gateway : keeps_writes (confined gw c0) Gateway (λ k, allowed Gateway k).
Proof. apply confined_writes. tidy_kind. Qed.
Lemma keeps_status_write (x : Gateway) : key x = key gw → keeps P (kupdate_status x).
Proof.
  intros Hk. apply within_Gateway_write; [|exact Hk|done].
  apply (keeps_kupdate_status _ _ _ confined_Gateway). rewrite Hk. apply own_Gateway.
Qed.
(** The Gateway is written as it was read, but for what the operator edits. *)
Lemma keeps_update (x : Gateway) : unedited x = unedited gw → keeps P (kupdate x).
Proof.
  intros Hx. pose proof (unedited_key gw x Hx) as Hk. apply within_Gateway_write; [|exact Hk|done].
  apply (keeps_kupdate _ _ _ confined_Gateway). rewrite Hk. apply own_Gateway.
Qed.
Lemma keeps_mode_a policy auth now kp : keeps P (mode_a_objects r range now gw policy auth kp).
Proof.
  pose proof keeps_router_rbac. pose proof keeps_network_policy.
  unfold mode_a_objects, ensureTorrcConfigMap, ensureDeployment, ensureService, updateStatus.
  repeat first [assumption | solve [eauto with keeps] | keeps_reads].
  - apply keeps_ConfigMap. erewrite BuildTorrcConfigMap_key by eassumption. own_name.
  - apply keeps_Deployment. erewrite BuildDeployment_key by eassumption. own_name.
  - apply keeps_Service. eapply allowed_owned; [eassumption|own_name].
  - by apply keeps_status_write.
Qed.

(** *** The key *)
Context (quantity_zero : string → bool).
Lemma keeps_create_Secret (x : Secret) : allowed Secret (key x) → keeps P (kcreate x).
Proof. apply (keeps_kcreate _ _ _ (within_Secret gw c0)). Qed.
Lemma keeps_patch (x : Gateway) : unedited x = unedited gw → keeps P (kpatch x).
Proof. exact (keeps_update x). Qed.
Lemma VanityJob_key cfg j :
  VanityJob quantity_zero cfg = Ok j → key j = {| nn_Namespace := vc_Namespace cfg; nn_Name := vc_JobName cfg |}.
Proof. unfold VanityJob. repeat (case_match; try done). by intros [= <-]. Qed.
Lemma keeps_vanity_job prefix : keeps P (createVanityJob r quantity_zero gw prefix).
Proof.
  unfold createVanityJob. repeat keeps_reads. apply (keeps_kcreate _ _ _ (within_Job gw c0)).
  match goal with H : SetControllerReference _ _ = Ok ?j |- _ => rewrite (SetControllerReference_key _ _ j H) end.
  match goal with H : wrap_err _ ?v = Ok _ |- _ => destruct v as [j|] eqn:Hv; [injection H as <-|discriminate H] end.
  rewrite (VanityJob_key _ _ Hv). own_name.
Qed.
Lemma keeps_vanity_rbac : keeps P (ensureVanityRBAC gw).
Proof.
  unfold ensureVanityRBAC. repeat keeps_reads.
  - apply keeps_ServiceAccount. eapply allowed_owned; [eassumption|own_name].
  - apply keeps_Role. eapply allowed_owned; [eassumption|own_name].
  - apply keeps_RoleBinding. eapply allowed_owned; [eassumption|own_name].
Qed.
Lemma keeps_out_secret : keeps P (ensureVanityOutSecret gw).
Proof.
  unfold ensureVanityOutSecret. repeat keeps_reads; [|apply keeps_ret].
  apply keeps_create_Secret. eapply allowed_owned; [eassumption|own_name].
Qed.
Lemma keeps_delete_job job : key job = job_key gw → keeps P (deleteVanityJob job).
Proof.
  intros Hk. apply keeps_api, keeps_ignore_not_found, (keeps_kdelete _ _ _ (within_Job gw c0)). rewrite Hk. own_name.
Qed.
Lemma keeps_clear_failed : keeps P (clearVanityFailed gw).
Proof. unfold clearVanityFailed. repeat keeps_reads; [by apply keeps_patch|apply keeps_ret]. Qed.
Lemma keeps_mark_failed prefix : keeps P (markVanityFailed gw prefix).
Proof. unfold markVanityFailed. repeat keeps_reads; [apply keeps_ret|by apply keeps_patch]. Qed.
Lemma keeps_promote out job :
  key out = out_key gw → key job = job_key gw → keeps P (promoteVanityKey gw out job).
Proof.
  intros Ho Hj. pose proof keeps_clear_failed. unfold promoteVanityKey. repeat first [assumption | keeps_reads].
  - apply keeps_create_Secret. eapply allowed_owned; [eassumption|own_name].
  - apply (keeps_kdelete _ _ _ (within_Secret gw c0)). rewrite Ho. own_name.
  - by apply keeps_delete_job.
  - apply keeps_ret.
Qed.
Lemma keeps_harvest prefix : keeps P (runVanityHarvest r quantity_zero gw prefix).
Proof.
  pose proof keeps_vanity_rbac. pose proof keeps_out_secret. pose proof (keeps_vanity_job prefix).
  pose proof keeps_clear_failed. pose proof keeps_mark_failed. pose proof keeps_record.
  assert (∀ c (job : Job), P c → kget c (job_key gw) = Ok job → key job = job_key gw) as Hjob
    by (intros c job [[(_ & _ & _ & _ & Hn) _] _]; by apply within_named).
  assert (∀ c (out : Secret), P c → kget c (out_key gw) = Ok out → key out = out_key gw) as Hout
    by (intros c out [[(_ & _ & Hn & _) _] _]; by apply within_named).
  unfold runVanityHarvest. repeat first [assumption | solve [eauto with keeps] | keeps_reads].
  - apply keeps_delete_job. eauto.
  - apply keeps_promote; eauto.
Qed.
Lemma keeps_key APIReader read policy : keeps P (ensureKeySecret r quantity_zero APIReader read gw policy).
Proof.
  pose proof keeps_harvest. pose proof keeps_record.
  unfold ensureKeySecret, create_key, create_random_key.
  repeat first [assumption | solve [eauto with keeps] | keeps_reads].
  apply keeps_create_Secret. eapply allowed_owned; [eassumption|own_name].
Qed.

(** *** Cleaning up *)
Lemma keeps_cleanup_a : keeps P (cleanupModeAResources gw).
Proof.
  unfold cleanupModeAResources, cleanup_a. repeat keeps_reads; apply keeps_delete_child;
    first [apply within_Deployment | apply within_Service | apply within_Secret | apply within_ConfigMap
          | apply within_NetworkPolicy | apply within_ServiceAccount | apply within_Role | apply within_RoleBinding
          | apply within_Job | own_name].
Qed.
(** What a listing by the Gateway's labels finds was labelled before, or is the Gateway's. *)
Lemma listed_allowed {T} `{Kind T} (s : Cluster) ns sel (Q : T → Prop) l x :
  P s → named (T := T) s → mem_list s ns sel = Ok l →
  (∀ x : T, (∀ n, ns = Some n → Namespace (meta x) = n) → Q x) →
  (∀ k, listed sel Q c0 k → labelled gw c0 k) → x ∈ l → allowed T (key x).
Proof.
  intros [[_ Hs] _] Hn Hl HQ Hlab Hx. apply (mem_list_spec _ _ _ _ _ Hl) in Hx as (k & a & Hk & Ha & Hns & Hsel).
  rewrite (Hn k a x Hk Ha). destruct (Hs (kind_name (T := T), k)) as [Hf|Heq]; [exact Hf|].
  right; right. apply Hlab. rewrite Heq in Hk. exists k, a, x. repeat (split; [done|]). by apply HQ.
Qed.
Lemma allowed_Role s l (x : Role) : P s → mem_list s None (owner_labels gw) = Ok l → x ∈ l → allowed Role (key x).
Proof.
  intros Hs Hl. apply (listed_allowed s None (owner_labels gw) (elsewhere None) l x Hs (proj1 (proj1 (proj1 Hs))) Hl); [done|].
  intros k Hk. by left.
Qed.
Lemma allowed_RoleBinding s l (x : RoleBinding) :
  P s → mem_list s None (owner_labels gw) = Ok l → x ∈ l → allowed RoleBinding (key x).
Proof.
  intros Hs Hl. apply (listed_allowed s None (owner_labels gw) (elsewhere None) l x Hs
    (proj1 (proj2 (proj1 (proj1 Hs)))) Hl); [done|]. intros k Hk. by right; left.
Qed.
Lemma allowed_Secret s l (x : Secret) :
  P s → mem_list s (Some (gw_ns gw)) (backend_selector gw) = Ok l → x ∈ l → allowed Secret (key x).
Proof.
  intros Hs Hl. apply (listed_allowed s (Some (gw_ns gw)) (backend_selector gw) (λ x, Namespace (sec_meta x) = gw_ns gw)
    l x Hs (proj1 (proj2 (proj2 (proj1 (proj1 Hs))))) Hl); [intros y Hy; by apply Hy|]. intros k Hk. by right; right.
Qed.
Lemma wrap_err_Ok {E F A} (w : E → F) (m : result E A) a : wrap_err w m = Ok a → m = Ok a.
Proof. by destruct m; intros [= ->]. Qed.
Lemma keeps_labelled_Role but kind : keeps P (delete_labelled Role gw but kind).
Proof.
  unfold delete_labelled. keeps_reads. keeps_step. keeps_step. apply keeps_delete_child; [apply within_Role|].
  match goal with H : wrap_err _ _ = Ok _, H' : _ ∈ filter _ _ |- _ =>
    apply wrap_err_Ok in H; apply list_elem_of_filter in H' as [_ ?] end.
  eapply allowed_Role; eassumption.
Qed.
Lemma keeps_labelled_RoleBinding but kind : keeps P (delete_labelled RoleBinding gw but kind).
Proof.
  unfold delete_labelled. keeps_reads. keeps_step. keeps_step. apply keeps_delete_child; [apply within_RoleBinding|].
  match goal with H : wrap_err _ _ = Ok _, H' : _ ∈ filter _ _ |- _ =>
    apply wrap_err_Ok in H; apply list_elem_of_filter in H' as [_ ?] end.
  eapply allowed_RoleBinding; eassumption.
Qed.
Lemma keeps_cleanup_b : keeps P (cleanupModeBResources gw).
Proof.
  pose proof keeps_labelled_Role. pose proof keeps_labelled_RoleBinding.
  unfold cleanupModeBResources, clear_annotations.
  repeat first [assumption | solve [eauto with keeps] | apply keeps_delete_child | keeps_reads];
    first [apply within_Deployment | apply within_Service | apply within_Secret | apply within_ConfigMap
          | apply within_NetworkPolicy | apply within_ServiceAccount | apply within_Role | apply within_RoleBinding
          | apply within_StatefulSet | own_name | eapply allowed_Secret; eassumption
          | by apply keeps_update].
Qed.

(** *** The onionbalance mode *)
Lemma backend_allowed i : allowed Secret (child gw (BackendKeySecretName gw i)).
Proof. left; right. by exists i. Qed.
Lemma keeps_backend_key random i : keeps P (ensureBackendKeySecretForIndex random gw i).
Proof.
  unfold ensureBackendKeySecretForIndex. repeat keeps_reads; [apply keeps_find|].
  apply keeps_backend_Secret.
  match goal with H : BuildBackendKeySecret _ _ _ _ = Ok _ |- _ => apply BuildBackendKeySecret_data in H as (data & H & _) end.
  eapply allowed_owned; [eassumption|apply backend_allowed].
Qed.
Lemma keeps_network pol : keeps P (ensureModeBNetworkResources gw pol).
Proof.
  unfold ensureModeBNetworkResources. repeat keeps_reads.
  - apply keeps_Service. eapply allowed_owned; [eassumption|own_name].
  - apply keeps_ServiceAccount. eapply allowed_owned; [eassumption|own_name].
  - apply keeps_Role. eapply allowed_owned; [eassumption|own_name].
  - apply keeps_RoleBinding. eapply allowed_owned; [eassumption|own_name].
Qed.
Lemma keeps_gc ss replicas : keeps P (gcBackendSecretsIfSettled gw ss replicas).
Proof.
  unfold gcBackendSecretsIfSettled, gcOrphanBackendSecrets. repeat keeps_reads; try apply keeps_ret.
  apply keeps_delete_child; [apply within_Secret|].
  match goal with H : wrap_err _ _ = Ok _, H' : _ ∈ filter _ _ |- _ =>
    apply wrap_err_Ok in H; apply list_elem_of_filter in H' as [_ ?] end.
  eapply allowed_Secret; eassumption.
Qed.
Lemma within_unedited (c : Cluster) (x : Gateway) : P c → kget c (key gw) = Ok x → unedited x = unedited gw.
Proof. intros [_ (g & Hg & Heq)] Hx. change (mem_get c (key gw) = Ok x) in Hx. congruence. Qed.
Ltac fresh_gateway :=
  match goal with HP : P ?c, H : kget ?c (key gw) = Ok ?x |- _ => pose proof (within_unedited c x HP H) as Hfresh end.
Lemma keeps_status_b error_text now master pol : keeps P (updateStatusModeB r error_text now gw master pol).
Proof.
  pose proof keeps_record.
  unfold updateStatusModeB, write_annotations.
  repeat first [assumption | solve [eauto with keeps] | keeps_reads].
  - fresh_gateway. apply keeps_update. rewrite <- Hfresh.
    match goal with |- context [if ?b then _ else _] => destruct b end; reflexivity.
  - fresh_gateway. apply keeps_status_write. by rewrite <- (unedited_key _ _ Hfresh).
Qed.
Lemma keeps_mode_b random error_text now pol master : keeps P (mode_b_objects r random error_text range now gw pol master).
Proof.
  pose proof keeps_router_rbac. pose proof keeps_network_policy. pose proof keeps_backend_key. pose proof keeps_network.
  pose proof keeps_gc. pose proof keeps_status_b.
  unfold mode_b_objects. repeat first [assumption | solve [eauto with keeps] | keeps_reads].
  - apply keeps_ConfigMap. eapply allowed_owned; [eassumption|own_name].
  - apply keeps_ConfigMap. erewrite BuildBackendTorrcConfigMap_key by eassumption. own_name.
  - apply keeps_StatefulSet. erewrite BuildBackendStatefulSet_key by eassumption. own_name.
  - apply keeps_Deployment. erewrite BuildFrontendDeployment_key by eassumption. own_name.
Qed.
Section mode_b.
Context (pol : OnionBalancePolicy) (Hpol : findEffectiveOnionBalance gw c0 = Ok (Some pol, true)).
Lemma keeps_cross : keeps P (ensureCrossNSMasterRBAC gw pol).
Proof.
  pose proof keeps_labelled_Role. pose proof keeps_labelled_RoleBinding.
  unfold ensureCrossNSMasterRBAC. keeps_reads.
  match goal with HP : P ?s, H : wrap_err _ (MasterKeyReferenceGrantAllows ?s pol) = Ok ?a |- _ =>
    apply wrap_err_Ok in H; rewrite (MasterKeyReferenceGrantAllows_at pol c0 s) in H;
    [|intros k Hk; apply (within_reads gw c0 s HP); unfold footprint_kind; rewrite Hk; cbn; tauto];
    destruct a; rename H into Hok
  end; cbn [negb]; [|apply keeps_throw].
  repeat first [assumption | solve [eauto with keeps] | keeps_reads].
  - apply keeps_Role. erewrite BuildCrossNSMasterRole_key by eassumption. right; left. exists pol.
    split; [exact Hpol|]. split; [exact Hok|]. by left.
  - apply keeps_RoleBinding. erewrite BuildCrossNSMasterRoleBinding_key by eassumption. right; left. exists pol.
    split; [exact Hpol|]. split; [exact Hok|]. by right.
Qed.
Lemma keeps_programming now reason message : keeps P (setProgrammingCondition now gw reason message).
Proof. unfold setProgrammingCondition. repeat keeps_reads; [apply keeps_ret|by apply keeps_status_write|apply keeps_ret]. Qed.
Lemma keeps_ensure_b random error_text now : keeps P (ensureModeB r random error_text range now gw pol).
Proof.
  pose proof keeps_cross. pose proof keeps_mode_b. pose proof keeps_programming. pose proof keeps_record.
  unfold ensureModeB. repeat first [assumption | solve [eauto with keeps] | keeps_reads].
Qed.
End mode_b.
End steps.

(** ** The Gateway in hand

    Steps hand on the Gateway as the server returned it: other finalizers, annotations or status,
    the same object. *)
Definition yields {S E A} (R : A → Prop) (m : M S E A) : Prop := ∀ s s' a, m s = (s', Ok a) → R a.
Section yields.
Context {S E A B : Type} (R : B → Prop).
Lemma yields_ret b : R b → yields (S := S) (E := E) R (ret b).
Proof. by intros Hb s s' a [= _ <-]. Qed.
Lemma yields_bind (m : M S E A) (f : A → M S E B) : (∀ a, yields R (f a)) → yields R (bind m f).
Proof. intros Hf s s' b (s1 & a & _ & Hr)%bind_Ok. by eapply Hf. Qed.
Lemma yields_bind_post (R1 : A → Prop) (m : M S E A) (f : A → M S E B) :
  yields R1 m → (∀ a, R1 a → yields R (f a)) → yields R (bind m f).
Proof. intros Hm Hf s s' b (s1 & a & Ha%Hm & Hr)%bind_Ok. by eapply Hf. Qed.
Lemma yields_wrap {F} (w : E → F) (m : M S E B) : yields R m → yields R (wrap w m).
Proof. intros Hm s s' b Hr%wrap_Ok. by eapply Hm. Qed.
End yields.

Section in_hand.
Context {Ed : Ed25519} (r : GatewayReconciler) (quantity_zero : string → bool) (gw : Gateway).
Definition in_hand (gw1 : Gateway) : Prop := unedited gw1 = unedited gw.
Lemma in_hand_self : in_hand gw.
Proof. done. Qed.
Lemma in_hand_annotations anns : in_hand (set_annotations anns gw).
Proof. done. Qed.
(** The footprint is that of any Gateway in hand. *)
Lemma in_hand_within c0 gw1 : in_hand gw1 → within gw1 c0 = within gw c0.
Proof.
  intros Heq. unfold within, kept_gateway. rewrite (unedited_key gw gw1 Heq), Heq.
  assert (confined gw1 c0 = confined gw c0) as ->; [|reflexivity].
  assert (gw_meta gw1 = with_Annotations (Annotations (gw_meta gw1))
    (with_Finalizers (Finalizers (gw_meta gw1)) (gw_meta gw))) as Hm.
  { apply (f_equal gw_meta) in Heq. cbn in Heq. destruct gw1 as [[] cl ls st]. cbn in *.
    unfold with_Annotations, with_Finalizers in *. cbn in *. injection Heq. intros. by subst. }
  destruct gw1 as [m cl ls st]. cbn in Hm. rewrite Hm. reflexivity.
Qed.
Lemma in_hand_write (x : Gateway) : in_hand x → yields (S := Cluster) in_hand (mem_write with_status_of x).
Proof.
  intros Hx s s' a. unfold mem_write. destruct (mem_get s (key x)); [|done]. intros [= _ <-]. exact Hx.
Qed.
Lemma in_hand_add_finalizer : yields (S := Cluster) in_hand (add_finalizer gw).
Proof.
  unfold add_finalizer. destruct (has_finalizer gw); [apply yields_ret, in_hand_self|].
  by apply yields_wrap, in_hand_write.
Qed.
Lemma in_hand_cleanup_b : yields (S := Cluster) in_hand (cleanupModeBResources gw).
Proof.
  unfold cleanupModeBResources. repeat (apply yields_bind; intros ?). unfold clear_annotations.
  destruct (_ || _); [|apply yields_ret, in_hand_self]. apply yields_wrap, in_hand_write, in_hand_annotations.
Qed.
Lemma in_hand_clear_failed : yields (S := Cluster) in_hand (clearVanityFailed gw).
Proof.
  unfold clearVanityFailed. destruct (failed_prefix gw); [|apply yields_ret, in_hand_self].
  apply yields_wrap, in_hand_write, in_hand_annotations.
Qed.
Lemma in_hand_mark_failed prefix : yields (S := Cluster) in_hand (markVanityFailed gw prefix).
Proof.
  unfold markVanityFailed. destruct (bool_decide _); [apply yields_ret, in_hand_self|].
  apply yields_wrap, in_hand_write, in_hand_annotations.
Qed.
Notation returned := (λ x : Gateway * key_outcome, in_hand x.1).
Lemma in_hand_promote out job : yields (S := Cluster) returned (promoteVanityKey gw out job).
Proof.
  unfold promoteVanityKey. repeat (apply yields_bind; intros ?). intros s s' x. unfold try.
  destruct (clearVanityFailed gw s) as [s1 [g|e]] eqn:Hc; intros [= _ <-]; [by eapply in_hand_clear_failed|].
  apply in_hand_annotations.
Qed.
Lemma in_hand_harvest prefix : yields (S := Cluster) returned (runVanityHarvest r quantity_zero gw prefix).
Proof.
  unfold runVanityHarvest. destruct (bool_decide _); [apply yields_ret, in_hand_self|].
  do 3 (apply yields_bind; intros ?). case_match; [|repeat (apply yields_bind; intros ?); apply yields_ret, in_hand_self].
  destruct (negb _).
  { apply yields_bind; intros ?. eapply yields_bind_post; [apply in_hand_clear_failed|]. intros g Hg. by apply yields_ret. }
  apply yields_bind; intros ?. destruct (vanityOutPopulated _); [apply in_hand_promote|].
  destruct (jobFailed _); [|apply yields_ret, in_hand_self].
  eapply yields_bind_post; [apply in_hand_mark_failed|]. intros g Hg. apply yields_bind; intros ?. by apply yields_ret.
Qed.
Lemma in_hand_key APIReader read policy :
  yields (S := Cluster) returned (ensureKeySecret r quantity_zero APIReader read gw policy).
Proof.
  unfold ensureKeySecret, create_key, create_random_key. apply yields_bind; intros [sec|].
  { repeat (apply yields_bind; intros ?). apply yields_ret, in_hand_self. }
  destruct (negb _); [apply in_hand_harvest|]. apply yields_bind; intros ?.
  destruct (negb _); [apply in_hand_harvest|]. destruct (default _ _); [apply yields_ret, in_hand_self|].
  repeat (apply yields_bind; intros ?). apply yields_ret, in_hand_self.
Qed.
End in_hand.

(** ** The whole Reconcile *)
Section reconcile.
Context {Ed : Ed25519} (r : GatewayReconciler) (quantity_zero : string → bool)
  (APIReader : option (Cluster → option string → gmap string string → result api_error (list TorServicePolicy)))
  (random : string → result string bytes) (error_text : error → string)
  (range : gmap (string * string) ResolvedBackend → list ResolvedBackend) (now : Z).
Lemma keeps_reconcile_a gw c0 : keeps (within gw c0) (reconcileModeA r quantity_zero APIReader random range now gw).
Proof.
  unfold reconcileModeA. keeps_reads. keeps_reads.
  apply (keeps_bind_post _ (λ x, in_hand gw x.1)).
  - apply keeps_wrap, keeps_key.
  - intros s1 s2 x _ Hx%wrap_Ok. by eapply in_hand_key.
  - intros [gw1 o] Hgw1. cbn in Hgw1. rewrite <- (in_hand_within gw c0 gw1 Hgw1).
    destruct o; [apply keeps_mode_a|apply keeps_programming..].
Qed.
Lemma keeps_provision_all gw c0 :
  keeps (within gw c0) (provision r quantity_zero APIReader random error_text range now gw).
Proof.
  unfold provision. apply keeps_gets_bind. intros s [obp accepted] Hs Hobp.
  rewrite (findEffectiveOnionBalance_at c0 s gw) in Hobp
    by (intros k Hk; apply (within_reads gw c0 s Hs); unfold footprint_kind; rewrite Hk; cbn; tauto).
  destruct obp as [obp|].
  - destruct accepted; cbn [negb]; [|apply keeps_programming].
    apply keeps_bind; [apply keeps_cleanup_a|intros _]. apply keeps_wrap. by apply keeps_ensure_b.
  - apply (keeps_bind_post _ (in_hand gw)).
    + apply keeps_cleanup_b.
    + intros s1 s2 g _. apply in_hand_cleanup_b.
    + intros gw1 Hgw1. rewrite <- (in_hand_within gw c0 gw1 Hgw1). apply keeps_reconcile_a.
Qed.
Lemma keeps_finalize gw c0 : keeps (within gw c0) (finalize gw).
Proof.
  unfold finalize. destruct (has_finalizer gw); [|apply keeps_ret].
  apply keeps_bind; [apply keeps_cleanup_b|intros _]. apply keeps_retry, keeps_read_bind. intros s fresh Hs Hfresh.
  destruct (negb _); [apply keeps_ret|]. apply keeps_bind; [|intros _; apply keeps_ret]. apply keeps_api, keeps_update.
  exact (within_unedited gw c0 s fresh Hs Hfresh).
Qed.

Lemma reconcile_within (gw : Gateway) (c : Cluster) :
  tidy c → kget c (key gw) = Ok gw →
  within gw c (Gateway_Reconcile r quantity_zero APIReader random error_text range now (key gw) c).1.
Proof.
  intros Htidy Hgw. assert (within gw c c) as Hc by (split; [split; [exact Htidy|by right]|by exists gw]). unfold Gateway_Reconcile.
  unfold bind at 1, find at 1. rewrite Hgw. revert Hc.
  match goal with |- _ → within gw c (?m c).1 => enough (keeps (within gw c) m) as Hm by exact (Hm c) end.
  keeps_reads. destruct (negb _); [apply keeps_ret|]. destruct (DeletionTimestamp _); [apply keeps_finalize|].
  apply (keeps_bind_post _ (in_hand gw)).
  - unfold add_finalizer. destruct (has_finalizer gw); [apply keeps_ret|]. by apply keeps_api, keeps_update.
  - intros s1 s2 g _. apply in_hand_add_finalizer.
  - intros gw1 Hgw1. rewrite <- (in_hand_within gw c gw1 Hgw1). apply keeps_provision_all.
Qed.

(** C7.  A reconcile stays within its Gateway.  Whatever the policies, the keys, the randomness
    and the state of the cluster, and whether it succeeds or stops at an error, one Reconcile of a
    Gateway changes nothing but the Gateway, the objects named after it in its namespace, those
    that carry its labels, and the account that reads a master key an accepted policy names and a
    ReferenceGrant of the other namespace permits.  In particular, all it can change in another
    namespace is a Role or a RoleBinding that is the permitted account or has the labels of the
    Gateway.  Of the Gateway it changes the finalizers, the annotations and the status alone. *)
Theorem reconcile_footprint (gw : Gateway) (c : Cluster)
    (Htidy : tidy c) (Hgw : kget c (key gw) = Ok gw) :
  let c' := (Gateway_Reconcile r quantity_zero APIReader random error_text range now (key gw) c).1 in
  (∀ k, footprint gw c k ∨ objects c' !! k = objects c !! k) ∧
  (∀ k, nn_Namespace k.2 ≠ gw_ns gw → objects c' !! k ≠ objects c !! k →
     In k.1 ["Role"; "RoleBinding"] ∧ (granted_account gw c k ∨ labelled gw c k)) ∧
  (∃ gw', kget c' (key gw) = Ok gw' ∧ unedited gw' = unedited gw).
Proof.
  intros c'. pose proof (reconcile_within gw c Htidy Hgw) as [[_ Hall] Hkept].
  split; [exact Hall|]. split; [|exact Hkept]. intros k Hns Hne. destruct (Hall k) as [[Hown|[Hg|Hl]]|]; [| | |done].
  - destruct Hns. by apply own_ns.
  - split; [|by left]. destruct Hg as (pol & _ & _ & Hk). by eapply cross_kind.
  - split; [|by right]. destruct Hl as [Hl|[Hl|Hl]]; [apply listed_kind in Hl; rewrite Hl; cbn; tauto..|].
    destruct Hl as (k' & a & x & -> & Hx & Ha & _ & Hxns). destruct Htidy as (_ & _ & Hn & _).
    destruct Hns. rewrite <- Hxns. cbn. by rewrite <- (Hn k' a x Hx Ha).
Qed.
End reconcile.

(** A reconcile that stops halfway, for want of image references: it has written objects of the
    Gateway, and left the master key's Secret in the other namespace alone. *)
Definition imageless_reconciler : GatewayReconciler := {|
  Images := {| img_Tor := ""; img_Router := ""; img_TorInit := ""; img_Mkp224o := ""; img_VanityFinalize := "";
               img_Operator := ""; img_Onionbalance := ""; img_Obrefresh := "" |};
  Recorder := true; VanityDeadline := 0; TorPodNetworkPolicyEnabled := true;
  ClusterPodCIDRs := []; TestingNetworkInclude := ""; TestingNetworkNamespace := "" |}.
Lemma moving_tidy : tidy moving_cluster.
Proof.
  destruct moving_cleanable as (H1 & H2 & H3). split; [exact H1|]. split; [exact H2|]. split; [exact H3|].
  split; intros k a x; unfold moving_cluster, cluster; cbn; rewrite !lookup_insert_Some;
    intros Hk Ha; repeat (destruct Hk as [[[=] <-]|[_ Hk]]); try discriminate Hk; subst; by injection Ha as <-.
Qed.
Lemma reconcile_footprint_witness :
  let run := Gateway_Reconcile imageless_reconciler (λ _, false) None (λ _, Ok zero_key) no_text map_range 7 onion_key
    moving_cluster in
  (match run.2 with Ok _ => false | Err _ => true end, (0 <? writes run.1)%nat) = (true, true) ∧
  objects run.1 !! ("Secret", key vault_master) = Some (ASecret vault_master).
Proof.
  split; [vm_compute; reflexivity|].
  destruct (reconcile_footprint imageless_reconciler (λ _, false) None (λ _, Ok zero_key) no_text map_range 7
    example_gateway moving_cluster moving_tidy eq_refl) as [Hall _].
  destruct (Hall ("Secret", key vault_master)) as [[Hown|[(pol & _ & _ & Hk)|[Hl|[Hl|Hl]]]]|Heq]; [..|exact Heq]; exfalso.
  - apply own_ns in Hown. discriminate Hown.
  - apply cross_kind in Hk. cbn in Hk. intuition discriminate.
  - apply listed_kind in Hl. discriminate Hl.
  - apply listed_kind in Hl. discriminate Hl.
  - destruct Hl as (k' & a & x & [= <-] & Hx & Ha & _ & Hns).
    pose proof (proj1 (proj2 (proj2 moving_tidy)) _ a x Hx Ha) as Hk. apply (f_equal nn_Namespace) in Hk.
    cbn in Hk. rewrite Hns in Hk. discriminate Hk.
Defined.
