(* ===== verification/Watches.v ===== *)
(** * What changes reconcile what (SetupWithManager, internal/controller)

    Each controller registers the kinds it watches with what to enqueue for an object of the
    kind.  A change enqueues the requests of the object before it and of the object after it. *)

From Stdlib Require Import ZArith.
From S2P Require Import Prelude Monad GoStrings KubeTypes Kube Names Policies HTTPRouteCtl Resources.
From S2P Require Import Client Harvest GatewayCtl.

(** ** The registrations *)
(** [Owns]: the Gateway that is the object's controller, in the object's namespace. *)
Definition owner_requests (m : ObjectMeta) : list NamespacedName :=
  match List.find (λ o, bool_decide (or_Controller o = Some true)) (OwnerReferences m) with
  | Some o => if bool_decide (or_Kind o = GatewayKind)
              then [{| nn_Namespace := Namespace m; nn_Name := or_Name o |}] else []
  | None => []
  end.
(** [GatewayReconciler.SetupWithManager]. *)
Definition gateway_watches (a : any) : list NamespacedName :=
  match a with
  | AGateway x => [key x]
  | ADeployment x => owner_requests (dep_meta x)
  | AStatefulSet x => owner_requests (sts_meta x)
  | AConfigMap x => owner_requests (cm_meta x)
  | AService x => owner_requests (svc_meta x)
  | ASecret x => owner_requests (sec_meta x)
  | AServiceAccount x => owner_requests (sa_meta x)
  | ARole x => owner_requests (ro_meta x)
  | ARoleBinding x => owner_requests (rb_meta x)
  | AJob x => owner_requests (job_meta x)
  | ANetworkPolicy x => owner_requests (netpol_meta x)
  | ATorServicePolicy p => gatewaysForServicePolicy p
  | ATorClientAuthPolicy p => gatewaysForClientAuthPolicy p
  | AOnionBalancePolicy p => gatewaysForOnionBalancePolicy p
  | AHTTPRoute r => gatewaysForHTTPRoute r
  | AGatewayClass _ | AReferenceGrant _ => []
  end.
(** [HTTPRouteReconciler.SetupWithManager], on the routes the cluster holds. *)
Definition httproute_watches (c : Cluster) (a : any) : list NamespacedName :=
  match a with
  | AHTTPRoute x => [key x]
  | AReferenceGrant g => httproutesForReferenceGrant c g
  | _ => []
  end.
(** [OnionBalancePolicyReconciler.SetupWithManager], on the policies the cluster holds. *)
Definition obp_watches (c : Cluster) (a : any) : list NamespacedName :=
  match a with
  | AOnionBalancePolicy x => [key x]
  | ASecret s => obpsForSecret c s
  | AGateway g => obpsForGateway c g
  | AReferenceGrant g => obpsForReferenceGrant c g
  | ATorServicePolicy t => obpsForTorServicePolicy c t
  | _ => []
  end.
(** The three others watch their own kind only. *)
Definition servicepolicy_watches (a : any) : list NamespacedName :=
  match a with ATorServicePolicy x => [key x] | _ => [] end.
Definition clientauth_watches (a : any) : list NamespacedName :=
  match a with ATorClientAuthPolicy x => [key x] | _ => [] end.
Definition gatewayclass_watches (a : any) : list NamespacedName :=
  match a with AGatewayClass x => [key x] | _ => [] end.
(** [handler.EnqueueRequestsFromMapFunc]: the requests for the old and for the new object. *)
Definition enqueued (watches : any → list NamespacedName) (old new : option any) : list NamespacedName :=
  from_option watches [] old ++ from_option watches [] new.

(** * The policies and routes of a Gateway *)
(** ** The first by name *)
Lemma first_by_name_spec {T} `{Object T} (t : T → bool) l :
  match first_by_name t l with
  | None => ∀ p, p ∈ l → t p = false
  | Some m => m ∈ l ∧ t m = true ∧ ∀ p, p ∈ l → t p = true → String.le (Name (meta m)) (Name (meta p))
  end.
Proof.
  induction l as [|x l IH] using rev_ind; [set_solver|].
  unfold first_by_name in *. rewrite foldl_app. cbn [foldl]. destruct (t x) eqn:Hx.
  - destruct (foldl _ None l) as [m|] eqn:Hm.
    + destruct IH as (Hin & Ht & Hle). destruct (bool_decide _) eqn:Hd; cbn [negb]; bools.
      * split; [set_solver|]. split; [done|]. intros p [Hp| ->%list_elem_of_singleton]%elem_of_app Htp; auto.
      * assert (String.le (Name (meta x)) (Name (meta m))) as Hxm by (destruct (total String.le (Name (meta x)) (Name (meta m))); done).
        split; [set_solver|]. split; [done|].
        intros p [Hp| ->%list_elem_of_singleton]%elem_of_app Htp; [|reflexivity].
        etrans; [exact Hxm|auto].
    + split; [set_solver|]. split; [done|].
      intros p [Hp| ->%list_elem_of_singleton]%elem_of_app Htp; [|reflexivity]. by rewrite IH in Htp.
  - destruct (foldl _ None l) as [m|] eqn:Hm.
    + destruct IH as (Hin & Ht & Hle). split; [set_solver|]. split; [done|].
      intros p [Hp| ->%list_elem_of_singleton]%elem_of_app Htp; [auto|congruence].
    + intros p [Hp| ->%list_elem_of_singleton]%elem_of_app; auto.
Qed.
(** The choice depends on the targeting policies alone, when their names are their own. *)
Lemma first_by_name_eq {T} `{Object T} (t : T → bool) l l' :
  (∀ p, t p = true → p ∈ l ↔ p ∈ l') →
  (∀ p q, p ∈ l → q ∈ l → Name (meta p) = Name (meta q) → p = q) →
  first_by_name t l = first_by_name t l'.
Proof.
  intros Hsame Hinj. pose proof (first_by_name_spec t l) as Hl. pose proof (first_by_name_spec t l') as Hl'.
  destruct (first_by_name t l) as [m|], (first_by_name t l') as [m'|].
  - destruct Hl as (Hin & Ht & Hle), Hl' as (Hin' & Ht' & Hle'). f_equal. apply Hinj; [done|by apply Hsame|].
    apply (anti_symm String.le); [apply Hle; [by apply Hsame|done]|apply Hle'; [by apply Hsame|done]].
  - destruct Hl as (Hin & Ht & _). rewrite Hl' in Ht; [done|by apply Hsame].
  - destruct Hl' as (Hin & Ht & _). rewrite Hl in Ht; [done|by apply Hsame].
  - done.
Qed.

Lemma route_requests (route : HTTPRoute) (gw : Gateway) :
  routeTargetsGateway route gw = true → key gw ∈ gatewaysForHTTPRoute route.
Proof.
  intros (p & Hp & Hm)%existsb_exists. apply list_elem_of_In in Hp. unfold parentRefMatches in Hm.
  destruct (parentRefGroupKindIsGateway p) eqn:Hk; [|done]. cbn [negb] in Hm. bools. apply list_elem_of_fmap. exists p.
  split; [|by apply list_elem_of_filter].
  unfold parent_key. match goal with H : pr_Name p = _ |- _ => rewrite H end.
  by match goal with H : default _ _ = _ |- _ => rewrite H end.
Qed.

(** In a namespace, listed objects of one name are one object. *)
Lemma listed_names {T} `{Kind T} (c : Cluster) ns sel (l : list T) p q :
  named (T := T) c → klist c (Some ns) sel = Ok l → p ∈ l → q ∈ l →
  Name (meta p) = Name (meta q) → p = q.
Proof.
  intros Hnamed Hl. rewrite !(mem_list_spec c (Some ns) sel l) by done.
  intros (k & a & Ha & Hp & Hns & _) (k' & a' & Ha' & Hq & Hns' & _) Hname.
  assert (k = k') as <-.
  { rewrite <- (Hnamed k a p), <- (Hnamed k' a' q) by done. unfold key.
    by rewrite Hname, (Hns ns), (Hns' ns). }
  congruence.
Qed.
(** ** A change that enqueues nothing *)
Section quiet.
Context (watches : any → list NamespacedName) (req : NamespacedName).
Context (c c' : Cluster) (at_ : string * NamespacedName).
(** Only the object at one key differs, and the change does not enqueue the request. *)
Context (Honly : ∀ k, k ≠ at_ → objects c' !! k = objects c !! k).
Context (Hquiet : req ∉ enqueued watches (objects c !! at_) (objects c' !! at_)).

Lemma quiet_object k a :
  req ∈ watches a → objects c !! k = Some a ↔ objects c' !! k = Some a.
Proof.
  intros Ha. destruct (decide (k = at_)) as [->|Hne]; [|by rewrite Honly].
  unfold enqueued in Hquiet. rewrite not_elem_of_app in Hquiet. destruct Hquiet as [H1 H2].
  split; intros Hk; rewrite Hk in *; by exfalso.
Qed.
(** Objects of a kind that would enqueue the request are read and listed before and after. *)
Lemma quiet_get {T} `{Kind T} k :
  (∀ a (x : T), objects c !! (kind_name (T := T), k) = Some a ∨ objects c' !! (kind_name (T := T), k) = Some a →
     prj a = Some x → req ∈ watches a) →
  mem_get (T := T) c' k = mem_get c k.
Proof.
  intros Hreq. unfold mem_get. set (kk := (kind_name (T := T), k)).
  enough (objects c' !! kk ≫= prj (T := T) = objects c !! kk ≫= prj) as -> by done.
  apply option_eq. intros x. rewrite !bind_Some.
  split; intros (a & Ha & Hx); exists a; (split; [|done]); (apply (quiet_object kk a); [|done]);
    apply (Hreq a x); auto.
Qed.
Lemma quiet_listed {T} `{Kind T} ns sel (l l' : list T) x :
  klist c ns sel = Ok l → klist c' ns sel = Ok l' →
  (∀ a, prj a = Some x → req ∈ watches a) → x ∈ l ↔ x ∈ l'.
Proof.
  intros Hl Hl' Hx. rewrite (mem_list_spec c ns sel l) by done. rewrite (mem_list_spec c' ns sel l') by done.
  split; intros (k & a & Ha & Hp & Hrest); exists k, a; (split; [|done]); by apply (quiet_object _ a (Hx a Hp)).
Qed.
(** When all that a list has would, the list is the same but for its order. *)
Lemma quiet_list {T} `{Kind T} ns sel (l l' : list T) :
  klist c ns sel = Ok l → klist c' ns sel = Ok l' →
  (∀ a x, x ∈ l ∨ x ∈ l' → prj a = Some x → req ∈ watches a) → l ≡ₚ l'.
Proof.
  intros Hl Hl' Hreq. pose proof (λ l0, mem_list_drop (T := T) c at_ ns sel l l0 Hl) as Hd.
  pose proof (λ l0, mem_list_drop (T := T) c' at_ ns sel l' l0 Hl') as Hd'.
  assert (objects (drop_object at_ c') = objects (drop_object at_ c)) as Hsame.
  { cbn. apply map_eq. intros k. destruct (decide (k = at_)) as [->|Hk]; [by rewrite !lookup_delete_eq|].
    rewrite !lookup_delete_ne by done. by apply Honly. }
  unfold enqueued in Hquiet. rewrite not_elem_of_app in Hquiet. destruct Hquiet as [H1 H2].
  assert (mem_list (T := T) (drop_object at_ c') ns sel = mem_list (drop_object at_ c) ns sel) as Heq.
  { unfold mem_list. by rewrite Hsame. }
  destruct (mem_list (T := T) (drop_object at_ c) ns sel) as [l0|] eqn:Hl0; [|discriminate Hl0].
  rewrite (Hd l0 eq_refl), (Hd' l0 Heq); [done| |].
  - intros a x Ha Hx Hin. apply H2. rewrite Ha. apply (Hreq a x); auto.
  - intros a x Ha Hx Hin. apply H1. rewrite Ha. apply (Hreq a x); auto.
Qed.
End quiet.
Section quiet_gateway.
Context (gw : Gateway) (c c' : Cluster) (at_ : string * NamespacedName).
Context (Honly : ∀ k, k ≠ at_ → objects c' !! k = objects c !! k).
Context (Hquiet : key gw ∉ enqueued gateway_watches (objects c !! at_) (objects c' !! at_)).
Lemma policy_requests ns refs : ns = gw_ns gw → policyTargets refs (gw_name gw) = true → key gw ∈ requestsForTargets ns refs.
Proof.
  intros -> (r & Hr & Hm)%existsb_exists. apply list_elem_of_In in Hr. bools. unfold requestsForTargets.
  apply list_elem_of_fmap. exists r. split; [|by apply list_elem_of_filter].
  unfold key. f_equal. done.
Qed.
Lemma quiet_first {T} `{Kind T} (refs : T → list LocalPolicyTargetReference) (l l' : list T) :
  named (T := T) c → klist c (Some (gw_ns gw)) ∅ = Ok l → klist c' (Some (gw_ns gw)) ∅ = Ok l' →
  (∀ a p, prj a = Some p → gateway_watches a = requestsForTargets (Namespace (meta p)) (refs p)) →
  first_by_name (λ p, policyTargets (refs p) (gw_name gw)) l = first_by_name (λ p, policyTargets (refs p) (gw_name gw)) l'.
Proof.
  intros Hnamed Hl Hl' Hwatch. apply first_by_name_eq; [|intros p q; by eapply listed_names].
  intros p Ht.
  assert (∀ d k, klist d (Some (gw_ns gw)) ∅ = Ok k → p ∈ k → Namespace (meta p) = gw_ns gw) as Hns.
  { intros d k Hk. rewrite (mem_list_spec d (Some (gw_ns gw)) ∅ k) by exact Hk. intros (_ & _ & _ & _ & Hns & _). by apply Hns. }
  split; intros Hp; (apply (quiet_listed gateway_watches (key gw) c c' at_ Honly Hquiet _ _ l l' p Hl Hl'); [|done]);
    intros a Ha; rewrite (Hwatch a p Ha); (apply policy_requests; [first [by apply (Hns c l)|by apply (Hns c' l')]|done]).
Qed.
Lemma quiet_gateway :
  named (T := Gateway) c → named (T := Gateway) c' →
  mem_get (T := Gateway) c' (key gw) = mem_get c (key gw).
Proof.
  intros Hc Hc'. apply (quiet_get gateway_watches (key gw) c c' at_ Honly Hquiet).
  intros a x Ha Hx. destruct a; try discriminate Hx. injection Hx as ->. cbn.
  destruct Ha as [Ha|Ha]; [rewrite (Hc _ _ _ Ha eq_refl)|rewrite (Hc' _ _ _ Ha eq_refl)]; apply list_elem_of_here.
Qed.
End quiet_gateway.

(** C17.  No change to a Gateway's policies or routes goes unnoticed.  Let one object of the cluster
    be created, changed or deleted, with no request for the Gateway enqueued by the controller's
    watches.  Then the Gateway itself is as it was, and so is what its reconcile works from: the
    service policy, the client authorization and the onionbalance policy in effect for it, with
    its acceptance, and the routes that name it. *)
Theorem gateway_watches_complete (gw : Gateway) (c c' : Cluster) at_
    (Honly : ∀ k, k ≠ at_ → objects c' !! k = objects c !! k)
    (Hquiet : key gw ∉ enqueued gateway_watches (objects c !! at_) (objects c' !! at_))
    (Hgateways : named (T := Gateway) c) (Hgateways' : named (T := Gateway) c')
    (Htsp : named (T := TorServicePolicy) c) (Htcap : named (T := TorClientAuthPolicy) c)
    (Hobp : named (T := OnionBalancePolicy) c) :
  kget (T := Gateway) c' (key gw) = kget c (key gw) ∧
  findEffectivePolicy gw c' = findEffectivePolicy gw c ∧
  findEffectiveClientAuth gw c' = findEffectiveClientAuth gw c ∧
  findEffectiveOnionBalance gw c' = findEffectiveOnionBalance gw c ∧
  (∀ routes routes', routesForGateway gw c = Ok routes → routesForGateway gw c' = Ok routes' →
     ∀ route, route ∈ routes' ↔ route ∈ routes).
Proof.
  split_and!.
  - by apply (quiet_gateway gw c c' at_).
  - unfold findEffectivePolicy, effectivePolicyFrom.
    destruct (klist (T := TorServicePolicy) c (Some (gw_ns gw)) ∅) as [l|] eqn:Hl; [|discriminate Hl].
    destruct (klist (T := TorServicePolicy) c' (Some (gw_ns gw)) ∅) as [l'|] eqn:Hl'; [|discriminate Hl'].
    cbn [wrap_err rbind]. do 2 f_equal. symmetry.
    apply (quiet_first gw c c' at_ Honly Hquiet (λ p, tsp_TargetRefs (tsp_Spec p)) l l' Htsp Hl Hl').
    intros [] p Hp; try discriminate Hp. by injection Hp as ->.
  - unfold findEffectiveClientAuth.
    destruct (klist (T := TorClientAuthPolicy) c (Some (gw_ns gw)) ∅) as [l|] eqn:Hl; [|discriminate Hl].
    destruct (klist (T := TorClientAuthPolicy) c' (Some (gw_ns gw)) ∅) as [l'|] eqn:Hl'; [|discriminate Hl'].
    cbn [wrap_err rbind].
    rewrite (quiet_first gw c c' at_ Honly Hquiet (λ p, tcap_TargetRefs (tcap_Spec p)) l l' Htcap Hl Hl'); [done|].
    intros [] p Hp; try discriminate Hp. by injection Hp as ->.
  - unfold findEffectiveOnionBalance.
    destruct (klist (T := OnionBalancePolicy) c (Some (gw_ns gw)) ∅) as [l|] eqn:Hl; [|discriminate Hl].
    destruct (klist (T := OnionBalancePolicy) c' (Some (gw_ns gw)) ∅) as [l'|] eqn:Hl'; [|discriminate Hl'].
    cbn [wrap_err rbind].
    rewrite (quiet_first gw c c' at_ Honly Hquiet (λ p, obp_TargetRefs (obp_Spec p)) l l' Hobp Hl Hl'); [done|].
    intros [] p Hp; try discriminate Hp. by injection Hp as ->.
  - intros routes routes' Hr Hr' route. unfold routesForGateway in *.
    destruct (klist (T := HTTPRoute) c None ∅) as [l|] eqn:Hl; [|discriminate Hl].
    destruct (klist (T := HTTPRoute) c' None ∅) as [l'|] eqn:Hl'; [|discriminate Hl'].
    injection Hr as <-. injection Hr' as <-. rewrite !list_elem_of_filter.
    split; intros [Ht Hin]; (split; [done|]);
      apply (quiet_listed gateway_watches (key gw) c c' at_ Honly Hquiet None ∅ l l' route Hl Hl'); try done;
      intros a Ha; destruct a; try discriminate Ha; injection Ha as ->; by apply route_requests.
Qed.

(** ** Witness *)
Lemma named_cluster {T} `{Kind T} l :
  Forall (λ ka, ∀ x : T, prj ka.2 = Some x → key x = ka.1.2) l → named (T := T) (cluster l).
Proof.
  intros Hl k a x Ha Hx. apply elem_of_list_to_map_2 in Ha. rewrite Forall_forall in Hl. exact (Hl _ Ha x Hx).
Qed.
Ltac all_named :=
  apply named_cluster; repeat (constructor; [intros x Hx; (discriminate Hx || by injection Hx as <-)|]); constructor.
Definition other_policy : TorServicePolicy := {|
  tsp_meta := new_meta "aaa" "tor" ∅;
  tsp_Spec := {| tsp_TargetRefs := [target "other"]; tsp_VanityPrefix := "";
                 tsp_VanityAcknowledgeLongRunning := false; tsp_LogLevel := "debug";
                 tsp_PoWDefensesEnabled := None; tsp_Resources := None |};
  tsp_Ancestors := [] |}.
Definition policy_key (p : TorServicePolicy) : string * NamespacedName := ("TorServicePolicy", key p).
Lemma gateway_watches_complete_witness :
  let c' := put (policy_key other_policy) (ATorServicePolicy other_policy) example_cluster in
  findEffectivePolicy example_gateway c' = findEffectivePolicy example_gateway example_cluster.
Proof.
  apply (gateway_watches_complete example_gateway example_cluster _ (policy_key other_policy)).
  - intros k Hk. by apply lookup_insert_ne.
  - vm_compute. intros H. apply list_elem_of_In in H. destruct H as [H|[]]. discriminate H.
  - all_named.
  - intros k a x. cbn [put objects]. rewrite lookup_insert_ne by discriminate. revert k a x.
    change (named (T := Gateway) example_cluster).
    all_named.
  - all_named.
  - all_named.
  - all_named.
Defined.

(** ** What the watches leave out

    A GatewayClass: when it is created after the Gateway, the Gateway has become managed and no
    request says so.  The HTTPRoute controller has the same gap for Gateways, so a route
    created before its Gateway keeps the status it has, which the router reads. *)
Lemma late_class_unnoticed :
  let c := cluster [obj example_gateway] in
  let c' := cluster [obj example_class; obj example_gateway] in
  enqueued gateway_watches None (Some (AGatewayClass example_class)) = [] ∧
  gatewayClassManagedByUs (gw_GatewayClassName example_gateway) c = Ok false ∧
  gatewayClassManagedByUs (gw_GatewayClassName example_gateway) c' = Ok true.
Proof. vm_compute. done. Qed.
Definition late_parent : ParentReference := {|
  pr_Group := None; pr_Kind := None; pr_Namespace := None; pr_Name := "onion"; pr_SectionName := None |}.
Lemma late_gateway_unnoticed :
  let c := cluster [obj example_class] in
  let c' := cluster [obj example_class; obj example_gateway] in
  enqueued (httproute_watches c') None (Some (AGateway example_gateway)) = [] ∧
  parentManagedByUs c late_parent "tor" = Ok (false, false) ∧
  parentManagedByUs c' late_parent "tor" = Ok (true, true).
Proof. vm_compute. done. Qed.
(** The two controllers of Tor policies have it as well. *)
Lemma late_target_unnoticed :
  let c := cluster [obj example_class; obj example_policy] in
  let c' := cluster [obj example_class; obj example_gateway; obj example_policy] in
  enqueued servicepolicy_watches None (Some (AGateway example_gateway)) = [] ∧
  enqueued clientauth_watches None (Some (AGateway example_gateway)) = [] ∧
  buildAncestors 7 c' example_policy ≠ buildAncestors 7 c example_policy.
Proof. vm_compute. split_and!; [done..|discriminate]. Qed.
