(* ===== verification/RouteSteady.v ===== *)
(** * A route's reconcile reaches its fixed point (httproute_controller.go)

    The whole [Reconcile] of an HTTPRoute on the in-memory cluster: the route's status says what
    was computed, every Gateway it attached to has the right counts, nothing else is changed, and
    a second reconcile changes nothing. *)

From Stdlib Require Import ZArith.
From S2P Require Import Prelude Monad GoStrings KubeTypes Router Kube Names RefGrant Status Policies.
From S2P Require Import HTTPRouteCtl Resources Client GatewayCtl Converge Watches.

(** ** Clusters that differ in the controller's reports only

    What it reports are the parents of a route's status and the attached routes of a Gateway's
    listeners.  None of its handlers reads them to decide anything but whether to write. *)
Definition unreported_gateway (gw : Gateway) : Gateway :=
  with_gw_Status (with_gs_Listeners (map (with_AttachedRoutes 0) (gs_Listeners (gw_Status gw))) (gw_Status gw)) gw.
Definition unreported (a : any) : any :=
  match a with
  | AHTTPRoute r => AHTTPRoute (with_Parents [] r)
  | AGateway gw => AGateway (unreported_gateway gw)
  | a => a
  end.
Definition specs (c : Cluster) : gmap (string * NamespacedName) any := unreported <$> objects c.
Definition same_specs (c d : Cluster) : Prop := specs c = specs d.
#[global] Instance same_specs_equivalence : Equivalence same_specs.
Proof. split; unfold same_specs; [done|by intros ? ? ->|by intros ? ? ? -> ->]. Qed.

Lemma same_specs_at c d k :
  same_specs c d → unreported <$> objects c !! k = unreported <$> objects d !! k.
Proof. intros Heq. rewrite <- !lookup_fmap. change (specs c !! k = specs d !! k). f_equal. exact Heq. Qed.
Lemma same_specs_put c k a b :
  objects c !! k = Some a → unreported b = unreported a → same_specs c (put k b c).
Proof.
  intros Ha Hb. unfold same_specs, specs. cbn. apply map_eq. intros k'. rewrite !lookup_fmap.
  destruct (decide (k' = k)) as [->|Hne]; [|by rewrite lookup_insert_ne].
  rewrite lookup_insert_eq, Ha. cbn. by rewrite Hb.
Qed.
(** A kind the controller does not report on is the same in both. *)
Lemma same_specs_object {T} `{Kind T} c d k a (x : T) :
  (∀ b, prj (unreported b) = prj b) → same_specs c d → objects c !! k = Some a → prj a = Some x →
  ∃ b, objects d !! k = Some b ∧ prj b = Some x.
Proof.
  intros Hkind Heq Ha Hx. pose proof (same_specs_at c d k Heq) as Hk. rewrite Ha in Hk.
  destruct (objects d !! k) as [b|]; [|discriminate Hk]. injection Hk as Hk. exists b. split; [done|].
  by rewrite <- Hkind, <- Hk, Hkind.
Qed.
Lemma same_specs_get {T} `{Kind T} c d k :
  (∀ b, prj (unreported b) = prj b) → same_specs c d → kget (T := T) c k = kget d k.
Proof.
  intros Hkind Heq. cbn. unfold mem_get. pose proof (same_specs_at c d (kind_name (T := T), k) Heq) as Hk.
  destruct (objects c !! _) as [a|], (objects d !! _) as [b|]; try discriminate Hk; [|done].
  injection Hk as Hk. cbn. by rewrite <- (Hkind a), <- (Hkind b), Hk.
Qed.
Lemma same_specs_listed {T} `{Kind T} c d ns sel (l l' : list T) x :
  (∀ b, prj (unreported b) = prj b) → same_specs c d →
  mem_list c ns sel = Ok l → mem_list d ns sel = Ok l' → x ∈ l ↔ x ∈ l'.
Proof.
  intros Hkind Heq Hl Hl'. rewrite (mem_list_spec c ns sel l), (mem_list_spec d ns sel l') by done.
  split; intros (k & a & Ha & Hx & Hrest).
  - destruct (same_specs_object c d _ a x Hkind Heq Ha Hx) as (b & Hb & Hbx). by exists k, b.
  - destruct (same_specs_object d c _ a x Hkind (symmetry Heq) Ha Hx) as (b & Hb & Hbx). by exists k, b.
Qed.
(** A Gateway has its spec, and its status but for the counts. *)
Lemma same_specs_gateway c d k :
  same_specs c d →
  match kget (T := Gateway) c k, kget (T := Gateway) d k with
  | Ok x, Ok y => unreported_gateway x = unreported_gateway y
  | Err e, Err e' => e = e'
  | _, _ => False
  end.
Proof.
  intros Heq. cbn. unfold mem_get. pose proof (same_specs_at c d ("Gateway", k) Heq) as Hk. cbn [kind_name Gateway_Kind].
  destruct (objects c !! _) as [a|], (objects d !! _) as [b|]; try discriminate Hk; [|done].
  injection Hk as Hk. destruct a, b; try discriminate Hk; cbn [prj Gateway_Kind option_bind mbind]; try done.
  cbn [unreported] in Hk. congruence.
Qed.
Lemma same_specs_named_gateways c d : same_specs c d → named (T := Gateway) c → named (T := Gateway) d.
Proof.
  intros Heq Hc k a x Ha Hx. pose proof (same_specs_at c d ("Gateway", k) Heq) as Hk.
  cbn [kind_name Gateway_Kind] in Ha. rewrite Ha in Hk.
  destruct (objects c !! _) as [b|] eqn:Hb; [|discriminate Hk]. injection Hk as Hk.
  destruct a; try discriminate Hx. injection Hx as ->. destruct b as [|y| | | | | | | | | | | | | | |]; try discriminate Hk.
  pose proof (Hc k _ y Hb eq_refl) as Hkey. injection Hk as Hm _ _ _. unfold key in *. cbn in *. by rewrite <- Hm.
Qed.

(** ** The reports are not read *)
Lemma Allows_ext l l' from to : (∀ g, g ∈ l ↔ g ∈ l') → Allows l from to = Allows l' from to.
Proof.
  intros Hl. apply eq_true_iff_eq. rewrite !Allows_granted. unfold granted.
  split; intros (g & f & t & Hg & Hrest); exists g, f, t; (split; [by apply Hl|done]).
Qed.
#[global] Instance parentManagedByUs_proper :
  Proper (same_specs ==> eq ==> eq ==> eq) (parentManagedByUs (S := Cluster)).
Proof.
  intros c d Heq pr ? <- ns ? <-. unfold parentManagedByUs. destruct (_ || _); [done|].
  pose proof (same_specs_gateway c d
    {| nn_Name := pr_Name pr; nn_Namespace := default ns (pr_Namespace pr) |} Heq) as Hgw.
  destruct (kget (T := Gateway) c _) as [x|e], (kget (T := Gateway) d _) as [y|e']; try done; [|by subst e'].
  assert (gw_GatewayClassName x = gw_GatewayClassName y) as -> by exact (f_equal gw_GatewayClassName Hgw).
  assert (gw_Listeners x = gw_Listeners y) as -> by exact (f_equal gw_Listeners Hgw).
  assert (∀ k, kget (T := GatewayClass) c k = kget (T := GatewayClass) d k) as Hgc; [|by rewrite Hgc].
  intros k. apply (same_specs_get (T := GatewayClass)); [by intros []|done].
Qed.
Lemma brefs_permitted_ext (c d : Cluster) route brefs :
  (∀ bref, bref ∈ brefs → bref_ns route bref ≠ Namespace (rt_meta route) →
     ∀ l l', mem_list (T := ReferenceGrant) c (Some (bref_ns route bref)) ∅ = Ok l →
       mem_list (T := ReferenceGrant) d (Some (bref_ns route bref)) ∅ = Ok l' →
       Allows l (route_from route) (service_to bref) = Allows l' (route_from route) (service_to bref)) →
  brefs_permitted c route brefs = brefs_permitted d route brefs.
Proof.
  induction brefs as [|bref brefs IH]; intros Hall; cbn [brefs_permitted]; [done|].
  rewrite IH by (intros b Hb; apply Hall; by right).
  destruct (bool_decide _) eqn:Hns; [done|]. bools.
  destruct (klist c _ ∅) as [l|] eqn:Hl; [|discriminate Hl].
  destruct (klist d _ ∅) as [l'|] eqn:Hl'; [|discriminate Hl']. cbn [wrap_err rbind].
  by rewrite (Hall bref ltac:(by left) Hns l l' Hl Hl').
Qed.
#[global] Instance backendRefsPermitted_proper :
  Proper (same_specs ==> eq ==> eq) (backendRefsPermitted (S := Cluster)).
Proof.
  intros c d Heq route ? <-. apply brefs_permitted_ext. intros bref _ _ l l' Hl Hl'. apply Allows_ext. intros g.
  apply (same_specs_listed c d (Some (bref_ns route bref)) ∅ l l' g); [by intros []|done..].
Qed.
Lemma collect_ext {E A B} (f g : A → result E B) l : (∀ x, x ∈ l → f x = g x) → collect f l = collect g l.
Proof.
  induction l as [|x l IH]; intros Hfg; cbn [collect]; [done|].
  rewrite (Hfg x) by by left. destruct (g x); cbn [rbind]; [|done]. rewrite IH; [done|]. intros y Hy. apply Hfg. by right.
Qed.
#[global] Instance buildRouteParentStatuses_proper :
  Proper (eq ==> same_specs ==> eq ==> eq) (buildRouteParentStatuses (S := Cluster)).
Proof.
  intros now ? <- c d Heq route ? <-. unfold buildRouteParentStatuses. rewrite Heq.
  destruct (backendRefsPermitted d route) as [resolved|]; cbn [rbind]; [|done].
  rewrite (collect_ext (parent_status now c route resolved) (parent_status now d route resolved)); [done|].
  intros pr _. unfold parent_status. by rewrite Heq.
Qed.

(** ** What the clock leaves in a report *)
Definition parent_shape (p : RouteParentStatus) : ParentReference * string * list (string * string * string) :=
  (ps_ParentRef p, ps_ControllerName p, map condition_shape (ps_Conditions p)).
Lemma build_with_Parents now (c : Cluster) l route :
  buildRouteParentStatuses now c (with_Parents l route) = buildRouteParentStatuses now c route.
Proof.
  unfold buildRouteParentStatuses.
  assert (backendRefsPermitted c (with_Parents l route) = backendRefsPermitted c route) as ->; [|done].
  unfold backendRefsPermitted. cbn [with_Parents rt_Rules].
  induction (rt_Rules route ≫= hr_BackendRefs) as [|bref brefs IH]; [done|]. cbn [brefs_permitted]. by rewrite IH.
Qed.
Lemma build_later now now' (c : Cluster) route l parents :
  buildRouteParentStatuses now c route = Ok parents →
  ∃ parents', buildRouteParentStatuses now' c (with_Parents l route) = Ok parents' ∧
    map parent_shape parents' = map parent_shape parents.
Proof.
  rewrite (build_with_Parents now' c l). intros Hb.
  unfold buildRouteParentStatuses in *.
  apply rbind_Ok in Hb as (resolved & -> & (out & Hout & [= <-])%rbind_Ok). cbn [rbind].
  assert (∀ pr ps, parent_status now c route resolved pr = Ok ps → ∃ ps',
    parent_status now' c route resolved pr = Ok ps' ∧ map parent_shape ps' = map parent_shape ps) as Hone.
  { intros pr ps. unfold parent_status. destruct (parentManagedByUs c pr _) as [[[] listener]|]; cbn; [|by intros [= <-]; exists []|done].
    intros [= <-]. eexists. split; [done|]. by destruct listener, resolved. }
  revert out Hout. induction (rt_ParentRefs route) as [|pr refs IH]; intros out; cbn [collect].
  { intros [= <-]. by exists []. }
  intros (ps & Hps & (pss & Hpss & [= <-])%rbind_Ok)%rbind_Ok. apply Hone in Hps as (ps' & -> & Hshape).
  destruct (IH pss Hpss) as (rest & Hrest & Hshapes). cbn [rbind].
  apply rbind_Ok in Hrest as (out' & -> & [= <-]). cbn [rbind]. eexists. split; [done|].
  cbn [concat]. by rewrite !map_app, Hshape, Hshapes.
Qed.
Definition reported_shape (p : RouteParentStatus) : string * string * list (string * string * string) :=
  (ps_ControllerName p, pr_Name (ps_ParentRef p), map condition_shape (ps_Conditions p)).
Lemma routeParentsEqual_shape a b :
  routeParentsEqual a b = true ↔ map reported_shape a = map reported_shape b.
Proof.
  unfold routeParentsEqual. apply all_equal_map. intros x y. unfold routeParentEqual, reported_shape.
  rewrite !andb_true_iff, !bool_decide_eq_true, (all_equal_map _ condition_shape) by apply conditionEqual_shape.
  split; [intros [[-> ->] ->]; done|]. intros H; injection H; auto.
Qed.
Lemma reported_shapes a b : map parent_shape a = map parent_shape b → map reported_shape a = map reported_shape b.
Proof.
  intros Heq. assert (∀ l, map reported_shape l =
    map (λ '(pr, ctrl, cs), (ctrl, pr_Name pr, cs)) (map parent_shape l)) as H by (intros l; by rewrite map_map).
  by rewrite !H, Heq.
Qed.
(** Merging the same report again leaves the route as it is. *)
Lemma merge_again route desired desired' :
  Forall (λ p, ¬ foreign p) desired → map parent_shape desired' = map parent_shape desired →
  let route' := (mergeRouteParentStatuses route desired).1 in
  mergeRouteParentStatuses route' desired' = (route', false).
Proof.
  intros Hours Hshape%reported_shapes. unfold mergeRouteParentStatuses.
  destruct (routeParentsEqual (rt_Parents route) _) eqn:Heq; cbn [fst].
  - assert (routeParentsEqual (rt_Parents route) (filter foreign (rt_Parents route) ++ desired') = true) as ->; [|done].
    apply routeParentsEqual_shape. apply routeParentsEqual_shape in Heq. rewrite Heq, !map_app. by rewrite Hshape.
  - cbn [rt_Parents with_Parents].
    assert (filter foreign (filter foreign (rt_Parents route) ++ desired) = filter foreign (rt_Parents route)) as ->.
    { rewrite filter_app, list_filter_filter. rewrite (list_filter_iff _ foreign) by (intros; tauto).
      assert (filter foreign desired = []) as ->; [|apply app_nil_r].
      clear -Hours. induction Hours; [done|]. by rewrite filter_cons_False. }
    assert (routeParentsEqual (filter foreign (rt_Parents route) ++ desired)
      (filter foreign (rt_Parents route) ++ desired') = true) as ->; [|done].
    apply routeParentsEqual_shape. rewrite !map_app. by rewrite Hshape.
Qed.

(** ** The counts *)
Lemma omap_bind {A B C} (g : A → option B) (f : B → list C) l :
  omap g l ≫= f = l ≫= λ x, from_option f [] (g x).
Proof. induction l as [|x l IH]; [done|]. cbn. destruct (g x); cbn; by rewrite <- IH. Qed.
Lemma fmap_bind {A B C} (g : A → B) (f : B → list C) l : (g <$> l) ≫= f = l ≫= λ x, f (g x).
Proof. induction l as [|x l IH]; [done|]. cbn. f_equal. exact IH. Qed.
(** The same parentRefs are counted. *)
Lemma same_specs_refs c d (l l' : list HTTPRoute) :
  same_specs c d → mem_list c None ∅ = Ok l → mem_list d None ∅ = Ok l' → parent_refs l = parent_refs l'.
Proof.
  intros Heq [= <-] [= <-]. unfold parent_refs. rewrite !omap_bind.
  set (F := λ kx : (string * NamespacedName) * any, from_option _ [] _).
  set (onkind := λ kx : (string * NamespacedName) * any, kx.1.1 = "HTTPRoute").
  assert (∀ e, map_to_list (filter onkind (objects e)) ≫= F = map_to_list (filter onkind (specs e)) ≫= F) as H.
  { intros e. unfold specs. rewrite (map_filter_fmap onkind unreported (objects e)), map_to_list_fmap, fmap_bind.
    apply list_bind_ext; [|f_equal; by apply map_filter_ext]. intros [k a]. subst F. cbn. by destruct a. }
  change (map_to_list (filter onkind (objects c)) ≫= F = map_to_list (filter onkind (objects d)) ≫= F).
  rewrite !H. do 3 f_equal. exact Heq.
Qed.
Definition routes_of (c : Cluster) : list HTTPRoute := match mem_list c None ∅ with Ok l => l | Err _ => [] end.
(** How many parentRefs of the cluster attach to a listener of the Gateway at [k]. *)
Definition attached_in (c : Cluster) (k : NamespacedName) (listener : string) : nat :=
  attached (nn_Name k) (nn_Namespace k) listener (routes_of c).
Lemma attached_in_same c d k listener : same_specs c d → attached_in c k listener = attached_in d k listener.
Proof.
  intros Heq. unfold attached_in, attached. by rewrite (same_specs_refs c d (routes_of c) (routes_of d)).
Qed.
(** Every listener status counts what attaches to its listener, as an int32; and zero when the
    spec has no such listener. *)
Definition counted (c : Cluster) (k : NamespacedName) (gw : Gateway) : Prop :=
  Forall (λ ls, ls_AttachedRoutes ls =
    if bool_decide (ls_Name ls ∈ map l_Name (gw_Listeners gw))
    then wrap32 (Z.of_nat (attached_in c k (ls_Name ls))) else 0%Z) (gs_Listeners (gw_Status gw)).
Definition counted_at (c : Cluster) (k : NamespacedName) : Prop :=
  ∀ gw, mem_get c k = Ok gw → counted c k gw.
Lemma counted_at_same c d k :
  same_specs c d → objects d !! ("Gateway", k) = objects c !! ("Gateway", k) → counted_at c k → counted_at d k.
Proof.
  intros Heq Hobj Hc gw Hgw.
  assert (mem_get (T := Gateway) c k = Ok gw) as Hgw' by (rewrite <- Hgw; unfold mem_get; cbn; by rewrite Hobj).
  apply (Forall_impl _ _ _ (Hc gw Hgw')). intros ls. by rewrite (attached_in_same c d).
Qed.
Lemma recount_counted c k gw :
  let counts := attached_counts (nn_Name k) (nn_Namespace k) gw (routes_of c) in
  counted c k (with_gw_Status (with_gs_Listeners (recount counts (gs_Listeners (gw_Status gw))) (gw_Status gw)) gw).
Proof.
  intros counts. apply Forall_fmap, Forall_forall. intros ls _. exact (attached_counts_lookup _ _ gw (routes_of c) (ls_Name ls)).
Qed.
Lemma counted_unchanged c k gw :
  counted c k gw ↔
  count_changed (attached_counts (nn_Name k) (nn_Namespace k) gw (routes_of c)) (gs_Listeners (gw_Status gw)) = false.
Proof.
  unfold counted, count_changed. induction (gs_Listeners (gw_Status gw)) as [|ls l IH]; cbn [existsb]; [by split|].
  rewrite Forall_cons, IH, orb_false_iff, negb_false_iff, bool_decide_eq_true, attached_counts_lookup. done.
Qed.

Lemma attach_run k (c c' : Cluster) :
  named (T := Gateway) c → updateGatewayAttachedRoutes (nn_Name k) (nn_Namespace k) c = (c', Ok ()) →
  same_specs c c' ∧ (∀ k', k' ≠ ("Gateway", k) → objects c' !! k' = objects c !! k') ∧ counted_at c' k.
Proof.
  intros Hnamed Hrun. unfold updateGatewayAttachedRoutes in Hrun.
  apply bind_Ok in Hrun as (s & found & [-> Hfound]%find_Ok & Hrun).
  replace {| nn_Namespace := nn_Namespace k; nn_Name := nn_Name k |} with k in Hfound by by destruct k.
  destruct found as [gw|].
  2:{ injection Hrun as <-. do 2 (split; [done|]). intros gw Hgw. change (mem_get (T := Gateway) c k = Err NotFound) in Hfound. congruence. }
  change (mem_get c k = Ok gw) in Hfound.
  apply bind_Ok in Hrun as (s & routes & [-> Hroutes]%gets_Ok & Hrun).
  assert (routes = routes_of c) as -> by by injection Hroutes as <-.
  destruct (count_changed _ _) eqn:Hch; cbn [negb] in Hrun.
  2:{ injection Hrun as <-. do 2 (split; [done|]). intros gw' Hgw'. assert (gw' = gw) as -> by congruence.
      by apply counted_unchanged. }
  unfold mem_get in Hfound. cbn [kind_name Gateway_Kind] in Hfound.
  destruct (objects c !! ("Gateway", k)) as [a|] eqn:Ha; [|discriminate Hfound].
  destruct a as [|g| | | | | | | | | | | | | | |]; try discriminate Hfound. injection Hfound as ->.
  pose proof (Hnamed k _ gw Ha eq_refl) as Hk.
  apply bind_Ok in Hrun as (s & gw' & Hw%wrap_Ok & [= <-]). revert Hw. cbn. unfold mem_write.
  set (upd := with_gw_Status _ gw). assert (key upd = k) as -> by exact Hk.
  unfold mem_get. cbn. rewrite Ha. cbn. intros [= <- _].
  assert (same_specs c (put ("Gateway", k) (AGateway upd) c)) as Hsame.
  { apply (same_specs_put c _ _ _ Ha). subst upd. cbn. unfold unreported_gateway. cbn. unfold with_gw_Status, with_gs_Listeners. cbn.
    do 3 f_equal. unfold recount. rewrite map_map. apply map_ext. by intros []. }
  split; [exact Hsame|]. split; [by intros k' Hk'; apply lookup_insert_ne|].
  intros gw2. unfold mem_get. cbn [objects put kind_name Gateway_Kind]. rewrite lookup_insert_eq. intros [= <-].
  apply (Forall_impl _ _ _ (recount_counted c k gw)). intros ls. by rewrite (attached_in_same c _ _ _ Hsame).
Qed.
Lemma attach_noop k (c : Cluster) :
  counted_at c k → updateGatewayAttachedRoutes (nn_Name k) (nn_Namespace k) c = (c, Ok ()).
Proof.
  intros Hc. unfold updateGatewayAttachedRoutes, bind at 1, find.
  replace {| nn_Namespace := nn_Namespace k; nn_Name := nn_Name k |} with k by by destruct k.
  destruct (kget (T := Gateway) c k) as [gw|e] eqn:Hgw.
  - unfold bind, read, gets. change (klist (T := HTTPRoute) c None ∅) with (Ok (E := api_error) (routes_of c)).
    cbn [wrap_err]. by rewrite (proj1 (counted_unchanged c k gw) (Hc gw Hgw)).
  - assert (e = NotFound) as -> by (cbn in Hgw; unfold mem_get in Hgw; destruct (_ ≫= _); congruence). done.
Qed.

(** ** The whole reconcile *)
Section loop.
Context {A : Type} (at_ : A → NamespacedName).
Definition attach (x : A) : M Cluster error () := updateGatewayAttachedRoutes (nn_Name (at_ x)) (nn_Namespace (at_ x)).
Lemma attach_all l (c c' : Cluster) :
  named (T := Gateway) c → for_each attach l c = (c', Ok ()) →
  same_specs c c' ∧ (∀ k, (∀ x, x ∈ l → k ≠ ("Gateway", at_ x)) → objects c' !! k = objects c !! k) ∧
  ∀ x, x ∈ l → counted_at c' (at_ x).
Proof.
  revert c. induction l as [|x l IH]; intros c Hnamed; cbn [for_each].
  { intros [= <-]. do 2 (split; [done|]). by intros x ?%not_elem_of_nil. }
  intros (c1 & [] & H1 & Hrest)%bind_Ok. destruct (attach_run (at_ x) c c1 Hnamed H1) as (Hsame1 & Hframe1 & Hx).
  destruct (IH c1 (same_specs_named_gateways c c1 Hsame1 Hnamed) Hrest) as (Hsame & Hframe & Hl).
  split; [by etrans|]. split.
  - intros k Hk. rewrite Hframe by (intros y Hy; apply Hk; by right). apply Hframe1, Hk. by left.
  - intros y Hy. destruct (decide (Exists (λ z, at_ z = at_ y) l)) as [(z & Hz & <-)%Exists_exists|Hno]; [by apply Hl|].
    apply elem_of_cons in Hy as [->|Hy]; [|by apply Hl].
    apply (counted_at_same c1); [done| |done]. apply Hframe. intros z Hz [= Heq].
    apply Hno, Exists_exists. by exists z.
Qed.
Lemma attach_all_noop l (c : Cluster) : (∀ x, x ∈ l → counted_at c (at_ x)) → for_each attach l c = (c, Ok ()).
Proof.
  induction l as [|x l IH]; intros Hl; cbn [for_each]; [done|].
  unfold bind, attach. rewrite attach_noop by (apply Hl; by left). apply IH. intros y Hy. apply Hl. by right.
Qed.
End loop.
Definition parent_gateway (route : HTTPRoute) (p : RouteParentStatus) : NamespacedName := {|
  nn_Namespace := default (Namespace (rt_meta route)) (pr_Namespace (ps_ParentRef p));
  nn_Name := pr_Name (ps_ParentRef p) |}.
(** Writing the merged report. *)
Lemma merge_written route parents (c : Cluster) :
  mem_get c (key route) = Ok route →
  let '(route', changed) := mergeRouteParentStatuses route parents in
  ∃ c1, (if changed then api (kupdate_status route') else ret route') c = (c1, Ok route') ∧
    same_specs c c1 ∧ mem_get c1 (key route) = Ok route' ∧
    ∀ k, k ≠ ("HTTPRoute", key route) → objects c1 !! k = objects c !! k.
Proof.
  intros Hroute. unfold mergeRouteParentStatuses. destruct (routeParentsEqual _ _); [by exists c|].
  set (merged := _ ++ parents). unfold api, wrap. cbn [kupdate_status]. unfold mem_get in *.
  cbn [kind_name HTTPRoute_Kind] in Hroute.
  destruct (objects c !! ("HTTPRoute", key route)) as [a|] eqn:Ha; [|discriminate Hroute].
  destruct a as [| |r| | | | | | | | | | | | | |]; try discriminate Hroute. injection Hroute as ->.
  exists (put ("HTTPRoute", key route) (AHTTPRoute (with_Parents merged route)) c).
  split; [|split; [by apply (same_specs_put c _ _ _ Ha)|split; [cbn; by rewrite lookup_insert_eq|by intros k Hk; apply lookup_insert_ne]]].
  cbn. unfold mem_write, mem_get. change (key (with_Parents merged route)) with (key route). cbn. by rewrite Ha.
Qed.

(** C11.  A route reaches its fixed point, and only reports are written.  After a successful
    Reconcile of an HTTPRoute, the route's status is its old one with its own entries replaced by
    the ones computed; each listener status of each Gateway it attaches to counts exactly the
    parentRefs in the cluster that attach to the listener; no object differs in anything but a
    route's parents or a Gateway's counts, and none at all but the route and those Gateways; and
    another Reconcile, at any later time, succeeds and writes nothing. *)
Theorem route_reconcile_converges now now' (req : NamespacedName) (route : HTTPRoute) (c c' : Cluster)
    (Hgateways : named (T := Gateway) c) (Hkey : key route = req) (Hroute : kget c req = Ok route)
    (Hrun : HTTPRoute_Reconcile now req c = (c', Ok ())) :
  ∃ parents, buildRouteParentStatuses now c route = Ok parents ∧
    kget c' req = Ok (mergeRouteParentStatuses route parents).1 ∧
    (∀ p gw, p ∈ parents → kget c' (parent_gateway route p) = Ok gw → counted c' (parent_gateway route p) gw) ∧
    same_specs c c' ∧
    (∀ k, k ≠ ("HTTPRoute", req) → (∀ p, p ∈ parents → k ≠ ("Gateway", parent_gateway route p)) →
       objects c' !! k = objects c !! k) ∧
    HTTPRoute_Reconcile now' req c' = (c', Ok ()).
Proof.
  subst req. unfold HTTPRoute_Reconcile in Hrun. unfold bind at 1, find at 1 in Hrun. rewrite Hroute in Hrun.
  apply bind_Ok in Hrun as (s & parents & [-> Hbuild]%gets_Ok & Hrun). exists parents. split; [exact Hbuild|].
  pose proof (merge_written route parents c Hroute) as Hmerge.
  destruct (mergeRouteParentStatuses route parents) as [route' changed] eqn:Hm.
  destruct Hmerge as (c1 & Hwrite & Hsame1 & Hroute1 & Hframe1). unfold bind at 1 in Hrun. rewrite Hwrite in Hrun.
  assert (rt_meta route' = rt_meta route ∧ ∃ l, route' = with_Parents l route) as [Hmeta [l Hl]].
  { unfold mergeRouteParentStatuses in Hm. destruct (routeParentsEqual _ _); injection Hm as <- _; split; try done.
    - exists (rt_Parents route). by destruct route.
    - by eexists. }
  rewrite Hmeta in Hrun. change (for_each (attach (parent_gateway route)) parents c1 = (c', Ok ())) in Hrun.
  pose proof (same_specs_named_gateways c c1 Hsame1 Hgateways) as Hnamed1.
  apply attach_all in Hrun as (Hsame2 & Hframe2 & Hcounted); [|exact Hnamed1].
  assert (mem_get c' (key route) = Ok route') as Hroute'.
  { rewrite <- Hroute1. unfold mem_get. by rewrite (Hframe2 ("HTTPRoute", key route)). }
  split; [exact Hroute'|]. split; [intros p gw Hp Hgw; by apply (Hcounted p Hp)|]. split; [by etrans|]. split.
  { intros k Hk Hk'. by rewrite Hframe2, Hframe1. }
  destruct (build_later now now' c' route l parents) as (parents' & Hbuild' & Hshape).
  { by rewrite <- Hsame2, <- Hsame1. }
  unfold HTTPRoute_Reconcile. unfold bind at 1, find at 1. change (kget c' (key route)) with (mem_get (T := HTTPRoute) c' (key route)).
  rewrite Hroute'. apply (bind_run _ _ c' c' parents'); [unfold gets; by rewrite Hl, Hbuild'|].
  pose proof (merge_again route parents parents' (build_ours now c route parents Hbuild) Hshape) as Hagain.
  rewrite Hm in Hagain. cbn [fst] in Hagain. rewrite Hagain. apply (bind_run _ _ c' c' route'); [done|].
  rewrite Hmeta. change (for_each (attach (parent_gateway route)) parents' c' = (c', Ok ())).
  apply attach_all_noop. intros p Hp. apply (list_elem_of_fmap_2 parent_shape) in Hp.
  change (parent_shape p ∈ map parent_shape parents') in Hp. rewrite Hshape in Hp.
  apply list_elem_of_fmap in Hp as (q & Heq & Hq). injection Heq as Hpr _ _. unfold parent_gateway. rewrite Hpr.
  exact (Hcounted q Hq).
Qed.

(** ** What wakes the controller up *)
Lemma grant_routes_complete (c : Cluster) seen from f routes (route : HTTPRoute) :
  f ∈ from → f_Group f = GatewayAPIGroup → f_Kind f = "HTTPRoute" → f_Namespace f ∉ seen →
  mem_list c (Some (f_Namespace f)) ∅ = Ok routes → route ∈ routes → key route ∈ grant_routes c seen from.
Proof.
  intros Hf Hg Hk Hseen Hroutes Hroute. revert seen Hseen.
  induction Hf as [f from|f f' from Hf IH]; intros seen Hseen; cbn [grant_routes].
  - rewrite !bool_decide_true by done. rewrite bool_decide_false by done. cbn [negb orb].
    assert (klist (T := HTTPRoute) c (Some (f_Namespace f)) ∅ = Ok routes) as -> by exact Hroutes. apply elem_of_app. left. by apply list_elem_of_fmap_2.
  - destruct (_ || _); [by apply IH|]. destruct (bool_decide _) eqn:Hin; [by apply IH|]. bools.
    apply elem_of_app. destruct (decide (f_Namespace f = f_Namespace f')) as [Hns|Hns].
    + left. rewrite <- Hns. assert (klist (T := HTTPRoute) c (Some (f_Namespace f)) ∅ = Ok routes) as -> by exact Hroutes. by apply list_elem_of_fmap_2.
    + right. apply IH; [done..|]. by intros [?|?]%elem_of_cons.
Qed.

Section quiet.
Context (route : HTTPRoute) (c c' : Cluster) (at_ : string * NamespacedName).
Context (Honly : ∀ k, k ≠ at_ → objects c' !! k = objects c !! k).
Context (Hroute : mem_get c (key route) = Ok route).
Context (Hquiet : key route ∉ enqueued (httproute_watches c') (objects c !! at_) (objects c' !! at_)).

Lemma quiet_route_object : at_ ≠ ("HTTPRoute", key route).
Proof.
  intros ->. apply Hquiet. unfold enqueued. apply elem_of_app. left. unfold mem_get in Hroute.
  cbn [kind_name HTTPRoute_Kind] in Hroute.
  destruct (objects c !! _) as [a|]; [|discriminate Hroute]. destruct a; try discriminate Hroute.
  injection Hroute as <-. apply list_elem_of_here.
Qed.
Lemma quiet_route : mem_get c' (key route) = Ok route.
Proof.
  rewrite <- Hroute. apply mem_get_at, Honly. intros Heq. by apply quiet_route_object.
Qed.
(** A grant that comes or goes and names the route's namespace enqueues the route. *)
Lemma quiet_grant_irrelevant k (d : Cluster) a g f :
  d = c ∨ d = c' → objects d !! k = Some a → prj a = Some g → f ∈ rg_From g → f_Group f = GatewayAPIGroup →
  f_Kind f = "HTTPRoute" → f_Namespace f = Namespace (rt_meta route) → k ≠ at_.
Proof.
  intros Hd Ha Hg Hf Hgroup Hkind Hns ->. destruct a; try discriminate Hg. injection Hg as ->.
  assert (key route ∈ httproute_watches c' (AReferenceGrant g)) as Hin.
  { destruct (mem_list (T := HTTPRoute) c' (Some (f_Namespace f)) ∅) as [routes|] eqn:Hl; [|discriminate Hl].
    apply (grant_routes_complete c' [] (rg_From g) f routes); [done..|apply not_elem_of_nil|exact Hl|].
    rewrite (mem_list_spec c' _ _ routes) by exact Hl. pose proof quiet_route as Hr. unfold mem_get in Hr.
    destruct (objects c' !! (kind_name (T := HTTPRoute), key route)) as [a|] eqn:Ha'; [|discriminate Hr]. cbn [mbind option_bind] in Hr.
    destruct (prj a) as [r|] eqn:Hp; [|discriminate Hr]. injection Hr as ->. exists (key route), a.
    do 2 (split; [done|]). split; [by intros n [= <-]|done]. }
  apply Hquiet. unfold enqueued. apply elem_of_app. destruct Hd as [->| ->]; [left|right]; by rewrite Ha.
Qed.
Lemma quiet_granted ns to (d e : Cluster) l l' :
  d = c ∧ e = c' ∨ d = c' ∧ e = c →
  mem_list (T := ReferenceGrant) d (Some ns) ∅ = Ok l → mem_list (T := ReferenceGrant) e (Some ns) ∅ = Ok l' →
  granted l (route_from route) to → granted l' (route_from route) to.
Proof.
  intros Hde Hl Hl' (g & f & t & Hg & Hf & Ht & Hfrom & Hrest). exists g, f, t.
  split; [|done]. rewrite (mem_list_spec d _ _ l) in Hg by exact Hl. rewrite (mem_list_spec e _ _ l') by exact Hl'.
  destruct Hg as (k & a & Ha & Hp & Hsel). exists k, a. split; [|done].
  assert ((kind_name (T := ReferenceGrant), k) ≠ at_) as Hk.
  { apply (quiet_grant_irrelevant _ d a g f); try done; [tauto|by rewrite Hfrom..]. }
  destruct Hde as [[-> ->]|[-> ->]]; rewrite <- Ha; [|symmetry]; by apply Honly.
Qed.
End quiet.

(** C38.  No grant or route changes unnoticed.  Let one object of the cluster, neither a Gateway nor
    a GatewayClass, be created, changed or deleted, with no request for the route enqueued by the
    controller's watches.  Then the route is as it was, and so is the report a reconcile computes
    for it.  ([late_gateway_unnoticed]: of Gateways this is not true.) *)
Theorem httproute_watches_complete now (route : HTTPRoute) (c c' : Cluster) at_
    (Honly : ∀ k, k ≠ at_ → objects c' !! k = objects c !! k)
    (Hkind : at_.1 ≠ "Gateway" ∧ at_.1 ≠ "GatewayClass")
    (Hroute : kget c (key route) = Ok route)
    (Hquiet : key route ∉ enqueued (httproute_watches c') (objects c !! at_) (objects c' !! at_)) :
  kget c' (key route) = Ok route ∧
  buildRouteParentStatuses now c' route = buildRouteParentStatuses now c route.
Proof.
  split; [exact (quiet_route route c c' at_ Honly Hroute Hquiet)|].
  assert (∀ k, kget (T := Gateway) c' k = kget c k) as Hgw.
  { intros k. apply (mem_get_at (T := Gateway)), Honly. intros <-. by destruct Hkind. }
  assert (∀ k, kget (T := GatewayClass) c' k = kget c k) as Hgc.
  { intros k. apply (mem_get_at (T := GatewayClass)), Honly. intros <-. by destruct Hkind. }
  unfold buildRouteParentStatuses. assert (backendRefsPermitted c' route = backendRefsPermitted c route) as ->.
  { apply brefs_permitted_ext. intros bref _ _ l l' Hl Hl'. apply eq_true_iff_eq. rewrite !Allows_granted.
    split; intros Hg;
      [eapply (quiet_granted route c c' at_ Honly Hroute Hquiet _ _ c' c l l')
      |eapply (quiet_granted route c c' at_ Honly Hroute Hquiet _ _ c c' l' l)]; eauto. }
  destruct (backendRefsPermitted c route) as [resolved|]; cbn [rbind]; [|done].
  rewrite (collect_ext (parent_status now c' route resolved) (parent_status now c route resolved)); [done|].
  intros pr _. unfold parent_status, parentManagedByUs. rewrite Hgw.
  destruct (_ || _); [done|]. destruct (kget (T := Gateway) c _) as [gw|]; [|done]. by rewrite Hgc.
Qed.

(** ** Concrete runs *)
Definition shop : NamespacedName := key (route_example "False").
Lemma named_route_cluster : named (T := Gateway) route_cluster.
Proof. all_named. Qed.
(** The first reconcile writes the status and the count, the second nothing. *)
Lemma route_reconcile_converges_witness :
  let c' := (HTTPRoute_Reconcile 7 shop route_cluster).1 in
  writes c' = 2 ∧ HTTPRoute_Reconcile 9 shop c' = (c', Ok ()).
Proof.
  intros c'. split; [vm_compute; reflexivity|].
  destruct (route_reconcile_converges 7 9 shop (route_example "False") route_cluster c' named_route_cluster)
    as (parents & _ & _ & _ & _ & _ & Hagain); [reflexivity|vm_compute; reflexivity|vm_compute; reflexivity|exact Hagain].
Defined.
(** The name of a deleted route is reconciled to nothing: its Gateway keeps counting it. *)
Lemma deleted_route_stays_counted :
  let c := drop_object ("HTTPRoute", shop) (HTTPRoute_Reconcile 7 shop route_cluster).1 in
  HTTPRoute_Reconcile 9 shop c = (c, Ok ()) ∧ attached_in c onion_key "http" = 0 ∧
  ∃ gw, mem_get c onion_key = Ok gw ∧ map ls_AttachedRoutes (gs_Listeners (gw_Status gw)) = [1%Z].
Proof.
  split; [vm_compute; reflexivity|]. split; [vm_compute; reflexivity|]. eexists. split; [vm_compute; reflexivity|reflexivity].
Qed.
Definition unrelated_grant : ReferenceGrant := {|
  rg_meta := new_meta "from-others" "backend" ∅;
  rg_From := [{| f_Group := GatewayAPIGroup; f_Kind := "HTTPRoute"; f_Namespace := "others" |}];
  rg_To := [{| t_Group := ""; t_Kind := "Service"; t_Name := None |}] |}.
Lemma httproute_watches_complete_witness :
  let k := ("ReferenceGrant", key unrelated_grant) in
  let c' := put k (AReferenceGrant unrelated_grant) route_cluster in
  buildRouteParentStatuses 7 c' (route_example "False") = buildRouteParentStatuses 7 route_cluster (route_example "False").
Proof.
  apply (httproute_watches_complete 7 (route_example "False") route_cluster _ ("ReferenceGrant", key unrelated_grant)).
  - intros k Hk. by apply lookup_insert_ne.
  - by split.
  - vm_compute. reflexivity.
  - vm_compute. apply not_elem_of_nil.
Defined.
