(* ===== verification/PolicyWatches.v ===== *)
(** * What changes reconcile an OnionBalancePolicy (onionbalancepolicy_controller.go)

    The controller's watches against the status it computes: every object [obp_buildAncestors]
    reads for a policy is of a kind that is watched, and its mapper has the policy. *)

From Stdlib Require Import ZArith.
From S2P Require Import Prelude Monad GoStrings Keys KubeTypes Kube Names RefGrant Policies.
From S2P Require Import HTTPRouteCtl Resources Client Watches Converge RouteSteady.

Section quiet_policy.
Context `{!Ed25519} (pol : OnionBalancePolicy) (c c' : Cluster) (at_ : string * NamespacedName).
Context (Honly : ∀ k, k ≠ at_ → objects c' !! k = objects c !! k).
Context (Hgw : named (T := Gateway) c) (Hgw' : named (T := Gateway) c').
Context (Hsec : named (T := Secret) c) (Hsec' : named (T := Secret) c').
Context (Hpol : mem_get c (key pol) = Ok pol).
Context (Hquiet : key pol ∉ enqueued (obp_watches c') (objects c !! at_) (objects c' !! at_)).

Lemma quiet_policy : mem_get c' (key pol) = Ok pol.
Proof.
  rewrite <- Hpol. apply mem_get_at, Honly. intros <-. apply Hquiet. unfold enqueued.
  apply elem_of_app. left. unfold mem_get in Hpol. cbn [kind_name OnionBalancePolicy_Kind] in Hpol |- *.
  destruct (objects c !! ("OnionBalancePolicy", key pol)) as [a|]; [|discriminate Hpol].
  destruct a; try discriminate Hpol. injection Hpol as <-. apply list_elem_of_here.
Qed.
(** The policy is among those the mappers go through. *)
Lemma policy_listed ns l :
  (∀ n, ns = Some n → Namespace (obp_meta pol) = n) → mem_list (T := OnionBalancePolicy) c' ns ∅ = Ok l → pol ∈ l.
Proof.
  intros Hns Hl. rewrite (mem_list_spec c' ns ∅ l) by exact Hl. pose proof quiet_policy as Hp. unfold mem_get in Hp.
  destruct (objects c' !! (kind_name (T := OnionBalancePolicy), key pol)) as [a|] eqn:Ha; [|discriminate Hp]. cbn [mbind option_bind] in Hp.
  destruct (prj a) as [p|] eqn:Hprj; [|discriminate Hp]. injection Hp as ->. by exists (key pol), a.
Qed.
Lemma mappers :
  (∀ sec : Secret, key sec = {| nn_Namespace := master_ns pol;
      nn_Name := mk_Name (obp_MasterKeySecretRef (obp_Spec pol)) |} →
    key pol ∈ obp_watches c' (ASecret sec)) ∧
  (∀ (sec : Secret) ref, ref ∈ obp_TargetRefs (obp_Spec pol) → tr_Name ref ≠ "" →
    Namespace (sec_meta sec) = Namespace (obp_meta pol) →
    Labels (sec_meta sec) !! gatewayLabelKey = Some (tr_Name ref) →
    Labels (sec_meta sec) !! haRoleKey = Some haRoleBackend → key pol ∈ obp_watches c' (ASecret sec)) ∧
  (∀ gw ref, ref ∈ obp_TargetRefs (obp_Spec pol) →
    key gw = {| nn_Namespace := Namespace (obp_meta pol); nn_Name := tr_Name ref |} →
    key pol ∈ obp_watches c' (AGateway gw)) ∧
  (∀ rg, mk_Namespace (obp_MasterKeySecretRef (obp_Spec pol)) = Namespace (rg_meta rg) →
    Namespace (rg_meta rg) ≠ "" → granted [rg] (master_from pol) (master_to pol) →
    key pol ∈ obp_watches c' (AReferenceGrant rg)) ∧
  (∀ tsp ref, Namespace (tsp_meta tsp) = Namespace (obp_meta pol) →
    ref ∈ obp_TargetRefs (obp_Spec pol) →
    policyTargets (tsp_TargetRefs (tsp_Spec tsp)) (tr_Name ref) = true →
    key pol ∈ obp_watches c' (ATorServicePolicy tsp)).
Proof.
  destruct (klist (T := OnionBalancePolicy) c' None ∅) as [all|] eqn:Hall; [|discriminate Hall].
  destruct (klist (T := OnionBalancePolicy) c' (Some (Namespace (obp_meta pol))) ∅) as [in_ns|] eqn:Hns; [|discriminate Hns].
  apply (obp_mappers c' pol all in_ns Hall); [by apply (policy_listed None)|exact Hns|].
  apply (policy_listed (Some (Namespace (obp_meta pol)))); [by intros n [= <-]|exact Hns].
Qed.

(** ** The reads of the status *)
Lemma target_same ref : ref ∈ obp_TargetRefs (obp_Spec pol) →
  mem_get (T := Gateway) c' {| nn_Namespace := Namespace (obp_meta pol); nn_Name := tr_Name ref |} =
  mem_get c {| nn_Namespace := Namespace (obp_meta pol); nn_Name := tr_Name ref |}.
Proof.
  intros Href. apply (quiet_get (obp_watches c') (key pol) c c' at_ Honly Hquiet). intros a x Ha Hx.
  pose proof Hx as Hx'. destruct a; try discriminate Hx'. injection Hx' as ->.
  destruct mappers as (_ & _ & Hmap & _). apply (Hmap x ref Href).
  by destruct Ha as [Ha|Ha]; [apply (Hgw _ _ _ Ha Hx)|apply (Hgw' _ _ _ Ha Hx)].
Qed.
Lemma master_same :
  mem_get (T := Secret) c' {| nn_Namespace := master_ns pol; nn_Name := mk_Name (obp_MasterKeySecretRef (obp_Spec pol)) |} =
  mem_get c {| nn_Namespace := master_ns pol; nn_Name := mk_Name (obp_MasterKeySecretRef (obp_Spec pol)) |}.
Proof.
  apply (quiet_get (obp_watches c') (key pol) c c' at_ Honly Hquiet). intros a x Ha Hx.
  pose proof Hx as Hx'. destruct a; try discriminate Hx'. injection Hx' as ->.
  destruct mappers as (Hmap & _). apply Hmap.
  by destruct Ha as [Ha|Ha]; [apply (Hsec _ _ _ Ha Hx)|apply (Hsec' _ _ _ Ha Hx)].
Qed.
Lemma grants_same (l l' : list ReferenceGrant) :
  mk_Namespace (obp_MasterKeySecretRef (obp_Spec pol)) ≠ "" →
  mem_list c (Some (mk_Namespace (obp_MasterKeySecretRef (obp_Spec pol)))) ∅ = Ok l →
  mem_list c' (Some (mk_Namespace (obp_MasterKeySecretRef (obp_Spec pol)))) ∅ = Ok l' →
  Allows l' (master_from pol) (master_to pol) = Allows l (master_from pol) (master_to pol).
Proof.
  intros Hne Hl Hl'. apply eq_true_iff_eq. rewrite !Allows_granted.
  assert (∀ d k g, mem_list d (Some (mk_Namespace (obp_MasterKeySecretRef (obp_Spec pol)))) ∅ = Ok k → g ∈ k →
    granted [g] (master_from pol) (master_to pol) → g ∈ l ↔ g ∈ l') as Hsame.
  { intros d k g Hk Hg Hgr. apply (quiet_listed (obp_watches c') (key pol) c c' at_ Honly Hquiet _ _ l l' g Hl Hl').
    intros a Ha. destruct a; try discriminate Ha. injection Ha as ->. destruct mappers as (_ & _ & _ & Hmap & _).
    rewrite (mem_list_spec d _ ∅ k) in Hg by exact Hk. destruct Hg as (_ & _ & _ & _ & Hns & _).
    specialize (Hns _ eq_refl). change (Namespace (rg_meta g) = mk_Namespace (obp_MasterKeySecretRef (obp_Spec pol))) in Hns.
    apply Hmap; [done|congruence|done]. }
  assert (∀ d k, mem_list d (Some (mk_Namespace (obp_MasterKeySecretRef (obp_Spec pol)))) ∅ = Ok k →
    ∀ g f t, g ∈ k → f ∈ rg_From g → t ∈ rg_To g → f = {| f_Group := from_Group (master_from pol);
      f_Kind := from_Kind (master_from pol); f_Namespace := from_Namespace (master_from pol) |} →
      t_Group t = to_Group (master_to pol) ∧ t_Kind t = to_Kind (master_to pol) ∧
      (t_Name t = None ∨ t_Name t = Some "" ∨ t_Name t = Some (to_Name (master_to pol))) → g ∈ l ↔ g ∈ l') as Hin.
  { intros d k Hk g f t Hg Hf Ht Hfrom Hto. apply (Hsame d k g Hk Hg). exists g, f, t.
    split; [by left|done]. }
  split; intros (g & f & t & Hg & Hf & Ht & Hfrom & Hto); exists g, f, t; (split; [|done]).
  - by apply (Hin c' l' Hl' g f t).
  - by apply (Hin c l Hl g f t).
Qed.
Lemma master_key_same : validateMasterKey c' pol = validateMasterKey c pol.
Proof.
  unfold validateMasterKey. pose proof master_same as Hget.
  change (kget (T := Secret) c' ?k) with (mem_get (T := Secret) c' k).
  change (kget (T := Secret) c ?k) with (mem_get (T := Secret) c k). rewrite Hget.
  destruct (bool_decide (master_ns pol = Namespace (obp_meta pol))) eqn:Hns; [done|]. bools.
  unfold MasterKeyReferenceGrantAllows. set (tns := mk_Namespace (obp_MasterKeySecretRef (obp_Spec pol))).
  destruct (klist (T := ReferenceGrant) c (Some tns) ∅) as [l|] eqn:Hl; [|discriminate Hl].
  destruct (klist (T := ReferenceGrant) c' (Some tns) ∅) as [l'|] eqn:Hl'; [|discriminate Hl'].
  cbn [wrap_err rbind]. rewrite (grants_same l l'); [done| |exact Hl|exact Hl'].
  intros Hempty. apply Hns. unfold master_ns. by rewrite bool_decide_true.
Qed.

(** For a Gateway that the policy targets. *)
Context (ref : LocalPolicyTargetReference) (gw : Gateway).
Context (Href : ref ∈ obp_TargetRefs (obp_Spec pol)) (Hname : tr_Name ref ≠ "").
Context (Hkey : key gw = {| nn_Namespace := Namespace (obp_meta pol); nn_Name := tr_Name ref |}).

Lemma pow_same : powForcedOff c' gw = powForcedOff c gw.
Proof.
  injection Hkey as Hns Hn. unfold powForcedOff.
  destruct (klist (T := TorServicePolicy) c (Some (gw_ns gw)) ∅) as [l|] eqn:Hl; [|discriminate Hl].
  destruct (klist (T := TorServicePolicy) c' (Some (gw_ns gw)) ∅) as [l'|] eqn:Hl'; [|discriminate Hl'].
  assert (∀ d k x, mem_list (T := TorServicePolicy) d (Some (gw_ns gw)) ∅ = Ok k → x ∈ k →
    policyTargets (tsp_TargetRefs (tsp_Spec x)) (gw_name gw) = true → x ∈ l ↔ x ∈ l') as Hin.
  { intros d k x Hk Hx Ht. apply (quiet_listed (obp_watches c') (key pol) c c' at_ Honly Hquiet _ _ l l' x Hl Hl').
    intros a Ha. destruct a; try discriminate Ha. injection Ha as ->. destruct mappers as (_ & _ & _ & _ & Hmap).
    apply (mem_list_spec d (Some (gw_ns gw)) ∅ k x Hk) in Hx as (_ & _ & _ & _ & Hxns & _).
    apply (Hmap x ref); [|done|].
    - etrans; [by apply (Hxns (gw_ns gw))|done].
    - unfold gw_name in Ht. by rewrite <- Hn. }
  apply eq_true_iff_eq. rewrite !existsb_Exists.
  split; intros (x & Hx & Ht); exists x; (split; [|done]); apply andb_true_iff in Ht as [Ht _].
  - by apply (Hin c' l' x Hl' Hx Ht).
  - by apply (Hin c l x Hl Hx Ht).
Qed.
Lemma ready_same : countReadyBackends c' gw = countReadyBackends c gw.
Proof.
  injection Hkey as Hns Hn. unfold countReadyBackends.
  destruct (klist (T := Secret) c (Some (gw_ns gw)) (backend_selector gw)) as [l|] eqn:Hl; [|discriminate Hl].
  destruct (klist (T := Secret) c' (Some (gw_ns gw)) (backend_selector gw)) as [l'|] eqn:Hl'; [|discriminate Hl'].
  cbn [wrap_err rbind]. enough (l ≡ₚ l') as -> by done.
  apply (quiet_list (obp_watches c') (key pol) c c' at_ Honly Hquiet _ _ l l' Hl Hl').
  intros a x Hx Ha. destruct a; try discriminate Ha. injection Ha as ->. destruct mappers as (_ & Hmap & _).
  assert (∃ d k, mem_list d (Some (gw_ns gw)) (backend_selector gw) = Ok k ∧ x ∈ k) as (d & k & Hk & Hxk)
    by (destruct Hx; [by exists c, l|by exists c', l']).
  apply (mem_list_spec d (Some (gw_ns gw)) _ k x Hk) in Hxk as (_ & _ & _ & _ & Hxns & Hlab).
  unfold has_labels, backend_selector in Hlab. bools. rewrite map_Forall_lookup in Hlab.
  apply (Hmap x ref Href Hname).
  - etrans; [by apply (Hxns (gw_ns gw))|done].
  - apply Hlab. rewrite lookup_insert_eq. unfold gw_name. by rewrite Hn.
  - apply Hlab. rewrite lookup_insert_ne by done. apply lookup_singleton_eq.
Qed.
End quiet_policy.

(** C37.  No change an OnionBalancePolicy's status depends on goes unnoticed.  Let one object of the
    cluster be created, changed or deleted, with no request for the policy enqueued by the
    controller's watches.  Then the policy is as it was, and so is the status a reconcile computes
    for it: every target's condition, its message included, and the number of ready backends.
    (Objects are stored under their own names, and a target has a name: the API server's rules.) *)
Theorem obp_watches_complete `{!Ed25519} error_text now (pol : OnionBalancePolicy) (c c' : Cluster) at_
    (Honly : ∀ k, k ≠ at_ → objects c' !! k = objects c !! k)
    (Hgateways : named (T := Gateway) c) (Hgateways' : named (T := Gateway) c')
    (Hsecrets : named (T := Secret) c) (Hsecrets' : named (T := Secret) c')
    (Hnames : ∀ ref, ref ∈ obp_TargetRefs (obp_Spec pol) → tr_Name ref ≠ "")
    (Hpol : kget c (key pol) = Ok pol)
    (Hquiet : key pol ∉ enqueued (obp_watches c') (objects c !! at_) (objects c' !! at_)) :
  kget c' (key pol) = Ok pol ∧
  obp_buildAncestors error_text now c' pol = obp_buildAncestors error_text now c pol.
Proof.
  split; [exact (quiet_policy pol c c' at_ Honly Hpol Hquiet)|].
  assert (validateMasterKey c' pol = validateMasterKey c pol) as Hmaster
    by exact (master_key_same pol c c' at_ Honly Hsecrets Hsecrets' Hpol Hquiet).
  unfold obp_buildAncestors. rewrite Hmaster.
  rewrite (collect_ext (obp_target error_text now c' pol (validateMasterKey c pol))
             (obp_target error_text now c pol (validateMasterKey c pol))); [done|].
  intros ref Href. unfold obp_target.
  pose proof (target_same pol c c' at_ Honly Hgateways Hgateways' Hpol Hquiet ref Href) as Hget.
  change (kget (T := Gateway) c' ?k) with (mem_get (T := Gateway) c' k).
  change (kget (T := Gateway) c ?k) with (mem_get (T := Gateway) c k). rewrite Hget.
  destruct (mem_get (T := Gateway) c _) as [gw|] eqn:Hgw; [|done].
  assert (key gw = {| nn_Namespace := Namespace (obp_meta pol); nn_Name := tr_Name ref |}) as Hkey
    by exact (got_key (T := Gateway) c _ gw Hgateways Hgw).
  by rewrite (pow_same pol c c' at_ Honly Hpol Hquiet ref gw Href Hkey),
    (ready_same pol c c' at_ Honly Hpol Hquiet ref gw Href (Hnames ref Href) Hkey).
Qed.

(** ** Concrete changes *)
Definition other_secret : Secret := {|
  sec_meta := new_meta "other" "tor" ∅; sec_Type := "Opaque"; sec_Data := ∅ |}.
Lemma obp_watches_complete_witness :
  let c' := put ("Secret", key other_secret) (ASecret other_secret) obp_cluster in
  obp_buildAncestors no_text 7 c' example_obp = obp_buildAncestors no_text 7 obp_cluster example_obp.
Proof.
  apply (obp_watches_complete no_text 7 example_obp obp_cluster _ ("Secret", key other_secret)).
  - intros k Hk. by apply lookup_insert_ne.
  - all_named.
  - intros k a x. cbn [put objects]. rewrite lookup_insert_ne by discriminate. revert k a x.
    change (named (T := Gateway) obp_cluster). all_named.
  - all_named.
  - change (named (T := Secret) (put (kind_name (T := Secret), key other_secret) (inj other_secret) obp_cluster)).
    apply named_put; [all_named|done].
  - intros ref. vm_compute. intros H%list_elem_of_In. by destruct H as [<-|[<-|[]]].
  - vm_compute. reflexivity.
  - vm_compute. intros H%list_elem_of_In. by destruct H.
Defined.
(** The loss of the master Secret and a Tor policy for a target do change the status, and
    enqueue the policy. *)
Lemma master_lost_noticed :
  let c' := drop_object ("Secret", key example_master) obp_cluster in
  enqueued (obp_watches c') (Some (ASecret example_master)) None = [key example_obp] ∧
  obp_buildAncestors no_text 7 c' example_obp ≠ obp_buildAncestors no_text 7 obp_cluster example_obp.
Proof. vm_compute. split; [reflexivity|discriminate]. Qed.
Lemma tor_policy_noticed :
  let c' := put ("TorServicePolicy", key example_policy) (ATorServicePolicy example_policy) obp_cluster in
  enqueued (obp_watches c') None (Some (ATorServicePolicy example_policy)) = [key example_obp] ∧
  obp_buildAncestors no_text 7 c' example_obp ≠ obp_buildAncestors no_text 7 obp_cluster example_obp.
Proof. vm_compute. split; [reflexivity|discriminate]. Qed.
