(* ===== verification/System.v ===== *)
(** * The operator as a whole (the six controllers of cmd/manager)

    The controllers run beside each other and beside everybody else who changes the cluster.
    A step is one reconcile of one of them, whatever it is for and however it ends, or anything
    others do; what holds along every run is proved by induction over the steps.  Others act
    between two reconciles, not within one: for that see [GatewayProps], which is about any
    client, and [Client.Crowd], one where others act before each write. *)

From Stdlib Require Import ZArith.
From S2P Require Import Prelude Monad GoStrings Onion Keys KubeTypes Router Kube Names RefGrant Status Policies.
From S2P Require Import HTTPRouteCtl NetPol Resources ResourcesHA Client Harvest GatewayCtl GatewayProps Converge Deletes.
From S2P Require Import Steady ConvergeHA SteadyHA Footprint Watches.

(** ** The controllers that write statuses only *)
Record keeps_statuses (P : Cluster → Prop) : Prop := {
  ks_Gateway (x : Gateway) : keeps P (kupdate_status x);
  ks_GatewayClass (x : GatewayClass) : keeps P (kupdate_status x);
  ks_HTTPRoute (x : HTTPRoute) : keeps P (kupdate_status x);
  ks_TorServicePolicy (x : TorServicePolicy) : keeps P (kupdate_status x);
  ks_TorClientAuthPolicy (x : TorClientAuthPolicy) : keeps P (kupdate_status x);
  ks_OnionBalancePolicy (x : OnionBalancePolicy) : keeps P (kupdate_status x);
}.
Section statuses.
Context {Ed : Ed25519} (P : Cluster → Prop) (Hst : keeps_statuses P).
#[local] Hint Resolve ks_Gateway ks_GatewayClass ks_HTTPRoute ks_TorServicePolicy ks_TorClientAuthPolicy
  ks_OnionBalancePolicy : keeps.
Lemma keeps_GatewayClass_Reconcile now req : keeps P (GatewayClass_Reconcile now req).
Proof. unfold GatewayClass_Reconcile. keeps. Qed.
Lemma keeps_HTTPRoute_Reconcile now req : keeps P (HTTPRoute_Reconcile now req).
Proof. unfold HTTPRoute_Reconcile, updateGatewayAttachedRoutes. keeps. Qed.
Lemma keeps_TorServicePolicy_Reconcile now req : keeps P (TorServicePolicy_Reconcile now req).
Proof. unfold TorServicePolicy_Reconcile, Policy_Reconcile. keeps. Qed.
Lemma keeps_TorClientAuthPolicy_Reconcile now req : keeps P (TorClientAuthPolicy_Reconcile now req).
Proof. unfold TorClientAuthPolicy_Reconcile, Policy_Reconcile. keeps. Qed.
Lemma keeps_OnionBalancePolicy_Reconcile error_text now req : keeps P (OnionBalancePolicy_Reconcile error_text now req).
Proof. unfold OnionBalancePolicy_Reconcile. keeps. Qed.
End statuses.

(** ** Steps *)
Section system.
Context {Ed : Ed25519} (r : GatewayReconciler) (quantity_zero : string → bool)
  (APIReader : option (Cluster → option string → gmap string string → result api_error (list TorServicePolicy))).

Inductive status_step (c : Cluster) : Cluster → Prop :=
| step_GatewayClass now req : status_step c (GatewayClass_Reconcile now req c).1
| step_HTTPRoute now req : status_step c (HTTPRoute_Reconcile now req c).1
| step_TorServicePolicy now req : status_step c (TorServicePolicy_Reconcile now req c).1
| step_TorClientAuthPolicy now req : status_step c (TorClientAuthPolicy_Reconcile now req c).1
| step_OnionBalancePolicy error_text now req : status_step c (OnionBalancePolicy_Reconcile error_text now req c).1.
Inductive operator_step (c : Cluster) : Cluster → Prop :=
| step_Gateway random error_text range now req :
    operator_step c (Gateway_Reconcile r quantity_zero APIReader random error_text range now req c).1
| step_status c' : status_step c c' → operator_step c c'.

Lemma status_step_keeps P c c' : keeps_statuses P → status_step c c' → P c → P c'.
Proof.
  intros Hst [] Hc; [by apply keeps_GatewayClass_Reconcile|by apply keeps_HTTPRoute_Reconcile
    |by apply keeps_TorServicePolicy_Reconcile|by apply keeps_TorClientAuthPolicy_Reconcile
    |by apply keeps_OnionBalancePolicy_Reconcile].
Qed.
(** A Gateway that is not there is not touched. *)
Lemma Gateway_Reconcile_absent random error_text range now req (c : Cluster) :
  (∀ gw : Gateway, kget c req ≠ Ok gw) →
  (Gateway_Reconcile r quantity_zero APIReader random error_text range now req c).1 = c.
Proof.
  intros Hno. unfold Gateway_Reconcile, bind, find. destruct (kget (T := Gateway) c req) as [gw|[]] eqn:Hgw; [|done..].
  by destruct (Hno gw).
Qed.
(** A step of the Gateway controller is one for a Gateway of the cluster. *)
Lemma gateway_step_inv random error_text range now req (c : Cluster) (Q : Cluster → Prop) :
  named (T := Gateway) c → Q c →
  (∀ gw : Gateway, kget c (key gw) = Ok gw → Q (Gateway_Reconcile r quantity_zero APIReader random error_text range now (key gw) c).1) →
  Q (Gateway_Reconcile r quantity_zero APIReader random error_text range now req c).1.
Proof.
  intros Hnamed Hc HQ. destruct (kget (T := Gateway) c req) as [gw|e] eqn:Hgw.
  - pose proof (within_named (T := Gateway) c req gw Hnamed Hgw) as <-. by apply HQ.
  - rewrite Gateway_Reconcile_absent; [exact Hc|]. intros gw. by rewrite Hgw.
Qed.

Lemma tidy_statuses : keeps_statuses tidy.
Proof.
  split; intros x; apply any_kupdate_status; tidy_kind.
Qed.
Lemma tidy_step c c' : operator_step c c' → tidy c → tidy c'.
Proof.
  intros Hstep Hc. destruct Hstep as [random error_text range now req|c' Hst].
  - apply gateway_step_inv; [apply Hc|done|]. intros gw Hgw.
    exact (proj1 (proj1 (reconcile_within r quantity_zero APIReader random error_text range now gw c Hc Hgw))).
  - exact (status_step_keeps _ _ _ tidy_statuses Hst Hc).
Qed.

(** The policy in effect depends on the Gateway's name alone. *)
Lemma findEffectiveOnionBalance_key (gw g : Gateway) (c : Cluster) :
  key gw = key g → findEffectiveOnionBalance gw c = findEffectiveOnionBalance g c.
Proof.
  intros Hk. unfold findEffectiveOnionBalance, gw_ns, gw_name.
  change (Namespace (gw_meta gw)) with (nn_Namespace (key gw)). change (Name (gw_meta gw)) with (nn_Name (key gw)).
  by rewrite Hk.
Qed.

(** ** Secrets

    A Secret is out of the operator's reach when each Gateway of the cluster either has no claim
    to it, or has it as its key while no onionbalance policy is accepted for the Gateway. *)
Section secret.
Context (k : NamespacedName).
Definition is_key_of (gw : Gateway) (c : Cluster) : Prop :=
  key_of (key gw) = k ∧
  (∃ sec, mem_get (T := Secret) c k = Ok sec ∧ ∀ g : Gateway, has_labels (backend_selector g) sec = false) ∧
  ∀ obp, findEffectiveOnionBalance gw c ≠ Ok (Some obp, true).
Definition protected (c : Cluster) : Prop :=
  ∀ gw : Gateway, kget c (key gw) = Ok gw → ¬ footprint gw c ("Secret", k) ∨ is_key_of gw c.

(** The Secret and the policies as in [c]. *)
Definition key_untouched (c s : Cluster) : Prop :=
  objects s !! ("Secret", k) = objects c !! ("Secret", k) ∧
  (∀ k', objects s !! ("OnionBalancePolicy", k') = objects c !! ("OnionBalancePolicy", k')) ∧ named (T := Secret) s.
Lemma key_untouched_writes c : keeps_but_secret (key_untouched c) k.
Proof.
  assert (∀ T `{Kind T}, kind_name (T := T) ≠ "Secret" → kind_name (T := T) ≠ "OnionBalancePolicy" →
    keeps_any (key_untouched c) T) as Hother.
  { intros T ? ? Hs Ho. apply keeps_writes_and; [|apply keeps_writes_and].
    - by apply (mem_keeps (λ o, o = objects c !! ("Secret", k))).
    - apply (keeps_writes_all _ (λ k' s, objects s !! ("OnionBalancePolicy", k') = objects c !! ("OnionBalancePolicy", k'))).
      intros k'. by apply (mem_keeps (λ o, o = objects c !! ("OnionBalancePolicy", k'))).
    - by apply mem_keeps_named_other. }
  split; try (by apply Hother); [|done]. apply keeps_writes_and; [|apply keeps_writes_and].
  - by apply (mem_keeps (λ o, o = objects c !! ("Secret", k))).
  - apply (keeps_writes_all _ (λ k' s, objects s !! ("OnionBalancePolicy", k') = objects c !! ("OnionBalancePolicy", k'))).
    intros k'. by apply (mem_keeps (λ o, o = objects c !! ("OnionBalancePolicy", k'))).
  - eapply keeps_writes_mono; [|by apply mem_keeps_named]. done.
Qed.
Lemma key_step random error_text range now (gw : Gateway) (c : Cluster) :
  named (T := Secret) c → kget c (key gw) = Ok gw → is_key_of gw c →
  key_untouched c (Gateway_Reconcile r quantity_zero APIReader random error_text range now (key gw) c).1.
Proof.
  intros Hnamed Hgw (Hk & (sec & Hsec & Hlab) & Hobp).
  assert (∀ s, key_untouched c s → mem_get (T := Secret) s k = Ok sec) as Hget.
  { intros s (Hs & _). rewrite <- Hsec. by apply mem_get_at. }
  apply (keeps_Gateway_Reconcile r quantity_zero APIReader random error_text range now (key_untouched c) k).
  - apply key_untouched_writes.
  - intros s Hs. exists sec. by apply Hget.
  - intros s g l Hs Hl x Hx Hkey. pose proof (Hget s Hs) as Hsk. destruct Hs as (_ & _ & Hn).
    change (mem_list s (Some (gw_ns g)) (backend_selector g) = Ok l) in Hl.
    apply (mem_list_spec s _ _ l x Hl) in Hx as (k' & a & Ha & Hp & _ & Hsel).
    assert (k' = k) as -> by (rewrite <- (Hn k' a x Ha Hp); exact Hkey).
    unfold mem_get in Hsk. rewrite Ha in Hsk. cbn [mbind option_bind] in Hsk. rewrite Hp in Hsk. injection Hsk as ->.
    by rewrite Hlab in Hsel.
  - intros s s' g g'. cbn. unfold mem_write. destruct (mem_get s (key g)); naive_solver.
  - exact Hk.
  - intros s g obp (_ & Ho & _) Hkey Heff. apply (Hobp obp). rewrite <- Heff.
    rewrite (findEffectiveOnionBalance_at c s g) by (intros [kd k'] [= ->]; apply Ho).
    by apply findEffectiveOnionBalance_key.
  - done.
  - intros g. rewrite Hgw. by intros [= <-].
Qed.
Lemma secret_statuses (o : option any) : keeps_statuses (λ c, objects c !! ("Secret", k) = o).
Proof. split; intros x; apply any_kupdate_status; by apply (mem_keeps (λ x, x = o)). Qed.
Lemma secret_step c c' :
  tidy c → protected c → operator_step c c' → objects c' !! ("Secret", k) = objects c !! ("Secret", k).
Proof.
  intros Htidy Hprot [random error_text range now req|c1 Hst].
  2:{ exact (status_step_keeps _ _ _ (secret_statuses (objects c !! ("Secret", k))) Hst eq_refl). }
  apply (gateway_step_inv random error_text range now req c (λ c', objects c' !! ("Secret", k) = objects c !! ("Secret", k)));
    [apply Htidy|done|]. intros gw Hgw. destruct (Hprot gw Hgw) as [Hfree|Hkey].
  - destruct (reconcile_within r quantity_zero APIReader random error_text range now gw c Htidy Hgw) as [[_ Hall] _].
    by destruct (Hall ("Secret", k)).
  - destruct Htidy as (_ & _ & Hn & _). by destruct (key_step random error_text range now gw c Hn Hgw Hkey).
Qed.
(** A run of the operator among others, who may do anything but touch the Secret. *)
Inductive step (c : Cluster) : Cluster → Prop :=
| step_operator c' : protected c → operator_step c c' → step c c'
| step_others c' : tidy c' → objects c' !! ("Secret", k) = objects c !! ("Secret", k) → step c c'.

(** C2.  No key is lost by the operator as a whole.  Along every run, of any length, of its six
    controllers in any order and for any objects, each reconcile succeeding or stopping at an
    error, among changes by anybody else that leave the Secret alone: a Secret stays as it is, as
    long as in every state in which the operator acts each Gateway either has no claim to the
    Secret, or has it as its key while no onionbalance policy is accepted for the Gateway. *)
Theorem secret_survives (c c' : Cluster) (Htidy : tidy c) (Hrun : rtc step c c') :
  objects c' !! ("Secret", k) = objects c !! ("Secret", k) ∧ tidy c'.
Proof.
  induction Hrun as [c|c c1 c' [c1' Hprot Hstep|c1' Htidy1 Hsame] _ IH]; [done|..].
  - destruct (IH (tidy_step c c1' Hstep Htidy)) as [-> Htidy']. split; [|done]. by apply secret_step.
  - destruct (IH Htidy1) as [-> Htidy']. by split.
Qed.
End secret.

(** ** What users write *)
Definition spec_of (a : any) : any :=
  match a with
  | AGatewayClass x => AGatewayClass (with_gc_Conditions [] x)
  | AGateway x => AGateway (unedited x)
  | AHTTPRoute x => AHTTPRoute (with_Parents [] x)
  | ATorServicePolicy x => ATorServicePolicy (set_Ancestors [] x)
  | ATorClientAuthPolicy x => ATorClientAuthPolicy (set_Ancestors [] x)
  | AOnionBalancePolicy x => AOnionBalancePolicy (with_obp_Status {| obp_Ancestors := []; obp_ReadyBackends := 0 |} x)
  | a => a
  end.
Definition user_kinds : list string :=
  ["GatewayClass"; "Gateway"; "HTTPRoute"; "ReferenceGrant"; "TorServicePolicy"; "TorClientAuthPolicy"; "OnionBalancePolicy"].
Definition specs_as_in (c s : Cluster) : Prop := ∀ k, spec_of <$> objects s !! k = spec_of <$> objects c !! k.
Lemma status_keeps_specs {T} `{Kind T} c (x : T) :
  (∀ a old, prj a = Some old → spec_of (inj (with_status_of old x)) = spec_of a) →
  keeps (specs_as_in c) (mem_write (λ x old, with_status_of old x) x).
Proof.
  intros Hspec s Hs. unfold mem_write, mem_get.
  destruct (objects s !! _) as [a|] eqn:Ha; cbn [mbind option_bind]; [|done].
  destruct (prj a) as [old|] eqn:Hold; [|done]. intros k. rewrite <- Hs. cbn.
  destruct (decide (k = (kind_name (T := T), key x))) as [->|Hne]; [|by rewrite lookup_insert_ne].
  rewrite lookup_insert_eq, Ha. cbn. f_equal. by apply Hspec.
Qed.
Lemma specs_statuses c : keeps_statuses (specs_as_in c).
Proof.
  split; intros x; apply status_keeps_specs; intros a old Ha; destruct a; try discriminate Ha; by injection Ha as ->.
Qed.
Lemma footprint_gateway gw c k : footprint gw c ("Gateway", k) → k = key gw.
Proof.
  intros [[Hk|[i [=]]]|[(pol & _ & _ & Hk)|[Hk|[Hk|Hk]]]].
  - unfold own_names, mode_a_names, mode_b_names in Hk. rewrite list_elem_of_In in Hk. cbn [app In] in Hk.
    repeat (destruct Hk as [Hk|Hk]; [first [discriminate Hk|by injection Hk]|]). done.
  - apply cross_kind in Hk. cbn in Hk. intuition discriminate.
  - by apply listed_kind in Hk.
  - by apply listed_kind in Hk.
  - by apply listed_kind in Hk.
Qed.
Lemma gateway_object (c : Cluster) k (gw : Gateway) :
  mem_get c k = Ok gw → spec_of <$> objects c !! ("Gateway", k) = Some (AGateway (unedited gw)).
Proof.
  unfold mem_get. cbn [kind_name Gateway_Kind]. destruct (objects c !! _) as [a|]; [|done]. destruct a; try done.
  by intros [= ->].
Qed.
(** C8.  The operator does not edit what users write.  Along every run of its controllers, each
    GatewayClass, Gateway, HTTPRoute, ReferenceGrant and policy that is there stays, with its
    metadata and spec as they were, and none appears: only statuses are written, and the
    finalizers and annotations of Gateways. *)
Theorem specs_respected (c c' : Cluster) (Htidy : tidy c) (Hrun : rtc operator_step c c') :
  ∀ k, In k.1 user_kinds → spec_of <$> objects c' !! k = spec_of <$> objects c !! k.
Proof.
  intros k Hk. induction Hrun as [c|c c1 c' Hstep _ IH]; [done|]. rewrite IH by (by apply (tidy_step c)).
  clear IH. destruct Hstep as [random error_text range now req|c1 Hst].
  2:{ apply (status_step_keeps (specs_as_in c) c c1 (specs_statuses c) Hst). by intros k'. }
  apply (gateway_step_inv random error_text range now req c (λ c1, spec_of <$> objects c1 !! k = spec_of <$> objects c !! k));
    [apply Htidy|done|]. intros gw Hgw.
  destruct (reconcile_within r quantity_zero APIReader random error_text range now gw c Htidy Hgw) as [[_ Hall] (gw' & Hgw' & Heq)].
  destruct (Hall k) as [Hf|Hsame]; [|by rewrite Hsame].
  assert (k = ("Gateway", key gw)) as ->.
  { pose proof (footprint_kinds gw c k Hf) as Hnot. destruct k as [kd k']. cbn [fst user_kinds] in Hk.
    destruct (decide (kd = "Gateway")) as [->|Hkd]; [by rewrite (footprint_gateway gw c k' Hf)|].
    destruct Hnot. cbn in *. intuition congruence. }
  by rewrite (gateway_object _ _ _ Hgw'), (gateway_object _ _ _ Hgw), Heq.
Qed.
End system.

(** ** Concrete runs *)
Definition gateway_names (c : Cluster) : list NamespacedName :=
  omap (λ kx, if bool_decide (kx.1.1 = "Gateway") then Some kx.1.2 else None) (map_to_list (objects c)).
Lemma gateway_names_all (c : Cluster) (gw : Gateway) : kget c (key gw) = Ok gw → key gw ∈ gateway_names c.
Proof.
  intros Hgw. change (mem_get c (key gw) = Ok gw) in Hgw. unfold mem_get in Hgw.
  destruct (objects c !! (kind_name (T := Gateway), key gw)) as [a|] eqn:Ha; [|discriminate Hgw].
  apply list_elem_of_omap. exists (("Gateway", key gw), a). split; [by apply elem_of_map_to_list|done].
Qed.
Lemma protected_alone k (c : Cluster) (gw0 : Gateway) :
  gateway_names c = [key gw0] → is_key_of k gw0 c → protected k c.
Proof.
  intros Hnames (Hk & Hsec & Hobp) gw Hgw. right. apply gateway_names_all in Hgw. rewrite Hnames in Hgw.
  apply list_elem_of_singleton in Hgw. split; [by rewrite Hgw|]. split; [exact Hsec|].
  intros obp. rewrite (findEffectiveOnionBalance_key gw gw0 c Hgw). apply Hobp.
Qed.
Lemma example_key_unlabelled (g : Gateway) : has_labels (backend_selector g) example_key = false.
Proof.
  unfold has_labels. apply bool_decide_eq_false. rewrite map_Forall_lookup. intros H.
  specialize (H haRoleKey haRoleBackend). unfold backend_selector in H.
  rewrite lookup_insert_ne, lookup_singleton_eq in H by done. by specialize (H eq_refl).
Qed.
(** Somebody adds a policy for another Gateway, the Gateway and then the policy are reconciled. *)
Definition run_start : Cluster := (mem_create other_policy keyed_cluster).1.
Definition run_gateway : Cluster :=
  (Gateway_Reconcile example_reconciler (λ _, false) None (λ _, Ok zero_key) no_text map_range 7 onion_key run_start).1.
Definition run_policy : Cluster := (TorServicePolicy_Reconcile 9 (key other_policy) run_gateway).1.
Lemma tidy_keyed : tidy keyed_cluster.
Proof. unfold tidy. split_and!; all_named. Qed.
Lemma tidy_start : tidy run_start.
Proof.
  assert (keeps_any tidy TorServicePolicy) as Hany by tidy_kind.
  exact (any_kcreate tidy Hany other_policy keyed_cluster tidy_keyed).
Qed.
Ltac key_protected :=
  apply (protected_alone _ _ example_gateway); [vm_compute; reflexivity|]; split; [reflexivity|]; split;
  [exists example_key; split; [vm_compute; reflexivity|exact example_key_unlabelled]
  |intros obp; vm_compute; discriminate].
Lemma run_steps : operator_step example_reconciler (λ _, false) None run_start run_gateway ∧
  operator_step example_reconciler (λ _, false) None run_gateway run_policy.
Proof. split; [apply step_Gateway|apply step_status, step_TorServicePolicy]. Qed.
Lemma secret_survives_witness :
  objects run_policy !! ("Secret", key example_key) = Some (ASecret example_key) ∧
  (writes run_start, writes run_gateway) = (1, 10).
Proof.
  split; [|vm_compute; reflexivity].
  assert (objects keyed_cluster !! ("Secret", key example_key) = Some (ASecret example_key)) as <- by reflexivity.
  apply (secret_survives example_reconciler (λ _, false) None (key example_key) keyed_cluster run_policy tidy_keyed).
  eapply rtc_l; [apply step_others; [exact tidy_start|vm_compute; reflexivity]|].
  eapply rtc_l; [apply step_operator; [key_protected|exact (proj1 run_steps)]|].
  eapply rtc_l; [apply step_operator; [key_protected|exact (proj2 run_steps)]|]. apply rtc_refl.
Defined.
Lemma specs_respected_witness :
  spec_of <$> objects run_policy !! ("Gateway", onion_key) = Some (AGateway (unedited example_gateway)) ∧
  writes run_policy = 11.
Proof.
  split; [|vm_compute; reflexivity].
  assert (spec_of <$> objects run_start !! ("Gateway", onion_key) = Some (AGateway (unedited example_gateway))) as <-
    by (vm_compute; reflexivity).
  apply (specs_respected example_reconciler (λ _, false) None run_start run_policy tidy_start).
  - eapply rtc_l; [exact (proj1 run_steps)|]. eapply rtc_l; [exact (proj2 run_steps)|]. apply rtc_refl.
  - cbn. tauto.
Defined.
