(* ===== verification/TorInit.v ===== *)
(** * The init container (cmd/tor-init/main.go)

    [run] fills a HiddenServiceDir: from a mounted Secret, or from Secrets read over the API,
    and with the client authorization files and the onionbalance configuration.  The API's
    client and the environment are parameters. *)

From Stdlib Require Import Ascii NArith ZArith.
From S2P Require Import Prelude Monad GoStrings GoNet GoOS ClientAuth Permissions KubeTypes.
From S2P Require Import Kube Names Policies Onion Keys Resources ResourcesHA Workloads.

Inductive init_error :=
| ErrIO (e : io_error)
| ErrPodName (podName : string)
| ErrNoName (namespace name : string)
| ErrGet (namespace name : string) (e : api_error)
| ErrWriteKey (k : string) (e : io_error)
| ErrConfig (msg : string)
| ErrClient (msg : string)
| ErrRef (ref : string)
| ErrEnv
| ErrFix (e : perm_error)
| ErrIn (ctx : string) (e : init_error).

(** The text after the last [-]. *)
Definition podOrdinal (podName : string) : result init_error string :=
  match cut_last "-" podName with
  | None => Err (ErrPodName podName)
  | Some (_, ord) => if bool_decide (ord = "") then Err (ErrPodName podName) else Ok ord
  end.

Section tor_init.
Context `{!OS, !UnicodeCase}.
(** [rest.InClusterConfig] and [kubernetes.NewForConfig], a client that reads a Secret's data,
    the order in which [range] visits it, and [os.Getenv]. *)
Context {Config : Type} (InClusterConfig : result string Config).
Context (NewForConfig : Config → result string
           (string → string → result api_error (gmap string bytes))).
Context (range : gmap string bytes → list (string * bytes)) (Getenv : string → string).

Definition fetchSecretToDir (cs : string → string → result api_error (gmap string bytes))
    (namespace name dst : string) : M fsys init_error () :=
  if bool_decide (namespace = "") || bool_decide (name = "") then throw (ErrNoName namespace name)
  else
    let! data := lift (wrap_err (ErrGet namespace name) (cs namespace name)) in
    do! wrap ErrIO (MkdirAll dst HiddenServiceDirMode) in
    for_each (λ kv, wrap (ErrWriteKey kv.1) (WriteFile (path_Join dst kv.1) kv.2 384)) (range data).
Definition apiFetchSecretToDir (namespace name dst : string) : M fsys init_error () :=
  let! cfg := lift (wrap_err ErrConfig InClusterConfig) in
  let! cs := lift (wrap_err ErrClient (NewForConfig cfg)) in
  fetchSecretToDir cs namespace name dst.

(** [strings.SplitN(ref, "/", 2)]. *)
Definition runAPIFetch (apiFetchSecret dst : string) : M fsys init_error () :=
  match cut_first "/" apiFetchSecret with
  | Some (ns, name) =>
      if bool_decide (ns = "") || bool_decide (name = "") then throw (ErrRef apiFetchSecret)
      else wrap (ErrIn "api-fetch") (apiFetchSecretToDir ns name dst)
  | None => throw (ErrRef apiFetchSecret)
  end.
Definition runAPIFetchPrefix (prefix dst : string) : M fsys init_error () :=
  let podName := Getenv "POD_NAME" in
  let podNamespace := Getenv "POD_NAMESPACE" in
  if bool_decide (podName = "") || bool_decide (podNamespace = "") then throw ErrEnv
  else
    let! ord := lift (podOrdinal podName) in
    wrap (ErrIn "api-fetch-prefix") (apiFetchSecretToDir podNamespace (prefix +:+ ord +:+ "-keys") dst).

Definition writeObConfig (hsDir addr : string) : M fsys io_error () :=
  let addr := TrimSpace addr in
  let addr := if HasSuffix addr ".onion" then addr else addr +:+ ".onion" in
  WriteFile (path_Join hsDir "ob_config") (bytes_of_string ("MasterOnionAddress " +:+ addr +:+ nl)) 256.

(** Opened and read, then written over. *)
Definition copyFile (srcPath dstPath : string) : M fsys io_error () :=
  let! data := gets (λ fs, ReadFile fs srcPath) in WriteFile dstPath data 384.
(** What [os.ReadDir] and [os.ReadFile] see in the directory of a mounted Secret. *)
Definition client_entries (fs : fsys) (dir : string) : result io_error (list dirent) :=
  let* names := ReadDir fs dir in
  Ok (map (λ name, {| d_name := name;
                      d_info := (let* n := Lstat fs (elems (path_Join dir name)) in Ok (n_kind n));
                      d_body := ReadFile fs (path_Join dir name) |}) names).

Definition copy_entry (src dst name : string) : M fsys init_error () :=
  let srcPath := path_Join src name in
  let! info := gets (λ fs, wrap_err ErrIO (Stat fs (elems srcPath))) in
  if negb (bool_decide (n_kind info = KFile)) then ret ()
  else wrap ErrIO (copyFile srcPath (path_Join dst name)).
(** An error of [WriteAuthorizedClients] is logged, and the files that were written stay. *)
Definition run (src dst clientAuthSrc obMasterAddress apiFetchSecret apiFetchSecretPrefix : string)
  : M fsys init_error () :=
  do! wrap ErrIO (MkdirAll dst HiddenServiceDirMode) in
  do! (if negb (bool_decide (apiFetchSecret = "")) then runAPIFetch apiFetchSecret dst else ret ()) in
  do! (if negb (bool_decide (apiFetchSecretPrefix = ""))
       then runAPIFetchPrefix apiFetchSecretPrefix dst else ret ()) in
  do! (if negb (bool_decide (src = "")) then
         let! names := gets (λ fs, wrap_err ErrIO (ReadDir fs src)) in
         for_each (copy_entry src dst) names
       else ret ()) in
  do! (if negb (bool_decide (clientAuthSrc = "")) then
         let! clients := gets (λ fs, wrap_err ErrIO
                           (LoadAuthorizedClientsFromDir (client_entries fs clientAuthSrc))) in
         best_effort (WriteAuthorizedClients dst clients)
       else ret ()) in
  do! (if negb (bool_decide (src = "")) || negb (bool_decide (apiFetchSecretPrefix = "")) ||
          negb (bool_decide (obMasterAddress = "")) || negb (bool_decide (clientAuthSrc = ""))
       then wrap ErrFix (FixPermissions dst) else ret ()) in
  if negb (bool_decide (obMasterAddress = ""))
  then wrap (ErrIn "ob_config" ∘ ErrIO) (writeObConfig dst obMasterAddress) else ret ().
End tor_init.

(** * The key a backend pod reads *)
#[local] Arguments String.append !_ _ / : assert.
Definition no_dash (s : string) : bool := str_forallb (λ c, negb (Ascii.eqb c "-")) s.
Lemma no_dash_uint d : no_dash (DecimalString.NilEmpty.string_of_uint d) = true.
Proof. induction d; simpl; done. Qed.
Lemma no_dash_Itoa i : (0 ≤ i)%Z → no_dash (Itoa i) = true ∧ Itoa i ≠ "".
Proof.
  intros (d & Hd & -> & _)%Itoa_nonneg. unfold DecimalString.NilZero.string_of_uint.
  destruct d; try done; split; try apply (no_dash_uint _); done.
Qed.
Lemma cut_last_none sep s :
  str_forallb (λ c, negb (Ascii.eqb c sep)) s = true → cut_last sep s = None.
Proof.
  induction s as [|c s IH]; [done|]. simpl. intros H. bools. rewrite IH by done.
  by destruct (Ascii.eqb c sep).
Qed.
Lemma cut_last_app sep a b :
  str_forallb (λ c, negb (Ascii.eqb c sep)) b = true → cut_last sep (a +:+ String sep b) = Some (a, b).
Proof.
  intros Hb. induction a as [|c a IH]; simpl.
  - rewrite cut_last_none by done. by rewrite Ascii.eqb_refl.
  - by rewrite IH.
Qed.

(** C30.  Each backend pod reads its own key.  In pod [i] of the StatefulSet the operator builds,
    whose name Kubernetes makes of the StatefulSet's name and [i], the init container is given
    the prefix with which it asks for exactly the Secret the operator keeps backend [i]'s key
    in; the operator and the init container never write that name down in common. *)
Theorem pod_reads_own_key `{!Controlled, !OS} {Config : Type} InClusterConfig
    (NewForConfig : Config → result string (string → string → result api_error (gmap string bytes)))
    range Getenv (gw : Gateway) pol master images ss (i : Z) dst
    (Hbuild : BuildBackendStatefulSet gw pol master images = Ok ss)
    (Hi : (0 ≤ i)%Z) (Hns : gw_ns gw ≠ "")
    (Hname : Getenv "POD_NAME" = Name (sts_meta ss) +:+ "-" +:+ Itoa i)
    (Hnamespace : Getenv "POD_NAMESPACE" = gw_ns gw) :
  ∃ spec c prefix, sts_Spec ss = Some spec ∧ pod_InitContainers (pt_Spec (ss_Template spec)) = [c] ∧
    ("--api-fetch-secret-prefix=" +:+ prefix) ∈ ct_Args c ∧
    ∀ fs, runAPIFetchPrefix InClusterConfig NewForConfig range Getenv prefix dst fs =
      wrap (ErrIn "api-fetch-prefix") (apiFetchSecretToDir InClusterConfig NewForConfig range
        (gw_ns gw) (BackendKeySecretName gw i) dst) fs.
Proof.
  unfold BuildBackendStatefulSet in Hbuild. destruct (_ || _); [done|].
  apply owned_spec in Hbuild as (m & -> & Hn & _).
  do 2 eexists. exists (gw_name gw +:+ "-backend-"). split; [reflexivity|]. split; [reflexivity|]. split.
  - cbn [ct_Args]. set_solver.
  - intros fs. destruct (no_dash_Itoa i Hi) as [Hd Hne].
    unfold runAPIFetchPrefix, podOrdinal. rewrite Hname, Hnamespace.
    change ("-" +:+ Itoa i) with (String "-" (Itoa i)).
    set (name := Name _). rewrite cut_last_app by exact Hd.
    assert (name +:+ String "-" (Itoa i) ≠ "") by (by destruct name).
    rewrite !bool_decide_false by done. cbn [orb].
    clear Hname Hn. unfold bind at 1, lift. cbv iota beta. unfold BackendKeySecretName.
    by rewrite <- str_app_assoc.
Qed.

Lemma pod_reads_own_key_witness :
  let env := λ k, if bool_decide (k = "POD_NAME") then BackendStatefulSetName example_gateway +:+ "-" +:+ Itoa 3
                  else if bool_decide (k = "POD_NAMESPACE") then "tor" else "" in
  ∃ ss prefix, BuildBackendStatefulSet example_gateway example_obp {| pubKey := zero_key |} example_images = Ok ss ∧
    ∀ fs, runAPIFetchPrefix (Err "no cluster") (λ _ : (), Err "") map_to_list env prefix "/hs" fs =
          (fs, Err (ErrIn "api-fetch-prefix" (ErrConfig "no cluster"))).
Proof.
  cbn zeta. set (env := λ k : string, _).
  assert (∃ ss, BuildBackendStatefulSet example_gateway example_obp {| pubKey := zero_key |} example_images = Ok ss ∧
            Name (sts_meta ss) = BackendStatefulSetName example_gateway) as (ss & Hss & Hn)
    by (eexists; split; reflexivity).
  destruct (pod_reads_own_key (Err "no cluster") (λ _ : (), Err "") map_to_list env example_gateway example_obp
    {| pubKey := zero_key |} example_images ss 3 "/hs" Hss) as (spec & c & prefix & _ & _ & _ & Hrun);
    [done | done | by rewrite Hn | done |].
  exists ss, prefix. split; [exact Hss|]. intros fs. by rewrite Hrun.
Defined.

(** * What a backend's init container leaves *)
Section files.
Context `{!OS, !UnicodeCase}.
Implicit Types fs : fsys.

(** A file written over what was there. *)
Definition written fs (p : path) (perm : N) (data : bytes) : node :=
  match fs !! p with
  | Some n => {| n_kind := n_kind n; n_mode := n_mode n; n_data := data |}
  | None => {| n_kind := KFile; n_mode := N.ldiff perm umask; n_data := data |}
  end.
Definition key_path (dst : string) (k : string) : path := elems dst ++ [k].
Lemma key_path_below dst k : below (elems dst) (key_path dst k) = true.
Proof.
  unfold below, key_path. rewrite take_app_length, bool_decide_true by done. cbn.
  apply Nat.ltb_lt. rewrite length_app. cbn. lia.
Qed.
Lemma written_links dst fs p perm data :
  links_free_below (elems dst) fs → links_free_below (elems dst) (<[p := written fs p perm data]> fs).
Proof.
  intros Hl q n Hq. destruct (decide (q = p)) as [->|Hne].
  - rewrite lookup_insert_eq. intros [= <-]. unfold written. destruct (fs !! p) as [n0|] eqn:Hp; [|done]. exact (Hl p n0 Hq Hp).
  - rewrite lookup_insert_ne by done. by apply Hl.
Qed.
Lemma MkdirAll_links dst p perm fs :
  links_free_below (elems dst) fs → links_free_below (elems dst) (MkdirAll p perm fs).1.
Proof.
  unfold MkdirAll. apply for_each_invariant. intros q fs' _ Hl. unfold Mkdir.
  destruct (is_dir fs' q), (fs' !! q), (attempt (OpMkdir q)); cbn; try done.
  intros r n Hr. destruct (decide (r = q)) as [->|Hne]; [rewrite lookup_insert_eq; by intros [= <-]|].
  rewrite lookup_insert_ne by done. by apply Hl.
Qed.

(** The keys of the data, one after the other. *)
Lemma write_keys dst (l : list (string * bytes)) :
  dst ≠ "" → Forall (λ kv, plain_name kv.1 = true) l → NoDup l.*1 → ∀ fs fs',
  links_free_below (elems dst) fs →
  for_each (λ kv, wrap (ErrWriteKey kv.1) (WriteFile (path_Join dst kv.1) kv.2 384)) l fs = (fs', Ok ()) →
  links_free_below (elems dst) fs' ∧
  (∀ k v, (k, v) ∈ l → fs' !! key_path dst k = Some (written fs (key_path dst k) 384 v)) ∧
  (∀ p, (∀ k, k ∈ l.*1 → p ≠ key_path dst k) → fs' !! p = fs !! p).
Proof.
  intros Hdst Hplain. induction Hplain as [|[k v] l Hk Hl IH]; intros Hnd fs fs' Hlinks; cbn [for_each].
  { intros [= <-]. split; [done|]. split; [by intros k v ?%not_elem_of_nil | done]. }
  apply NoDup_cons in Hnd as [Hni Hnd].
  assert (elems (path_Join dst k) = key_path dst k) as Hel by (by apply elems_path_Join).
  intros (fs1 & [] & Hw%wrap_Ok & Hrun)%bind_Ok. cbn [fst snd] in Hw.
  apply WriteFile_Ok in Hw.
  2:{ intros n. rewrite Hel. apply Hlinks. right. apply key_path_below. }
  rewrite Hel in Hw. fold (written fs (key_path dst k) 384 v) in Hw.
  destruct (IH Hnd fs1 fs') as (Hl1 & Hin & Hout); [rewrite Hw; by apply written_links | done |].
  split; [done|]. split.
  - intros k' v' [[= -> ->]|Hk']%elem_of_cons.
    + rewrite Hout, Hw, lookup_insert_eq; [done|]. intros k' Hk' Heq.
      unfold key_path in Heq. apply app_inj_2 in Heq as [_ [= ->]]; done.
    + rewrite (Hin _ _ Hk'). f_equal. unfold written. rewrite Hw, lookup_insert_ne; [done|].
      unfold key_path. intros [_ [= ->]]%app_inj_2; [|done].
      apply Hni, list_elem_of_fmap. by exists (k', v').
  - intros p Hp. rewrite Hout by (intros k' Hk'; apply Hp; by right).
    rewrite Hw, lookup_insert_ne; [done|]. intros Heq. by apply (Hp k); [left|].
Qed.
End files.

Section backend.
Context `{!OS, !UnicodeCase} {Config : Type} (InClusterConfig : result string Config).
Context (NewForConfig : Config → result string
           (string → string → result api_error (gmap string bytes))).
Context (range : gmap string bytes → list (string * bytes)) (Getenv : string → string).
(** Kubernetes validates the keys of a Secret; [range] visits each once. *)
Context (Hkeys : ∀ cfg cs ns name data, NewForConfig cfg = Ok cs → cs ns name = Ok data →
                   map_Forall (λ k (_ : bytes), plain_name k = true) data).
Context (Hrange : ∀ m, range m ≡ₚ map_to_list m).
Implicit Types fs : fsys.

(** The data the API has for a Secret. *)
Definition api_data (ns name : string) (data : gmap string bytes) : Prop :=
  ∃ cfg cs, InClusterConfig = Ok cfg ∧ NewForConfig cfg = Ok cs ∧ cs ns name = Ok data.

Lemma fetch_files ns name dst fs fs' :
  dst ≠ "" → links_free_below (elems dst) fs →
  apiFetchSecretToDir InClusterConfig NewForConfig range ns name dst fs = (fs', Ok ()) →
  ∃ data, api_data ns name data ∧ links_free_below (elems dst) fs' ∧
    (∀ k v, data !! k = Some v → ∃ n, fs' !! key_path dst k = Some n ∧ n_data n = v) ∧
    (∀ p, p ∉ ancestors (elems dst) → below (elems dst) p = false → fs' !! p = fs !! p).
Proof.
  intros Hdst Hlinks (fs1 & cfg & Hcfg & Hrun)%bind_Ok. apply bind_Ok in Hrun as (fs2 & cs & Hcs & Hrun).
  unfold lift in Hcfg, Hcs. injection Hcfg as <- Hcfg. injection Hcs as <- Hcs.
  destruct InClusterConfig as [cfg'|] eqn:Hc; [|done]. injection Hcfg as ->.
  destruct (NewForConfig cfg) as [cs'|] eqn:Hn; [|done]. injection Hcs as ->.
  unfold fetchSecretToDir in Hrun. destruct (_ || _); [done|].
  apply bind_Ok in Hrun as (fs3 & data & Hd & Hrun). unfold lift in Hd. injection Hd as <- Hd.
  destruct (cs ns name) as [d|] eqn:Hdata; [injection Hd as ->|done].
  apply bind_Ok in Hrun as (fs4 & [] & Hmk%wrap_Ok & Hrun).
  pose proof (MkdirAll_links dst dst HiddenServiceDirMode fs Hlinks) as Hl4.
  pose proof (λ p, MkdirAll_other dst p HiddenServiceDirMode fs) as Ho4. rewrite Hmk in Hl4, Ho4. cbn in Hl4, Ho4.
  apply write_keys in Hrun as (Hl & Hin & Hout); [|done| | |done].
  - exists data. split; [by exists cfg, cs|]. split; [done|]. split.
    + intros k v Hkv. eexists. split; [apply Hin|].
      * rewrite Hrange. by apply elem_of_map_to_list.
      * unfold written. by destruct (fs4 !! _).
    + intros p Hp Hb. rewrite Hout; [by apply Ho4|]. intros k _ ->. by rewrite key_path_below in Hb.
  - apply Forall_forall. intros [k v] Hkv. rewrite Hrange in Hkv. apply elem_of_map_to_list in Hkv.
    exact (Hkeys _ _ _ _ _ Hn Hdata k v Hkv).
  - rewrite Hrange. apply NoDup_fst_map_to_list.
Qed.

(** The file for onionbalance, over a tree that was just fixed. *)
Definition ob_text (addr : string) : string :=
  let addr := TrimSpace addr in
  "MasterOnionAddress " +:+ (if HasSuffix addr ".onion" then addr else addr +:+ ".onion") +:+ nl.
Lemma written_passes dst fs data m :
  (∀ p m, below (elems dst) p = true → fs !! p = Some m →
     after_visit p m = Ok () ∧ ∀ name, check_entry name p m = []) →
  m = written fs (key_path dst "ob_config") 256 data →
  after_visit (key_path dst "ob_config") m = Ok () ∧
  ∀ name, check_entry name (key_path dst "ob_config") m = [].
Proof.
  intros Hall ->. unfold written. destruct (fs !! key_path dst "ob_config") as [n|] eqn:Hn.
  - exact (Hall _ n (key_path_below dst _) Hn).
  - split; [done|]. intros name. unfold check_entry, base, key_path. rewrite last_snoc.
    cbn [n_kind n_mode default from_option].
    rewrite (bool_decide_false (KFile = KDir)), (bool_decide_false ("ob_config" = FileSecretKeyName)) by done.
    cbn [negb andb].
    rewrite bool_decide_true; [done|]. apply N.bits_inj. intros i.
    unfold Perm. rewrite N.ldiff_spec, N.land_spec, N.ldiff_spec, N.bits_0.
    change 256%N with (2 ^ 8)%N. rewrite N.pow2_bits_eqb.
    destruct (N.eqb_spec 8 i) as [<-|]; [by destruct (N.testbit umask 8) | done].
Qed.

(** C21.  When the init container of a backend pod succeeds, Tor and onionbalance find what they
    need: every entry of the pod's key Secret is a file of the HiddenServiceDir with its
    contents, in whatever order the entries were visited; [ob_config] is the one line that
    names the service's address; the tree passes the check of permissions without which Tor
    refuses to start; and nothing outside the directory is touched, the directories leading to
    it apart. *)
Theorem backend_init_spec dst master prefix fs fs'
    (Hdst : dst ≠ "") (Hmaster : master ≠ "") (Hprefix : prefix ≠ "")
    (Hstat : ∀ q, fault (OpStat q) = None)
    (Hlinks : links_free_below (elems dst) fs)
    (Hrun : run InClusterConfig NewForConfig range Getenv "" dst "" master "" prefix fs = (fs', Ok ())) :
  (∃ ord data, podOrdinal (Getenv "POD_NAME") = Ok ord ∧
     api_data (Getenv "POD_NAMESPACE") (prefix +:+ ord +:+ "-keys") data ∧
     ∀ k v, data !! k = Some v → k ≠ "ob_config" →
       ∃ n, fs' !! key_path dst k = Some n ∧ n_data n = v) ∧
  (∃ n, fs' !! key_path dst "ob_config" = Some n ∧ n_data n = bytes_of_string (ob_text master)) ∧
  CheckPermissions dst fs' = Ok () ∧
  (∀ p, p ∉ ancestors (elems dst) → below (elems dst) p = false → p ≠ elems dst → fs' !! p = fs !! p).
Proof.
  unfold run in Hrun. rewrite (bool_decide_false (prefix = "")), (bool_decide_false (master = "")) in Hrun by done.
  cbn [negb orb] in Hrun. rewrite !(bool_decide_true ("" = "")) in Hrun by done. cbn [negb orb] in Hrun.
  apply bind_Ok in Hrun as (fs1 & [] & Hmk%wrap_Ok & Hrun).
  apply bind_Ok in Hrun as (? & [] & [= <-] & Hrun).
  apply bind_Ok in Hrun as (fs2 & [] & Hfetch & Hrun).
  apply bind_Ok in Hrun as (? & [] & [= <-] & Hrun). apply bind_Ok in Hrun as (? & [] & [= <-] & Hrun).
  apply bind_Ok in Hrun as (fs3 & [] & Hfix%wrap_Ok & Hob%wrap_Ok).
  pose proof (MkdirAll_links dst dst HiddenServiceDirMode fs Hlinks) as Hl1.
  pose proof (λ p, MkdirAll_other dst p HiddenServiceDirMode fs) as Ho1. rewrite Hmk in Hl1, Ho1. cbn in Hl1, Ho1.
  unfold runAPIFetchPrefix in Hfetch. destruct (_ || _); [done|].
  apply bind_Ok in Hfetch as (? & ord & Hord & Hfetch%wrap_Ok). injection Hord as <- Hord.
  apply fetch_files in Hfetch as (data & Hapi & Hl2 & Hfiles & Ho2); [|done|done].
  destruct (fixed_tree_passes _ _ _ Hl2 Hfix) as ((n & Hn & Hk & Hm) & Hrd & Hall).
  apply FixPermissions_Ok in Hfix as (_ & Htree & _); [|done].
  assert (elems (path_Join dst "ob_config") = key_path dst "ob_config") as Hel by (by apply elems_path_Join).
  assert (∀ p, (λ n, (n_kind n, n_data n)) <$> fs3 !! p = (λ n, (n_kind n, n_data n)) <$> fs2 !! p) as Hsame.
  { intros p. rewrite Htree. unfold fixed_tree. by destruct (bool_decide _), (below (elems dst) p), (fs2 !! p). }
  apply WriteFile_Ok in Hob; rewrite Hel in *.
  2:{ intros m Hm3 Hlk. pose proof (Hsame (key_path dst "ob_config")) as Hs. rewrite Hm3 in Hs.
      destruct (fs2 !! key_path dst "ob_config") as [m2|] eqn:Hm2; [|done]. injection Hs as Hkk _.
      apply (Hl2 _ m2 (or_intror (key_path_below dst "ob_config")) Hm2). congruence. }
  fold (written fs3 (key_path dst "ob_config") 256 (bytes_of_string (ob_text master))) in Hob.
  assert (∀ p, p ≠ key_path dst "ob_config" → fs' !! p = fs3 !! p) as Ho
    by (intros p Hp; rewrite Hob; by apply lookup_insert_ne).
  split; [|split; [|split]].
  - exists ord, data. split; [done|]. split; [done|]. intros k v Hkv Hne.
    destruct (Hfiles k v Hkv) as (n2 & Hn2 & Hd). pose proof (Hsame (key_path dst k)) as Hs. rewrite Hn2 in Hs.
    rewrite Ho by (unfold key_path; intros [_ [= ->]]%app_inj_2; done).
    destruct (fs3 !! key_path dst k) as [n3|]; [|done]. injection Hs as _ Hs. exists n3. split; congruence.
  - rewrite Hob, lookup_insert_eq. eexists. split; [done|]. unfold written. by destruct (fs3 !! _).
  - apply (tree_passes dst fs' n); try done.
    + rewrite Ho; [done|]. intros Heq. pose proof (key_path_below dst "ob_config") as Hb.
      by rewrite <- Heq, below_irrefl in Hb.
    + intros p m Hb. destruct (decide (p = key_path dst "ob_config")) as [->|Hne].
      * rewrite Hob, lookup_insert_eq. intros [= <-]. by eapply written_passes.
      * rewrite Ho by done. by apply Hall.
  - intros p Hp Hb Hne. rewrite Ho by (intros ->; by rewrite key_path_below in Hb).
    rewrite Htree. unfold fixed_tree. rewrite bool_decide_false, Hb by done.
    rewrite Ho2 by done. by apply Ho1.
Qed.
End backend.

(** A backend's Secret of two entries, in an empty pod. *)
Definition pod_data : gmap string bytes := {[ "hostname" := [Byte.x61]; FileSecretKeyName := [Byte.x62] ]}.
Definition pod_client : () → result string (string → string → result api_error (gmap string bytes)) :=
  λ _, Ok (λ ns name, if bool_decide (ns = "tor") && bool_decide (name = "onion-backend-3-keys")
                      then Ok pod_data else Err NotFound).
Definition pod_env (k : string) : string :=
  if bool_decide (k = "POD_NAME") then "onion-backend-3" else if bool_decide (k = "POD_NAMESPACE") then "tor" else "".
Definition pod_run : fsys * result init_error () :=
  run (Ok ()) pod_client map_to_list pod_env "" "/hs" "" "abc" "" "onion-backend-" ∅.
Lemma backend_init_spec_witness :
  ∃ fs', pod_run = (fs', Ok ()) ∧
    CheckPermissions "/hs" fs' = Ok () ∧
    ∃ n, fs' !! key_path "/hs" "ob_config" = Some n ∧
         n_data n = bytes_of_string ("MasterOnionAddress abc.onion" +:+ nl).
Proof.
  assert (pod_run.2 = Ok ()) as Hok by (vm_compute; reflexivity).
  destruct pod_run as [fs' res] eqn:Hrun. cbn in Hok. subst res. exists fs'. split; [reflexivity|].
  assert (∀ cfg cs ns name data, pod_client cfg = Ok cs → cs ns name = Ok data →
    map_Forall (λ k (_ : bytes), plain_name k = true) data) as Hkeys.
  { intros cfg cs ns name data Hcs Hdata. injection Hcs as <-. cbv beta in Hdata. destruct (_ && _); [|discriminate Hdata].
    injection Hdata as <-. apply map_Forall_insert_2; [reflexivity|]. apply map_Forall_singleton. reflexivity. }
  assert (links_free_below (elems "/hs") (∅ : fsys)) as Hlinks.
  { intros p n _ Hp. rewrite lookup_empty in Hp. discriminate Hp. }
  pose proof (backend_init_spec (Ok ()) pod_client map_to_list pod_env Hkeys (λ m, reflexivity _)
    "/hs" "abc" "onion-backend-" ∅ fs' ltac:(discriminate) ltac:(discriminate) ltac:(discriminate)
    (λ q, eq_refl) Hlinks Hrun) as (_ & Hob & Hcheck & _).
  split; [exact Hcheck | exact Hob].
Defined.
