(* ===== verification/Duration.v ===== *)
(** * Durations (package time), as flags carry them

    The operator writes an interval with [Duration.String] into the arguments of a container;
    the command reads it back with [ParseDuration]. *)

From Stdlib Require Import Ascii ZArith.
From Stdlib Require Import SpecFloat.
From Stdlib Require Import Decimal DecimalPos DecimalFacts DecimalString.
From S2P Require Import Prelude GoStrings Names ResourcesHA.

(** ** time.ParseDuration *)
Definition is_digit (c : ascii) : bool := in_range 48 57 c.
Definition digit (c : ascii) : Z := Z.of_N (ch c) - 48.
(** [leadingInt]: [None] is the overflow. *)
Fixpoint leadingInt (x : Z) (s : string) : option (Z * string) :=
  match s with
  | "" => Some (x, "")
  | String c t =>
      if is_digit c then
        if (2 ^ 63 / 10 <? x)%Z then None
        else let x := (x * 10 + digit c)%Z in if (2 ^ 63 <? x)%Z then None else leadingInt x t
      else Some (x, s)
  end.
(** [leadingFraction]: digits beyond an overflow are dropped. *)
Fixpoint leadingFraction (x scale : Z) (overflow : bool) (s : string) : Z * Z * string :=
  match s with
  | "" => (x, scale, "")
  | String c t =>
      if is_digit c then
        let y := (x * 10 + digit c)%Z in
        if overflow || ((2 ^ 63 - 1) / 10 <? x)%Z || (2 ^ 63 <? y)%Z
        then leadingFraction x scale true t
        else leadingFraction y (scale * 10) overflow t
      else (x, scale, s)
  end.
(** The characters of a unit, up to a point or a digit. *)
Fixpoint take_unit (s : string) : string * string :=
  match s with
  | "" => ("", "")
  | String c t =>
      if is_digit c || Ascii.eqb c "." then ("", s)
      else let '(u, r) := take_unit t in (String c u, r)
  end.
Definition micro : string := String (ascii_of_nat 194) (String (ascii_of_nat 181) "s").
Definition micro_mu : string := String (ascii_of_nat 206) (String (ascii_of_nat 188) "s").
Definition unit_ns (u : string) : option Z :=
  if bool_decide (u = "ns") then Some 1%Z
  else if bool_decide (u ∈ ["us"; micro; micro_mu]) then Some 1000%Z
  else if bool_decide (u = "ms") then Some 1000000%Z
  else if bool_decide (u = "s") then Some 1000000000%Z
  else if bool_decide (u = "m") then Some 60000000000%Z
  else if bool_decide (u = "h") then Some 3600000000000%Z
  else None.

(** The digits after a point: their value, the scale, the rest, whether there is one. *)
Definition fraction (s : string) : Z * Z * string * bool :=
  match s with
  | String c t =>
      if Ascii.eqb c "." then
        let '(f, scale, r) := leadingFraction 0 1 false t in
        (f, scale, r, negb (String.length r =? String.length t))
      else (0%Z, 1%Z, s, false)
  | "" => (0%Z, 1%Z, "", false)
  end.
(** [uint64(float64(f) * (float64(unit) / scale))], in binary64.  When the unit is a multiple of
    the scale every step is exact, since the result is below 2^53; the scale, a power of ten
    below 10^22, always is. *)
Definition scaled (f unit scale : Z) : Z :=
  if (unit mod scale =? 0)%Z then (f * (unit / scale))%Z
  else trunc (SFmul 53 1024 (float64 f) (SFdiv 53 1024 (float64 unit) (float64 scale))).
(** One number with its unit: the duration and the rest. *)
Definition component (s : string) : option (Z * string) :=
  match s with
  | "" => None
  | String c _ =>
      if negb (Ascii.eqb c "." || is_digit c) then None
      else
        '(v, s1) ← leadingInt 0 s;
        let pre := negb (String.length s1 =? String.length s) in
        let '(f, scale, s2, post) := fraction s1 in
        if negb pre && negb post then None
        else
          let '(u, rest) := take_unit s2 in
          unit ← unit_ns u;
          if (2 ^ 63 / unit <? v)%Z then None
          else
            let v := (v * unit)%Z in
            if (0 <? f)%Z then
              let v := (v + scaled f unit scale)%Z in if (2 ^ 63 <? v)%Z then None else Some (v, rest)
            else Some (v, rest)
  end.
(** The loop over the components; each takes a character at least. *)
Fixpoint components (fuel : nat) (d : Z) (s : string) : option Z :=
  match fuel with
  | O => None
  | S fuel =>
      match s with
      | "" => Some d
      | _ =>
          '(v, rest) ← component s;
          if (2 ^ 63 <? d + v)%Z then None else components fuel (d + v) rest
      end
  end.
Definition unsigned (s : string) : option Z :=
  if bool_decide (s = "0") then Some 0%Z
  else if bool_decide (s = "") then None
  else components (S (String.length s)) 0 s.
Definition ParseDuration (s : string) : option Z :=
  let '(neg, s) := match s with
                   | String "-" t => (true, t)
                   | String "+" t => (false, t)
                   | _ => (false, s)
                   end in
  d ← unsigned s;
  if neg then Some (- d)%Z else if (2 ^ 63 - 1 <? d)%Z then None else Some d.

Example parse_durations : map ParseDuration
  ["30s"; "1h2m3.5s"; "-1.5h"; "1h15m30.918273645s"; "2562047h47m16.854775807s";
   "2562047h47m16.854775808s"; "-2562047h47m16.854775808s"; "1"; "0"; "+5s"; ".5s"; "."; "3.3.3s";
   "0.333m"; "0.3h"] =
  [Some 30000000000; Some 3723500000000; Some (-5400000000000); Some 4530918273645;
   Some int64_max; None; Some int64_min; None; Some 0; Some 5000000000;
   Some 500000000; None; None; Some 19980000000; Some 1080000000000]%Z.
Proof. vm_compute. reflexivity. Qed.
(** Fractions that are rounded. *)
Example parse_rounded : map ParseDuration
  ["0.3333333333333333333h"; "0.100000000000000000000h"; "0.830103483285477580700h"; "39h9m14.425s"] =
  [Some 1200000000000; Some 360000000000; Some 2988372539827; Some 140954425000000]%Z.
Proof. vm_compute. reflexivity. Qed.

(** * Lemmas *)
#[local] Arguments String.append !_ _ / : assert.
#[local] Open Scope Z_scope.

(** ** Digits *)
Definition digits (s : string) : bool := str_forallb is_digit s.
Fixpoint dval (x : Z) (s : string) : Z :=
  match s with "" => x | String c t => dval (x * 10 + digit c) t end.
(** What may follow a number, and what may follow a unit. *)
Definition no_digit_head (s : string) : Prop := match s with "" => True | String c _ => is_digit c = false end.
Definition boundary (s : string) : Prop := match s with "" => True | String c _ => is_digit c = true end.
Definition slen (s : string) : Z := Z.of_nat (String.length s).

Lemma digit_range c : is_digit c = true → 0 ≤ digit c ≤ 9.
Proof. unfold is_digit, in_range, digit. rewrite andb_true_iff, !N.leb_le. lia. Qed.
Lemma dval_linear s x : dval x s = x * 10 ^ slen s + dval 0 s.
Proof.
  unfold slen. revert x. induction s as [|c s IH]; intros x; cbn [dval String.length]; [lia|].
  rewrite (IH (x * 10 + _)), (IH (0 * 10 + _)), Nat2Z.inj_succ, Z.pow_succ_r by lia. lia.
Qed.
Lemma dval_range s : digits s = true → 0 ≤ dval 0 s < 10 ^ slen s.
Proof.
  unfold slen. induction s as [|c s IH]; cbn [dval String.length]; [cbn; lia|]. unfold digits. cbn.
  intros [Hc Hs]%andb_true_iff. specialize (IH Hs). apply digit_range in Hc.
  rewrite dval_linear. unfold slen. rewrite Nat2Z.inj_succ, Z.pow_succ_r by lia. nia.
Qed.
Lemma dval_mono s x : digits s = true → 0 ≤ x → x ≤ dval x s.
Proof. intros Hs Hx. pose proof (dval_range s Hs). rewrite dval_linear. nia. Qed.

Lemma leadingInt_digits s r x :
  digits s = true → no_digit_head r → 0 ≤ x → dval x s ≤ 2 ^ 63 → leadingInt x (s +:+ r) = Some (dval x s, r).
Proof.
  intros Hs Hr. revert x Hs. induction s as [|c s IH]; intros x Hs Hx Hle; cbn [dval] in *.
  - destruct r as [|c r]; [done|]. cbn in *. by rewrite Hr.
  - unfold digits in Hs. cbn in Hs. apply andb_true_iff in Hs as [Hc Hs]. pose proof (digit_range _ Hc).
    pose proof (dval_mono s (x * 10 + digit c) Hs ltac:(lia)). cbn [String.append leadingInt]. rewrite Hc.
    replace (2 ^ 63 / 10 <? x) with false by (symmetry; apply Z.ltb_ge; apply Z.div_le_lower_bound; lia).
    cbn zeta. replace (2 ^ 63 <? x * 10 + digit c) with false by (symmetry; apply Z.ltb_ge; lia).
    apply IH; [done|lia|done].
Qed.
Lemma leadingFraction_digits s r x scale :
  digits s = true → no_digit_head r → 0 ≤ x → dval x s ≤ 10 ^ 9 →
  leadingFraction x scale false (s +:+ r) = (dval x s, scale * 10 ^ slen s, r).
Proof.
  unfold slen. intros Hs Hr. revert x scale Hs. induction s as [|c s IH]; intros x scale Hs Hx Hle; cbn [dval] in *.
  - destruct r as [|c r]; cbn in *; [|rewrite Hr]; by rewrite Z.mul_1_r.
  - unfold digits in Hs. cbn in Hs. apply andb_true_iff in Hs as [Hc Hs]. pose proof (digit_range _ Hc).
    pose proof (dval_mono s (x * 10 + digit c) Hs ltac:(lia)). cbn [String.append leadingFraction]. rewrite Hc.
    cbn zeta. replace ((2 ^ 63 - 1) / 10 <? x) with false
      by (symmetry; apply Z.ltb_ge; apply Z.div_le_lower_bound; lia).
    replace (2 ^ 63 <? x * 10 + digit c) with false by (symmetry; apply Z.ltb_ge; lia). cbn [orb].
    rewrite IH by (done || lia). cbn [String.length]. rewrite Nat2Z.inj_succ, Z.pow_succ_r by lia. f_equal. f_equal. lia.
Qed.

(** ** Decimal numbers *)
Lemma dval_acc d p : dval (Zpos p) (NilEmpty.string_of_uint d) = Zpos (Pos.of_uint_acc d p).
Proof.
  revert p. induction d; intros p; cbn [NilEmpty.string_of_uint dval Pos.of_uint_acc]; [done|..];
    rewrite <- IHd; f_equal; change (digit _) with 0 || change (digit _) with 1 || change (digit _) with 2 ||
      change (digit _) with 3 || change (digit _) with 4 || change (digit _) with 5 || change (digit _) with 6 ||
      change (digit _) with 7 || change (digit _) with 8 || change (digit _) with 9; lia.
Qed.
Lemma dval_uint d : dval 0 (NilEmpty.string_of_uint d) = Z.of_N (N.of_uint d).
Proof.
  unfold N.of_uint. induction d; cbn [NilEmpty.string_of_uint dval Pos.of_uint]; [done|exact IHd|..]; apply (dval_acc d).
Qed.
Lemma digits_uint d : digits (NilEmpty.string_of_uint d) = true.
Proof. unfold digits. induction d; cbn; done. Qed.
Lemma Itoa_digits n : 0 ≤ n → digits (Itoa n) = true ∧ dval 0 (Itoa n) = n ∧ Itoa n ≠ "".
Proof.
  intros (d & Hd & -> & Hv)%Itoa_nonneg.
  assert (NilZero.string_of_uint d = NilEmpty.string_of_uint d) as -> by (by destruct d).
  split; [apply digits_uint|]. rewrite dval_uint. split; [done|]. by destruct d.
Qed.
Lemma Itoa_head n c t : 0 < n → Itoa n = String c t → digit c ≠ 0.
Proof.
  intros Hn. destruct n as [|p|]; [lia| |lia]. unfold Itoa. cbn [Z.to_int NilZero.string_of_int].
  pose proof (Unsigned.to_of (Pos.to_uint p)) as Hto. rewrite Unsigned.of_to in Hto. cbn in Hto.
  pose proof (Unsigned.to_uint_nonzero p) as Hnz. unfold NilZero.string_of_uint.
  destruct (Pos.to_uint p) as [| | | | | | | | | |] eqn:Hu; intros [= <- _]; try done.
  exfalso. unfold unorm in Hto. destruct (nzhead (D0 u)) eqn:Hz; try discriminate Hto; [by apply Hnz|].
  by apply nzhead_nonzero in Hz.
Qed.
Lemma digits_string_of n : 0 ≤ n → ∃ c t, Itoa n = String c t ∧ is_digit c = true ∧ digits t = true ∧ dval (digit c) t = n.
Proof.
  intros (Hd & Hv & Hne)%Itoa_digits. destruct (Itoa n) as [|c t]; [done|]. exists c, t.
  unfold digits in *. cbn in Hd, Hv. by apply andb_true_iff in Hd as [? ?].
Qed.
Lemma pad_digits_spec r p :
  0 ≤ p → 0 ≤ r < 10 ^ p →
  digits (pad_digits r p) = true ∧ slen (pad_digits r p) = p ∧ dval 0 (pad_digits r p) = r.
Proof.
  intros Hp Hr. assert (0 < 10 ^ p) by (apply Z.pow_pos_nonneg; lia). unfold pad_digits.
  destruct (digits_string_of (10 ^ p + r)) as (c & t & Heq & Hc & Ht & Hv); [lia|].
  rewrite Heq. pose proof (Itoa_head (10 ^ p + r) c t ltac:(lia) Heq). pose proof (digit_range _ Hc).
  pose proof (dval_range t Ht). rewrite dval_linear in Hv. split; [done|].
  assert (0 ≤ slen t) by (unfold slen; lia).
  assert (10 ^ slen t ≤ digit c * 10 ^ slen t ≤ 9 * 10 ^ slen t) by nia.
  assert (slen t = p) as Hp'.
  { assert (slen t < p ∨ slen t = p ∨ p < slen t) as [Hl|[->|Hl]] by lia; [|done|].
    - assert (10 * 10 ^ slen t ≤ 10 ^ p).
      { rewrite <- Z.pow_succ_r by lia. apply Z.pow_le_mono_r; lia. }
      lia.
    - assert (10 * 10 ^ p ≤ 10 ^ slen t).
      { rewrite <- Z.pow_succ_r by lia. apply Z.pow_le_mono_r; lia. }
      lia. }
  split; [done|]. rewrite Hp' in *. assert (digit c = 1) as Hd by nia. rewrite Hd in Hv. lia.
Qed.
Lemma trim_zeros_spec s :
  digits s = true →
  digits (trim_zeros s) = true ∧ slen (trim_zeros s) ≤ slen s ∧
  dval 0 (trim_zeros s) * 10 ^ (slen s - slen (trim_zeros s)) = dval 0 s.
Proof.
  induction s as [|c s IH]; [done|]. unfold digits in *. cbn [str_forallb]. intros [Hc Hs]%andb_true_iff.
  destruct (IH Hs) as (Hd & Hl & Hv). cbn [trim_zeros].
  assert (slen (String c s) = slen s + 1) as Hlen by (unfold slen; cbn [String.length]; lia).
  assert (0 ≤ slen (trim_zeros s)) by (unfold slen; lia).
  destruct (decide (trim_zeros s = "" ∧ c = ascii_of_nat 48)) as [[Ht ->]|Hn].
  - rewrite Ht in *. rewrite !bool_decide_eq_true_2 by done. cbn [andb].
    split_and!; [done|rewrite Hlen; lia|]. cbn [dval] in *.
    change (0 * 10 + digit (ascii_of_nat 48)) with 0. lia.
  - assert ((bool_decide (trim_zeros s = "") && bool_decide (c = ascii_of_nat 48))%bool = false) as ->.
    { apply not_true_is_false. rewrite andb_true_iff, !bool_decide_eq_true. tauto. }
    assert (slen (String c (trim_zeros s)) = slen (trim_zeros s) + 1) as Hl' by (unfold slen; cbn [String.length]; lia).
    split_and!; [cbn; by rewrite Hc|lia|]. rewrite Hlen, Hl'. cbn [dval].
    rewrite (dval_linear (trim_zeros s)), (dval_linear s), Z.mul_add_distr_r, <- Z.mul_assoc, <- Z.pow_add_r by lia.
    replace (slen s + 1 - (slen (trim_zeros s) + 1)) with (slen s - slen (trim_zeros s)) by lia.
    rewrite Hv. do 3 f_equal. lia.
Qed.

(** ** One component *)
Lemma take_unit_app u rest :
  str_forallb (λ c, negb (is_digit c || Ascii.eqb c ".")) u = true → boundary rest →
  take_unit (u +:+ rest) = (u, rest).
Proof.
  intros Hu Hr. induction u as [|c u IH]; cbn.
  - destruct rest as [|c r]; cbn in *; [done|]. by rewrite Hr.
  - cbn in Hu. apply andb_true_iff in Hu as [Hc Hu]. apply negb_true_iff in Hc. rewrite Hc, IH by done. done.
Qed.
Lemma fmtFrac_spec v p :
  0 ≤ p ≤ 9 →
  ∃ ds k, fmtFrac v p = (if bool_decide (ds = "") then "" else "." +:+ ds) ∧ digits ds = true ∧
    slen ds = k ∧ 0 ≤ k ≤ p ∧ dval 0 ds * 10 ^ (p - k) = v mod 10 ^ p.
Proof.
  intros Hp. assert (0 < 10 ^ p) by (apply Z.pow_pos_nonneg; lia).
  destruct (pad_digits_spec (v mod 10 ^ p) p) as (Hd & Hl & Hv); [lia|by apply Z.mod_pos_bound|].
  destruct (trim_zeros_spec _ Hd) as (Hd' & Hl' & Hv'). rewrite Hl, Hv in *.
  eexists _, _. split_and!; [reflexivity|done|reflexivity| |done..]. unfold slen. lia.
Qed.

(** A piece of the printed duration: read back as [v], whatever follows. *)
Definition piece (s : string) (v : Z) : Prop :=
  (∃ c t, s = String c t ∧ is_digit c = true) ∧
  ∀ rest, boundary rest → component (s +:+ rest) = Some (v, rest).

Definition unit_chars (u : string) : Prop :=
  u ≠ "" ∧ str_forallb (λ c, negb (is_digit c || Ascii.eqb c ".")) u = true.
Lemma unit_head u rest : unit_chars u → ∃ c t, u +:+ rest = String c t ∧ is_digit c = false ∧ Ascii.eqb c "." = false.
Proof.
  intros [Hne Hu]. destruct u as [|c u]; [done|]. cbn in Hu. apply andb_true_iff in Hu as [Hc _].
  apply negb_true_iff, orb_false_iff in Hc as [? ?]. by exists c, (u +:+ rest).
Qed.
Definition frac_of (ds : string) : string := if bool_decide (ds = "") then "" else "." +:+ ds.
Lemma fraction_spec ds u rest :
  digits ds = true → slen ds ≤ 9 → unit_chars u →
  ∃ post, fraction (frac_of ds +:+ (u +:+ rest)) = (dval 0 ds, 10 ^ slen ds, u +:+ rest, post) ∧
    no_digit_head (frac_of ds +:+ (u +:+ rest)).
Proof.
  intros Hds Hlen Hu. destruct (unit_head u rest Hu) as (c & t & Heq & Hc & Hp). unfold frac_of.
  destruct (bool_decide (ds = "")) eqn:He; bools; subst; cbn [String.append].
  - exists false. rewrite Heq. cbn. by rewrite Hp.
  - eexists. split; [|done]. cbn. pose proof (dval_range ds Hds).
    rewrite leadingFraction_digits; [|done|by rewrite Heq|lia|].
    + by rewrite Z.mul_1_l.
    + assert (10 ^ slen ds ≤ 10 ^ 9) by (apply Z.pow_le_mono_r; lia). lia.
Qed.
Lemma number_piece n ds u unit :
  0 ≤ n → digits ds = true → unit_ns u = Some unit → 0 < unit → Z.divide (10 ^ slen ds) unit →
  unit_chars u → slen ds ≤ 9 → n * unit + dval 0 ds * (unit / 10 ^ slen ds) ≤ 2 ^ 63 →
  piece (Itoa n +:+ (frac_of ds +:+ u)) (n * unit + dval 0 ds * (unit / 10 ^ slen ds)).
Proof.
  intros Hn Hds Hunit Hpos Hdiv Hu Hlen Hle. destruct (digits_string_of n Hn) as (c & t & Heq & Hc & _).
  split; [rewrite Heq; by eexists c, _|].
  intros rest Hrest. rewrite <- !str_app_assoc. destruct (Itoa_digits n Hn) as (Hd & Hv & _).
  destruct (fraction_spec ds u rest Hds Hlen Hu) as (post & Hf & Hhead).
  pose proof (dval_range ds Hds) as Hr. assert (0 ≤ unit / 10 ^ slen ds) by (apply Z.div_pos; lia).
  assert (n * unit ≤ 2 ^ 63) as Hle' by nia. assert (n ≤ 2 ^ 63) by nia.
  assert (2 ^ 63 / unit < n → False) as Hguard by (pose proof (Z.div_le_lower_bound (2 ^ 63) unit n); lia).
  pose proof (leadingInt_digits _ _ 0 Hd Hhead ltac:(lia) ltac:(lia)) as Hint.
  set (tail := frac_of ds +:+ (u +:+ rest)) in *.
  assert (String.length tail =? String.length (Itoa n +:+ tail) = false)%nat as Hpre.
  { apply Nat.eqb_neq. rewrite str_length_app, Heq. cbn. lia. }
  unfold component. rewrite Heq in *. cbn [String.append] in *. rewrite Hc, orb_true_r, Hint, Hv. cbn [negb].
  cbn [mbind option_bind]. rewrite Hf, Hpre. cbn [negb andb]. rewrite take_unit_app by (done || apply Hu).
  rewrite Hunit. cbn [mbind option_bind].
  replace (2 ^ 63 / unit <? n) with false by (symmetry; apply Z.ltb_ge; lia). cbn zeta.
  destruct (Z.ltb_spec 0 (dval 0 ds)); [|by replace (dval 0 ds) with 0 by lia; rewrite Z.mul_0_l, Z.add_0_r].
  apply Z.mod_divide in Hdiv; [|apply Z.pow_nonzero; unfold slen; lia]. unfold scaled. rewrite Hdiv. cbn [Z.eqb].
  by replace (2 ^ 63 <? _) with false by (symmetry; apply Z.ltb_ge; lia).
Qed.

Lemma int_piece n u unit :
  0 ≤ n → unit_ns u = Some unit → 0 < unit → unit_chars u → n * unit ≤ 2 ^ 63 → piece (Itoa n +:+ u) (n * unit).
Proof.
  intros Hn Hunit Hpos Hu Hle. replace (n * unit) with (n * unit + dval 0 "" * (unit / 10 ^ slen "")) in * by (cbn; lia).
  change (Itoa n +:+ u) with (Itoa n +:+ (frac_of "" +:+ u)).
  apply number_piece; try done. exists unit. change (10 ^ slen "") with 1. lia.
Qed.
(** A number printed with a fraction below [10 ^ p] of its unit. *)
Lemma frac_piece v n u p :
  0 ≤ n → 0 ≤ p ≤ 9 → unit_ns u = Some (10 ^ p) → unit_chars u → n * 10 ^ p + v mod 10 ^ p ≤ 2 ^ 63 →
  piece (Itoa n +:+ fmtFrac v p +:+ u) (n * 10 ^ p + v mod 10 ^ p).
Proof.
  intros Hn Hp Hunit Hu Hle. destruct (fmtFrac_spec v p Hp) as (ds & k & Hs & Hds & Hk & Hkp & Hv).
  assert (10 ^ p = 10 ^ (p - k) * 10 ^ slen ds) as Hpow by (rewrite Hk, <- Z.pow_add_r by lia; f_equal; lia).
  assert (10 ^ p / 10 ^ slen ds = 10 ^ (p - k)) as Hdiv.
  { rewrite Hpow. apply Z.div_mul. apply Z.pow_nonzero; lia. }
  rewrite Hs. fold (frac_of ds). rewrite <- Hv, <- Hdiv in *. apply number_piece; try done; try lia.
  by eexists.
Qed.

(** ** Several components *)
Fixpoint join (l : list string) : string := match l with [] => "" | s :: l => s +:+ join l end.
Lemma join_boundary l vs : Forall2 piece l vs → boundary (join l).
Proof. destruct 1 as [|s v l vs [(c & t & -> & Hc) _] _]; cbn; done. Qed.
Lemma components_run l vs fuel d :
  Forall2 piece l vs → Forall (λ v, 0 ≤ v) vs → 0 ≤ d → d + foldr Z.add 0 vs ≤ 2 ^ 63 →
  (String.length (join l) < fuel)%nat → components fuel d (join l) = Some (d + foldr Z.add 0 vs).
Proof.
  intros Hl. revert d fuel. induction Hl as [|s v l vs Hp Hl IH]; intros d fuel Hvs Hd Hsum Hf;
    (destruct fuel as [|fuel]; [lia|]).
  { cbn in *. by rewrite Z.add_0_r. }
  apply Forall_cons in Hvs as [Hv Hvs]. cbn [foldr join] in *. rewrite str_length_app in Hf.
  assert (0 ≤ foldr Z.add 0 vs) by (clear -Hvs; induction Hvs; cbn; lia).
  destruct Hp as [(c & t & -> & Hc) Hcomp]. specialize (Hcomp _ (join_boundary _ _ Hl)).
  change (components (S fuel) d (String c t +:+ join l)) with
    ('(v, rest) ← component (String c t +:+ join l);
     if 2 ^ 63 <? d + v then None else components fuel (d + v) rest).
  rewrite Hcomp. cbn [mbind option_bind]. replace (2 ^ 63 <? d + v) with false by (symmetry; apply Z.ltb_ge; lia).
  cbn in Hf. rewrite IH by (done || lia). f_equal. lia.
Qed.
Lemma unsigned_join l vs u :
  l ≠ [] → Forall2 piece l vs → Forall (λ v, 0 ≤ v) vs → foldr Z.add 0 vs = u → u ≤ 2 ^ 63 →
  unsigned (join l) = Some u ∧ ∃ c t, join l = String c t ∧ is_digit c = true.
Proof.
  intros Hne Hl Hvs <- Hle.
  assert (∃ c t, join l = String c t ∧ is_digit c = true) as (c & t & Heq & Hc).
  { destruct Hl as [|s v l vs [(c & t & -> & Hc) _] _]; [done|]. by eexists c, _. }
  split; [|by exists c, t]. unfold unsigned.
  assert (join l ≠ "0") as H0.
  { intros H0. pose proof (components_run l vs 2 0 Hl Hvs ltac:(lia) Hle) as Hrun. rewrite H0 in Hrun.
    specialize (Hrun ltac:(cbn; lia)). vm_compute in Hrun. discriminate Hrun. }
  rewrite !bool_decide_eq_false_2 by (done || by rewrite Heq).
  rewrite (components_run l vs) by (done || lia). done.
Qed.
Definition clock (u : Z) : string :=
  let secs := (u / 10 ^ 9)%Z in
  let s := Itoa (secs mod 60) +:+ fmtFrac u 9 +:+ "s" in
  let mins := (secs / 60)%Z in
  let ms := if (mins =? 0)%Z then s else Itoa (mins mod 60) +:+ "m" +:+ s in
  let hours := (mins / 60)%Z in
  if (hours =? 0)%Z then ms else Itoa hours +:+ "h" +:+ ms.
Definition body (u : Z) : string :=
  let frac (prec : Z) := Itoa (u / 10 ^ prec) +:+ fmtFrac u prec in
  if (u <? 1000)%Z then Itoa u +:+ "ns"
  else if (u <? 1000000)%Z then frac 3 +:+ micro
  else if (u <? 1000000000)%Z then frac 6 +:+ "ms"
  else clock u.
Lemma Duration_String_body d :
  d ≠ 0 → Duration_String d = (if d <? 0 then "-" else "") +:+ body (Z.abs d).
Proof.
  intros Hd. unfold Duration_String, body, clock. replace (Z.abs d =? 0) with false by (symmetry; apply Z.eqb_neq; lia).
  repeat case_match; rewrite ?str_app_assoc; done.
Qed.
Lemma join_cons s l t : join l = t → join (s :: l) = s +:+ t.
Proof. by intros <-. Qed.
Lemma join_one s : join [s] = s.
Proof. apply str_app_nil_r. Qed.
(** [l] are the pieces of a text for [u]. *)
Definition in_pieces (u : Z) (s : string) : Prop :=
  ∃ l vs, join l = s ∧ l ≠ [] ∧ Forall2 piece l vs ∧ Forall (λ v, 0 ≤ v) vs ∧ foldr Z.add 0 vs = u.
Lemma split_pow u p :
  0 < u → 0 ≤ p → u / 10 ^ p * 10 ^ p + u mod 10 ^ p = u ∧ 0 ≤ u mod 10 ^ p ∧ 0 ≤ u / 10 ^ p.
Proof.
  intros Hu Hp. assert (0 < 10 ^ p) by (apply Z.pow_pos_nonneg; lia).
  pose proof (Z.div_mod u (10 ^ p) ltac:(lia)). pose proof (Z.mod_pos_bound u (10 ^ p) ltac:(lia)).
  pose proof (Z.div_pos u (10 ^ p) ltac:(lia) ltac:(lia)). lia.
Qed.
Lemma clock_pieces u : 0 < u ≤ 2 ^ 63 → in_pieces u (clock u).
Proof.
  intros Hu. unfold clock.
  destruct (split_pow u 9) as (H & Hf & Hsec); [lia..|]. set (secs := u / 10 ^ 9) in *. cbn zeta.
  set (last := Itoa (secs mod 60) +:+ fmtFrac u 9 +:+ "s").
  pose proof (Z.mod_pos_bound secs 60 ltac:(lia)). pose proof (Z.mod_pos_bound (secs / 60) 60 ltac:(lia)).
  pose proof (Z.div_mod secs 60 ltac:(lia)). pose proof (Z.div_mod (secs / 60) 60 ltac:(lia)).
  pose proof (Z.div_pos secs 60 ltac:(lia) ltac:(lia)). pose proof (Z.div_pos (secs / 60) 60 ltac:(lia) ltac:(lia)).
  assert (piece last (secs mod 60 * 10 ^ 9 + u mod 10 ^ 9)) as Hlast by (apply frac_piece; done || lia).
  destruct (secs / 60 =? 0) eqn:Hm; [|destruct (secs / 60 / 60 =? 0) eqn:Hh].
  - apply Z.eqb_eq in Hm. rewrite Hm. cbn [Z.div Z.eqb].
    exists [last], [secs mod 60 * 10 ^ 9 + u mod 10 ^ 9].
    split_and!; [apply join_one|done|constructor; [done|constructor]|repeat constructor; lia|cbn [foldr]; lia].
  - exists [Itoa (secs / 60 mod 60) +:+ "m"; last],
      [secs / 60 mod 60 * 60000000000; secs mod 60 * 10 ^ 9 + u mod 10 ^ 9].
    split_and!; [|done| |repeat constructor; lia|cbn [foldr]; lia].
    { rewrite (join_cons _ _ _ (join_one last)). by rewrite <- str_app_assoc. }
    constructor; [apply int_piece; done || lia|constructor; [done|constructor]].
  - exists [Itoa (secs / 60 / 60) +:+ "h"; Itoa (secs / 60 mod 60) +:+ "m"; last],
      [secs / 60 / 60 * 3600000000000; secs / 60 mod 60 * 60000000000; secs mod 60 * 10 ^ 9 + u mod 10 ^ 9].
    split_and!; [|done| |repeat constructor; lia|cbn [foldr]; lia].
    { rewrite (join_cons _ _ _ (join_cons _ _ _ (join_one last))). by rewrite <- !str_app_assoc. }
    constructor; [apply int_piece; done || lia|constructor; [apply int_piece; done || lia|constructor; [done|constructor]]].
Qed.
Lemma body_pieces u :
  0 < u ≤ 2 ^ 63 →
  in_pieces u (body u).
Proof.
  intros Hu.
  unfold body. destruct (u <? 1000) eqn:H1; [|destruct (u <? 1000000) eqn:H2; [|destruct (u <? 1000000000) eqn:H3]].
  - exists [Itoa u +:+ "ns"], [u * 1]. split_and!; [apply join_one|done| |repeat constructor; lia|cbn; lia].
    constructor; [apply int_piece; done || lia|constructor].
  - destruct (split_pow u 3) as (H & ? & ?); [lia..|]. rewrite <- H in Hu.
    exists [Itoa (u / 10 ^ 3) +:+ fmtFrac u 3 +:+ micro], [u / 10 ^ 3 * 10 ^ 3 + u mod 10 ^ 3].
    split_and!; [rewrite join_one; by rewrite str_app_assoc|done| |repeat constructor; lia|cbn [foldr]; lia].
    constructor; [apply frac_piece; done || lia|constructor].
  - destruct (split_pow u 6) as (H & ? & ?); [lia..|]. rewrite <- H in Hu.
    exists [Itoa (u / 10 ^ 6) +:+ fmtFrac u 6 +:+ "ms"], [u / 10 ^ 6 * 10 ^ 6 + u mod 10 ^ 6].
    split_and!; [rewrite join_one; by rewrite str_app_assoc|done| |repeat constructor; lia|cbn [foldr]; lia].
    constructor; [apply frac_piece; done || lia|constructor].
  - by apply clock_pieces.
Qed.

Lemma duration_reads_back d :
  int64_min ≤ d ≤ int64_max → ParseDuration (Duration_String d) = Some d.
Proof.
  intros Hd. destruct (decide (d = 0)) as [->|Hnz]; [by vm_compute|].
  assert (0 < Z.abs d ≤ 2 ^ 63) as Hu by (unfold int64_min, int64_max in Hd; lia).
  destruct (body_pieces _ Hu) as (l & vs & Hjoin & Hne & Hl & Hvs & Hsum).
  destruct (unsigned_join l vs _ Hne Hl Hvs Hsum) as (Hrun & c & t & Heq & Hc); [lia|].
  rewrite Duration_String_body by done. rewrite Hjoin in *.
  destruct (d <? 0) eqn:Hneg; cbn [String.append].
  - unfold ParseDuration. rewrite Hrun. cbn [mbind option_bind]. f_equal. lia.
  - assert (ParseDuration (body (Z.abs d)) = (
      d ← unsigned (body (Z.abs d)); if 2 ^ 63 - 1 <? d then None else Some d)) as ->.
    { rewrite Heq. unfold ParseDuration. revert Hc. clear. destruct c as [[] [] [] [] [] [] [] []]; done. }
    rewrite Hrun. cbn [mbind option_bind]. replace (2 ^ 63 - 1 <? Z.abs d) with false; [f_equal; lia|].
    symmetry. apply Z.ltb_ge. unfold int64_max in Hd. lia.
Qed.

(** Every duration reads back.  [time.Duration.String] is what the operator writes into the
    refresher's [--interval] argument, [time.ParseDuration] what the refresher's flag reads it
    with: over the whole range of int64, the minimum included, the printed text is accepted,
    with no overflow and no rounding, as the same number of nanoseconds. *)
Theorem duration_roundtrip d :
  int64_min ≤ d ≤ int64_max → ParseDuration (Duration_String d) = Some d.
Proof. exact (duration_reads_back d). Qed.
Lemma duration_roundtrip_witness : ParseDuration (Duration_String int64_min) = Some int64_min.
Proof. apply duration_roundtrip. split; vm_compute; discriminate. Defined.
