(* ===== verification/Flags.v ===== *)
(** * Command lines (package flag)

    [Parse] is [flag.Parse] on the set of defined flags, each with its default: the values after
    it, or the code the process exits with.  The commands take no other arguments, so what
    follows the flags is ignored, as they ignore it. *)

From Stdlib Require Import Ascii ZArith.
From S2P Require Import Prelude GoStrings Duration.

(** A flag of a library has its own kind of value: the texts it accepts, and the last one set. *)
Inductive flag_value :=
| FString (s : string) | FBool (b : bool) | FDuration (d : Z)
| FCustom (accepts : string → bool) (set : option string).
Abbreviation flags := (gmap string flag_value).

Definition Set_value (v : flag_value) (s : string) : option flag_value :=
  match v with
  | FString _ => Some (FString s)
  | FBool _ => FBool <$> ParseBool s
  | FDuration _ => FDuration <$> ParseDuration s
  | FCustom accepts _ => if accepts s then Some (FCustom accepts (Some s)) else None
  end.
Definition is_bool_flag (v : flag_value) : bool := match v with FBool _ => true | _ => false end.

(** ** One argument *)
Inductive token := NotFlag | Terminator | BadSyntax | Flag (name : string) (value : option string).
Definition starts (c : ascii) (s : string) : bool :=
  match s with String d _ => Ascii.eqb d c | "" => false end.
(** Without the dashes: a name, or a name and its value. *)
Definition named_flag (name : string) : token :=
  if bool_decide (name = "") || starts "-" name || starts "=" name then BadSyntax
  else match cut_first "=" name with
       | Some (name, value) => Flag name (Some value)
       | None => Flag name None
       end.
Definition token_of (s : string) : token :=
  match s with
  | String c t =>
      if negb (Ascii.eqb c "-") then NotFlag
      else match t with
      | "" => NotFlag
      | String d name =>
          if Ascii.eqb d "-" then (if bool_decide (name = "") then Terminator else named_flag name)
          else named_flag t
      end
  | "" => NotFlag
  end.

(** ** The loop

    A boolean flag takes no further argument; another takes the next one, whatever it looks
    like, when it has no value of its own.  [-h] and [-help] exit with 0, an error with 2. *)
Definition set_flag (formal : flags) (name : string) (v : flag_value) (s : string) : result nat flags :=
  match Set_value v s with Some v => Ok (<[name := v]> formal) | None => Err 2 end.
Fixpoint Parse (formal : flags) (args : list string) : result nat flags :=
  match args with
  | [] => Ok formal
  | a :: rest =>
      match token_of a with
      | NotFlag | Terminator => Ok formal
      | BadSyntax => Err 2
      | Flag name value =>
          match formal !! name with
          | None => Err (if bool_decide (name ∈ ["help"; "h"]) then 0 else 2)
          | Some v =>
              if is_bool_flag v then
                let* formal := set_flag formal name v (default "true" value) in Parse formal rest
              else match value with
              | Some s => let* formal := set_flag formal name v s in Parse formal rest
              | None => match rest with
                        | s :: rest => let* formal := set_flag formal name v s in Parse formal rest
                        | [] => Err 2
                        end
              end
          end
      end
  end.

(** The variables the flags were bound to. *)
Definition get_string (fs : flags) (name : string) : string :=
  match fs !! name with Some (FString s) => s | _ => "" end.
Definition get_bool (fs : flags) (name : string) : bool :=
  match fs !! name with Some (FBool b) => b | _ => false end.
Definition get_duration (fs : flags) (name : string) : Z :=
  match fs !! name with Some (FDuration d) => d | _ => 0 end.

Definition example_flags : flags :=
  {[ "name" := FString "def"; "v" := FBool false; "every" := FDuration 5 ]}.
Definition example_view (args : list string) : result nat (string * bool * Z) :=
  let* fs := Parse example_flags args in Ok (get_string fs "name", get_bool fs "v", get_duration fs "every").
Example parse_flags : map example_view
  [["--name"; "x"; "-v"]; ["-name=x=y"; "--v=F"]; ["--name"; "-v"]; ["--name="; "--every=1m"];
   ["pos"; "--name=x"]; ["-"; "-v"]; ["--"; "-v"]; ["-v"; "false"; "-name=x"]; []] =
  [Ok ("x", true, 5); Ok ("x=y", false, 5); Ok ("-v", false, 5); Ok ("", false, 60000000000);
   Ok ("def", false, 5); Ok ("def", false, 5); Ok ("def", false, 5); Ok ("def", true, 5); Ok ("def", false, 5)]%Z.
Proof. vm_compute. reflexivity. Qed.
Example parse_errors : map example_view
  [["--name"]; ["--=x"]; ["---v"]; ["--other"]; ["--v=maybe"]; ["--every=3"]; ["-help"]; ["-h=1"]] =
  [Err 2; Err 2; Err 2; Err 2; Err 2; Err 2; Err 0; Err 0].
Proof. vm_compute. reflexivity. Qed.

(** * Lemmas *)
Definition same_kind (v w : flag_value) : Prop :=
  match v, w with
  | FString _, FString _ | FBool _, FBool _ | FDuration _, FDuration _ => True
  | FCustom f _, FCustom g _ => f = g
  | _, _ => False
  end.
Lemma same_kind_refl v : same_kind v v.
Proof. by destruct v. Qed.
Lemma same_kind_trans u v w : same_kind u v → same_kind v w → same_kind u w.
Proof. destruct u, v, w; cbn; intros; subst; done. Qed.
#[export] Hint Resolve same_kind_refl : core.

Definition typed_as (formal fs : flags) : Prop := ∀ name, option_Forall2 same_kind (formal !! name) (fs !! name).
Lemma typed_refl formal : typed_as formal formal.
Proof. intros name. destruct (formal !! name); by constructor. Qed.
Lemma set_flag_typed formal name v s fs :
  formal !! name = Some v → set_flag formal name v s = Ok fs → typed_as formal fs.
Proof.
  unfold set_flag. intros Hv. destruct (Set_value v s) as [w|] eqn:Hs; [|done]. intros [= <-] n.
  destruct (decide (n = name)) as [->|Hne]; [|rewrite lookup_insert_ne by done; apply typed_refl].
  rewrite Hv, lookup_insert_eq. constructor. destruct v; cbn in Hs.
  - by injection Hs as <-.
  - destruct (ParseBool s); cbn in Hs; [by injection Hs as <-|done].
  - destruct (ParseDuration s); cbn in Hs; [by injection Hs as <-|done].
  - destruct (accepts s); [by injection Hs as <-|done].
Qed.
Lemma typed_trans f g h : typed_as f g → typed_as g h → typed_as f h.
Proof.
  intros Hfg Hgh name. specialize (Hfg name). specialize (Hgh name).
  destruct Hfg; inversion Hgh; subst; constructor. by eapply same_kind_trans.
Qed.

Definition outcome_of (formal : flags) (r : result nat flags) : Prop :=
  match r with Ok fs => typed_as formal fs | Err code => code = 0 ∨ code = 2 end.
Lemma set_then formal name v s (k : flags → result nat flags) :
  formal !! name = Some v → (∀ fs, outcome_of fs (k fs)) →
  outcome_of formal (let* fs := set_flag formal name v s in k fs).
Proof.
  intros Hv Hk. destruct (set_flag formal name v s) as [fs|code] eqn:Hset; cbn.
  - apply set_flag_typed in Hset; [|done]. specialize (Hk fs). destruct (k fs); [|done]. by eapply typed_trans.
  - right. unfold set_flag in Hset. destruct (Set_value v s); [done|by injection Hset as <-].
Qed.
Lemma Parse_outcome n args formal : length args ≤ n → outcome_of formal (Parse formal args).
Proof.
  revert args formal. induction n as [|n IH]; intros [|a rest] formal Hlen; cbn in Hlen; try lia; try apply typed_refl.
  cbn [Parse]. destruct (token_of a) as [| | |name value]; try apply typed_refl; [by right|].
  destruct (formal !! name) as [v|] eqn:Hv; [|by destruct (bool_decide _); [left|right]].
  destruct (is_bool_flag v), value as [s|]; [| | |destruct rest as [|s rest]; [by right|]];
    apply set_then; try done; intros fs; apply IH; cbn in Hlen; lia.
Qed.

(** A command's configuration is complete and typed.  Whatever the arguments, parsing
    ends either with one of the two exit codes of the flag package (0 for a request for help,
    2 for an error) or with a value of its own kind for exactly the flags that were defined:
    no argument adds a flag, drops one, or gives a string where the command reads a boolean,
    a duration or one of a library's values. *)
Lemma flags_well_typed (formal : flags) (args : list string) :
  match Parse formal args with
  | Ok fs => typed_as formal fs ∧ dom fs = dom formal
  | Err code => code = 0 ∨ code = 2
  end.
Proof.
  enough (match Parse formal args with Ok fs => typed_as formal fs | Err code => code = 0 ∨ code = 2 end) as H.
  { destruct (Parse formal args) as [fs|]; [|done]. split; [done|]. apply set_eq. intros name.
    rewrite !elem_of_dom. destruct (H name); split; intros [? ?]; done || by eexists. }
  exact (Parse_outcome _ args formal (le_n _)).
Qed.

(** ** Parsing arguments with unknown parts *)
Lemma Parse_set formal a name s v w rest :
  token_of a = Flag name (Some s) → formal !! name = Some v → Set_value v s = Some w →
  Parse formal (a :: rest) = Parse (<[name := w]> formal) rest.
Proof. intros Ha Hv Hs. cbn [Parse]. rewrite Ha, Hv. unfold set_flag. cbn. rewrite Hs. by destruct (is_bool_flag v). Qed.
Lemma Parse_next formal a name s v w rest :
  token_of a = Flag name None → formal !! name = Some v → is_bool_flag v = false → Set_value v s = Some w →
  Parse formal (a :: s :: rest) = Parse (<[name := w]> formal) rest.
Proof. intros Ha Hv Hb Hs. cbn [Parse]. rewrite Ha, Hv, Hb. unfold set_flag. by rewrite Hs. Qed.
Lemma Parse_switch formal a name b rest :
  token_of a = Flag name None → formal !! name = Some (FBool b) →
  Parse formal (a :: rest) = Parse (<[name := FBool true]> formal) rest.
Proof. intros Ha Hv. cbn [Parse]. by rewrite Ha, Hv. Qed.
(** Simplify a command line that is known but for the values; what a value is set to may be
    a hypothesis. *)
Ltac flag_set := first [eassumption | reflexivity].
Ltac parse_arg :=
  first
    [ erewrite Parse_set; [|reflexivity|reflexivity|flag_set]
    | erewrite Parse_next; [|reflexivity|reflexivity|reflexivity|flag_set]
    | erewrite Parse_switch; [|reflexivity|reflexivity] ].
Ltac parse_args := repeat parse_arg; reflexivity.
Lemma get_string_set fs n s : get_string (<[n := FString s]> fs) n = s.
Proof. unfold get_string. by rewrite lookup_insert_eq. Qed.
Lemma get_bool_set fs n b : get_bool (<[n := FBool b]> fs) n = b.
Proof. unfold get_bool. by rewrite lookup_insert_eq. Qed.
Lemma get_duration_set fs n d : get_duration (<[n := FDuration d]> fs) n = d.
Proof. unfold get_duration. by rewrite lookup_insert_eq. Qed.
Lemma get_string_other fs m n v : m ≠ n → get_string (<[m := v]> fs) n = get_string fs n.
Proof. intros. unfold get_string. by rewrite lookup_insert_ne. Qed.
Lemma get_bool_other fs m n v : m ≠ n → get_bool (<[m := v]> fs) n = get_bool fs n.
Proof. intros. unfold get_bool. by rewrite lookup_insert_ne. Qed.
Lemma get_duration_other fs m n v : m ≠ n → get_duration (<[m := v]> fs) n = get_duration fs n.
Proof. intros. unfold get_duration. by rewrite lookup_insert_ne. Qed.
Ltac read_flags :=
  repeat first
    [ rewrite get_string_set | rewrite get_bool_set | rewrite get_duration_set
    | rewrite get_string_other by discriminate | rewrite get_bool_other by discriminate
    | rewrite get_duration_other by discriminate ].
