(* ===== verification/Commands.v ===== *)
(** * The commands in the pods (cmd/router, cmd/obrefresh, cmd/tor-init)

    Each [main] from its arguments: the code it exits with, or what it goes on to run.  What
    the operator writes into the containers' arguments configures them as intended. *)

From Stdlib Require Import ZArith.
From S2P Require Import Prelude Monad GoStrings GoNet GoOS Onion Keys Torrc KubeTypes Kube Names.
From S2P Require Import Resources ResourcesHA Router Onionbalance Client Policies Workloads TorInit Duration Flags.

(** [os.Exit(code)] after an error. *)
Definition or_exit {E A} (code : nat) (r : result E A) : result nat A := wrap_err (λ _, code) r.

(** ** cmd/router *)
Definition router_flags : flags :=
  {[ "listen" := FString "127.0.0.1:9080"; "probe-addr" := FString ":8081";
     "gateway" := FString ""; "namespace" := FString "" ]}.
(** The two listeners' addresses and the handler of the first. *)
Record Serving := { sv_addr : string; sv_probe : string; sv_config : Config; sv_handler : Proxy }.
Definition router_main {E} (env : Environment E) (args : list string) : result nat Serving :=
  let* fs := Parse router_flags args in
  let name := get_string fs "gateway" in
  let ns := get_string fs "namespace" in
  guard! negb (bool_decide (name = "") || bool_decide (ns = "")) else 2;;
  let cfg := {| GatewayName := name; GatewayNamespace := ns; RestConfig := None; Resolve := None |} in
  let* handler := or_exit 1 (New cfg env) in
  Ok {| sv_addr := get_string fs "listen"; sv_probe := get_string fs "probe-addr"; sv_config := cfg;
        sv_handler := handler |}.

(** ** cmd/obrefresh *)
Definition healthcheckFile : string := "/run/obrefresh/last-success".
Definition obrefresh_flags : flags :=
  {[ "gateway" := FString ""; "namespace" := FString ""; "gateway-uid" := FString "";
     "config" := FString "/etc/onionbalance/config.yaml";
     "pidfile" := FString "/run/onionbalance/onionbalance.pid";
     "interval" := FDuration (30 * second);
     "master-address" := FString ""; "master-key-path" := FString "/etc/onionbalance/keys/hs_ed25519_secret_key";
     "healthcheck" := FBool false ]}.
(** Exit 0 of a passed check, or the refresher that runs. *)
Inductive obrefresh := Healthy | Refreshing (cfg : RefresherConfig).
Section obrefresh_main.
Context `{UnicodeCase}.
(** [rest.InClusterConfig], [kubernetes.NewForConfig], the check file's time and the clock. *)
Context {E : Type} (InClusterConfig NewForConfig : result E ()) (mtime : option Z) (now : Z).
Definition obrefresh_main (args : list string) : result nat obrefresh :=
  let* fs := Parse obrefresh_flags args in
  if get_bool fs "healthcheck" then
    (if runHealthcheck (get_duration fs "interval") mtime now then Ok Healthy else Err 1)
  else
    let name := get_string fs "gateway" in
    let ns := get_string fs "namespace" in
    let uid := get_string fs "gateway-uid" in
    let addr := get_string fs "master-address" in
    guard! negb (bool_decide (name = "") || bool_decide (ns = "")) else 2;;
    guard! negb (bool_decide (uid = "")) else 2;;
    guard! negb (bool_decide (addr = "")) else 2;;
    let* _ := or_exit 1 InClusterConfig in
    let* _ := or_exit 1 NewForConfig in
    let addr := if HasSuffix addr ".onion" then addr else addr +:+ ".onion" in
    let* master := or_exit 2 (ParseAddress addr) in
    let* r := or_exit 1 (NewRefresher {|
      rc_GatewayName := name; rc_GatewayNamespace := ns; rc_MasterKeyPath := get_string fs "master-key-path";
      rc_ConfigPath := get_string fs "config"; rc_PIDFile := get_string fs "pidfile";
      rc_Interval := get_duration fs "interval"; rc_Master := master; rc_OwnerUID := uid;
      rc_Client := Some (); rc_HealthcheckFile := healthcheckFile; rc_Recorder := true |}) in
    Ok (Refreshing r).
End obrefresh_main.

(** ** cmd/tor-init *)
Definition tor_init_flags : flags :=
  {[ "src" := FString "/etc/tor-keys"; "dst" := FString "/var/lib/tor/hs"; "client-auth-src" := FString "";
     "ob-master-address" := FString ""; "api-fetch-secret" := FString "";
     "api-fetch-secret-prefix" := FString "" ]}.
Section tor_init_main.
Context `{!OS, !UnicodeCase} {Cfg : Type} (InClusterConfig : result string Cfg).
Context (NewForConfig : Cfg → result string (string → string → result api_error (gmap string bytes))).
Context (range : gmap string bytes → list (string * bytes)) (Getenv : string → string).
Definition tor_init_main (args : list string) : M fsys nat () :=
  let! fs := lift (Parse tor_init_flags args) in
  wrap (λ _, 1)
    (run InClusterConfig NewForConfig range Getenv (get_string fs "src") (get_string fs "dst")
       (get_string fs "client-auth-src") (get_string fs "ob-master-address")
       (get_string fs "api-fetch-secret") (get_string fs "api-fetch-secret-prefix")).
End tor_init_main.

(** * What the operator's arguments configure *)
Lemma negb_empty s t : s ≠ "" → t ≠ "" → negb (bool_decide (s = "") || bool_decide (t = "")) = true.
Proof. intros ? ?. by rewrite !bool_decide_eq_false_2. Qed.

Lemma parsed {A} formal args fs (k : flags → result nat A) :
  Parse formal args = Ok fs → (let* fs := Parse formal args in k fs) = k fs.
Proof. by intros ->. Qed.

(** The address Tor forwards the hidden service's port to. *)
Definition forwarded_to (p : PortMapping) : string := TargetHost p +:+ ":" +:+ Itoa (TargetPort p).
(** Where the kubelet asks for a container's health. *)
Definition probed_at (p : option Probe) : option (string * string) :=
  match p with
  | Some {| p_Handler := HTTPGet path port |} => Some (":" +:+ Itoa port, path)
  | _ => None
  end.

(** C31.  The router sidecar of both modes' pods serves its own Gateway where the rest of the
    pod expects it.  With the arguments the operator gives the container (Mode B leaves the
    addresses to the flags' defaults), the command gets past its own checks and builds the
    router for this Gateway's name and namespace, exiting with 1 exactly when that fails; it
    listens on the very address the pod's torrc forwards the hidden service's port to, and its
    probe listener is on the port the container's liveness and readiness probes ask. *)
Theorem router_serves_gateway {E} (env : Environment E) gw images ob policy auth include c
    (Hname : gw_name gw ≠ "") (Hns : gw_ns gw ≠ "")
    (Hc : c ∈ [router_container gw images; backend_router_container gw images]) :
  let cfg := {| GatewayName := gw_name gw; GatewayNamespace := gw_ns gw; RestConfig := None; Resolve := None |} in
  ∃ probe,
    router_main env (ct_Args c) =
      match New cfg env with
      | Ok handler => Ok {| sv_addr := forwarded_to (HiddenServicePort (torrc_config ob policy auth include));
                            sv_probe := probe; sv_config := cfg; sv_handler := handler |}
      | Err _ => Err 1
      end ∧
    probed_at (ct_LivenessProbe c) = Some (probe, "/healthz") ∧
    probed_at (ct_ReadinessProbe c) = Some (probe, "/healthz").
Proof.
  intros cfg. exists ":8081". apply list_elem_of_In in Hc. destruct Hc as [<-|[<-|[]]];
    (split; [|split; reflexivity]).
  - unfold router_main. erewrite parsed by (cbn [ct_Args router_container]; parse_args).
    read_flags. rewrite negb_empty by done. unfold or_exit. cbn zeta. fold cfg. destruct (New cfg env); reflexivity.
  - unfold router_main. erewrite parsed by (cbn [ct_Args backend_router_container ha_container]; parse_args).
    read_flags. rewrite negb_empty by done. unfold or_exit. cbn zeta. fold cfg. destruct (New cfg env); reflexivity.
Qed.
Lemma router_serves_gateway_witness :
  ∃ sv, router_main example_env (ct_Args (router_container example_gateway example_images)) = Ok sv ∧
    sv_addr sv = "127.0.0.1:9080" ∧ GatewayName (sv_config sv) = gw_name example_gateway.
Proof.
  destruct (router_serves_gateway example_env example_gateway example_images false DefaultPolicy example_auth ""
    (router_container example_gateway example_images) ltac:(discriminate) ltac:(discriminate)
    ltac:(apply list_elem_of_here)) as (probe & Hrun & _).
  rewrite Hrun. eexists. split; [reflexivity|]. by split.
Defined.

(** ** The refresher *)
Lemma onion_suffix a : onion_wf a → HasSuffix (OnionAddress_String a) ".onion" = true ∧ OnionAddress_String a ≠ "".
Proof.
  intros Ha. split; [rewrite OnionAddress_String_wf by done; apply HasSuffix_true; by eexists|].
  pose proof (length_OnionAddress_String a Ha) as Hl. by intros Heq; rewrite Heq in Hl.
Qed.

(** The refresher the operator means to run for a Gateway. *)
Definition refresher_of (gw : Gateway) (pol : OnionBalancePolicy) (master : OnionAddress) : RefresherConfig := {|
  rc_GatewayName := gw_name gw; rc_GatewayNamespace := gw_ns gw;
  rc_MasterKeyPath := "/etc/onionbalance/keys/hs_ed25519_secret_key";
  rc_ConfigPath := "/etc/onionbalance/config/config.yaml";
  rc_PIDFile := "/run/onionbalance/onionbalance.pid";
  rc_Interval := obp_RefreshInterval (obp_Spec pol); rc_Master := master; rc_OwnerUID := UID (gw_meta gw);
  rc_Client := Some (); rc_HealthcheckFile := healthcheckFile; rc_Recorder := true |}.

Section refresher.
Context `{UnicodeCase} {E : Type} (incluster newfor : result E ()) (mtime : option Z) (now : Z).
Context (gw : Gateway) (pol : OnionBalancePolicy) (master : OnionAddress) (images : RuntimeImages).
Context (Hinterval : (5 * second ≤ obp_RefreshInterval (obp_Spec pol) ≤ int64_max)%Z).

Lemma interval_flag :
  Set_value (FDuration (30 * second)) (Duration_String (obp_RefreshInterval (obp_Spec pol))) =
    Some (FDuration (obp_RefreshInterval (obp_Spec pol))).
Proof. cbn [Set_value]. rewrite duration_reads_back; [done|]. unfold int64_min, second in *. lia. Qed.

Lemma refresher_args (Hname : gw_name gw ≠ "") (Hns : gw_ns gw ≠ "") (Huid : UID (gw_meta gw) ≠ "")
    (Hwf : onion_wf master) :
  obrefresh_main incluster newfor mtime now (ct_Args (frontend_obrefresh gw pol master images)) =
    match incluster, newfor with
    | Ok _, Ok _ => Ok (Refreshing (refresher_of gw pol master))
    | _, _ => Err 1
    end.
Proof.
  pose proof interval_flag as Hi. unfold obrefresh_main.
  erewrite parsed by (cbn [ct_Args frontend_obrefresh ha_container]; parse_args). read_flags.
  change (get_bool obrefresh_flags "healthcheck") with false. cbv iota zeta.
  rewrite negb_empty by done. rewrite (bool_decide_eq_false_2 (UID _ = "")) by done.
  pose proof (onion_suffix master Hwf) as [Hsuf Hne]. rewrite Hsuf, bool_decide_eq_false_2 by done. cbn [negb].
  destruct incluster as [[]|]; [|done]. destruct newfor as [[]|]; [|done]. cbn [or_exit wrap_err rbind].
  rewrite ParseAddress_String by done. cbn [or_exit wrap_err rbind].
  unfold NewRefresher. cbn [rc_GatewayName rc_GatewayNamespace rc_ConfigPath rc_PIDFile rc_MasterKeyPath
    rc_Client rc_OwnerUID rc_Master rc_Interval].
  rewrite negb_empty by done. rewrite (bool_decide_eq_false_2 (UID _ = "")) by done.
  rewrite (bool_decide_eq_false_2 (OnionAddress_String _ = "")) by done. cbn [negb orb].
  rewrite (bool_decide_eq_true_2 (is_Some _)) by eauto.
  unfold second in *. rewrite (proj2 (Z.leb_gt _ _)) by lia. rewrite (proj2 (Z.ltb_ge _ _)) by lia. reflexivity.
Qed.

Lemma healthcheck_args :
  obrefresh_main incluster newfor mtime now
    ["--healthcheck"; "--interval=" +:+ Duration_String (obp_RefreshInterval (obp_Spec pol))] =
  if runHealthcheck (obp_RefreshInterval (obp_Spec pol)) mtime now then Ok Healthy else Err 1.
Proof.
  pose proof interval_flag as Hi. unfold obrefresh_main. erewrite parsed by parse_args. by read_flags.
Qed.
End refresher.

(** C28.  The refresher sidecar of the onionbalance frontend gets the configuration the operator
    means it to have: for every interval the policy's validation admits, its arguments parse
    to exactly the refresher of this Gateway (name, namespace and UID, the master's address,
    the interval to the nanosecond), the process otherwise exiting with 1 and only when no
    client can be made; the command its liveness probe runs checks the same interval; and the
    file it writes is the one the onionbalance container is started with. *)
Theorem refresher_configured `{UnicodeCase} {E} (incluster newfor : result E ()) mtime now
    gw pol master images testing
    (Hname : gw_name gw ≠ "") (Hns : gw_ns gw ≠ "") (Huid : UID (gw_meta gw) ≠ "") (Hwf : onion_wf master)
    (Hinterval : (5 * second ≤ obp_RefreshInterval (obp_Spec pol) ≤ int64_max)%Z) :
  let c := frontend_obrefresh gw pol master images in
  obrefresh_main incluster newfor mtime now (ct_Args c) =
    match incluster, newfor with
    | Ok _, Ok _ => Ok (Refreshing (refresher_of gw pol master))
    | _, _ => Err 1
    end ∧
  (∃ probe app args, ct_LivenessProbe c = Some probe ∧ p_Handler probe = Exec (app :: args) ∧
    obrefresh_main incluster newfor mtime now args =
      if runHealthcheck (rc_Interval (refresher_of gw pol master)) mtime now then Ok Healthy else Err 1) ∧
  take 2 (ct_Args (frontend_onionbalance images testing)) = ["-c"; rc_ConfigPath (refresher_of gw pol master)].
Proof.
  intros c. split; [by apply refresher_args|]. split; [|reflexivity].
  eexists _, _, _. split; [reflexivity|]. split; [reflexivity|]. by apply healthcheck_args.
Qed.
Lemma refresher_configured_witness :
  obrefresh_main (E := ()) (Ok ()) (Ok ()) None 0
    (ct_Args (frontend_obrefresh example_gateway example_obp zero_address example_images)) =
  Ok (Refreshing (refresher_of example_gateway example_obp zero_address)).
Proof.
  apply (refresher_configured (E := ()) (Ok ()) (Ok ()) None 0 example_gateway example_obp zero_address example_images false);
    try discriminate; [reflexivity|split; vm_compute; discriminate].
Defined.

(** ** The init containers *)
Section init.
Context `{!OS, !UnicodeCase} {Cfg : Type} (InClusterConfig : result string Cfg).
Context (NewForConfig : Cfg → result string (string → string → result api_error (gmap string bytes))).
Context (range : gmap string bytes → list (string * bytes)) (Getenv : string → string).
Let init_main := tor_init_main InClusterConfig NewForConfig range Getenv.
Let init_run := run InClusterConfig NewForConfig range Getenv.

Lemma tor_init_parsed args fs :
  Parse tor_init_flags args = Ok fs →
  init_main args = wrap (λ _, 1) (init_run (get_string fs "src") (get_string fs "dst")
    (get_string fs "client-auth-src") (get_string fs "ob-master-address")
    (get_string fs "api-fetch-secret") (get_string fs "api-fetch-secret-prefix")).
Proof. unfold init_main, tor_init_main. by intros ->. Qed.

(** The three init containers run the command as intended.  In a Mode A pod it copies the
    mounted key Secret into the HiddenServiceDir of the torrc, with the client authorization
    mount exactly when client authorization is enabled; in a backend pod it fetches the
    Secret of the pod's ordinal and writes the master's address; in the frontend pod it
    fetches the policy's master Secret, from the Gateway's namespace unless the policy names
    another, into the directory of the key path the refresher is given. *)
Theorem init_containers_run gw policy auth include pol master images :
  let dir := HiddenServiceDir (torrc_config false policy auth include) in
  let ref := obp_MasterKeySecretRef (obp_Spec pol) in
  let ns := if bool_decide (mk_Namespace ref = "") then gw_ns gw else mk_Namespace ref in
  init_main (ct_Args (tor_init_container auth images)) =
    wrap (λ _, 1) (init_run keysMountPath dir (if auth_Enabled auth then clientAuthMountPath else "") "" "" "") ∧
  init_main (ct_Args (backend_init_container gw master images)) =
    wrap (λ _, 1) (init_run "" dir "" (OnionAddress_String master) "" (gw_name gw +:+ "-backend-")) ∧
  ∃ keys, init_main (ct_Args (masterFetch gw pol images)) =
      wrap (λ _, 1) (init_run "" keys "" "" (ns +:+ "/" +:+ mk_Name ref) "") ∧
    path_Join keys FileSecretKeyName = rc_MasterKeyPath (refresher_of gw pol master).
Proof.
  intros dir ref ns. split_and!.
  - cbn [ct_Args tor_init_container]. unfold initContainerArgs. destruct (auth_Enabled auth); cbn [app];
      erewrite tor_init_parsed by parse_args; by read_flags.
  - cbn [ct_Args backend_init_container ha_container]. erewrite tor_init_parsed by parse_args. by read_flags.
  - exists "/etc/onionbalance/keys". split; [|by vm_compute].
    cbn [ct_Args masterFetch]. erewrite tor_init_parsed by parse_args. by read_flags.
Qed.
End init.
