(* ===== verification/Finalize.v ===== *)
(** * The end of a vanity search (cmd/vanity-finalize)

    The Job's second container puts the keys mkp224o found into the Secret the operator made
    for them; the next reconcile takes them from there. *)

From Stdlib Require Import ZArith.
From S2P Require Import Prelude Monad GoStrings GoNet GoOS Onion Keys KubeTypes Kube Names Status Policies.
From S2P Require Import HTTPRouteCtl Resources Workloads Client Harvest GatewayCtl GatewayProps HarvestProps.
From S2P Require Import Duration Flags Commands.

Inductive finalize_error :=
| ErrReadDir (e : io_error)
| ErrNoOnionDir (workdir : string)
| ErrReadKey (f : string) (e : io_error).

(** ** keys.go *)
Section keys.
Context `{OS}.
Definition keyFiles : list string := ["hs_ed25519_secret_key"; "hs_ed25519_public_key"; "hostname"].
(** [e.IsDir()] is about the entry itself, not what a link leads to. *)
Definition entry_is_dir (fs : fsys) (dir name : string) : bool :=
  match Lstat fs (elems dir ++ [name]) with Ok n => bool_decide (n_kind n = KDir) | Err _ => false end.
Definition onionSubdir (fs : fsys) (workdir : string) : result finalize_error string :=
  let* entries := wrap_err ErrReadDir (ReadDir fs workdir) in
  match List.find (λ name, entry_is_dir fs workdir name && HasSuffix name ".onion") entries with
  | Some name => Ok (path_Join workdir name)
  | None => Err (ErrNoOnionDir workdir)
  end.
Fixpoint read_files (fs : fsys) (dir : string) (names : list string) (out : gmap string bytes)
  : result finalize_error (gmap string bytes) :=
  match names with
  | [] => Ok out
  | f :: names =>
      let* b := wrap_err (ErrReadKey f) (ReadFile fs (path_Join dir f)) in
      read_files fs dir names (<[f := b]> out)
  end.
Definition readKeyFiles (fs : fsys) (workdir : string) : result finalize_error (gmap string bytes) :=
  let* dir := onionSubdir fs workdir in
  read_files fs dir keyFiles ∅.
End keys.

(** ** main.go *)
Definition finalize_flags : flags :=
  {[ "workdir" := FString "/workdir"; "namespace" := FString ""; "secret-name" := FString "" ]}.
(** The data read is copied over the Secret's own. *)
Definition add_data (data : gmap string bytes) (sec : Secret) : Secret := {|
  sec_meta := sec_meta sec; sec_Type := sec_Type sec; sec_Data := data ∪ sec_Data sec |}.
Section finalize_main.
Context `{OS} {S : Type} `{!Client S} (fs : fsys).
(** [ctrl.GetConfigOrDie] and [client.New]. *)
Context {E : Type} (GetConfigOrDie new_client : result E ()).
Definition finalize_main (args : list string) : M S nat () :=
  let! flags := lift (Parse finalize_flags args) in
  let ns := get_string flags "namespace" in
  let name := get_string flags "secret-name" in
  if bool_decide (ns = "") || bool_decide (name = "") then throw 2
  else
    let! data := lift (or_exit 1 (readKeyFiles fs (get_string flags "workdir"))) in
    do! lift (or_exit 1 GetConfigOrDie) in
    do! lift (or_exit 1 new_client) in
    let! sec := gets (λ s, or_exit 1 (kget (T := Secret) s {| nn_Namespace := ns; nn_Name := name |})) in
    do! wrap (λ _, 1) (kupdate (add_data data sec)) in ret ().
End finalize_main.

(** * From the search to the key *)

(** ** Writes of the in-memory cluster *)
Lemma mem_apply_total {T} `{Kind T} (x : T) f c :
  (∀ cur, key (f cur) = key cur) → (mem_apply x f c).2 = Ok ().
Proof.
  intros Hf. unfold mem_apply. destruct (mem_get c (key x)) as [cur|e] eqn:Hg.
  - by rewrite bool_decide_eq_true_2.
  - assert (e = NotFound) as -> by (unfold mem_get in Hg; destruct (_ ≫= _); congruence).
    rewrite bool_decide_eq_true_2 by done. unfold mem_create. by rewrite Hf, Hg.
Qed.
Lemma mem_get_put_ne {T} `{Kind T} k k' kind x c :
  kind_name (T := T) ≠ kind ∨ k ≠ k' → mem_get (T := T) (put (kind, k') x c) k = mem_get c k.
Proof. intros Hne. unfold mem_get, put. cbn. rewrite lookup_insert_ne; [done|]. intros [= ? ?]. by destruct Hne. Qed.
Lemma mem_get_drop {T} `{Kind T} k c :
  mem_get (T := T) (drop_object (kind_name (T := T), k) c) k = Err NotFound.
Proof. unfold mem_get, drop_object. cbn. by rewrite lookup_delete_eq. Qed.
Lemma mem_get_drop_ne {T} `{Kind T} k k' kind c :
  kind_name (T := T) ≠ kind ∨ k ≠ k' → mem_get (T := T) (drop_object (kind, k') c) k = mem_get c k.
Proof. intros Hne. unfold mem_get, drop_object. cbn. rewrite lookup_delete_ne; [done|]. intros [= ? ?]. by destruct Hne. Qed.

Lemma update_secret (c : Cluster) k (old x : Secret) :
  kget c k = Ok old → key x = k → kupdate x c = (put ("Secret", k) (ASecret x) c, Ok x).
Proof.
  intros Hold Hk. change (mem_write with_status_of x c = (put ("Secret", k) (ASecret x) c, Ok x)).
  unfold mem_write. rewrite Hk. change (mem_get (T := Secret) c k = Ok old) in Hold. by rewrite Hold.
Qed.
Definition succeeds {S E} (m : M S E ()) : Prop := ∀ s, (m s).2 = Ok ().
Lemma succeeds_bind {S E} (m k : M S E ()) : succeeds m → succeeds k → succeeds (do! m in k).
Proof. intros Hm Hk s. unfold bind. specialize (Hm s). destruct (m s) as [s' [[]|]]; [apply Hk|done]. Qed.
Lemma succeeds_lift {S E A} (r : result E A) a (k : A → M S E ()) :
  r = Ok a → succeeds (k a) → succeeds (let! x := lift r in k x).
Proof. by intros ->. Qed.
Lemma succeeds_apply {T} `{Kind T} (x : T) f :
  (∀ cur, key (f cur) = key cur) → succeeds (api (mem_apply x f)).
Proof.
  intros Hf c. unfold api, wrap. pose proof (mem_apply_total x f c Hf) as Ht.
  destruct (mem_apply x f c) as [c' r]. cbn in *. by subst.
Qed.
Lemma vanity_rbac_frame gw c :
  ∃ c', ensureVanityRBAC gw c = (c', Ok ()) ∧
    ∀ kind k, kind ∈ ["Secret"; "Job"] → objects c' !! (kind, k) = objects c !! (kind, k).
Proof.
  destruct (ensureVanityRBAC gw c) as [c' r] eqn:Hrun. exists c'. split.
  - f_equal. assert ((ensureVanityRBAC gw c).2 = Ok ()) as Hok; [|by rewrite Hrun in Hok].
    apply (succeeds_lift _ _ _ eq_refl), succeeds_bind; [by apply succeeds_apply|].
    apply (succeeds_lift _ _ _ eq_refl), succeeds_bind; [by apply succeeds_apply|].
    apply (succeeds_lift _ _ _ eq_refl). by apply succeeds_apply.
  - intros kind k Hkind. set (P := λ d, objects d !! (kind, k) = objects c !! (kind, k)).
    assert (kind ≠ "ServiceAccount" ∧ kind ≠ "Role" ∧ kind ≠ "RoleBinding") as (H1 & H2 & H3)
      by (set_solver).
    assert (keeps_any P ServiceAccount) by (apply (mem_keeps (λ o, o = _)); intros Heq; by destruct H1).
    assert (keeps_any P Role) by (apply (mem_keeps (λ o, o = _)); intros Heq; by destruct H2).
    assert (keeps_any P RoleBinding) by (apply (mem_keeps (λ o, o = _)); intros Heq; by destruct H3).
    assert (keeps P (ensureVanityRBAC gw)) as Hk.
    { unfold ensureVanityRBAC, ensureHAServiceAccount, ensureHARole, ensureHARoleBinding. keeps. }
    specialize (Hk c eq_refl). by rewrite Hrun in Hk.
Qed.

(** ** The Secret after the Job *)
Lemma parsed_lift {S A} formal args fs (k : flags → M S nat A) :
  Parse formal args = Ok fs → (let! fs := lift (Parse formal args) in k fs) = k fs.
Proof. by intros ->. Qed.

Section end_to_end.
Context `{OS} (fs : fsys).
Context (r : GatewayReconciler) (quantity_zero : string → bool) (gw : Gateway) (prefix : string).

Lemma read_key_files dir s p h :
  onionSubdir fs workdir = Ok dir →
  ReadFile fs (path_Join dir FileSecretKeyName) = Ok s →
  ReadFile fs (path_Join dir FilePublicKeyName) = Ok p →
  ReadFile fs (path_Join dir FileHostnameName) = Ok h →
  readKeyFiles fs workdir =
    Ok (<[FileHostnameName := h]> (<[FilePublicKeyName := p]> {[ FileSecretKeyName := s ]})).
Proof.
  intros Hdir Hs Hp Hh. unfold readKeyFiles. rewrite Hdir. cbn [rbind].
  change keyFiles with [FileSecretKeyName; FilePublicKeyName; FileHostnameName].
  cbn [read_files]. rewrite Hs. cbn [wrap_err rbind]. rewrite Hp. cbn [wrap_err rbind]. rewrite Hh. done.
Qed.
Lemma finalize_run (c : Cluster) j fc data out :
  VanityJob quantity_zero (vanity_job_config r gw prefix) = Ok j →
  fc ∈ pod_Containers (pt_Spec (js_Template (job_Spec j))) →
  readKeyFiles fs workdir = Ok data →
  kget c (out_key gw) = Ok out → key out = out_key gw → gw_ns gw ≠ "" →
  finalize_main fs (E := ()) (Ok ()) (Ok ()) (ct_Args fc) c =
    (put ("Secret", out_key gw) (ASecret (add_data data out)) c, Ok ()).
Proof.
  intros Hj Hfc Hdata Hout Hkey Hns. unfold VanityJob in Hj. invert_ok. subst j. cbn in Hfc.
  apply list_elem_of_singleton in Hfc as ->. cbn [ct_Args]. unfold finalize_main.
  rewrite (parsed_lift _ _ (<["secret-name" := FString (VanityOutSecretName (gw_name gw))]>
    (<["namespace" := FString (gw_ns gw)]> (<["workdir" := FString workdir]> finalize_flags)))) by parse_args.
  read_flags. rewrite (bool_decide_eq_false_2 (gw_ns gw = "")) by done.
  rewrite bool_decide_eq_false_2 by (unfold VanityOutSecretName; by destruct (gw_name gw)). cbn [orb].
  rewrite Hdata. unfold bind, lift, gets, wrap, or_exit. cbn [wrap_err].
  change {| nn_Namespace := gw_ns gw; nn_Name := VanityOutSecretName (gw_name gw) |} with (out_key gw).
  rewrite Hout. cbn [wrap_err]. by rewrite (update_secret c (out_key gw) out).
Qed.

Lemma clear_failed_frame (c : Cluster) kind k :
  kind ≠ "Gateway" → objects (clearVanityFailed gw c).1 !! (kind, k) = objects c !! (kind, k).
Proof.
  intros Hkind. set (P := λ d, objects d !! (kind, k) = objects c !! (kind, k)).
  assert (keeps_any P Gateway) by (apply (mem_keeps (λ o, o = _)); intros Heq; by destruct Hkind).
  assert (keeps P (clearVanityFailed gw)) as Hk by (unfold clearVanityFailed; keeps).
  exact (Hk c eq_refl).
Qed.
Lemma key_secret_stored kp :
  ∃ sec, BuildKeySecret gw kp = Ok sec ∧ key sec = keys_key gw ∧ sec_Data sec = key_files kp ∧
    sec_Data (stamp sec) = key_files kp.
Proof. eexists. by split. Qed.

(** The promotion of a harvested key, on a cluster that holds the Secret, the Job and no key. *)
Lemma promote_run (c : Cluster) (out : Secret) (job : Job) kp :
  files_of out = Ok kp → key out = out_key gw → key job = job_key gw →
  kget (T := Secret) c (keys_key gw) = Err NotFound →
  kget (T := Secret) c (out_key gw) = Ok out → kget (T := Job) c (job_key gw) = Ok job →
  ∃ c' gw' sec (stored : Secret), promoteVanityKey gw out job c = (c', Ok (gw', KeyReady sec kp)) ∧
    kget c' (keys_key gw) = Ok stored ∧ sec_Data stored = key_files kp ∧
    kget (T := Secret) c' (out_key gw) = Err NotFound ∧ kget (T := Job) c' (job_key gw) = Err NotFound.
Proof.
  intros Hfiles Hok Hjk Hnone Hout Hjob.
  destruct (key_secret_stored kp) as (sec & Hsec & Hkey & Hdata & Hstored).
  assert (keys_key gw ≠ out_key gw) as Hne by (intros [= Heq%str_app_inj_l]; discriminate Heq).
  change (mem_get (T := Secret) c (keys_key gw) = Err NotFound) in Hnone.
  change (mem_get (T := Secret) c (out_key gw) = Ok out) in Hout.
  change (mem_get (T := Job) c (job_key gw) = Ok job) in Hjob.
  set (c1 := put ("Secret", keys_key gw) (ASecret (stamp sec)) c).
  set (c2 := drop_object ("Secret", out_key gw) c1). set (c3 := drop_object ("Job", job_key gw) c2).
  assert (promoteVanityKey gw out job c =
    ((clearVanityFailed gw c3).1,
     Ok (match (clearVanityFailed gw c3).2 with Ok gw => gw | Err _ => without_failed gw end, KeyReady sec kp))) as Hrun.
  { assert (api (kcreate sec) c = (c1, Ok ())) as Hcreate.
    { change (wrap ErrApi (mem_create sec) c = (c1, Ok ())). unfold wrap, mem_create. by rewrite Hkey, Hnone. }
    assert (mem_delete (T := Secret) (out_key gw) c1 = (c2, Ok ())) as Hdel.
    { unfold mem_delete. change "Secret" with (kind_name (T := Secret)).
      unfold c1. by rewrite mem_get_put_ne, Hout by (right; by intros Heq). }
    assert (deleteVanityJob job c2 = (c3, Ok ())) as Hdelj.
    { change (deleteVanityJob job) with (api (ignore_not_found (mem_delete (T := Job) (key job)))).
      unfold api, wrap, ignore_not_found, mem_delete, c2, c1. rewrite Hjk.
      by rewrite mem_get_drop_ne, mem_get_put_ne, Hjob by (by left). }
    unfold promoteVanityKey. fold (files_of out). rewrite Hfiles. unfold bind, lift. cbn [wrap_err]. rewrite Hsec.
    rewrite Hcreate. unfold best_effort. change (kdelete (T := Secret) (key out)) with (mem_delete (T := Secret) (key out)).
    rewrite Hok, Hdel. cbn [fst]. rewrite Hdelj. cbn [fst]. unfold try. by destruct (clearVanityFailed gw c3). }
  rewrite Hrun. eexists _, _, _, (stamp sec). split; [reflexivity|]. split; [|split; [done|]].
  - change (mem_get (T := Secret) (clearVanityFailed gw c3).1 (keys_key gw) = Ok (stamp sec)).
    unfold mem_get. rewrite clear_failed_frame by done. fold (mem_get (T := Secret) c3 (keys_key gw)).
    unfold c3, c2. rewrite mem_get_drop_ne by (by left). rewrite mem_get_drop_ne by (by right). unfold c1.
    exact (mem_get_put (T := Secret) (keys_key gw) (stamp sec) c).
  - split.
    + change (mem_get (T := Secret) (clearVanityFailed gw c3).1 (out_key gw) = Err NotFound).
      unfold mem_get. rewrite clear_failed_frame by done. fold (mem_get (T := Secret) c3 (out_key gw)).
      unfold c3. rewrite mem_get_drop_ne by (by left). exact (mem_get_drop (T := Secret) (out_key gw) c1).
    + change (mem_get (T := Job) (clearVanityFailed gw c3).1 (job_key gw) = Err NotFound).
      unfold mem_get. rewrite clear_failed_frame by done. fold (mem_get (T := Job) c3 (job_key gw)).
      exact (mem_get_drop (T := Job) (job_key gw) c2).
Qed.

(** A reconcile that finds a populated Secret and the Job for the prefix. *)
Lemma harvest_run (c : Cluster) (out : Secret) (job : Job) kp :
  default "" (failed_prefix gw) ≠ prefix →
  default "" (Labels (job_meta job) !! vanityPrefixLabel) = prefix →
  files_of out = Ok kp → key out = out_key gw → key job = job_key gw →
  mem_get (T := Secret) c (keys_key gw) = Err NotFound →
  mem_get (T := Secret) c (out_key gw) = Ok out → mem_get (T := Job) c (job_key gw) = Ok job →
  ∃ c' gw' sec (stored : Secret), runVanityHarvest r quantity_zero gw prefix c = (c', Ok (gw', KeyReady sec kp)) ∧
    kget c' (keys_key gw) = Ok stored ∧ sec_Data stored = key_files kp ∧
    kget (T := Secret) c' (out_key gw) = Err NotFound ∧ kget (T := Job) c' (job_key gw) = Err NotFound.
Proof.
  intros Hfailed Hlabel Hfiles Hok Hjk Hnone Hout Hjob.
  destruct (vanity_rbac_frame gw c) as (c2 & Hrbac & Hframe).
  assert (∀ k, mem_get (T := Secret) c2 k = mem_get c k) as Hsecrets.
  { intros k. unfold mem_get. by rewrite Hframe by (apply list_elem_of_here). }
  assert (∀ k, mem_get (T := Job) c2 k = mem_get c k) as Hjobs.
  { intros k. unfold mem_get. by rewrite Hframe by (apply list_elem_of_further, list_elem_of_here). }
  rewrite <- Hsecrets in Hnone, Hout. rewrite <- Hjobs in Hjob.
  assert (vanityOutPopulated out = true) as Hpop.
  { apply ParseFiles_Ok in Hfiles as ((Hpl & Hel & _) & Hs & Hp). unfold vanityOutPopulated.
    rewrite Hs, Hp, length_SecretKeyFile, length_PublicKeyFile, Hpl, Hel. done. }
  destruct (promote_run c2 out job kp Hfiles Hok Hjk Hnone Hout Hjob) as (c3 & gw' & sec & stored & Hrun & Hpost).
  exists c3, gw', sec, stored. split; [|exact Hpost].
  unfold runVanityHarvest. rewrite bool_decide_eq_false_2 by done. unfold bind at 1. rewrite Hrbac.
  assert (ensureVanityOutSecret gw c2 = (c2, Ok ())) as Hsame.
  { unfold ensureVanityOutSecret, bind. rewrite (proj2 (find_Ok (T := Secret) (out_key gw) c2 c2 (Some out))) by done. done. }
  unfold bind at 1. rewrite Hsame. unfold bind at 1.
  rewrite (proj2 (find_Ok (T := Job) (job_key gw) c2 c2 (Some job))) by done.
  rewrite bool_decide_eq_true_2 by done. cbn [negb]. unfold bind, read, gets.
  change (kget (T := Secret) c2 (out_key gw)) with (mem_get (T := Secret) c2 (out_key gw)). rewrite Hout.
  cbn [wrap_err]. by rewrite Hpop.
Qed.

(** C22.  A finished search becomes the Gateway's key.  Let the Job the operator makes for a prefix
    have found a key: its working directory holds one [.onion] directory with a well-formed
    secret and public key file and a host name.  Then the container that ends the Job, run with
    the arguments the operator gave it, exits with 0 having put the files into the Secret made
    for them; and the next reconcile, unless the search had been given up, ends with that very
    key: the two files found, byte for byte, are in the Gateway's key Secret with the address
    they give, and both the Secret they came in and the Job are gone. *)
Theorem search_to_key (c : Cluster) j fc dir s p h kp (out : Secret) (job : Job)
    (Hj : VanityJob quantity_zero (vanity_job_config r gw prefix) = Ok j)
    (Hfc : fc ∈ pod_Containers (pt_Spec (js_Template (job_Spec j))))
    (Hdir : onionSubdir fs workdir = Ok dir)
    (Hs : ReadFile fs (path_Join dir FileSecretKeyName) = Ok s)
    (Hp : ReadFile fs (path_Join dir FilePublicKeyName) = Ok p)
    (Hh : ReadFile fs (path_Join dir FileHostnameName) = Ok h)
    (Hkp : ParseFiles s p = Ok kp)
    (Hout : kget c (out_key gw) = Ok out) (Hok : key out = out_key gw)
    (Hjob : kget c (job_key gw) = Ok job) (Hjk : key job = job_key gw)
    (Hlabel : default "" (Labels (job_meta job) !! vanityPrefixLabel) = prefix)
    (Hnone : kget (T := Secret) c (keys_key gw) = Err NotFound)
    (Hfailed : default "" (failed_prefix gw) ≠ prefix) :
  ∃ c1, finalize_main fs (E := ()) (Ok ()) (Ok ()) (ct_Args fc) c = (c1, Ok ()) ∧
  ∃ c2 gw' sec (stored : Secret), runVanityHarvest r quantity_zero gw prefix c1 = (c2, Ok (gw', KeyReady sec kp)) ∧
    kget c2 (keys_key gw) = Ok stored ∧
    sec_Data stored = {[ FileSecretKeyName := s; FilePublicKeyName := p; FileHostnameName := Hostname kp ]} ∧
    kget (T := Secret) c2 (out_key gw) = Err NotFound ∧ kget (T := Job) c2 (job_key gw) = Err NotFound.
Proof.
  set (data := <[FileHostnameName := h]> (<[FilePublicKeyName := p]> {[ FileSecretKeyName := s ]}) : gmap string bytes).
  assert (gw_ns gw ≠ "") as Hns by (intros Heq; unfold VanityJob in Hj; cbn in Hj; by rewrite Heq, orb_true_r in Hj).
  eexists. split; [eapply (finalize_run c j fc data out); try done; by eapply read_key_files|].
  assert (files_of (add_data data out) = Ok kp) as Hfiles.
  { unfold files_of, add_data. cbn [sec_Data].
    rewrite (lookup_union_Some_l data _ FileSecretKeyName s), (lookup_union_Some_l data _ FilePublicKeyName p) by done.
    exact Hkp. }
  apply ParseFiles_Ok in Hkp as (_ & -> & ->). change {[ FileSecretKeyName := SecretKeyFile kp;
    FilePublicKeyName := PublicKeyFile kp; FileHostnameName := Hostname kp ]} with (key_files kp).
  apply (harvest_run _ (add_data data out) job); try done.
  - rewrite mem_get_put_ne; [done|]. right. intros [= Heq%str_app_inj_l]. discriminate Heq.
  - exact (mem_get_put (T := Secret) (out_key gw) (add_data data out) c).
  - rewrite mem_get_put_ne by (by left). done.
Qed.
End end_to_end.

(** ** Witness *)
Definition found_dir : path := ["workdir"; "abcde.onion"].
Definition found_fs : fsys :=
  {[ ["workdir"] := {| n_kind := KDir; n_mode := 448; n_data := [] |};
     found_dir := {| n_kind := KDir; n_mode := 448; n_data := [] |};
     found_dir ++ [FileSecretKeyName] := {| n_kind := KFile; n_mode := 384; n_data := SecretKeyFile zero_pair |};
     found_dir ++ [FilePublicKeyName] := {| n_kind := KFile; n_mode := 384; n_data := PublicKeyFile zero_pair |};
     found_dir ++ [FileHostnameName] := {| n_kind := KFile; n_mode := 384; n_data := Hostname zero_pair |} ]}.
Definition waiting_out : Secret := {|
  sec_meta := new_meta (VanityOutSecretName "onion") "tor" ∅; sec_Type := "Opaque"; sec_Data := ∅ |}.
Definition waiting : Cluster := cluster [obj example_gateway; obj waiting_out; obj old_job].
Definition search_config : VanityJobConfig := vanity_job_config example_reconciler example_gateway "a".
Lemma search_to_key_witness :
  ∃ j fc c1, VanityJob (λ _, false) search_config = Ok j ∧ fc ∈ pod_Containers (pt_Spec (js_Template (job_Spec j))) ∧
    finalize_main found_fs (E := ()) (Ok ()) (Ok ()) (ct_Args fc) waiting = (c1, Ok ()) ∧
    outcome_key (runVanityHarvest example_reconciler (λ _, false) example_gateway "a" c1).2 = Some zero_pair.
Proof.
  assert (∃ j fc, VanityJob (λ _, false) search_config = Ok j ∧ fc ∈ pod_Containers (pt_Spec (js_Template (job_Spec j))))
    as (j & fc & Hj & Hin) by (eexists _, _; split; [reflexivity|apply list_elem_of_here]).
  destruct (search_to_key found_fs example_reconciler (λ _, false) example_gateway "a" waiting j fc
    "/workdir/abcde.onion" (SecretKeyFile zero_pair) (PublicKeyFile zero_pair) (Hostname zero_pair) zero_pair
    waiting_out old_job Hj Hin) as (c1 & Hfin & c2 & gw' & sec & stored & Hrun & _);
    [vm_compute; reflexivity .. | discriminate|].
  exists j, fc, c1. split; [exact Hj|]. split; [exact Hin|]. split; [exact Hfin|]. by rewrite Hrun.
Defined.
