(* ===== verification/Manager.v ===== *)
(** * The operator's command (cmd/manager/main.go)

    [manager_main] from the arguments to the reconciler's settings and the options of the
    manager it runs in, or the code it exits with.  The flags of the logging library, the
    manager and the registration of the controllers are parameters. *)

From Stdlib Require Import Ascii NArith ZArith.
From S2P Require Import Prelude Monad GoStrings GoNet GoOS KubeTypes Kube Resources NetPol Client.
From S2P Require Import Duration Flags Commands Finalize.

(** ** net.ParseCIDR

    Whether the text is an address, without a zone, and the length of a prefix of it. *)
Definition prefix_length (s : string) (bits : N) : bool :=
  negb (bool_decide (s = "")) &&
  match all_digits 0 s with Some n => (n <=? bits)%N | None => false end.
Definition ParseCIDR (s : string) : option (list N * N) :=
  '(addr, mask) ← cut_first "/" s;
  ip ← ParseIP addr;
  n ← all_digits 0 mask;
  if prefix_length mask (8 * N.of_nat (length ip)) then Some (ip, n) else None.
Example parse_cidrs : map (λ s, bool_decide (is_Some (ParseCIDR s)))
  ["10.0.0.0/8"; "fd00::/64"; "10.0.0.0"; "10.0.0.0/33"; "10.0.0.0/"; "fe80::1%eth0/64"; "::1/128"; "/8"; "10.0.0.0/8/8"] =
  [true; true; false; false; false; false; true; false; false].
Proof. vm_compute. reflexivity. Qed.

(** ** Flags *)
Definition manager_own_flags : flags :=
  list_to_map [("metrics-bind-address", FString "0"); ("health-probe-bind-address", FString ":8081");
     ("leader-elect", FBool false); ("metrics-secure", FBool true);
     ("webhook-cert-path", FString ""); ("webhook-cert-name", FString "tls.crt");
     ("webhook-cert-key", FString "tls.key"); ("metrics-cert-path", FString "");
     ("metrics-cert-name", FString "tls.crt"); ("metrics-cert-key", FString "tls.key");
     ("enable-http2", FBool false);
     ("tor-image", FString "ghcr.io/chimbosonic/tor:0.4.9");
     ("router-image", FString "ghcr.io/chimbosonic/tor-gateway-router:dev");
     ("tor-init-image", FString "ghcr.io/chimbosonic/tor-gateway-tor-init:dev");
     ("mkp224o-image", FString "ghcr.io/chimbosonic/mkp224o:dev");
     ("vanity-finalize-image", FString "ghcr.io/chimbosonic/tor-gateway-vanity-finalize:dev");
     ("vanity-active-deadline", FDuration hour);
     ("onionbalance-image", FString ""); ("obrefresh-image", FString "");
     ("tor-pod-network-policy-enabled", FBool true); ("cluster-pod-cidrs", FString "");
     ("testing-tor-network-file", FString ""); ("testing-tor-network-namespace", FString "")].

(** ** The servers' options *)
Record Certificates := { CertDir : string; CertName : string; KeyName : string }.
(** The protocols a TLS option leaves: all, or HTTP/1.1 alone. *)
Record ServerOptions := {
  BindAddress : string; SecureServing : bool; http1_only : bool; authorized : bool;
  certificates : option Certificates }.
Record ManagerOptions := {
  mo_Metrics : ServerOptions; mo_WebhookHTTP1Only : bool; mo_WebhookCertificates : option Certificates;
  mo_HealthProbeBindAddress : string; mo_LeaderElection : bool; mo_LeaderElectionID : string }.
Definition certs_of (fs : flags) (server : string) : option Certificates :=
  if (0 <? String.length (get_string fs (server +:+ "-cert-path")))%nat
  then Some {| CertDir := get_string fs (server +:+ "-cert-path"); CertName := get_string fs (server +:+ "-cert-name");
               KeyName := get_string fs (server +:+ "-cert-key") |}
  else None.
Definition manager_options (fs : flags) : ManagerOptions := {|
  mo_Metrics := {| BindAddress := get_string fs "metrics-bind-address";
                   SecureServing := get_bool fs "metrics-secure";
                   http1_only := negb (get_bool fs "enable-http2");
                   authorized := get_bool fs "metrics-secure"; certificates := certs_of fs "metrics" |};
  mo_WebhookHTTP1Only := negb (get_bool fs "enable-http2");
  mo_WebhookCertificates := certs_of fs "webhook";
  mo_HealthProbeBindAddress := get_string fs "health-probe-bind-address";
  mo_LeaderElection := get_bool fs "leader-elect"; mo_LeaderElectionID := "6a89356d.torgateway.io" |}.

(** ** main *)
(** [if err := f(); err != nil { os.Exit(1) }], one after the other. *)
Fixpoint first_error {E} (l : list (result E ())) : result E () :=
  match l with [] => Ok () | r :: l => let* _ := r in first_error l end.
Section manager.
Context `{!OS, !UnicodeCase}.

(** The loop over the CIDRs: each trimmed and checked, in order. *)
Fixpoint parse_cidr_list (l : list string) : result nat (list string) :=
  match l with
  | [] => Ok []
  | c :: l =>
      let c := TrimSpace c in
      guard! bool_decide (is_Some (ParseCIDR c)) else 2;;
      let* cs := parse_cidr_list l in
      Ok (c :: cs)
  end.
Definition cluster_cidrs (raw : string) : result nat (list string) :=
  if bool_decide (raw = "") then Ok [] else parse_cidr_list (split_on "," raw).
Definition network_include (fs : fsys) (file : string) : result nat string :=
  if bool_decide (file = "") then Ok ""
  else let* content := or_exit 1 (ReadFile fs file) in Ok (string_of_bytes content).

Definition runtime_images (fs : flags) : RuntimeImages := {|
  img_Tor := get_string fs "tor-image"; img_Router := get_string fs "router-image";
  img_TorInit := get_string fs "tor-init-image"; img_Mkp224o := get_string fs "mkp224o-image";
  img_VanityFinalize := get_string fs "vanity-finalize-image"; img_Operator := "";
  img_Onionbalance := get_string fs "onionbalance-image"; img_Obrefresh := get_string fs "obrefresh-image" |}.

(** [zap.Options.BindFlags]; [ctrl.GetConfigOrDie] and [ctrl.NewManager]; the six controllers'
    SetupWithManager and the two checks, in the order they are made; [mgr.Start]. *)
Context {E : Type} (zap : flags) (new_manager : ManagerOptions → result E ())
        (setups : list (result E ())) (start : result E ()).
Definition manager_settings (files : fsys) (args : list string)
  : result nat (GatewayReconciler * ManagerOptions) :=
  let* fs := Parse (manager_own_flags ∪ zap) args in
  guard! negb (bool_decide (get_string fs "tor-image" = "") || bool_decide (get_string fs "tor-init-image" = ""))
    else 2;;
  let* cidrs := cluster_cidrs (get_string fs "cluster-pod-cidrs") in
  let* include := network_include files (get_string fs "testing-tor-network-file") in
  Ok ({| Images := runtime_images fs; Recorder := true;
         VanityDeadline := get_duration fs "vanity-active-deadline";
         TorPodNetworkPolicyEnabled := get_bool fs "tor-pod-network-policy-enabled";
         ClusterPodCIDRs := cidrs; TestingNetworkInclude := include;
         TestingNetworkNamespace := get_string fs "testing-tor-network-namespace" |},
      manager_options fs).
Definition manager_main (files : fsys) (args : list string) : result nat GatewayReconciler :=
  let* settings := manager_settings files args in
  let* _ := or_exit 1 (new_manager settings.2) in
  let* _ := or_exit 1 (first_error setups) in
  let* _ := or_exit 1 start in
  Ok settings.1.
End manager.

(** * What the operator starts with *)
Section settings.
Context `{!OS, !UnicodeCase}.

Lemma parse_cidr_list_spec l :
  match parse_cidr_list l with
  | Ok cs => cs = map TrimSpace l ∧ Forall (λ c, is_Some (ParseCIDR c)) cs
  | Err code => code = 2 ∧ Exists (λ c, ParseCIDR (TrimSpace c) = None) l
  end.
Proof.
  induction l as [|c l IH]; cbn [parse_cidr_list]; [by split|]. cbn zeta.
  destruct (ParseCIDR (TrimSpace c)) as [net|] eqn:Hc; [|split; [done|by left]].
  rewrite bool_decide_eq_true_2 by eauto. destruct (parse_cidr_list l) as [cs|code]; cbn [rbind].
  - destruct IH as [-> Hcs]. split; [done|]. constructor; [by eexists|done].
  - destruct IH as [-> Hex]. split; [done|by right].
Qed.

Context {E : Type} (zap : flags) (new_manager : ManagerOptions → result E ())
        (setups : list (result E ())) (start : result E ()).

(** C32.  What the operator runs with has been checked.  When the command gets as far as running the
    manager, the reconciler has images for Tor and its init container, and the networks its
    policies except are the comma-separated entries of the flag, trimmed, each a CIDR; the
    servers speak HTTP/2 only when asked to, and metrics served over HTTPS ask for
    authorization.  An entry that is not a CIDR ends the command with code 2 before a manager
    is made, whatever else would follow. *)
Theorem manager_settings_checked files args fs (Hparse : Parse (manager_own_flags ∪ zap) args = Ok fs) :
  let raw := get_string fs "cluster-pod-cidrs" in
  (∀ r, manager_main zap new_manager setups start files args = Ok r →
     img_Tor (Images r) ≠ "" ∧ img_TorInit (Images r) ≠ "" ∧
     ClusterPodCIDRs r = (if bool_decide (raw = "") then [] else map TrimSpace (split_on "," raw)) ∧
     Forall (λ c, is_Some (ParseCIDR c)) (ClusterPodCIDRs r) ∧
     (∃ opts, manager_settings zap files args = Ok (r, opts) ∧
        http1_only (mo_Metrics opts) = negb (get_bool fs "enable-http2") ∧
        mo_WebhookHTTP1Only opts = negb (get_bool fs "enable-http2") ∧
        authorized (mo_Metrics opts) = SecureServing (mo_Metrics opts))) ∧
  (raw ≠ "" → Exists (λ c, ParseCIDR (TrimSpace c) = None) (split_on "," raw) →
     manager_main zap new_manager setups start files args = Err 2).
Proof.
  intros raw. pose proof (parse_cidr_list_spec (split_on "," raw)) as Hspec. split.
  - intros r Hr. unfold manager_main in Hr. apply rbind_Ok in Hr as ([r' opts] & Hset & Hr).
    apply rbind_Ok in Hr as (_ & _ & Hr). apply rbind_Ok in Hr as (_ & _ & Hr). apply rbind_Ok in Hr as (_ & _ & Hr).
    injection Hr as ->. pose proof Hset as Hfacts. unfold manager_settings in Hfacts. rewrite Hparse in Hfacts.
    cbn [rbind] in Hfacts. invert_ok. bools. subst r opts.
    fold raw in H2. unfold cluster_cidrs in H2. cbn [Images ClusterPodCIDRs img_Tor img_TorInit runtime_images].
    assert (x = (if bool_decide (raw = "") then [] else map TrimSpace (split_on "," raw)) ∧
            Forall (λ c, is_Some (ParseCIDR c)) x) as [Hx Hvalid].
    { destruct (bool_decide (raw = "")); [by injection H2 as <-|]. by rewrite H2 in Hspec. }
    split_and!; [done|done|done|done|]. exists (manager_options fs). by split.
  - intros Hraw Hbad. unfold manager_main, manager_settings. rewrite Hparse. cbn [rbind].
    destruct (negb _); [|done]. unfold cluster_cidrs. fold raw. rewrite bool_decide_eq_false_2 by done.
    destruct (parse_cidr_list _) as [cs|code]; [|by destruct Hspec as [-> _]].
    destruct Hspec as [-> Hall]. exfalso. rewrite Forall_fmap in Hall. apply Exists_exists in Hbad as (c & Hc & Hnone).
    rewrite Forall_forall in Hall. destruct (Hall c Hc) as [net Hnet]. cbn in Hnet. congruence.
Qed.
End settings.

Definition bad_args : list string := ["--cluster-pod-cidrs"; "10.0.0.0/8, 10.0.0.300/8"].
Lemma get_string_ok (r : result nat flags) k v :
  match r with Ok fs => Some (get_string fs k) | Err _ => None end = Some v → ∃ fs, r = Ok fs ∧ get_string fs k = v.
Proof. destruct r as [fs|]; [|done]. intros [= <-]. by exists fs. Qed.
Lemma bad_args_parse : ∃ fs, Parse (manager_own_flags ∪ ∅) bad_args = Ok fs ∧
  get_string fs "cluster-pod-cidrs" = "10.0.0.0/8, 10.0.0.300/8".
Proof. apply get_string_ok. vm_compute. reflexivity. Qed.
Lemma manager_settings_checked_witness :
  manager_main (E := ()) ∅ (λ _, Ok ()) [] (Ok ()) ∅ bad_args = Err 2.
Proof.
  destruct bad_args_parse as (fs & Hparse & Hraw).
  apply (proj2 (manager_settings_checked (E := ()) ∅ (λ _, Ok ()) [] (Ok ()) ∅ bad_args fs Hparse)); rewrite Hraw; [discriminate|].
  right. left. vm_compute. reflexivity.
Defined.

(** Every command's configuration is complete and typed.  Whatever arguments one of the five
    commands is given, parsing them ends either with an exit code of the flag package (0 for a
    request for help, 2 for an error) or with a value of its own kind for exactly the flags the
    command defines: no argument adds a flag, drops one, or leaves a string where the command
    reads a boolean, a duration or a value of the logging library. *)
Theorem configuration_typed (zap : flags) (args : list string) :
  Forall (λ formal, match Parse formal args with
                    | Ok fs => typed_as formal fs ∧ dom fs = dom formal
                    | Err code => code = 0 ∨ code = 2
                    end)
    [router_flags; obrefresh_flags; tor_init_flags; finalize_flags; manager_own_flags ∪ zap].
Proof. repeat constructor; apply flags_well_typed. Qed.
